(** * Scheduling, budgeting and caching core of the Cycles OpenCL device

    A shallow embedding of the host-side logic of
    [intern/cycles/device/device_opencl.cpp]: the process-wide
    [OpenCLCache], the program loader of [OpenCLDeviceBase], and the memory
    budget, tile splitter and wavefront dispatch loop of
    [OpenCLDeviceSplitKernel]; further the kernel launches and the device
    memory of [OpenCLDeviceBase], the task loop of
    [OpenCLDeviceMegaKernel], and the enumeration of the devices with the
    choice of the device class.

    Machine integers are values of [Z] with the wrap-around of their C++
    type written out: [int] and [cl_int] are 32-bit two's complement,
    [unsigned int] is 32-bit, [size_t] is 64-bit.  Integer division is the
    truncating division of C++ ([Z.quot]).  Where the source can divide by
    zero, store outside a vector or wait for a lock, the model returns
    [None]; loops that need not terminate take a bound on their
    iterations and return [None] when it is reached. *)

From Stdlib Require Import ZArith Lia List Bool String DecimalString.
From stdpp Require Import base tactics option list gmap.

Local Open Scope Z_scope.

(** ** Machine integers *)

Module CInt.

(** Value of a mathematical integer once stored in an [int]. *)
Definition to_int (z : Z) : Z := (z + 2 ^ 31) mod 2 ^ 32 - 2 ^ 31.

(** Value of a mathematical integer once stored in an [unsigned int]. *)
Definition to_uint (z : Z) : Z := z mod 2 ^ 32.

(** Value of a mathematical integer once stored in a [size_t]. *)
Definition to_size (z : Z) : Z := z mod 2 ^ 64.

Definition is_int (z : Z) : Prop := - 2 ^ 31 <= z < 2 ^ 31.
Definition is_uint (z : Z) : Prop := 0 <= z < 2 ^ 32.
Definition is_size (z : Z) : Prop := 0 <= z < 2 ^ 64.

Definition int_add (a b : Z) : Z := to_int (a + b).
Definition int_sub (a b : Z) : Z := to_int (a - b).
Definition int_mul (a b : Z) : Z := to_int (a * b).
Definition int_div (a b : Z) : Z := to_int (Z.quot a b).

Definition uint_add (a b : Z) : Z := to_uint (a + b).
Definition uint_sub (a b : Z) : Z := to_uint (a - b).
Definition uint_mul (a b : Z) : Z := to_uint (a * b).
Definition uint_div (a b : Z) : Z := Z.quot a b.

Definition size_add (a b : Z) : Z := to_size (a + b).
Definition size_sub (a b : Z) : Z := to_size (a - b).
Definition size_mul (a b : Z) : Z := to_size (a * b).
Definition size_div (a b : Z) : Z := Z.quot a b.
Definition size_mod (a b : Z) : Z := Z.rem a b.

End CInt.

Export CInt.

(** ** Constants of the split kernel *)

Definition SPLIT_KERNEL_LOCAL_SIZE_X : Z := 64.
Definition SPLIT_KERNEL_LOCAL_SIZE_Y : Z := 1.
Definition PATH_ITER_INC_FACTOR : Z := 8.
Definition DATA_ALLOCATION_MEM_FACTOR : Z := 5000000.

(** [int2] of util_types. *)
Record int2 : Type := make_int2 { i2x : Z; i2y : Z }.

(** The recurring expression [(((d - 1) / L) + 1) * L] evaluated in [int]. *)
Definition ceil_round_int (d L : Z) : Z :=
  int_mul (int_add (int_div (int_sub d 1) L) 1) L.

(** The same expression where [d] is [unsigned int] and [L] an [int]
    literal: the arithmetic is done in [unsigned int]. *)
Definition ceil_round_uint (d L : Z) : Z :=
  uint_mul (uint_add (uint_div (uint_sub d 1) L) 1) L.

(** The same expression where [d] is [cl_int] and [L] is [size_t]:
    [d - 1] is computed in [int] and converted to [size_t]. *)
Definition ceil_round_size (d L : Z) : Z :=
  size_mul (size_add (size_div (to_size (int_sub d 1)) L) 1) L.

(** The expression [(d / L) * L] evaluated in [int]. *)
Definition floor_round_int (d L : Z) : Z := int_mul (int_div d L) L.

(** ** The process-wide cache of contexts and programs *)

Module Cache.

(** Platform and device identifiers and the handles of contexts and
    programs are pointers: [NULL] is 0. *)
Definition NULL : Z := 0.

(** [Slot]: [mutex_created] tells whether [mutex] is not [NULL], [locked]
    whether that mutex is held. *)
Record Slot : Type := make_Slot {
  mutex_created : bool;
  locked : bool;
  context : Z;
  ocl_dev_base_program : Z;
  ocl_dev_megakernel_program : Z
}.

(** [Slot()]. *)
Definition empty_Slot : Slot := make_Slot false false NULL NULL NULL.

(** The pointers to members [&Slot::context], [&Slot::ocl_dev_base_program]
    and [&Slot::ocl_dev_megakernel_program]. *)
Inductive SlotMember : Type :=
| member_context
| member_ocl_dev_base_program
| member_ocl_dev_megakernel_program.

#[global] Instance SlotMember_eq_dec : EqDecision SlotMember.
Proof. solve_decision. Defined.

Inductive ProgramName : Type :=
| OCL_DEV_BASE_PROGRAM
| OCL_DEV_MEGAKERNEL_PROGRAM.

(** [slot.*member]. *)
Definition slot_member (member : SlotMember) (slot : Slot) : Z :=
  match member with
  | member_context => context slot
  | member_ocl_dev_base_program => ocl_dev_base_program slot
  | member_ocl_dev_megakernel_program => ocl_dev_megakernel_program slot
  end.

(** [slot.*member = thing]. *)
Definition set_slot_member (member : SlotMember) (thing : Z) (slot : Slot) : Slot :=
  match member with
  | member_context =>
      make_Slot (mutex_created slot) (locked slot) thing
                (ocl_dev_base_program slot) (ocl_dev_megakernel_program slot)
  | member_ocl_dev_base_program =>
      make_Slot (mutex_created slot) (locked slot) (context slot)
                thing (ocl_dev_megakernel_program slot)
  | member_ocl_dev_megakernel_program =>
      make_Slot (mutex_created slot) (locked slot) (context slot)
                (ocl_dev_base_program slot) thing
  end.

Definition set_locked (b : bool) (slot : Slot) : Slot :=
  make_Slot true b (context slot) (ocl_dev_base_program slot)
            (ocl_dev_megakernel_program slot).

(** The cache map, keyed by the platform and device identifiers, and the
    reference counts the OpenCL runtime keeps for the handles. *)
Record OpenCLCache : Type := make_OpenCLCache {
  cache : gmap (Z * Z) Slot;
  refs : gmap Z Z
}.

Definition ref_count (self : OpenCLCache) (handle : Z) : Z :=
  default 0 (refs self !! handle).

(** [clRetainContext], [clRetainProgram]. *)
Definition clRetain (handle : Z) (self : OpenCLCache) : OpenCLCache :=
  make_OpenCLCache (cache self) (<[handle := ref_count self handle + 1]> (refs self)).

(** [clReleaseContext], [clReleaseProgram]. *)
Definition clRelease (handle : Z) (self : OpenCLCache) : OpenCLCache :=
  make_OpenCLCache (cache self) (<[handle := ref_count self handle - 1]> (refs self)).

(** The calls below return [None] when an assertion fails in a build
    without [NDEBUG], when the caller has to wait for the slot lock, when
    a store finds no slot for the key and when it stores without holding
    the slot lock; otherwise the value returned and the cache after the
    call.  With [NDEBUG] the assertions are compiled out. *)
Definition get_something (NDEBUG : bool) (platform device : Z) (member : SlotMember)
    (self : OpenCLCache) : option (Z * OpenCLCache) :=
  if negb NDEBUG && (platform =? NULL) then None
  else
    let key := (platform, device) in
    (* [insert] leaves a slot that is present as it is *)
    let slot := default empty_Slot (cache self !! key) in
    if mutex_created slot && locked slot then None
    else if slot_member member slot =? NULL then
      (* return with the caller holding the slot lock *)
      Some (NULL, make_OpenCLCache (<[key := set_locked true slot]> (cache self)) (refs self))
    else
      Some (slot_member member slot,
            make_OpenCLCache (<[key := set_locked false slot]> (cache self)) (refs self)).

Definition store_something (NDEBUG : bool) (platform device thing : Z)
    (member : SlotMember) (self : OpenCLCache) : option OpenCLCache :=
  if negb NDEBUG && ((platform =? NULL) || (device =? NULL) || (thing =? NULL)) then None
  else
    match cache self !! (platform, device) with
    | None => None
    | Some slot =>
        (* sanity check *)
        if negb NDEBUG && negb (slot_member member slot =? NULL) then None
        else if negb (locked slot) then None
        else
          Some (make_OpenCLCache
                  (<[(platform, device) := set_locked false (set_slot_member member thing slot)]>
                     (cache self))
                  (refs self))
    end.

Definition get_context (NDEBUG : bool) (platform device : Z) (self : OpenCLCache)
  : option (Z * OpenCLCache) :=
  match get_something NDEBUG platform device member_context self with
  | None => None
  | Some (context, self') =>
      if context =? NULL then Some (NULL, self')
      else Some (context, clRetain context self')
  end.

Definition program_member (program_name : ProgramName) : SlotMember :=
  match program_name with
  | OCL_DEV_BASE_PROGRAM => member_ocl_dev_base_program
  | OCL_DEV_MEGAKERNEL_PROGRAM => member_ocl_dev_megakernel_program
  end.

Definition get_program (NDEBUG : bool) (platform device : Z) (program_name : ProgramName)
    (self : OpenCLCache) : option (Z * OpenCLCache) :=
  match get_something NDEBUG platform device (program_member program_name) self with
  | None => None
  | Some (program, self') =>
      if program =? NULL then Some (NULL, self')
      else Some (program, clRetain program self')
  end.

Definition store_context (NDEBUG : bool) (platform device context : Z)
    (self : OpenCLCache) : option OpenCLCache :=
  match store_something NDEBUG platform device context member_context self with
  | None => None
  | Some self' => Some (clRetain context self')
  end.

Definition store_program (NDEBUG : bool) (platform device program : Z)
    (program_name : ProgramName) (self : OpenCLCache) : option OpenCLCache :=
  match store_something NDEBUG platform device program (program_member program_name) self with
  | None => None
  | Some self' => Some (clRetain program self')
  end.

(** The releases [flush] makes for one slot. *)
Definition release_slot (slot : Slot) (self : OpenCLCache) : OpenCLCache :=
  let self :=
    if ocl_dev_base_program slot =? NULL then self
    else clRelease (ocl_dev_base_program slot) self in
  let self :=
    if ocl_dev_megakernel_program slot =? NULL then self
    else clRelease (ocl_dev_megakernel_program slot) self in
  if context slot =? NULL then self else clRelease (context slot) self.

Definition flush (self : OpenCLCache) : OpenCLCache :=
  let released :=
    fold_left (fun acc item => release_slot (snd item) acc) (map_to_list (cache self)) self in
  make_OpenCLCache ∅ (refs released).

(** A caller that got [NULL] from a lookup and gives up without storing:
    the destructor of its [thread_scoped_lock] unlocks the slot. *)
Definition abandon (platform device : Z) (self : OpenCLCache) : option OpenCLCache :=
  match cache self !! (platform, device) with
  | Some slot =>
      if locked slot
      then Some (make_OpenCLCache (<[(platform, device) := set_locked false slot]> (cache self))
                                  (refs self))
      else None
  | None => None
  end.

(** The operations on the cache. *)
Inductive Operation : Type :=
| op_get_context (platform device : Z)
| op_get_program (platform device : Z) (program_name : ProgramName)
| op_store_context (platform device context : Z)
| op_store_program (platform device program : Z) (program_name : ProgramName)
| op_abandon (platform device : Z)
| op_flush.

Definition is_flush (op : Operation) : bool :=
  match op with op_flush => true | _ => false end.

Definition run (NDEBUG : bool) (op : Operation) (self : OpenCLCache)
  : option OpenCLCache :=
  match op with
  | op_get_context p d => snd <$> get_context NDEBUG p d self
  | op_get_program p d n => snd <$> get_program NDEBUG p d n self
  | op_store_context p d c => store_context NDEBUG p d c self
  | op_store_program p d c n => store_program NDEBUG p d c n self
  | op_abandon p d => abandon p d self
  | op_flush => Some (flush self)
  end.

Fixpoint run_all (NDEBUG : bool) (ops : list Operation) (self : OpenCLCache)
  : option OpenCLCache :=
  match ops with
  | [] => Some self
  | op :: ops' =>
      match run NDEBUG op self with
      | Some self' => run_all NDEBUG ops' self'
      | None => None
      end
  end.

(** The content of a slot member, [NULL] for a key without a slot. *)
Definition cached (self : OpenCLCache) (platform device : Z) (member : SlotMember) : Z :=
  match cache self !! (platform, device) with
  | Some slot => slot_member member slot
  | None => NULL
  end.

(** The public lookup and store of a member. *)
Definition get_member (NDEBUG : bool) (member : SlotMember) (platform device : Z)
    (self : OpenCLCache) : option (Z * OpenCLCache) :=
  match member with
  | member_context => get_context NDEBUG platform device self
  | member_ocl_dev_base_program =>
      get_program NDEBUG platform device OCL_DEV_BASE_PROGRAM self
  | member_ocl_dev_megakernel_program =>
      get_program NDEBUG platform device OCL_DEV_MEGAKERNEL_PROGRAM self
  end.

Definition store_member (NDEBUG : bool) (member : SlotMember) (platform device thing : Z)
    (self : OpenCLCache) : option OpenCLCache :=
  match member with
  | member_context => store_context NDEBUG platform device thing self
  | member_ocl_dev_base_program =>
      store_program NDEBUG platform device thing OCL_DEV_BASE_PROGRAM self
  | member_ocl_dev_megakernel_program =>
      store_program NDEBUG platform device thing OCL_DEV_MEGAKERNEL_PROGRAM self
  end.

End Cache.

(** ** Loading the kernels of [OpenCLDeviceBase] *)

Module Builder.

Definition CL_SUCCESS : Z := 0.

(** What is written to [error_msg] and to stderr.  The text for an OpenCL
    error code comes from [clewErrorString], outside the sources at hand:
    such a message is represented by its code. *)
Inductive Message : Type :=
| cl_error_message (err : Z)
| text_message (text : string).

(** The functions whose calls the log records. *)
Inductive Function : Type :=
| fn_load_binary
| fn_compile_kernel
| fn_save_binary
| fn_build_kernel.

Inductive Event : Type :=
| ev_call (f : Function)
| ev_return (f : Function) (result : bool)
| ev_path_write_binary (path : string).

(** What the file system and the OpenCL runtime answer during one call of
    [load_kernels]. *)
Record World : Type := make_World {
  version_check : bool;           (* opencl_version_check(), *)
  version_message : string;       (*   and the error it reports when it fails *)
  clbin : string;                 (* the path of the cached binary *)
  clbin_exists : bool;            (* path_exists(clbin) *)
  read_binary_ok : bool;          (* path_read_binary(clbin, binary) *)
  binary_program : Z;             (* clCreateProgramWithBinary: the program, *)
  binary_status : Z;              (*   the binary status *)
  binary_ciErr : Z;               (*   and the error code *)
  binary_build_err : Z;           (* clBuildProgram on the program from the binary *)
  binary_build_log : string;
  source_program : Z;             (* clCreateProgramWithSource: the program *)
  source_ciErr : Z;               (*   and the error code *)
  source_build_err : Z;           (* clBuildProgram on the program from source *)
  source_build_log : string;
  binary_size : Z;                (* CL_PROGRAM_BINARY_SIZES *)
  write_binary_ok : bool;         (* path_write_binary(clbin, binary) *)
  kernel_ciErr : string -> Z      (* clCreateKernel, by kernel name *)
}.

(** The members of the device object [load_kernels] reads and writes.
    [error_msg] is [None] for the empty string. *)
Record Device : Type := make_Device {
  device_initialized : bool;
  cpPlatform : Z;
  cdDevice : Z;
  cpProgram : Z;
  ciErr : Z;
  error_msg : option Message;
  stderr : list Message;
  log : list Event;
  opencl_cache : Cache.OpenCLCache
}.

(** A computation on the device object: [None] when a cache call does not
    return (a failed assertion, a slot lock that is held). *)
Definition M (A : Type) : Type := Device -> option (A * Device).

Definition ret {A : Type} (a : A) : M A := fun dev => Some (a, dev).

Definition bind {A B : Type} (c : M A) (k : A -> M B) : M B :=
  fun dev => match c dev with
             | Some (a, dev') => k a dev'
             | None => None
             end.

Notation "x <- c ;; k" := (bind c (fun x => k))
  (at level 100, c at next level, right associativity).
Notation "c ;;; k" := (bind c (fun _ => k))
  (at level 100, right associativity).

Definition update (f : Device -> Device) : M unit := fun dev => Some (tt, f dev).

(** Assignments to single members. *)
Definition with_stderr (message : Message) (dev : Device) : Device :=
  make_Device (device_initialized dev) (cpPlatform dev) (cdDevice dev) (cpProgram dev)
              (ciErr dev) (error_msg dev) (stderr dev ++ [message]) (log dev)
              (opencl_cache dev).

Definition with_event (e : Event) (dev : Device) : Device :=
  make_Device (device_initialized dev) (cpPlatform dev) (cdDevice dev) (cpProgram dev)
              (ciErr dev) (error_msg dev) (stderr dev) (log dev ++ [e])
              (opencl_cache dev).

Definition with_ciErr (err : Z) (dev : Device) : Device :=
  make_Device (device_initialized dev) (cpPlatform dev) (cdDevice dev) (cpProgram dev)
              err (error_msg dev) (stderr dev) (log dev) (opencl_cache dev).

Definition with_cpProgram (program : Z) (dev : Device) : Device :=
  make_Device (device_initialized dev) (cpPlatform dev) (cdDevice dev) program
              (ciErr dev) (error_msg dev) (stderr dev) (log dev) (opencl_cache dev).

Definition with_opencl_cache (c : Cache.OpenCLCache) (dev : Device) : Device :=
  make_Device (device_initialized dev) (cpPlatform dev) (cdDevice dev) (cpProgram dev)
              (ciErr dev) (error_msg dev) (stderr dev) (log dev) c.

(** [error_msg] is assigned only while it is empty. *)
Definition with_error_msg_if_empty (message : Message) (dev : Device) : Device :=
  make_Device (device_initialized dev) (cpPlatform dev) (cdDevice dev) (cpProgram dev)
              (ciErr dev)
              (match error_msg dev with None => Some message | Some m => Some m end)
              (stderr dev) (log dev) (opencl_cache dev).

Definition fprintf_stderr (message : Message) : M unit := update (with_stderr message).
Definition record (e : Event) : M unit := update (with_event e).
Definition set_ciErr (err : Z) : M unit := update (with_ciErr err).
Definition set_cpProgram (program : Z) : M unit := update (with_cpProgram program).
Definition set_opencl_cache (c : Cache.OpenCLCache) : M unit := update (with_opencl_cache c).
Definition set_error_msg_if_empty (message : Message) : M unit :=
  update (with_error_msg_if_empty message).

(** [bool opencl_error(cl_int err)]. *)
Definition opencl_error_code (err : Z) : M bool :=
  if err =? CL_SUCCESS then ret false
  else
    set_error_msg_if_empty (cl_error_message err) ;;;
    fprintf_stderr (cl_error_message err) ;;;
    ret true.

(** [void opencl_error(const string& message)]. *)
Definition opencl_error (message : string) : M unit :=
  set_error_msg_if_empty (text_message message) ;;;
  fprintf_stderr (text_message message).

Definition build_kernel (err : Z) (build_log : string) : M bool :=
  record (ev_call fn_build_kernel) ;;;
  set_ciErr err ;;;
  (* show warnings even if build is successful *)
  (if String.eqb build_log EmptyString then ret tt
   else fprintf_stderr (text_message "OpenCL kernel build output:"%string) ;;;
        fprintf_stderr (text_message build_log)) ;;;
  if negb (err =? CL_SUCCESS) then
    opencl_error "OpenCL build failed: errors in console"%string ;;;
    record (ev_return fn_build_kernel false) ;;; ret false
  else
    record (ev_return fn_build_kernel true) ;;; ret true.

Definition load_binary (world : World) : M bool :=
  record (ev_call fn_load_binary) ;;;
  (* read binary into memory *)
  if negb (read_binary_ok world) then
    opencl_error (String.append "OpenCL failed to read cached binary "%string (String.append (clbin world) "."%string)) ;;;
    record (ev_return fn_load_binary false) ;;; ret false
  else
    (* create program *)
    set_cpProgram (binary_program world) ;;;
    set_ciErr (binary_ciErr world) ;;;
    failed_status <- opencl_error_code (binary_status world) ;;
    failed <- (if failed_status : bool then ret true
               else opencl_error_code (binary_ciErr world)) ;;
    if failed : bool then
      opencl_error (String.append "OpenCL failed create program from cached binary "%string (String.append (clbin world) "."%string)) ;;;
      record (ev_return fn_load_binary false) ;;; ret false
    else
      built <- build_kernel (binary_build_err world) (binary_build_log world) ;;
      if built : bool then record (ev_return fn_load_binary true) ;;; ret true
      else record (ev_return fn_load_binary false) ;;; ret false.

Definition save_binary (world : World) : M bool :=
  record (ev_call fn_save_binary) ;;;
  if binary_size world =? 0 then
    record (ev_return fn_save_binary false) ;;; ret false
  else
    record (ev_path_write_binary (clbin world)) ;;;
    if negb (write_binary_ok world) then
      opencl_error (String.append "OpenCL failed to write cached binary "%string (String.append (clbin world) "."%string)) ;;;
      record (ev_return fn_save_binary false) ;;; ret false
    else
      record (ev_return fn_save_binary true) ;;; ret true.

Definition compile_kernel (world : World) : M bool :=
  record (ev_call fn_compile_kernel) ;;;
  set_cpProgram (source_program world) ;;;
  set_ciErr (source_ciErr world) ;;;
  failed <- opencl_error_code (source_ciErr world) ;;
  if failed : bool then record (ev_return fn_compile_kernel false) ;;; ret false
  else
    built <- build_kernel (source_build_err world) (source_build_log world) ;;
    if built : bool then record (ev_return fn_compile_kernel true) ;;; ret true
    else record (ev_return fn_compile_kernel false) ;;; ret false.

(** The calls into the cache; the slot lock taken by a lookup that returns
    [NULL] is released when [load_kernels] returns without storing.
    [NDEBUG] tells whether the build defines it. *)
Definition cache_get_program (NDEBUG : bool) : M Z :=
  fun dev =>
    match Cache.get_program NDEBUG (cpPlatform dev) (cdDevice dev)
                            Cache.OCL_DEV_BASE_PROGRAM (opencl_cache dev) with
    | Some (program, c) => (set_opencl_cache c ;;; set_cpProgram program ;;; ret program) dev
    | None => None
    end.

Definition cache_store_program (NDEBUG : bool) : M unit :=
  fun dev =>
    match Cache.store_program NDEBUG (cpPlatform dev) (cdDevice dev) (cpProgram dev)
                              Cache.OCL_DEV_BASE_PROGRAM (opencl_cache dev) with
    | Some c => set_opencl_cache c dev
    | None => None
    end.

Definition cache_locker_released : M unit :=
  fun dev =>
    match Cache.abandon (cpPlatform dev) (cdDevice dev) (opencl_cache dev) with
    | Some c => set_opencl_cache c dev
    | None => None
    end.

Definition create_kernel (world : World) (name : string) : M bool :=
  set_ciErr (kernel_ciErr world name) ;;;
  opencl_error_code (kernel_ciErr world name).

(** The four [clCreateKernel] calls at the end of [load_kernels]. *)
Definition find_kernels (world : World) : M bool :=
  failed <- create_kernel world "kernel_ocl_shader"%string ;;
  if failed : bool then ret false else
  failed <- create_kernel world "kernel_ocl_bake"%string ;;
  if failed : bool then ret false else
  failed <- create_kernel world "kernel_ocl_convert_to_byte"%string ;;
  if failed : bool then ret false else
  failed <- create_kernel world "kernel_ocl_convert_to_half_float"%string ;;
  if failed : bool then ret false else
  ret true.

(** [OpenCLDeviceBase::load_kernels], in a build that defines [NDEBUG] or
    not. *)
Definition load_kernels (NDEBUG : bool) (world : World) : M bool :=
  fun dev =>
  (* verify if device was initialized *)
  if negb (device_initialized dev) then
    (fprintf_stderr (text_message "OpenCL: failed to initialize device."%string) ;;; ret false) dev
  else
    ((* try to use cached kernel *)
     program <- cache_get_program NDEBUG ;;
     if program =? Cache.NULL then
       (* verify we have right opencl version *)
       if negb (version_check world) then
         opencl_error (version_message world) ;;; cache_locker_released ;;; ret false
       else
         (* if exists already, try use it *)
         loaded <- (if clbin_exists world then load_binary world else ret false) ;;
         if loaded : bool then
           (* kernel loaded from binary; cache the program *)
           cache_store_program NDEBUG ;;; find_kernels world
         else
           (* if does not exist or loading binary failed, compile kernel *)
           compiled <- compile_kernel world ;;
           if negb compiled then cache_locker_released ;;; ret false
           else
             (* save binary for reuse *)
             saved <- save_binary world ;;
             if negb saved then cache_locker_released ;;; ret false
             else
               (* cache the program *)
               cache_store_program NDEBUG ;;; find_kernels world
     else find_kernels world) dev.

(** Whether the cached binary, if it is there, loads: it is read, the
    program is created from it and the program builds. *)
Definition binary_loads (world : World) : bool :=
  read_binary_ok world
  && (binary_status world =? CL_SUCCESS)
  && (binary_ciErr world =? CL_SUCCESS)
  && (binary_build_err world =? CL_SUCCESS).

(** Whether compilation from source succeeds. *)
Definition source_compiles (world : World) : bool :=
  (source_ciErr world =? CL_SUCCESS) && (source_build_err world =? CL_SUCCESS).

(** The events the functions add to the log, by what the world answers. *)
Definition build_kernel_events (err : Z) : list Event :=
  [ev_call fn_build_kernel; ev_return fn_build_kernel (err =? CL_SUCCESS)].

Definition load_binary_events (world : World) : list Event :=
  [ev_call fn_load_binary]
  ++ (if read_binary_ok world
         && (binary_status world =? CL_SUCCESS) && (binary_ciErr world =? CL_SUCCESS)
      then build_kernel_events (binary_build_err world) else [])
  ++ [ev_return fn_load_binary (binary_loads world)].

Definition compile_kernel_events (world : World) : list Event :=
  [ev_call fn_compile_kernel]
  ++ (if source_ciErr world =? CL_SUCCESS
      then build_kernel_events (source_build_err world) else [])
  ++ [ev_return fn_compile_kernel (source_compiles world)].

Definition save_binary_events (world : World) : list Event :=
  [ev_call fn_save_binary]
  ++ (if binary_size world =? 0 then [] else [ev_path_write_binary (clbin world)])
  ++ [ev_return fn_save_binary (negb (binary_size world =? 0) && write_binary_ok world)].

Definition artifact_events (world : World) : list Event :=
  (if clbin_exists world then load_binary_events world else [])
  ++ (if clbin_exists world && binary_loads world then []
      else compile_kernel_events world
           ++ (if source_compiles world then save_binary_events world else [])).

End Builder.

(** [RenderTile] is declared in buffers.h, outside the sources at hand; the
    fields are the ones device_opencl.cpp reads and writes.  Integer fields
    are [int]; [buffer], [rng_state] and [buffers] are opaque handles. *)
Record RenderTile : Type := make_RenderTile {
  x : Z; y : Z; w : Z; h : Z;
  start_sample : Z; num_samples : Z; sample : Z; resolution : Z;
  offset : Z; stride : Z;
  tile_size : int2;
  buffer : Z; rng_state : Z; buffers : Z;
  buffer_offset_x : Z; buffer_offset_y : Z;
  rng_state_offset_x : Z; rng_state_offset_y : Z;
  buffer_rng_state_stride : Z
}.

(** ** Memory budget calculator *)

Module Budget.

(** Sizes of the kernel types and the contents of the kernel headers
    (kernel_types.h, kernel_textures.h, kernel_shaderdata_vars.h), none of
    which is part of the sources at hand: taken as parameters. *)
Record KernelSizes : Type := make_KernelSizes {
  sizeof_RNG : Z;
  sizeof_PathRadiance : Z;
  sizeof_Ray : Z;
  sizeof_PathState : Z;
  sizeof_Intersection : Z;
  sizeof_BsdfEval : Z;
  sizeof_ShaderData : Z;
  sizeof_ShaderClosure : Z;
  MAX_CLOSURE : Z;
  NUM_QUEUES : Z;
  kernel_textures : list string;   (* the names listed by KERNEL_TEX *)
  num_SD_VAR : Z                   (* the number of SD_VAR entries *)
}.

Definition sizeof_char : Z := 1.
Definition sizeof_int : Z := 4.
Definition sizeof_unsigned_int : Z := 4.
Definition sizeof_float : Z := 4.
Definition sizeof_pointer : Z := 8.

(** The members of [OpenCLDeviceSplitKernel] the calculator reads.
    [mem_map] is represented by the size of the memory object each name is
    bound to (what [clGetMemObjectInfo] reports for it). *)
Record SplitDevice : Type := make_SplitDevice {
  ks : KernelSizes;
  throughput_size : Z;
  L_transparent_size : Z;
  rayState_size : Z;
  work_element_size : Z;
  ISLamp_size : Z;
  AOAlpha_size : Z;
  AOBSDF_size : Z;
  per_thread_output_buffer_size : Z;
  total_allocatable_memory : Z;
  current_clos_max : Z;
  mem_map : gmap string Z
}.

Definition get_tex_size (dev : SplitDevice) (tex_name : string) : Z :=
  match mem_map dev !! tex_name with
  | Some ret_size => ret_size
  | None => 0
  end.

Definition get_shader_closure_size (dev : SplitDevice) (max_closure : Z) : Z :=
  size_mul (sizeof_ShaderClosure (ks dev)) (to_size max_closure).

Definition get_shader_data_size (dev : SplitDevice) (shader_closure_size : Z) : Z :=
  let shader_data_size :=
    size_sub (sizeof_ShaderData (ks dev))
             (size_mul (sizeof_ShaderClosure (ks dev)) (to_size (MAX_CLOSURE (ks dev)))) in
  size_add shader_data_size shader_closure_size.

(** [sizeof] of a struct holding one pointer per kernel texture and the
    [data] pointer. *)
Definition get_KernelGlobals_size (dev : SplitDevice) : Z :=
  sizeof_pointer * (1 + Z.of_nat (length (kernel_textures (ks dev)))).

(** One pointer per SD_VAR entry; SD_CLOSURE_VAR expands to nothing and the
    statement on the line after its definition runs once. *)
Definition get_shaderdata_soa_size (dev : SplitDevice) : Z :=
  size_add (to_size (num_SD_VAR (ks dev) * sizeof_pointer)) sizeof_pointer.

Definition get_invariable_mem_allocated (dev : SplitDevice) : Z :=
  let total_invariable_mem_allocated := 0 in
  let KernelGlobals_size := get_KernelGlobals_size dev in
  let ShaderData_SOA_size := get_shaderdata_soa_size dev in
  let total_invariable_mem_allocated :=
    size_add total_invariable_mem_allocated KernelGlobals_size in
  let total_invariable_mem_allocated :=
    size_add total_invariable_mem_allocated
             (size_mul (to_size (NUM_QUEUES (ks dev))) sizeof_unsigned_int) in
  let total_invariable_mem_allocated :=
    size_add total_invariable_mem_allocated sizeof_char in
  let total_invariable_mem_allocated :=
    size_add total_invariable_mem_allocated ShaderData_SOA_size in
  let total_invariable_mem_allocated :=
    size_add total_invariable_mem_allocated ShaderData_SOA_size in
  total_invariable_mem_allocated.

(** Compiled with [__WORK_STEALING__] defined, as the file does. *)
Definition get_tile_specific_mem_allocated (dev : SplitDevice) (rtile : RenderTile) : Z :=
  let tile_specific_mem_allocated := 0 in
  let user_set_tile_w := to_uint (i2x (tile_size rtile)) in
  let user_set_tile_h := to_uint (i2y (tile_size rtile)) in
  let max_global_size_0 := ceil_round_uint user_set_tile_w SPLIT_KERNEL_LOCAL_SIZE_X in
  let max_global_size_1 := ceil_round_uint user_set_tile_h SPLIT_KERNEL_LOCAL_SIZE_Y in
  let max_num_work_pools :=
    size_div (size_mul max_global_size_0 max_global_size_1)
             (to_size (int_mul SPLIT_KERNEL_LOCAL_SIZE_X SPLIT_KERNEL_LOCAL_SIZE_Y)) in
  let tile_specific_mem_allocated :=
    size_add tile_specific_mem_allocated (size_mul max_num_work_pools sizeof_unsigned_int) in
  let tile_specific_mem_allocated :=
    size_add tile_specific_mem_allocated
             (size_mul (uint_mul user_set_tile_w user_set_tile_h)
                       (per_thread_output_buffer_size dev)) in
  let tile_specific_mem_allocated :=
    size_add tile_specific_mem_allocated
             (size_mul (uint_mul user_set_tile_w user_set_tile_h) (sizeof_RNG (ks dev))) in
  tile_specific_mem_allocated.

(** [d_data_size] is the size [clGetMemObjectInfo] reports for [d_data]. *)
Definition get_scene_specific_mem_allocated (dev : SplitDevice) (d_data_size : Z) : Z :=
  let scene_specific_mem_allocated :=
    fold_left (fun acc name => size_add acc (get_tex_size dev name))
              (kernel_textures (ks dev)) 0 in
  size_add scene_specific_mem_allocated d_data_size.

Definition get_per_thread_memory (dev : SplitDevice) : Z :=
  let k := ks dev in
  let shader_closure_size := get_shader_closure_size dev (current_clos_max dev) in
  let shaderdata_volume := get_shader_data_size dev shader_closure_size in
  fold_left size_add
    [ throughput_size dev; L_transparent_size dev; rayState_size dev; work_element_size dev;
      ISLamp_size dev; sizeof_PathRadiance k; sizeof_Ray k; sizeof_PathState k;
      sizeof_Intersection k; sizeof_Intersection k; sizeof_Intersection k;
      shaderdata_volume; size_mul shaderdata_volume 2;
      sizeof_Ray k; sizeof_BsdfEval k; AOAlpha_size dev; AOBSDF_size dev; sizeof_Ray k;
      size_mul sizeof_int (to_size (NUM_QUEUES k));
      per_thread_output_buffer_size dev ]
    (sizeof_RNG k).

(** The arithmetic of [get_feasible_global_work_size] on its locals: the
    subtractions and the division are done in [size_t]. *)
Definition available_work_size
    (total invariable_mem_allocated tile_specific_mem_allocated
     scene_specific_mem_allocated per_thread_memory_required : Z) : Z :=
  let available_memory :=
    size_sub (size_sub (size_sub (size_sub total invariable_mem_allocated)
                                 tile_specific_mem_allocated)
                       scene_specific_mem_allocated)
             DATA_ALLOCATION_MEM_FACTOR in
  size_div available_memory per_thread_memory_required.

Definition get_feasible_global_work_size
    (dev : SplitDevice) (rtile : RenderTile) (d_data_size : Z) : Z :=
  let invariable_mem_allocated := get_invariable_mem_allocated dev in
  let tile_specific_mem_allocated := get_tile_specific_mem_allocated dev rtile in
  let scene_specific_mem_allocated := get_scene_specific_mem_allocated dev d_data_size in
  let per_thread_memory_required := get_per_thread_memory dev in
  available_work_size (total_allocatable_memory dev)
    invariable_mem_allocated tile_specific_mem_allocated scene_specific_mem_allocated
    per_thread_memory_required.

End Budget.

(** ** Tile splitter *)

Module Splitter.

(** [(int)sqrt(feasible_global_work_size)]: the argument is converted to
    [double]; for arguments below [2^52] the conversion is exact and the
    truncated correctly-rounded root is the integer square root.  Larger
    arguments, for which the conversion rounds, are not modelled
    faithfully; the statements on the root below bound the argument by
    [2^32]. *)
Definition int_sqrt (f : Z) : Z := to_int (Z.sqrt f).

Definition get_max_render_feasible_tile_size (feasible_global_work_size : Z) : int2 :=
  let square_root_val := int_sqrt feasible_global_work_size in
  let max_x := square_root_val in
  let max_y := square_root_val in
  let ceil_x := ceil_round_int max_x SPLIT_KERNEL_LOCAL_SIZE_X in
  let ceil_y := ceil_round_int max_y SPLIT_KERNEL_LOCAL_SIZE_Y in
  if to_size (int_mul ceil_x ceil_y) <=? feasible_global_work_size
  then make_int2 ceil_x ceil_y
  else make_int2 (floor_round_int max_x SPLIT_KERNEL_LOCAL_SIZE_X)
                 (floor_round_int max_y SPLIT_KERNEL_LOCAL_SIZE_Y).

Definition need_to_split_tile (d_w d_h : Z) (max_render_feasible_tile_size : int2) : bool :=
  let global_size_estimate_0 := ceil_round_uint d_w SPLIT_KERNEL_LOCAL_SIZE_X in
  let global_size_estimate_1 := ceil_round_uint d_h SPLIT_KERNEL_LOCAL_SIZE_Y in
  if to_size (int_mul (i2x max_render_feasible_tile_size) (i2y max_render_feasible_tile_size))
     <? size_mul global_size_estimate_0 global_size_estimate_1
  then true else false.

(** One evaluation of the body of the [while] loop of [get_split_tile_size]. *)
Definition halve_longer (d : int2) : int2 :=
  if i2y d <=? i2x d
  then make_int2 (ceil_round_int (int_div (i2x d) 2) SPLIT_KERNEL_LOCAL_SIZE_X) (i2y d)
  else make_int2 (i2x d) (ceil_round_int (int_div (i2y d) 2) SPLIT_KERNEL_LOCAL_SIZE_Y).

(** The [while] loop, with a bound on the number of iterations: [None]
    when the bound is reached with the loop condition still true. *)
Fixpoint split_loop (fuel : nat) (num_global_threads : Z) (d : int2) : option int2 :=
  if num_global_threads <? int_mul (i2x d) (i2y d) then
    match fuel with
    | O => None
    | S fuel' => split_loop fuel' num_global_threads (halve_longer d)
    end
  else Some d.

Definition get_split_tile_size
    (fuel : nat) (rtile : RenderTile) (max_render_feasible_tile_size : int2) : option int2 :=
  let num_global_threads :=
    int_mul (i2x max_render_feasible_tile_size) (i2y max_render_feasible_tile_size) in
  let d_w := ceil_round_int (w rtile) SPLIT_KERNEL_LOCAL_SIZE_X in
  let d_h := ceil_round_int (h rtile) SPLIT_KERNEL_LOCAL_SIZE_Y in
  split_loop fuel num_global_threads (make_int2 d_w d_h).

(** A [for (int i = 0; i < n; i++)] loop whose body may fail. *)
Fixpoint for_loop {S : Type} (count : nat) (i : Z) (body : Z -> S -> option S) (s : S)
  : option S :=
  match count with
  | O => Some s
  | Datatypes.S count' =>
      match body i s with
      | Some s' => for_loop count' (i + 1) body s'
      | None => None
      end
  end.

Definition for_upto {S : Type} (n : Z) (body : Z -> S -> option S) (s : S) : option S :=
  for_loop (Z.to_nat n) 0 body s.

(** Assignment through [operator[]] of a vector: outside the bounds the
    behaviour is undefined, which the model reports as [None]. *)
Definition vec_store (v : list RenderTile) (index : Z) (t : RenderTile)
  : option (list RenderTile) :=
  if (0 <=? index) && (index <? Z.of_nat (length v))
  then Some (<[Z.to_nat index := t]> v)
  else None.

(** The element the loop body of [split_tiles] leaves at [rtile_index]:
    every field of the element is assigned. *)
Definition sub_tile (rtile : RenderTile) (split_tile_size : int2)
    (d_w d_h num_tiles_x num_tiles_y offset_x offset_y tile_iter_y tile_iter_x : Z)
  : RenderTile :=
  let off_x := to_int (size_add offset_x (to_size (int_mul tile_iter_x (i2x split_tile_size)))) in
  let off_y := to_int (size_add offset_y (to_size (int_mul tile_iter_y (i2y split_tile_size)))) in
  let new_w :=
    if tile_iter_x =? int_sub num_tiles_x 1
    then int_sub d_w (int_mul tile_iter_x (i2x split_tile_size))
    else i2x split_tile_size in
  let new_h :=
    if tile_iter_y =? int_sub num_tiles_y 1
    then int_sub d_h (int_mul tile_iter_y (i2y split_tile_size))
    else i2y split_tile_size in
  {| rng_state_offset_x := off_x;
     rng_state_offset_y := off_y;
     buffer_offset_x := off_x;
     buffer_offset_y := off_y;
     start_sample := start_sample rtile;
     num_samples := num_samples rtile;
     sample := sample rtile;
     resolution := resolution rtile;
     offset := offset rtile;
     tile_size := tile_size rtile;
     buffers := buffers rtile;
     buffer := buffer rtile;
     rng_state := rng_state rtile;
     x := int_add (x rtile) (int_mul tile_iter_x (i2x split_tile_size));
     y := int_add (y rtile) (int_mul tile_iter_y (i2y split_tile_size));
     buffer_rng_state_stride := stride rtile;
     w := new_w;
     h := new_h;
     stride := new_w |}.

(** The value of a default-constructed element of the resized vector; every
    field is overwritten before the vector is returned. *)
Definition default_RenderTile : RenderTile :=
  make_RenderTile 0 0 0 0 0 0 0 0 0 0 (make_int2 0 0) 0 0 0 0 0 0 0 0.

(** [None] stands for undefined behaviour: a division by zero or a store
    outside the vector. *)
Definition split_tiles (rtile : RenderTile) (split_tile_size : int2)
  : option (list RenderTile) :=
  let d_w := w rtile in
  let d_h := h rtile in
  if (i2x split_tile_size =? 0) || (i2y split_tile_size =? 0) || (to_size (stride rtile) =? 0)
  then None
  else
    let num_tiles_x := int_add (int_div (int_sub d_w 1) (i2x split_tile_size)) 1 in
    let num_tiles_y := int_add (int_div (int_sub d_h 1) (i2y split_tile_size)) 1 in
    let offset_index :=
      to_size (int_add (offset rtile)
                       (int_add (x rtile) (int_mul (y rtile) (stride rtile)))) in
    let offset_x := size_mod offset_index (to_size (stride rtile)) in
    let offset_y := size_div offset_index (to_size (stride rtile)) in
    let to_path_trace_rtile :=
      replicate (Z.to_nat (to_size (int_mul num_tiles_x num_tiles_y))) default_RenderTile in
    for_upto num_tiles_y (fun tile_iter_y v =>
      for_upto num_tiles_x (fun tile_iter_x v =>
        let rtile_index := int_add (int_mul tile_iter_y num_tiles_x) tile_iter_x in
        vec_store v rtile_index
          (sub_tile rtile split_tile_size d_w d_h num_tiles_x num_tiles_y
                    offset_x offset_y tile_iter_y tile_iter_x)) v)
      to_path_trace_rtile.

End Splitter.

(** ** The wavefront dispatch loop of [path_trace] *)

Module Pipeline.

Inductive SplitKernel : Type :=
| DataInit
| SceneIntersect
| LampEmission
| QueueEnqueue
| BG_BufferUpdate
| Shader_Lighting
| Holdout_Emission_Blurring_Pathtermination_AO
| DirectLighting
| ShadowBlocked_DirectLighting
| SetUpNextIteration
| SumAllRadiance.

(** The members of the device object the loop reads and writes, the
    device memory the kernels work on, and the log of the calls of
    [clEnqueueNDRangeKernel].  [PathIteration_times] is [unsigned int];
    [hostRayStateArray] maps an index to the [int8_t] stored there. *)
Record PathTraceDevice (Mem : Type) : Type := make_PathTraceDevice {
  PathIteration_times : Z;
  first_tile : bool;
  hostRayStateArray : Z -> Z;
  device_mem : Mem;
  enqueued : list (SplitKernel * (Z * Z))
}.

Arguments make_PathTraceDevice {Mem}.
Arguments PathIteration_times {Mem}.
Arguments first_tile {Mem}.
Arguments hostRayStateArray {Mem}.
Arguments device_mem {Mem}.
Arguments enqueued {Mem}.

(** The locals of [path_trace] during the [while] loop. *)
Record LoopState (Mem : Type) : Type := make_LoopState {
  dev : PathTraceDevice Mem;
  activeRaysAvailable : bool;
  numHostIntervention : Z;
  numNextPathIterTimes : Z
}.

Arguments make_LoopState {Mem}.
Arguments dev {Mem}.
Arguments activeRaysAvailable {Mem}.
Arguments numHostIntervention {Mem}.
Arguments numNextPathIterTimes {Mem}.

(** The global work size of the stages (compiled with [__WORK_STEALING__]). *)
Definition stage_global_size (rtile : RenderTile) : Z * Z :=
  (ceil_round_size (w rtile) SPLIT_KERNEL_LOCAL_SIZE_X,
   ceil_round_size (h rtile) SPLIT_KERNEL_LOCAL_SIZE_Y).

Section Loop.

(** The kernels are opaque programs: [run_kernel] is the effect on the
    device memory of one in-order execution over a global work size, and
    [ray_state] is the content of the ray-state buffer.  [RAY_INACTIVE]
    comes from kernel_types.h. *)
Variable Mem : Type.
Variable run_kernel : SplitKernel -> Z * Z -> Mem -> Mem.
Variable ray_state : Mem -> Z -> Z.
Variable RAY_INACTIVE : Z.

(** [ENQUEUE_SPLIT_KERNEL(kernelName, globalSize, localSize)]. *)
Definition ENQUEUE_SPLIT_KERNEL (kernelName : SplitKernel) (globalSize : Z * Z)
    (d : PathTraceDevice Mem) : PathTraceDevice Mem :=
  {| PathIteration_times := PathIteration_times d;
     first_tile := first_tile d;
     hostRayStateArray := hostRayStateArray d;
     device_mem := run_kernel kernelName globalSize (device_mem d);
     enqueued := enqueued d ++ [(kernelName, globalSize)] |}.

(** One pass of the [for] loop over [PathIter]. *)
Definition path_iteration (global_size : Z * Z) (d : PathTraceDevice Mem)
  : PathTraceDevice Mem :=
  let global_size_shadow_blocked := (size_mul (fst global_size) 2, snd global_size) in
  let d := ENQUEUE_SPLIT_KERNEL SceneIntersect global_size d in
  let d := ENQUEUE_SPLIT_KERNEL LampEmission global_size d in
  let d := ENQUEUE_SPLIT_KERNEL QueueEnqueue global_size d in
  let d := ENQUEUE_SPLIT_KERNEL BG_BufferUpdate global_size d in
  let d := ENQUEUE_SPLIT_KERNEL Shader_Lighting global_size d in
  let d := ENQUEUE_SPLIT_KERNEL Holdout_Emission_Blurring_Pathtermination_AO global_size d in
  let d := ENQUEUE_SPLIT_KERNEL DirectLighting global_size d in
  let d := ENQUEUE_SPLIT_KERNEL ShadowBlocked_DirectLighting global_size_shadow_blocked d in
  ENQUEUE_SPLIT_KERNEL SetUpNextIteration global_size d.

(** The [for] loop: [PathIteration_times] passes. *)
Definition path_iterations (global_size : Z * Z) (d : PathTraceDevice Mem)
  : PathTraceDevice Mem :=
  Nat.iter (Z.to_nat (PathIteration_times d)) (path_iteration global_size) d.

(** The blocking [clEnqueueReadBuffer] of [count] bytes of [ray_state]
    into [hostRayStateArray]. *)
Definition read_ray_state (count : Z) (d : PathTraceDevice Mem) : PathTraceDevice Mem :=
  {| PathIteration_times := PathIteration_times d;
     first_tile := first_tile d;
     hostRayStateArray :=
       (fun i => if (0 <=? i) && (i <? count) then ray_state (device_mem d) i
                 else hostRayStateArray d i);
     device_mem := device_mem d;
     enqueued := enqueued d |}.

(** The scan of the host array, from index [i], over [count] entries: it
    stops at the first entry that is not [RAY_INACTIVE]. *)
Fixpoint scan_ray_state (host : Z -> Z) (i : Z) (count : nat) : bool :=
  match count with
  | O => false
  | S count' =>
      if host i =? RAY_INACTIVE then scan_ray_state host (i + 1) count' else true
  end.

Definition set_PathIteration_times (v : Z) (d : PathTraceDevice Mem) : PathTraceDevice Mem :=
  {| PathIteration_times := v;
     first_tile := first_tile d;
     hostRayStateArray := hostRayStateArray d;
     device_mem := device_mem d;
     enqueued := enqueued d |}.

(** The body of [while (activeRaysAvailable)]. *)
Definition loop_body (global_size : Z * Z) (st : LoopState Mem) : LoopState Mem :=
  let count := size_mul (fst global_size) (snd global_size) in
  let d := path_iterations global_size (dev st) in
  let d := read_ray_state count d in
  if scan_ray_state (hostRayStateArray d) 0 (Z.to_nat count) then
    {| dev := set_PathIteration_times PATH_ITER_INC_FACTOR d;
       activeRaysAvailable := true;
       numHostIntervention := uint_add (numHostIntervention st) 1;
       numNextPathIterTimes := uint_add (numNextPathIterTimes st) PATH_ITER_INC_FACTOR |}
  else
    {| dev := d;
       activeRaysAvailable := false;
       numHostIntervention := numHostIntervention st;
       numNextPathIterTimes := numNextPathIterTimes st |}.

(** The [while] loop with a bound on the number of polls: [None] when the
    bound is reached with rays still active. *)
Fixpoint dispatch_loop (fuel : nat) (global_size : Z * Z) (st : LoopState Mem)
  : option (LoopState Mem) :=
  if activeRaysAvailable st then
    match fuel with
    | O => None
    | S fuel' => dispatch_loop fuel' global_size (loop_body global_size st)
    end
  else Some st.

(** The state in which the loop is entered: the initialisation kernel has
    been enqueued. *)
Definition loop_entry (global_size : Z * Z) (d : PathTraceDevice Mem) : LoopState Mem :=
  {| dev := ENQUEUE_SPLIT_KERNEL DataInit global_size d;
     activeRaysAvailable := true;
     numHostIntervention := 0;
     numNextPathIterTimes := PathIteration_times d |}.

(** What follows the loop: the reduction kernel and the choice of the
    iteration count for the next tile. *)
Definition loop_exit (rtile : RenderTile) (st : LoopState Mem) : PathTraceDevice Mem :=
  let sum_all_radiance_global_size :=
    (ceil_round_size (w rtile) 16, ceil_round_size (h rtile) 16) in
  let d := ENQUEUE_SPLIT_KERNEL SumAllRadiance sum_all_radiance_global_size (dev st) in
  let next :=
    if numHostIntervention st =? 0 then
      if uint_sub (numNextPathIterTimes st) PATH_ITER_INC_FACTOR <=? 0
      then PATH_ITER_INC_FACTOR
      else uint_sub (numNextPathIterTimes st) PATH_ITER_INC_FACTOR
    else numNextPathIterTimes st in
  {| PathIteration_times := next;
     first_tile := false;
     hostRayStateArray := hostRayStateArray d;
     device_mem := device_mem d;
     enqueued := enqueued d |}.

(** [path_trace], from the first enqueued kernel on; buffer allocation and
    the binding of kernel arguments do not bear on the control flow. *)
Definition path_trace (fuel : nat) (rtile : RenderTile) (d : PathTraceDevice Mem)
  : option (PathTraceDevice Mem) :=
  let global_size := stage_global_size rtile in
  match dispatch_loop fuel global_size (loop_entry global_size d) with
  | None => None
  | Some st => Some (loop_exit rtile st)
  end.

End Loop.

End Pipeline.

(** ** Acquiring tiles and deciding whether to split them *)

Module Scheduler.

Import Budget Splitter.

(** What [thread_run] learns about an acquired tile from outside the
    device: the size of the memory object behind [tile.buffer] and the
    viewport size in [tile.buffers->params]. *)
Record AcquiredTile : Type := make_AcquiredTile {
  tile : RenderTile;
  output_buffer_size : Z;
  params_width : Z;
  params_height : Z
}.

(** The locals of [thread_run] that live across the tiles of a task,
    together with the device member it assigns. *)
Record RunState : Type := make_RunState {
  initialize_data_and_check_render_feasibility : bool;
  need_to_split_tiles_further : bool;
  max_render_feasible_tile_size : int2;
  feasible_global_work_size : Z;
  device : SplitDevice
}.

Definition set_per_thread_output_buffer_size (dev : SplitDevice) (v : Z) : SplitDevice :=
  {| ks := ks dev;
     throughput_size := throughput_size dev;
     L_transparent_size := L_transparent_size dev;
     rayState_size := rayState_size dev;
     work_element_size := work_element_size dev;
     ISLamp_size := ISLamp_size dev;
     AOAlpha_size := AOAlpha_size dev;
     AOBSDF_size := AOBSDF_size dev;
     per_thread_output_buffer_size := v;
     total_allocatable_memory := total_allocatable_memory dev;
     current_clos_max := current_clos_max dev;
     mem_map := mem_map dev |}.

(** The four assignments at the head of the loop body. *)
Definition clear_offsets (t : RenderTile) : RenderTile :=
  {| x := x t; y := y t; w := w t; h := h t;
     start_sample := start_sample t; num_samples := num_samples t;
     sample := sample t; resolution := resolution t;
     offset := offset t; stride := stride t; tile_size := tile_size t;
     buffer := buffer t; rng_state := rng_state t; buffers := buffers t;
     buffer_offset_x := 0; buffer_offset_y := 0;
     rng_state_offset_x := 0; rng_state_offset_y := 0;
     buffer_rng_state_stride := buffer_rng_state_stride t |}.

(** [tile.buffer_rng_state_stride = tile.stride]. *)
Definition set_buffer_rng_state_stride (t : RenderTile) : RenderTile :=
  {| x := x t; y := y t; w := w t; h := h t;
     start_sample := start_sample t; num_samples := num_samples t;
     sample := sample t; resolution := resolution t;
     offset := offset t; stride := stride t; tile_size := tile_size t;
     buffer := buffer t; rng_state := rng_state t; buffers := buffers t;
     buffer_offset_x := buffer_offset_x t; buffer_offset_y := buffer_offset_y t;
     rng_state_offset_x := rng_state_offset_x t; rng_state_offset_y := rng_state_offset_y t;
     buffer_rng_state_stride := stride t |}.

(** A call [path_trace(rtile, max_render_feasible_tile_size)]. *)
Record Dispatch : Type := make_Dispatch {
  dispatched_tile : RenderTile;
  dispatched_max : int2
}.

(** The number of work-items of each stage [path_trace] enqueues for a
    tile. *)
Definition work_items (rtile : RenderTile) : Z :=
  size_mul (fst (Pipeline.stage_global_size rtile)) (snd (Pipeline.stage_global_size rtile)).

(** The first pass through the loop body initialises the data and checks
    the feasibility of rendering; [None] is a division by zero. *)
Definition check_render_feasibility
    (background : bool) (d_data_size : Z) (st : RunState) (a : AcquiredTile)
  : option RunState :=
  let t := tile a in
  let divisor :=
    if background then to_size (int_mul (w t) (h t))
    else to_size (int_mul (params_width a) (params_height a)) in
  if divisor =? 0 then None
  else
    let dev := set_per_thread_output_buffer_size (device st)
                 (size_div (output_buffer_size a) divisor) in
    let feasible := get_feasible_global_work_size dev t d_data_size in
    let max_tile := get_max_render_feasible_tile_size feasible in
    let need :=
      need_to_split_tile (to_uint (i2x (tile_size t))) (to_uint (i2y (tile_size t)))
                         max_tile in
    Some {| initialize_data_and_check_render_feasibility := true;
            need_to_split_tiles_further := need;
            max_render_feasible_tile_size := max_tile;
            feasible_global_work_size := feasible;
            device := dev |}.

(** The body of the [while (task->acquire_tile(this, tile))] loop: the
    calls of [path_trace] it makes, in order.  [None] also stands for a
    halving loop that does not stop within [fuel] iterations. *)
Definition render_tile
    (fuel : nat) (background : bool) (d_data_size : Z) (st : RunState) (a : AcquiredTile)
  : option (RunState * list Dispatch) :=
  let t := clear_offsets (tile a) in
  match (if initialize_data_and_check_render_feasibility st then Some st
         else check_render_feasibility background d_data_size st
                (make_AcquiredTile t (output_buffer_size a) (params_width a) (params_height a)))
  with
  | None => None
  | Some st1 =>
      if need_to_split_tiles_further st1 then
        match get_split_tile_size fuel t (max_render_feasible_tile_size st1) with
        | None => None
        | Some split_tile_size =>
            match split_tiles t split_tile_size with
            | None => None
            | Some to_path_trace_render_tiles =>
                Some (st1,
                      map (fun rt => make_Dispatch rt (max_render_feasible_tile_size st1))
                          to_path_trace_render_tiles)
            end
        end
      else
        let max_tile :=
          make_int2 (ceil_round_int (i2x (tile_size t)) SPLIT_KERNEL_LOCAL_SIZE_X)
                    (ceil_round_int (i2y (tile_size t)) SPLIT_KERNEL_LOCAL_SIZE_Y) in
        Some ({| initialize_data_and_check_render_feasibility :=
                   initialize_data_and_check_render_feasibility st1;
                 need_to_split_tiles_further := need_to_split_tiles_further st1;
                 max_render_feasible_tile_size := max_tile;
                 feasible_global_work_size := feasible_global_work_size st1;
                 device := device st1 |},
              [make_Dispatch (set_buffer_rng_state_stride t) max_tile])
  end.

(** The tiles the task hands out, in order. *)
Fixpoint thread_run
    (fuel : nat) (background : bool) (d_data_size : Z) (st : RunState)
    (tiles : list AcquiredTile) : option (list Dispatch) :=
  match tiles with
  | [] => Some []
  | a :: rest =>
      match render_tile fuel background d_data_size st a with
      | None => None
      | Some (st1, ds) =>
          match thread_run fuel background d_data_size st1 rest with
          | None => None
          | Some ds' => Some (ds ++ ds')
          end
      end
  end.

Definition initial_RunState (dev : SplitDevice) : RunState :=
  make_RunState false false (make_int2 0 0) 0 dev.

End Scheduler.


(** ** The assertions of [path_trace] *)

Module Guards.

(** The assertions at the head of [OpenCLDeviceSplitKernel::path_trace],
    compiled with [__WORK_STEALING__]: the render feasible tile size is a
    multiple of the local work size, the two ray-state element sizes are
    equal to 1, and the global work size is within the render feasible
    tile size.  The last comparison is made in [size_t]. *)
Definition path_trace_asserts
    (hostRayState_size rayState_size : Z) (rtile : RenderTile)
    (max_render_feasible_tile_size : int2) : bool :=
  let global_size := Pipeline.stage_global_size rtile in
  (Z.rem (i2x max_render_feasible_tile_size) SPLIT_KERNEL_LOCAL_SIZE_X =? 0)
  && (Z.rem (i2y max_render_feasible_tile_size) SPLIT_KERNEL_LOCAL_SIZE_Y =? 0)
  && (hostRayState_size =? rayState_size)
  && (rayState_size =? 1)
  && (size_mul (fst global_size) (snd global_size)
      <=? to_size (int_mul (i2x max_render_feasible_tile_size)
                           (i2y max_render_feasible_tile_size))).

End Guards.

(** ** [std::map] with [string] keys *)

(** The elements in the order of their keys; [find], [insert] and [erase]
    are the members of that name.  [insert] leaves an element whose key
    is present as it is. *)
Module StdMap.

Definition t (V : Type) : Type := list (string * V).

Fixpoint find {V : Type} (key : string) (m : t V) : option V :=
  match m with
  | [] => None
  | (key', value) :: m' => if String.eqb key key' then Some value else find key m'
  end.

(** Where an element with a new key goes: before the first element whose
    key is greater. *)
Fixpoint place {V : Type} (key : string) (value : V) (m : t V) : t V :=
  match m with
  | [] => [(key, value)]
  | (key', value') :: m' =>
      if String.ltb key key' then (key, value) :: m
      else (key', value') :: place key value m'
  end.

Definition insert {V : Type} (key : string) (value : V) (m : t V) : t V :=
  match find key m with
  | Some _ => m
  | None => place key value m
  end.

Fixpoint erase {V : Type} (key : string) (m : t V) : t V :=
  match m with
  | [] => []
  | (key', value') :: m' =>
      if String.eqb key key' then m' else (key', value') :: erase key m'
  end.

(** [i->second = value] for the iterator [i] that [find] returns. *)
Fixpoint assign {V : Type} (key : string) (value : V) (m : t V) : t V :=
  match m with
  | [] => []
  | (key', value') :: m' =>
      if String.eqb key key' then (key', value) :: m'
      else (key', value') :: assign key value m'
  end.

End StdMap.

(** ** Launching kernels from [OpenCLDeviceBase] *)

Module Launch.

Definition CL_SUCCESS : Z := Builder.CL_SUCCESS.
Definition NULL : Z := Cache.NULL.

(** [global_size_round_up]: a remainder by zero, and the remainder of
    [INT_MIN] by -1, are undefined; the sum is computed in [int] and
    converted to [size_t]. *)
Definition global_size_round_up (group_size global_size : Z) : option Z :=
  if (group_size =? 0) || ((global_size =? - 2 ^ 31) && (group_size =? -1)) then None
  else
    let r := Z.rem global_size group_size in
    Some (to_size (int_add global_size (if r =? 0 then 0 else int_sub group_size r))).

(** The array [local_size] of [enqueue_kernel]: the units the global size
    is rounded to, from the work-group size of the kernel and the maximum
    of the device in the second dimension.  The square root is taken in [double], exact for
    work-group sizes below [2^52]; [max] is the one of util_math.h on
    [int].  [None] is a division by zero. *)
Definition local_size (workgroup_size max_work_items_1 : Z) : option (Z * Z) :=
  let sqrt_workgroup_size := to_size (Z.max (to_int (to_size (Z.sqrt workgroup_size))) 1) in
  if max_work_items_1 <? sqrt_workgroup_size then
    (* some implementations have max size 1 on 2nd dimension *)
    if max_work_items_1 =? 0 then None
    else Some (size_div workgroup_size max_work_items_1, max_work_items_1)
  else Some (sqrt_workgroup_size, sqrt_workgroup_size).

(** The global size [enqueue_kernel] passes to [clEnqueueNDRangeKernel];
    the arguments of [global_size_round_up] are converted to [int]. *)
Definition global_size (workgroup_size max_work_items_1 w h : Z) : option (Z * Z) :=
  match local_size workgroup_size max_work_items_1 with
  | None => None
  | Some (local_size_0, local_size_1) =>
      match global_size_round_up (to_int local_size_0) (to_int w),
            global_size_round_up (to_int local_size_1) (to_int h) with
      | Some global_size_0, Some global_size_1 => Some (global_size_0, global_size_1)
      | _, _ => None
      end
  end.

(** *** Calls into the OpenCL runtime and the task *)

(** [ArgumentWrapper]: the size and the address of an argument. *)
Record ArgumentWrapper : Type := make_ArgumentWrapper { size : Z; pointer : Z }.

(** [ArgumentWrapper()]. *)
Definition no_argument : ArgumentWrapper := make_ArgumentWrapper 0 NULL.

(** The value [clSetKernelArg] is given: a [cl_mem], a [cl_int], the
    [cl_float] [1.0f/(task.sample + 1)], represented by its denominator,
    or what an [ArgumentWrapper] points to. *)
Inductive Arg : Type :=
| arg_mem (ptr : Z)
| arg_int (v : Z)
| arg_sample_scale (denominator : Z)
| arg_wrapper (a : ArgumentWrapper).

(** The calls the log records, in the order they are made.  A
    [local_work_size] of [None] is [NULL]: the runtime chooses the
    work-groups. *)
Inductive Call : Type :=
| clSetKernelArg (kernel arg_index : Z) (arg : Arg)
| clEnqueueNDRangeKernel (kernel : Z) (global_work_size : Z * Z)
    (local_work_size : option (Z * Z))
| clFlush
| clFinish
| clCreateBuffer (flags size : Z)
| clEnqueueWriteBuffer (buffer size : Z)
| clEnqueueReadBuffer (buffer offset size : Z)
| clReleaseMemObject (memobj : Z)
| memset_zero (size : Z)
| stats_mem_alloc (size : Z)
| stats_mem_free (size : Z)
| update_progress (tile : option RenderTile)
| release_tile (tile : RenderTile).

(** The message of [opencl_assert] gives the text of the error and of
    the statement; it is represented by the error code and the call.  The
    one of [opencl_assert_err] gives the error code and the place. *)
Inductive Message : Type :=
| failed_call (err : Z) (call : Call)
| failed_in (err : Z) (place : string).

(** What the runtime and the task answer: the status a call returns after
    the calls made so far, the buffer [clCreateBuffer] returns for flags
    and a size after the calls made so far, the work-group size of a
    kernel, the maximum work-item size of the device in the second
    dimension, and the cancellation flag of the task after the calls made
    so far. *)
Record Runtime : Type := make_Runtime {
  status : list Call -> Call -> Z;
  created_buffer : list Call -> Z -> Z -> Z;
  kernel_work_group_size : Z -> Z;
  max_work_item_size_1 : Z;
  get_cancel : list Call -> bool
}.

(** The members of the device object the launches write. *)
Record Host : Type := make_Host {
  ciErr : Z;
  error_msg : option Message;
  stderr : list Message;
  calls : list Call
}.

(** [opencl_assert(stmt)] where [stmt] is [call]. *)
Definition opencl_assert (rt : Runtime) (call : Call) (host : Host) : Host :=
  let err := status rt (calls host) call in
  if err =? CL_SUCCESS
  then make_Host (ciErr host) (error_msg host) (stderr host) (calls host ++ [call])
  else
    make_Host (ciErr host)
              (match error_msg host with
               | None => Some (failed_call err call)
               | Some m => Some m
               end)
              (stderr host ++ [failed_call err call])
              (calls host ++ [call]).

(** A call whose status is not looked at. *)
Definition call_unchecked (call : Call) (host : Host) : Host :=
  make_Host (ciErr host) (error_msg host) (stderr host) (calls host ++ [call]).

(** [enqueue_kernel]; [None] is a division by zero in the computation of
    the global size.  The local size serves to round the global size
    only: the launch passes [NULL] for it. *)
Definition enqueue_kernel (rt : Runtime) (kernel w h : Z) (host : Host) : option Host :=
  match global_size (kernel_work_group_size rt kernel) (max_work_item_size_1 rt) w h with
  | None => None
  | Some global_size =>
      (* run kernel *)
      let host := opencl_assert rt (clEnqueueNDRangeKernel kernel global_size None) host in
      Some (opencl_assert rt clFlush host)
  end.

(** The body of [kernel_set_args]: [FAKE_VARARG_HANDLE_ARG] for the
    arguments in order.  The index is computed in [int] and passed as
    [cl_uint]. *)
Fixpoint handle_args (rt : Runtime) (kernel start_argument_index current_arg_index : Z)
    (args : list ArgumentWrapper) (host : Host) : Z * Host :=
  match args with
  | [] => (current_arg_index, host)
  | arg :: args' =>
      if pointer arg =? NULL then (current_arg_index, host)
      else
        handle_args rt kernel start_argument_index (int_add current_arg_index 1) args'
          (opencl_assert rt
             (clSetKernelArg kernel
                (to_uint (int_add start_argument_index current_arg_index))
                (arg_wrapper arg))
             host)
  end.

(** [kernel_set_args] called with the arguments [args]: the parameters
    left out, of 33, are default constructed. *)
Definition kernel_set_args (rt : Runtime) (kernel start_argument_index : Z)
    (args : list ArgumentWrapper) (host : Host) : Z * Host :=
  handle_args rt kernel start_argument_index 0
    (args ++ replicate (33 - length args) no_argument) host.

(** *** Device memory *)

(** [device_memory] (device_memory.h): the value of [memory_size()] and
    the members the file writes. *)
Record device_memory : Type := make_device_memory {
  memory_size : Z;
  device_pointer : Z;
  device_size : Z
}.

Inductive MemoryType : Type := MEM_READ_ONLY | MEM_WRITE_ONLY | MEM_READ_WRITE.

(** Bits of [cl_mem_flags] (cl.h). *)
Definition CL_MEM_READ_WRITE : Z := 1.
Definition CL_MEM_WRITE_ONLY : Z := 2.
Definition CL_MEM_READ_ONLY : Z := 4.

(** [opencl_assert_err]; without [NDEBUG] a failure ends in [abort()],
    which is [None]. *)
Definition opencl_assert_err (NDEBUG : bool) (err : Z) (place : string) (host : Host)
  : option Host :=
  if err =? CL_SUCCESS then Some host
  else
    let host :=
      make_Host (ciErr host)
                (match error_msg host with
                 | None => Some (failed_in err place)
                 | Some m => Some m
                 end)
                (stderr host ++ [failed_in err place])
                (calls host) in
    if NDEBUG then Some host else None.

Definition mem_alloc (rt : Runtime) (NDEBUG : bool) (mem : device_memory) (type : MemoryType)
    (host : Host) : option (device_memory * Host) :=
  let size := memory_size mem in
  let mem_flag :=
    match type with
    | MEM_READ_ONLY => CL_MEM_READ_ONLY
    | MEM_WRITE_ONLY => CL_MEM_WRITE_ONLY
    | MEM_READ_WRITE => CL_MEM_READ_WRITE
    end in
  let mem :=
    make_device_memory (memory_size mem) (created_buffer rt (calls host) mem_flag size)
                       (device_size mem) in
  let host :=
    make_Host (status rt (calls host) (clCreateBuffer mem_flag size))
              (error_msg host) (stderr host) (calls host ++ [clCreateBuffer mem_flag size]) in
  match opencl_assert_err NDEBUG (ciErr host) "clCreateBuffer" host with
  | None => None
  | Some host =>
      let host := call_unchecked (stats_mem_alloc size) host in
      Some (make_device_memory (memory_size mem) (device_pointer mem) size, host)
  end.

Definition mem_copy_to (rt : Runtime) (mem : device_memory) (host : Host) : Host :=
  (* this is blocking *)
  let size := memory_size mem in
  opencl_assert rt (clEnqueueWriteBuffer (device_pointer mem) size) host.

(** [mem_copy_from]: the products are computed in [int] and converted to
    [size_t]. *)
Definition mem_copy_from (rt : Runtime) (mem : device_memory) (y w h elem : Z) (host : Host)
  : Host :=
  let offset := to_size (int_mul (int_mul elem y) w) in
  let size := to_size (int_mul (int_mul elem w) h) in
  opencl_assert rt (clEnqueueReadBuffer (device_pointer mem) offset size) host.

Definition mem_zero (rt : Runtime) (mem : device_memory) (host : Host) : Host :=
  if negb (device_pointer mem =? 0) then
    mem_copy_to rt mem (call_unchecked (memset_zero (memory_size mem)) host)
  else host.

Definition mem_free (rt : Runtime) (mem : device_memory) (host : Host)
  : device_memory * Host :=
  if negb (device_pointer mem =? 0) then
    let host := opencl_assert rt (clReleaseMemObject (device_pointer mem)) host in
    let host := call_unchecked (stats_mem_free (device_size mem)) host in
    (make_device_memory (memory_size mem) 0 0, host)
  else (mem, host).

(** [const_copy_to]: the map holds pointers to vectors, here the vectors;
    [data->copy(host, size)] gives the vector [size] bytes, and a new
    vector has no device memory. *)
Definition const_copy_to (rt : Runtime) (NDEBUG : bool) (name : string) (size : Z)
    (const_mem_map : StdMap.t device_memory) (host : Host)
  : option (StdMap.t device_memory * Host) :=
  match StdMap.find name const_mem_map with
  | None =>
      let data := make_device_memory size 0 0 in
      match mem_alloc rt NDEBUG data MEM_READ_ONLY host with
      | None => None
      | Some (data, host) =>
          let const_mem_map := StdMap.insert name data const_mem_map in
          Some (const_mem_map, mem_copy_to rt data host)
      end
  | Some data =>
      let data := make_device_memory size (device_pointer data) (device_size data) in
      let const_mem_map := StdMap.assign name data const_mem_map in
      Some (const_mem_map, mem_copy_to rt data host)
  end.

(** [tex_alloc]; without [NDEBUG] the [assert] that fails is [None]. *)
Definition tex_alloc (rt : Runtime) (NDEBUG : bool) (name : string) (mem : device_memory)
    (mem_map : StdMap.t Z) (host : Host) : option (device_memory * StdMap.t Z * Host) :=
  match mem_alloc rt NDEBUG mem MEM_READ_ONLY host with
  | None => None
  | Some (mem, host) =>
      let host := mem_copy_to rt mem host in
      if negb NDEBUG && (match StdMap.find name mem_map with Some _ => true | None => false end)
      then None
      else Some (mem, StdMap.insert name (device_pointer mem) mem_map, host)
  end.

(** The loop of [tex_free] over the elements of [mem_map] that are left:
    the key of the first whose value is [pointer]. *)
Fixpoint first_with_value (pointer : Z) (m : StdMap.t Z) : option string :=
  match m with
  | [] => None
  | (key, value) :: m' => if value =? pointer then Some key else first_with_value pointer m'
  end.

Definition tex_free (rt : Runtime) (mem : device_memory) (mem_map : StdMap.t Z) (host : Host)
  : device_memory * StdMap.t Z * Host :=
  if negb (device_pointer mem =? 0) then
    let mem_map :=
      match first_with_value (device_pointer mem) mem_map with
      | Some key => StdMap.erase key mem_map
      | None => mem_map
      end in
    let '(mem, host) := mem_free rt mem host in
    (mem, mem_map, host)
  else (mem, mem_map, host).

(** *** [film_convert], [shader] and the megakernel *)

(** The members of the device object the launches read.  [const_mem_map]
    gives the device pointer of the vector a name is bound to;
    [kernel_textures] are the names kernel_textures.h lists and
    [SHADER_EVAL_BAKE] comes from kernel_types.h. *)
Record Device : Type := make_Device {
  ckFilmConvertByteKernel : Z;
  ckFilmConvertHalfFloatKernel : Z;
  ckShaderKernel : Z;
  ckBakeKernel : Z;
  ckPathTraceKernel : Z;
  null_mem : Z;
  mem_map : StdMap.t Z;
  const_mem_map : StdMap.t device_memory;
  kernel_textures : list string;
  SHADER_EVAL_BAKE : Z
}.

Inductive TaskType : Type := PATH_TRACE | FILM_CONVERT | SHADER.

(** The members of [DeviceTask] (device_task.h) the file reads, and the
    tiles [acquire_tile] hands out until it returns false. *)
Module Task.
Record DeviceTask : Type := make_DeviceTask {
  type : TaskType;
  x : Z; y : Z; w : Z; h : Z;
  sample : Z; offset : Z; stride : Z;
  buffer : Z; rgba_byte : Z; rgba_half : Z;
  shader_input : Z; shader_output : Z;
  shader_eval_type : Z; shader_x : Z; shader_w : Z;
  num_samples : Z;
  need_finish_queue : bool;
  tiles : list RenderTile
}.
End Task.

(** [KERNEL_APPEND_ARG(kernel_name, arg)]: the argument index [narg] is a
    [cl_uint]. *)
Definition KERNEL_APPEND_ARG (rt : Runtime) (kernel : Z) (arg : Arg) (st : Z * Host)
  : Z * Host :=
  (uint_add (fst st) 1, opencl_assert rt (clSetKernelArg kernel (fst st) arg) (snd st)).

Definition set_kernel_arg_mem (dev : Device) (rt : Runtime) (kernel : Z) (name : string)
    (st : Z * Host) : Z * Host :=
  let ptr :=
    match StdMap.find name (mem_map dev) with
    | Some p => p
    | None =>
        (* work around NULL not working, even though the spec says otherwise *)
        null_mem dev
    end in
  (uint_add (fst st) 1, opencl_assert rt (clSetKernelArg kernel (fst st) (arg_mem ptr)) (snd st)).

(** The expansion of [KERNEL_TEX] over kernel_textures.h. *)
Definition set_texture_args (dev : Device) (rt : Runtime) (kernel : Z) (st : Z * Host)
  : Z * Host :=
  fold_left (fun st name => set_kernel_arg_mem dev rt kernel name st) (kernel_textures dev) st.

(** [const_mem_map["__data"]->device_pointer]: without a vector bound to
    the name a null pointer is dereferenced. *)
Definition d_data (dev : Device) : option Z :=
  match StdMap.find "__data" (const_mem_map dev) with
  | Some data => Some (device_pointer data)
  | None => None
  end.

Definition film_convert (dev : Device) (rt : Runtime) (task : Task.DeviceTask)
    (buffer rgba_byte rgba_half : Z) (host : Host) : option Host :=
  match d_data dev with
  | None => None
  | Some d_data =>
      let d_rgba := if rgba_byte =? 0 then rgba_half else rgba_byte in
      let d_buffer := buffer in
      let d_x := Task.x task in
      let d_y := Task.y task in
      let d_w := Task.w task in
      let d_h := Task.h task in
      let d_sample_scale := arg_sample_scale (int_add (Task.sample task) 1) in
      let d_offset := Task.offset task in
      let d_stride := Task.stride task in
      (* sample arguments *)
      let narg := 0 in
      let ckFilmConvertKernel :=
        if rgba_byte =? 0 then ckFilmConvertHalfFloatKernel dev
        else ckFilmConvertByteKernel dev in
      let st := (narg, host) in
      let st := KERNEL_APPEND_ARG rt ckFilmConvertKernel (arg_mem d_data) st in
      let st := KERNEL_APPEND_ARG rt ckFilmConvertKernel (arg_mem d_rgba) st in
      let st := KERNEL_APPEND_ARG rt ckFilmConvertKernel (arg_mem d_buffer) st in
      let st := set_texture_args dev rt ckFilmConvertKernel st in
      let st := KERNEL_APPEND_ARG rt ckFilmConvertKernel d_sample_scale st in
      let st := KERNEL_APPEND_ARG rt ckFilmConvertKernel (arg_int d_x) st in
      let st := KERNEL_APPEND_ARG rt ckFilmConvertKernel (arg_int d_y) st in
      let st := KERNEL_APPEND_ARG rt ckFilmConvertKernel (arg_int d_w) st in
      let st := KERNEL_APPEND_ARG rt ckFilmConvertKernel (arg_int d_h) st in
      let st := KERNEL_APPEND_ARG rt ckFilmConvertKernel (arg_int d_offset) st in
      let st := KERNEL_APPEND_ARG rt ckFilmConvertKernel (arg_int d_stride) st in
      enqueue_kernel rt ckFilmConvertKernel (to_size d_w) (to_size d_h) (snd st)
  end.

(** One pass of the loop of [shader] over the samples, the task not being
    cancelled; [narg] is declared before the loop. *)
Definition shader_sample (dev : Device) (rt : Runtime) (task : Task.DeviceTask)
    (d_data kernel sample : Z) (st : Z * Host) : option (Z * Host) :=
  let d_input := Task.shader_input task in
  let d_output := Task.shader_output task in
  let d_shader_eval_type := Task.shader_eval_type task in
  let d_shader_x := Task.shader_x task in
  let d_shader_w := Task.shader_w task in
  let d_offset := Task.offset task in
  let d_sample := sample in
  let st := KERNEL_APPEND_ARG rt kernel (arg_mem d_data) st in
  let st := KERNEL_APPEND_ARG rt kernel (arg_mem d_input) st in
  let st := KERNEL_APPEND_ARG rt kernel (arg_mem d_output) st in
  let st := set_texture_args dev rt kernel st in
  let st := KERNEL_APPEND_ARG rt kernel (arg_int d_shader_eval_type) st in
  let st := KERNEL_APPEND_ARG rt kernel (arg_int d_shader_x) st in
  let st := KERNEL_APPEND_ARG rt kernel (arg_int d_shader_w) st in
  let st := KERNEL_APPEND_ARG rt kernel (arg_int d_offset) st in
  let st := KERNEL_APPEND_ARG rt kernel (arg_int d_sample) st in
  match enqueue_kernel rt kernel (to_size (Task.shader_w task)) 1 (snd st) with
  | None => None
  | Some host => Some (fst st, call_unchecked (update_progress None) host)
  end.

(** The loop [for(int sample = 0; sample < task.num_samples; sample++)]
    from [sample] on, [count] passes being left. *)
Fixpoint shader_samples (dev : Device) (rt : Runtime) (task : Task.DeviceTask)
    (d_data kernel : Z) (count : nat) (sample : Z) (st : Z * Host) : option (Z * Host) :=
  match count with
  | O => Some st
  | S count' =>
      if get_cancel rt (calls (snd st)) then Some st
      else
        match shader_sample dev rt task d_data kernel sample st with
        | None => None
        | Some st' => shader_samples dev rt task d_data kernel count' (sample + 1) st'
        end
  end.

Definition shader (dev : Device) (rt : Runtime) (task : Task.DeviceTask) (host : Host)
  : option Host :=
  match d_data dev with
  | None => None
  | Some d_data =>
      (* sample arguments *)
      let narg := 0 in
      let kernel :=
        if SHADER_EVAL_BAKE dev <=? Task.shader_eval_type task
        then ckBakeKernel dev else ckShaderKernel dev in
      match shader_samples dev rt task d_data kernel (Z.to_nat (Task.num_samples task)) 0
                           (narg, host) with
      | None => None
      | Some st => Some (snd st)
      end
  end.

(** [OpenCLDeviceMegaKernel::path_trace]. *)
Definition path_trace (dev : Device) (rt : Runtime) (rtile : RenderTile) (sample : Z)
    (host : Host) : option Host :=
  match d_data dev with
  | None => None
  | Some d_data =>
      let d_buffer := buffer rtile in
      let d_rng_state := rng_state rtile in
      let d_x := x rtile in
      let d_y := y rtile in
      let d_w := w rtile in
      let d_h := h rtile in
      let d_offset := offset rtile in
      let d_stride := stride rtile in
      (* sample arguments *)
      let d_sample := sample in
      let narg := 0 in
      let kernel := ckPathTraceKernel dev in
      let st := (narg, host) in
      let st := KERNEL_APPEND_ARG rt kernel (arg_mem d_data) st in
      let st := KERNEL_APPEND_ARG rt kernel (arg_mem d_buffer) st in
      let st := KERNEL_APPEND_ARG rt kernel (arg_mem d_rng_state) st in
      let st := set_texture_args dev rt kernel st in
      let st := KERNEL_APPEND_ARG rt kernel (arg_int d_sample) st in
      let st := KERNEL_APPEND_ARG rt kernel (arg_int d_x) st in
      let st := KERNEL_APPEND_ARG rt kernel (arg_int d_y) st in
      let st := KERNEL_APPEND_ARG rt kernel (arg_int d_w) st in
      let st := KERNEL_APPEND_ARG rt kernel (arg_int d_h) st in
      let st := KERNEL_APPEND_ARG rt kernel (arg_int d_offset) st in
      let st := KERNEL_APPEND_ARG rt kernel (arg_int d_stride) st in
      enqueue_kernel rt kernel (to_size d_w) (to_size d_h) (snd st)
  end.

(** [tile.sample = v]. *)
Definition set_sample (v : Z) (t : RenderTile) : RenderTile :=
  {| x := x t; y := y t; w := w t; h := h t;
     start_sample := start_sample t; num_samples := num_samples t;
     sample := v; resolution := resolution t;
     offset := offset t; stride := stride t; tile_size := tile_size t;
     buffer := buffer t; rng_state := rng_state t; buffers := buffers t;
     buffer_offset_x := buffer_offset_x t; buffer_offset_y := buffer_offset_y t;
     rng_state_offset_x := rng_state_offset_x t; rng_state_offset_y := rng_state_offset_y t;
     buffer_rng_state_stride := buffer_rng_state_stride t |}.

(** The loop [for(int sample = start_sample; sample < end_sample;
    sample++)] of [thread_run] from [sample] on, [count] passes being
    left. *)
Fixpoint trace_samples (dev : Device) (rt : Runtime) (need_finish_queue : bool)
    (count : nat) (sample : Z) (tile : RenderTile) (host : Host)
  : option (RenderTile * Host) :=
  match count with
  | O => Some (tile, host)
  | S count' =>
      if get_cancel rt (calls host) && negb need_finish_queue then Some (tile, host)
      else
        match path_trace dev rt tile sample host with
        | None => None
        | Some host' =>
            let tile' := set_sample (int_add sample 1) tile in
            trace_samples dev rt need_finish_queue count' (sample + 1) tile'
              (call_unchecked (update_progress (Some tile')) host')
        end
  end.

(** The body of [while(task->acquire_tile(this, tile))]. *)
Definition trace_tile (dev : Device) (rt : Runtime) (need_finish_queue : bool)
    (tile : RenderTile) (host : Host) : option Host :=
  let start_sample := start_sample tile in
  let end_sample := int_add (start_sample) (num_samples tile) in
  match trace_samples dev rt need_finish_queue (Z.to_nat (end_sample - start_sample))
                      start_sample tile host with
  | None => None
  | Some (tile', host') =>
      (* Complete kernel execution before release tile *)
      Some (call_unchecked (release_tile tile') (call_unchecked clFinish host'))
  end.

Fixpoint trace_tiles (dev : Device) (rt : Runtime) (need_finish_queue : bool)
    (tiles : list RenderTile) (host : Host) : option Host :=
  match tiles with
  | [] => Some host
  | tile :: tiles' =>
      match trace_tile dev rt need_finish_queue tile host with
      | None => None
      | Some host' => trace_tiles dev rt need_finish_queue tiles' host'
      end
  end.

(** [OpenCLDeviceMegaKernel::thread_run]. *)
Definition thread_run (dev : Device) (rt : Runtime) (task : Task.DeviceTask) (host : Host)
  : option Host :=
  match Task.type task with
  | FILM_CONVERT =>
      film_convert dev rt task (Task.buffer task) (Task.rgba_byte task) (Task.rgba_half task)
                   host
  | SHADER => shader dev rt task host
  | PATH_TRACE =>
      (* keep rendering tiles until done *)
      trace_tiles dev rt (Task.need_finish_queue task) (Task.tiles task) host
  end.

End Launch.

(** ** Enumerating the devices and choosing the device class *)

Module Enumerate.

(** Bits of [cl_device_type] (cl.h). *)
Definition CL_DEVICE_TYPE_DEFAULT : Z := 1.
Definition CL_DEVICE_TYPE_CPU : Z := 2.
Definition CL_DEVICE_TYPE_GPU : Z := 4.
Definition CL_DEVICE_TYPE_ACCELERATOR : Z := 8.
Definition CL_DEVICE_TYPE_ALL : Z := 4294967295.

(** [opencl_device_type], given the value of [CYCLES_OPENCL_TEST] in the
    environment. *)
Definition opencl_device_type (CYCLES_OPENCL_TEST : option string) : Z :=
  match CYCLES_OPENCL_TEST with
  | Some device =>
      if String.eqb device "ALL" then CL_DEVICE_TYPE_ALL
      else if String.eqb device "DEFAULT" then CL_DEVICE_TYPE_DEFAULT
      else if String.eqb device "CPU" then CL_DEVICE_TYPE_CPU
      else if String.eqb device "GPU" then CL_DEVICE_TYPE_GPU
      else if String.eqb device "ACCELERATOR" then CL_DEVICE_TYPE_ACCELERATOR
      else CL_DEVICE_TYPE_ALL
  | None => CL_DEVICE_TYPE_ALL
  end.

Definition opencl_kernel_use_advanced_shading (platform : string) : bool :=
  (* keep this in sync with kernel_types.h! *)
  if String.eqb platform "NVIDIA CUDA" then true
  else if String.eqb platform "Apple" then false
  else if String.eqb platform "AMD Accelerated Parallel Processing" then false
  else if String.eqb platform "Intel(R) OpenCL" then true
  else false.

(** What the OpenCL runtime answers.  A device: its name and type and the
    status of the queries for them.  A platform: its name, and for a
    requested device type the devices of the platform and the status of
    the call of [clGetDeviceIDs] that counts them and of the one that
    lists them. *)
Record ClDevice : Type := make_ClDevice {
  device_name : string;
  device_name_status : Z;
  device_type : Z;
  device_type_status : Z
}.

Record ClPlatform : Type := make_ClPlatform {
  platform_name : string;
  platform_name_status : Z;
  device_count_status : Z -> Z;
  device_ids_status : Z -> Z;
  device_ids : Z -> list ClDevice
}.

(** The environment of the process and the platforms of the runtime, with
    the status of the call of [clGetPlatformIDs] that counts them and of
    the one that lists them. *)
Record Runtime : Type := make_Runtime {
  CYCLES_OPENCL_TEST : option string;
  CYCLES_OPENCL_SPLIT_KERNEL_TEST : option string;
  platform_count_status : Z;
  platform_ids_status : Z;
  platforms : list ClPlatform
}.

(** The number a call of [clGetDeviceIDs] or [clGetPlatformIDs] stores in
    a [cl_uint]. *)
Definition count {A : Type} (l : list A) : Z := to_uint (Z.of_nat (length l)).

(** A line written to [stderr]: its text, and the value of [__LINE__]
    where the source prints one. *)
Inductive Message : Type :=
| stderr_line (text : string) (line : option Z).

(** [get_platform_and_devicetype]: the value returned, [platform_name]
    and [device_type] as the call leaves them, and what it prints.
    [device_type] is a variable of the caller without an initial value:
    [None] is the value it has before it is assigned. *)
Record Detection : Type := make_Detection {
  detected : bool;
  detected_platform_name : string;
  detected_device_type : option Z;
  detection_stderr : list Message
}.

(** How the loop over the platforms is left: by [return false] after
    printing, with [platform_name] as it is then, or past its end or by
    [break] with [total_devices], [platform_name] and [device_type]. *)
Inductive LoopExit : Type :=
| loop_return (message : Message) (platform_name : string)
| loop_left (total_devices : Z) (platform_name : string) (device_type : option Z).

(** [x += num_devices] for [int x] and [cl_uint num_devices]: the sum is
    computed in [unsigned int] and converted to [int]. *)
Definition add_count (x num_devices : Z) : Z := to_int (uint_add (to_uint x) num_devices).

(** The loop [for(int platform = 0; platform < num_platforms; platform++)]
    of [get_platform_and_devicetype] over the platforms that are left.
    [info.num - num_base] is an [int], converted to [unsigned int] for the
    comparison with [num_devices]. *)
Fixpoint detect_loop (type_wanted : Z) (info_num : Z) (platforms : list ClPlatform)
    (num_base total_devices : Z) (platform_name : string) (device_type : option Z)
  : LoopExit :=
  match platforms with
  | [] => loop_left total_devices platform_name device_type
  | platform :: platforms' =>
      if negb (device_count_status platform type_wanted =? Builder.CL_SUCCESS) then
        loop_return (stderr_line "Can't getDeviceIDs." (Some 3071)) platform_name
      else
        let num_devices := count (device_ids platform type_wanted) in
        let total_devices := add_count total_devices num_devices in
        if num_devices <=? to_uint (int_sub info_num num_base) then
          (* num doesn't refer to a device in this platform *)
          let num_base := add_count num_base num_devices in
          detect_loop type_wanted info_num platforms' num_base total_devices
                      platform_name device_type
        else
          (* device is in this platform *)
          if negb (device_ids_status platform type_wanted =? Builder.CL_SUCCESS) then
            loop_return (stderr_line "Can't getDeviceIDs." (Some 3091)) platform_name
          else
            match device_ids platform type_wanted
                  !! Z.to_nat (to_uint (int_sub info_num num_base)) with
            | None =>
                (* the vector has [num_devices] elements: not reached *)
                loop_left total_devices platform_name device_type
            | Some device =>
                if negb (platform_name_status platform =? Builder.CL_SUCCESS) then
                  loop_return (stderr_line "Can't getPlatformIDs." (Some 3100)) platform_name
                else
                  let platform_name := Enumerate.platform_name platform in
                  if negb (device_type_status device =? Builder.CL_SUCCESS) then
                    (* [platform_name] is assigned already; the failing query
                       is taken to leave [device_type] as it was *)
                    loop_return (stderr_line "Can't getDeviceInfo." (Some 3107)) platform_name
                  else
                    loop_left total_devices platform_name (Some (Enumerate.device_type device))
            end
  end.

Definition get_platform_and_devicetype (rt : Runtime) (info_num : Z)
    (platform_name : string) (device_type : option Z) : Detection :=
  let failed message := make_Detection false platform_name device_type [message] in
  if negb (platform_count_status rt =? Builder.CL_SUCCESS) then
    failed (stderr_line "Can't getPlatformIds." (Some 3046))
  else if count (platforms rt) =? 0 then
    failed (stderr_line "No OpenCL platforms found." (Some 3051))
  else if negb (platform_ids_status rt =? Builder.CL_SUCCESS) then
    failed (stderr_line "Can't getPlatformIds." (Some 3059))
  else
    let num_base := 0 in
    let total_devices := 0 in
    match detect_loop (opencl_device_type (CYCLES_OPENCL_TEST rt)) info_num (platforms rt)
                      num_base total_devices platform_name device_type with
    | loop_return message platform_name =>
        make_Detection false platform_name device_type [message]
    | loop_left total_devices platform_name device_type =>
        if total_devices =? 0 then
          make_Detection false platform_name device_type
                         [stderr_line "No devices found." (Some 3115)]
        else make_Detection true platform_name device_type []
    end.

(** The class [device_opencl_create] constructs. *)
Inductive DeviceClass : Type :=
| OpenCLDeviceSplitKernel
| OpenCLDeviceMegaKernel.

(** [device_opencl_create]: [platform_name] starts empty and [device_type]
    without a value; [None] is a read of [device_type] before it is
    assigned.  [||] and [&&] evaluate their right operand only when the
    left one does not decide. *)
Definition device_opencl_create (rt : Runtime) (info_num : Z) : option DeviceClass :=
  let detection := get_platform_and_devicetype rt info_num EmptyString None in
  if detected detection then
    let force_split_kernel :=
      match CYCLES_OPENCL_SPLIT_KERNEL_TEST rt with Some _ => true | None => false end in
    if force_split_kernel then Some OpenCLDeviceSplitKernel
    else if String.eqb (detected_platform_name detection)
                       "AMD Accelerated Parallel Processing" then
      match detected_device_type detection with
      | None => None
      | Some device_type =>
          if device_type =? CL_DEVICE_TYPE_GPU then
            (* If the device is an AMD GPU, take split kernel path. *)
            Some OpenCLDeviceSplitKernel
          else
            (* For any other device, take megakernel path. *)
            Some OpenCLDeviceMegaKernel
      end
    else Some OpenCLDeviceMegaKernel
  else
    (* If we can't retrieve platform and device type information for some
       reason, we default to megakernel path. *)
    Some OpenCLDeviceMegaKernel.

(** [DeviceInfo] (device.h), the members the file sets. *)
Inductive DeviceType : Type := DEVICE_OPENCL.

Record DeviceInfo : Type := make_DeviceInfo {
  type : DeviceType;
  description : string;
  num : Z;
  id : string;
  display_device : bool;
  advanced_shading : bool;
  pack_images : bool
}.

(** [string_printf("OPENCL_%d", num)]. *)
Definition device_id_string (num : Z) : string :=
  ("OPENCL_" ++ NilZero.string_of_int (Z.to_int num))%string.

(** The loop [for(int num = 0; num < num_devices; num++)] of
    [device_opencl_info] over the devices that are left. *)
Fixpoint add_devices (platform_name : string) (num_base : Z) (device_ids : list ClDevice)
    (num : Z) (devices : list DeviceInfo) : list DeviceInfo :=
  match device_ids with
  | [] => devices
  | device :: device_ids' =>
      if negb (device_name_status device =? Builder.CL_SUCCESS) then
        add_devices platform_name num_base device_ids' (int_add num 1) devices
      else
        let info_num := int_add num_base num in
        let info :=
          {| type := DEVICE_OPENCL;
             description := device_name device;
             num := info_num;
             id := device_id_string info_num;
             (* we don't know if it's used for display, but assume it is *)
             display_device := true;
             advanced_shading := opencl_kernel_use_advanced_shading platform_name;
             pack_images := true |} in
        add_devices platform_name num_base device_ids' (int_add num 1) (devices ++ [info])
  end.

(** The loop of [device_opencl_info] over the platforms that are left;
    [num_devices] is set to zero before [clGetDeviceIDs] is asked for the
    count, and a failing call is taken to leave it so.  The step of the
    loop adds [num_devices] to [num_base] also after [continue].  The
    status of the query for the name of the platform is not looked at and
    the array [pname] has no initial value: [None] is the read of that
    array after a query that failed. *)
Fixpoint info_loop (type_wanted : Z) (platforms : list ClPlatform) (num_base : Z)
    (devices : list DeviceInfo) : option (list DeviceInfo) :=
  match platforms with
  | [] => Some devices
  | platform :: platforms' =>
      let num_devices :=
        if device_count_status platform type_wanted =? Builder.CL_SUCCESS
        then count (device_ids platform type_wanted) else 0 in
      let added :=
        if negb (device_count_status platform type_wanted =? Builder.CL_SUCCESS)
           || (num_devices =? 0) then Some devices
        else if negb (device_ids_status platform type_wanted =? Builder.CL_SUCCESS)
        then Some devices
        else if negb (platform_name_status platform =? Builder.CL_SUCCESS) then None
        else
          (* add devices *)
          Some (add_devices (platform_name platform) num_base
                            (device_ids platform type_wanted) 0 devices) in
      match added with
      | Some devices =>
          info_loop type_wanted platforms' (add_count num_base num_devices) devices
      | None => None
      end
  end.

Definition device_opencl_info (rt : Runtime) (devices : list DeviceInfo)
  : option (list DeviceInfo) :=
  (* get devices *)
  if negb (platform_count_status rt =? Builder.CL_SUCCESS) || (count (platforms rt) =? 0)
  then Some devices
  else if negb (platform_ids_status rt =? Builder.CL_SUCCESS) then Some devices
  else
    (* devices are numbered consecutively across platforms *)
    let num_base := 0 in
    info_loop (opencl_device_type (CYCLES_OPENCL_TEST rt)) (platforms rt) num_base devices.

End Enumerate.

(** * The vocabulary of the statements *)

(** The pixel rectangle of a tile. *)
Definition in_tile (t : RenderTile) (px py : Z) : Prop :=
  x t <= px < x t + w t /\ y t <= py < y t + h t.

(** Round-up quotient of positive integers. *)
Definition ceil_div (a b : Z) : Z := (a + b - 1) / b.

(** The fields are machine integers, the tile's rectangle lies within the
    [int] coordinates, the stride is not zero and the number of sub-tiles
    is an [int]. *)
Definition split_in_range (rtile : RenderTile) (sts : int2) : Prop :=
  is_int (x rtile) /\ is_int (y rtile) /\ is_int (w rtile) /\ is_int (h rtile) /\
  is_int (i2x sts) /\ is_int (i2y sts) /\
  x rtile + w rtile <= 2 ^ 31 /\ y rtile + h rtile <= 2 ^ 31 /\
  to_size (stride rtile) <> 0 /\
  ceil_div (w rtile) (i2x sts) * ceil_div (h rtile) (i2y sts) < 2 ^ 31.

(** The states the loop goes through: the width is a multiple of the
    granularity, and both extents are small enough for their product to be
    an [int]. *)
Definition halving_state (d : int2) : Prop :=
  (64 | i2x d) /\ 64 <= i2x d <= 2 ^ 15 /\ 1 <= i2y d <= 2 ^ 15.

(** Extent of cell [i] of an axis of length [d] cut into [n] cells of
    length [s]: the last cell takes what remains. *)
Definition cell_len (d s n i : Z) : Z := if i =? n - 1 then d - i * s else s.

(** The entries a poll of [global_size] work-items looks at. *)
Definition polled (global_size : Z * Z) (i : Z) : Prop :=
  0 <= i < size_mul (fst global_size) (snd global_size).

Definition all_inactive (Mem : Type) (RAY_INACTIVE : Z) (global_size : Z * Z)
    (d : Pipeline.PathTraceDevice Mem) : Prop :=
  forall i, polled global_size i -> Pipeline.hostRayStateArray d i = RAY_INACTIVE.

(** Number of completed path-iteration rounds in a log of enqueued
    kernels: each round ends with [SetUpNextIteration]. *)
Definition is_round_end (e : Pipeline.SplitKernel * (Z * Z)) : bool :=
  match fst e with Pipeline.SetUpNextIteration => true | _ => false end.

Definition rounds (log : list (Pipeline.SplitKernel * (Z * Z))) : Z :=
  Z.of_nat (length (List.filter is_round_end log)).

(** [dev'] comes from [dev] by adding [events] to the log; an error
    message that is set stays set. *)
Definition extends (events : list Builder.Event) (dev dev' : Builder.Device) : Prop :=
  Builder.log dev' = Builder.log dev ++ events
  /\ (Builder.error_msg dev <> None -> Builder.error_msg dev' <> None).

(** Whether the mutex of the slot of a device exists and is held. *)
Definition slot_locked (self : Cache.OpenCLCache) (platform device : Z) : bool :=
  match Cache.cache self !! (platform, device) with
  | Some slot => Cache.mutex_created slot && Cache.locked slot
  | None => false
  end.

(** What [store_something] asserts of a store: the platform, the device
    and the handle are not [NULL], and the member it stores to is [NULL].
    The other operations assert nothing of the slot members. *)
Definition store_asserts (op : Cache.Operation) (self : Cache.OpenCLCache) : bool :=
  match op with
  | Cache.op_store_context p d c =>
      negb (p =? Cache.NULL) && negb (d =? Cache.NULL) && negb (c =? Cache.NULL)
      && (Cache.cached self p d Cache.member_context =? Cache.NULL)
  | Cache.op_store_program p d c n =>
      negb (p =? Cache.NULL) && negb (d =? Cache.NULL) && negb (c =? Cache.NULL)
      && (Cache.cached self p d (Cache.program_member n) =? Cache.NULL)
  | _ => true
  end.

(** Every store of the run [ops] from [self] is made as [store_something]
    asserts, whether or not the assertions are compiled in. *)
Fixpoint stores_as_asserted (NDEBUG : bool) (ops : list Cache.Operation)
    (self : Cache.OpenCLCache) : bool :=
  match ops with
  | [] => true
  | op :: ops' =>
      store_asserts op self
      && match Cache.run NDEBUG op self with
         | Some self' => stores_as_asserted NDEBUG ops' self'
         | None => true
         end
  end.

(** The number of members of a slot that hold [handle]. *)
Definition slot_holds (handle : Z) (slot : Cache.Slot) : Z :=
  (if Cache.ocl_dev_base_program slot =? handle then 1 else 0)
  + (if Cache.ocl_dev_megakernel_program slot =? handle then 1 else 0)
  + (if Cache.context slot =? handle then 1 else 0).

(** The number of slot members of the cache that hold [handle]. *)
Definition holders (self : Cache.OpenCLCache) (handle : Z) : Z :=
  fold_right Z.add 0 (map (fun item => slot_holds handle (snd item))
                          (map_to_list (Cache.cache self))).

(** Whether [save_binary] succeeds: the program has a binary and the file
    is written. *)
Definition binary_saves (world : Builder.World) : bool :=
  negb (Builder.binary_size world =? 0) && Builder.write_binary_ok world.

(** Whether the four kernels of the base program are created. *)
Definition kernels_found (world : Builder.World) : bool :=
  (Builder.kernel_ciErr world "kernel_ocl_shader" =? Builder.CL_SUCCESS)
  && (Builder.kernel_ciErr world "kernel_ocl_bake" =? Builder.CL_SUCCESS)
  && (Builder.kernel_ciErr world "kernel_ocl_convert_to_byte" =? Builder.CL_SUCCESS)
  && (Builder.kernel_ciErr world "kernel_ocl_convert_to_half_float" =? Builder.CL_SUCCESS).

(** Whether a program that is not in the cache is obtained, and which. *)
Definition program_obtained (world : Builder.World) : bool :=
  Builder.version_check world
  && ((Builder.clbin_exists world && Builder.binary_loads world)
      || (Builder.source_compiles world && binary_saves world)).

Definition obtained_program (world : Builder.World) : Z :=
  if Builder.clbin_exists world && Builder.binary_loads world
  then Builder.binary_program world else Builder.source_program world.

Section LoaderVocabulary.

Import Cache Builder.

(** A computation of the loader keeps the relation [R] between the device
    before and after it. *)
Definition keeps (R : Device -> Device -> Prop) {A : Type} (c : M A) : Prop :=
  forall dev r dev', c dev = Some (r, dev') -> R dev dev'.

(** The loader leaves the platform, the device and the initialisation flag
    as they are; its parts other than the calls into the cache leave the
    cache as it is. *)
Definition same_device (dev dev' : Device) : Prop :=
  cpPlatform dev' = cpPlatform dev /\ cdDevice dev' = cdDevice dev
  /\ device_initialized dev' = device_initialized dev.

Definition same_cache (dev dev' : Device) : Prop :=
  same_device dev dev' /\ opencl_cache dev' = opencl_cache dev.

Definition same_program (dev dev' : Device) : Prop :=
  same_cache dev dev' /\ cpProgram dev' = cpProgram dev.

(** An error message that is set is not replaced. *)
Definition keeps_error_msg (dev dev' : Device) : Prop :=
  forall m, error_msg dev = Some m -> error_msg dev' = Some m.

(** A run of [load_kernels] whose lookup in the cache misses: the slot of
    the device is [slot] and the lookup has locked it. *)
Variable NDEBUG : bool.
Variable world : World.
Variables p d : Z.
Variable slots : gmap (Z * Z) Slot.
Variable counts : gmap Z Z.
Variable slot : Slot.

Definition cache_locked : OpenCLCache :=
  make_OpenCLCache (<[(p, d) := set_locked true slot]> slots) counts.

Definition cache_unlocked : OpenCLCache :=
  make_OpenCLCache (<[(p, d) := set_locked false slot]> slots) counts.

Definition cache_stored (program : Z) : OpenCLCache :=
  clRetain program
    (make_OpenCLCache
       (<[(p, d) := set_locked false
                      (set_slot_member member_ocl_dev_base_program program slot)]> slots)
       counts).

(** The device during the run: it is the device of the slot and the cache
    holds the locked slot. *)
Definition in_miss (dev : Device) : Prop :=
  cpPlatform dev = p /\ cdDevice dev = d /\ opencl_cache dev = cache_locked.

(** What a computation that ends the run does: if a program was obtained
    it is stored and the kernels are looked for, unless the device or the
    program is [NULL] and the assertions are compiled in, where the store
    does not return; otherwise the lock is released and the result is
    false. *)
Definition run_outcome (c : M bool) (dev : Device) (obtained : bool) (program : Z) : Prop :=
  if obtained then
    if negb NDEBUG && ((d =? NULL) || (program =? NULL)) then c dev = None
    else exists dev', c dev = Some (kernels_found world, dev')
                      /\ opencl_cache dev' = cache_stored program
                      /\ cpProgram dev' = program
                      /\ same_device dev dev'
  else exists dev', c dev = Some (false, dev')
                    /\ opencl_cache dev' = cache_unlocked
                    /\ same_device dev dev'.

End LoaderVocabulary.

(** One pass of the path-iteration loop in the log of enqueued kernels. *)
Definition round_of_kernels (global_size : Z * Z) : list (Pipeline.SplitKernel * (Z * Z)) :=
  [ (Pipeline.SceneIntersect, global_size);
    (Pipeline.LampEmission, global_size);
    (Pipeline.QueueEnqueue, global_size);
    (Pipeline.BG_BufferUpdate, global_size);
    (Pipeline.Shader_Lighting, global_size);
    (Pipeline.Holdout_Emission_Blurring_Pathtermination_AO, global_size);
    (Pipeline.DirectLighting, global_size);
    (Pipeline.ShadowBlocked_DirectLighting, (size_mul (fst global_size) 2, snd global_size));
    (Pipeline.SetUpNextIteration, global_size) ].

(** The buffer of the tile is addressed within [int]: the products and
    sums of [offset + x + y * stride] do not wrap around, the index of
    the first pixel is not negative and the index of the last one is an
    [int]. *)
Definition buffer_in_range (rtile : RenderTile) : Prop :=
  is_int (offset rtile) /\ 0 < stride rtile < 2 ^ 31 /\
  is_int (y rtile * stride rtile) /\ is_int (x rtile + y rtile * stride rtile) /\
  0 <= offset rtile + x rtile + y rtile * stride rtile /\
  offset rtile + (x rtile + w rtile - 1) + (y rtile + h rtile - 1) * stride rtile < 2 ^ 31.

(** The call [path_trace] gets for a tile that is traced whole. *)
Definition whole_tile_dispatch (a : Scheduler.AcquiredTile) : Scheduler.Dispatch :=
  Scheduler.make_Dispatch
    (Scheduler.set_buffer_rng_state_stride (Scheduler.clear_offsets (Scheduler.tile a)))
    (make_int2
       (ceil_round_int (i2x (tile_size (Scheduler.tile a))) SPLIT_KERNEL_LOCAL_SIZE_X)
       (ceil_round_int (i2y (tile_size (Scheduler.tile a))) SPLIT_KERNEL_LOCAL_SIZE_Y)).

(** The tiles released, the number of kernel launches, the argument
    indices and the samples reported to the task in a log of calls. *)
Definition released (cs : list Launch.Call) : list RenderTile :=
  omap (fun c => match c with Launch.release_tile t => Some t | _ => None end) cs.

Definition launches (cs : list Launch.Call) : Z :=
  Z.of_nat (length (List.filter
                      (fun c => match c with
                                | Launch.clEnqueueNDRangeKernel _ _ _ => true
                                | _ => false
                                end) cs)).

Definition arg_indices (cs : list Launch.Call) : list Z :=
  omap (fun c => match c with Launch.clSetKernelArg _ i _ => Some i | _ => None end) cs.

(** Setting the arguments [args] at the indices from [index] on. *)
Fixpoint set_args (rt : Launch.Runtime) (kernel index : Z)
    (args : list Launch.ArgumentWrapper) (host : Launch.Host) : Launch.Host :=
  match args with
  | [] => host
  | arg :: args' =>
      set_args rt kernel (index + 1) args'
        (Launch.opencl_assert rt
           (Launch.clSetKernelArg kernel index (Launch.arg_wrapper arg)) host)
  end.

(** The tile can be launched: its extents are within [int] once rounded
    up to the work-group size of the kernel. *)
Definition launchable (dev : Launch.Device) (rt : Launch.Runtime) (t : RenderTile) : Prop :=
  0 <= w t /\ 0 <= h t
  /\ w t + Launch.kernel_work_group_size rt (Launch.ckPathTraceKernel dev) <= 2 ^ 31
  /\ h t + Launch.kernel_work_group_size rt (Launch.ckPathTraceKernel dev) <= 2 ^ 31.

(** The tile as it is released once all its samples are traced. *)
Definition finished_tile (t : RenderTile) : RenderTile :=
  if 0 <? num_samples t
  then Launch.set_sample (start_sample t + num_samples t) t
  else t.

(** The tile as it is released after [n] of its samples were traced. *)
Definition traced_tile (n : nat) (t : RenderTile) : RenderTile :=
  if 0 <? Z.of_nat n
  then Launch.set_sample (start_sample t + Z.of_nat n) t
  else t.

(** The sample range of the tile is within [int]. *)
Definition samples_in_range (t : RenderTile) : Prop :=
  is_int (start_sample t) /\ is_int (start_sample t + num_samples t).

Definition sum_nat (l : list nat) : Z := fold_right Z.add 0 (map Z.of_nat l).

(** The calls that set the arguments [args] at the indices from [index]
    on. *)
Fixpoint arg_calls (kernel index : Z) (args : list Launch.Arg) : list Launch.Call :=
  match args with
  | [] => []
  | arg :: args' => Launch.clSetKernelArg kernel index arg :: arg_calls kernel (index + 1) args'
  end.

(** The arguments bound for the textures: the memory a name is bound to,
    [null_mem] for a name that is not bound. *)
Definition texture_args (dev : Launch.Device) : list Launch.Arg :=
  map (fun name =>
         Launch.arg_mem
           (default (Launch.null_mem dev) (StdMap.find name (Launch.mem_map dev))))
      (Launch.kernel_textures dev).

Definition path_trace_args (dev : Launch.Device) (d_data : Z) (t : RenderTile) (sample : Z)
  : list Launch.Arg :=
  [Launch.arg_mem d_data; Launch.arg_mem (buffer t); Launch.arg_mem (rng_state t)]
  ++ texture_args dev
  ++ [Launch.arg_int sample; Launch.arg_int (x t); Launch.arg_int (y t);
      Launch.arg_int (w t); Launch.arg_int (h t);
      Launch.arg_int (offset t); Launch.arg_int (stride t)].

Definition shader_args (dev : Launch.Device) (d_data : Z) (task : Launch.Task.DeviceTask)
    (sample : Z) : list Launch.Arg :=
  [Launch.arg_mem d_data; Launch.arg_mem (Launch.Task.shader_input task);
   Launch.arg_mem (Launch.Task.shader_output task)]
  ++ texture_args dev
  ++ [Launch.arg_int (Launch.Task.shader_eval_type task);
      Launch.arg_int (Launch.Task.shader_x task);
      Launch.arg_int (Launch.Task.shader_w task);
      Launch.arg_int (Launch.Task.offset task);
      Launch.arg_int sample].

(** [KERNEL_APPEND_ARG] for the arguments [args] in order. *)
Definition append_args (rt : Launch.Runtime) (kernel : Z) (args : list Launch.Arg)
    (st : Z * Launch.Host) : Z * Launch.Host :=
  fold_left (fun st arg => Launch.KERNEL_APPEND_ARG rt kernel arg st) args st.

(** The bytes reported to [stats] as allocated and not as freed, the
    buffers created and the buffers released in a log of calls. *)
Definition stats_mem_used (cs : list Launch.Call) : Z :=
  fold_right (fun c used =>
                match c with
                | Launch.stats_mem_alloc size => used + size
                | Launch.stats_mem_free size => used - size
                | _ => used
                end) 0 cs.

Definition buffers_created (cs : list Launch.Call) : Z :=
  Z.of_nat (length (List.filter
                      (fun c => match c with Launch.clCreateBuffer _ _ => true | _ => false end)
                      cs)).

Definition buffers_released (cs : list Launch.Call) : list Z :=
  omap (fun c => match c with Launch.clReleaseMemObject p => Some p | _ => None end) cs.

(** A build with [NDEBUG], or the creation of the buffer succeeds. *)
Definition creation_passes (rt : Launch.Runtime) (NDEBUG : bool) (size : Z)
    (host : Launch.Host) : Prop :=
  NDEBUG = true
  \/ Launch.status rt (Launch.calls host) (Launch.clCreateBuffer Launch.CL_MEM_READ_ONLY size)
     = Launch.CL_SUCCESS.

(** The devices of the platforms [ps] for the device type [ty], each with
    its platform, in the order of the platforms and of their devices. *)
Definition platform_devices (ty : Z) (ps : list Enumerate.ClPlatform)
  : list (Enumerate.ClPlatform * Enumerate.ClDevice) :=
  concat (map (fun p => map (pair p) (Enumerate.device_ids p ty)) ps).

(** The devices of the runtime for the device type the environment asks
    for. *)
Definition listed_devices (rt : Enumerate.Runtime)
  : list (Enumerate.ClPlatform * Enumerate.ClDevice) :=
  platform_devices (Enumerate.opencl_device_type (Enumerate.CYCLES_OPENCL_TEST rt))
                   (Enumerate.platforms rt).

(** The calls that count and list the devices of the platform succeed. *)
Definition platform_answers (ty : Z) (p : Enumerate.ClPlatform) : Prop :=
  Enumerate.device_count_status p ty = Builder.CL_SUCCESS
  /\ Enumerate.device_ids_status p ty = Builder.CL_SUCCESS.

(** The calls that count and list the platforms and their devices
    succeed, and the number of platforms is one of [cl_uint]. *)
Definition runtime_answers (rt : Enumerate.Runtime) : Prop :=
  Enumerate.platform_count_status rt = Builder.CL_SUCCESS
  /\ Enumerate.platform_ids_status rt = Builder.CL_SUCCESS
  /\ Forall (platform_answers (Enumerate.opencl_device_type (Enumerate.CYCLES_OPENCL_TEST rt)))
            (Enumerate.platforms rt)
  /\ Z.of_nat (length (Enumerate.platforms rt)) < 2 ^ 32.

(** The query for the name of every platform that has devices succeeds. *)
Definition platform_names_answer (rt : Enumerate.Runtime) : Prop :=
  Forall (fun p =>
            Enumerate.device_ids p (Enumerate.opencl_device_type (Enumerate.CYCLES_OPENCL_TEST rt))
            <> [] ->
            Enumerate.platform_name_status p = Builder.CL_SUCCESS)
         (Enumerate.platforms rt).

(** The entry [device_opencl_info] makes for the device [d] of the
    platform [p] under the number [n]. *)
Definition device_info (n : Z) (p : Enumerate.ClPlatform) (d : Enumerate.ClDevice)
  : Enumerate.DeviceInfo :=
  Enumerate.make_DeviceInfo Enumerate.DEVICE_OPENCL (Enumerate.device_name d) n
    (Enumerate.device_id_string n) true
    (Enumerate.opencl_kernel_use_advanced_shading (Enumerate.platform_name p)) true.

(** * Inputs of the examples *)

(** The spec's example: a 130x130 tile and the split size the halving loop
    returns for it. *)
Definition tile_130 : RenderTile :=
  make_RenderTile 0 0 130 130 0 1 0 1 0 130 (make_int2 130 130) 0 0 0 0 0 0 0 0.

(** A small device to run the loop on

    Its memory counts the rounds completed since the initialisation
    kernel; every ray turns inactive once [rounds_needed] rounds have
    run. *)

Module Toy.

Import Pipeline.

Definition RAY_ACTIVE : Z := 0.
Definition RAY_INACTIVE : Z := 1.

Definition run_kernel (kernelName : SplitKernel) (globalSize : Z * Z) (m : Z) : Z :=
  match kernelName with
  | DataInit => 0
  | SetUpNextIteration => m + 1
  | _ => m
  end.

Definition ray_state (rounds_needed : Z) (m : Z) (i : Z) : Z :=
  if m <? rounds_needed then RAY_ACTIVE else RAY_INACTIVE.

Definition device (iteration_times : Z) : PathTraceDevice Z :=
  make_PathTraceDevice iteration_times true (fun _ => RAY_ACTIVE) 0 [].

Definition tile_1 : RenderTile :=
  make_RenderTile 0 0 1 1 0 1 0 1 0 1 (make_int2 1 1) 0 0 0 0 0 0 0 0.

Abbreviation path_trace rounds_needed :=
  (Pipeline.path_trace Z run_kernel (ray_state rounds_needed) RAY_INACTIVE).
Abbreviation dispatch_loop rounds_needed :=
  (Pipeline.dispatch_loop Z run_kernel (ray_state rounds_needed) RAY_INACTIVE).
Abbreviation loop_body rounds_needed :=
  (Pipeline.loop_body Z run_kernel (ray_state rounds_needed) RAY_INACTIVE).
Abbreviation loop_entry := (Pipeline.loop_entry Z run_kernel).
Abbreviation loop_exit := (Pipeline.loop_exit Z run_kernel).

End Toy.

(** A device whose scene does not fit. *)

Module Exhausted.

Import Budget Scheduler.

Local Open Scope string_scope.

Definition sizes : KernelSizes :=
  {| sizeof_RNG := 4; sizeof_PathRadiance := 304;
     sizeof_Ray := 96; sizeof_PathState := 56; sizeof_Intersection := 32;
     sizeof_BsdfEval := 64; sizeof_ShaderData := 5504; sizeof_ShaderClosure := 80;
     MAX_CLOSURE := 64; NUM_QUEUES := 4;
     kernel_textures := ["__bvh_nodes"; "__tri_woop"; "__tex_image_packed"];
     num_SD_VAR := 40 |}.

(** 256 MB can be allocated; two textures of 150 MB each are bound. *)
Definition dev : SplitDevice :=
  {| ks := sizes;
     throughput_size := 16; L_transparent_size := 4; rayState_size := 1;
     work_element_size := 4; ISLamp_size := 4; AOAlpha_size := 16; AOBSDF_size := 16;
     per_thread_output_buffer_size := 16;
     total_allocatable_memory := 268435456;
     current_clos_max := 64;
     mem_map := {[ "__bvh_nodes" := 150000000; "__tex_image_packed" := 150000000 ]} |}.

Definition tile_64 : RenderTile :=
  make_RenderTile 0 0 64 64 0 1 0 1 0 64 (make_int2 64 64) 0 0 0 0 0 0 0 0.

Definition acquired : AcquiredTile := make_AcquiredTile tile_64 65536 64 64.

End Exhausted.

(** The same device with 4 GB allocatable: the scene fits. *)
Module Roomy.

Import Budget.

Definition dev : SplitDevice :=
  {| ks := Exhausted.sizes;
     throughput_size := 16; L_transparent_size := 4; rayState_size := 1;
     work_element_size := 4; ISLamp_size := 4; AOAlpha_size := 16; AOBSDF_size := 16;
     per_thread_output_buffer_size := 16;
     total_allocatable_memory := 4294967296;
     current_clos_max := 64;
     mem_map := mem_map Exhausted.dev |}.

End Roomy.

(** A run of the cache: device (1, 2) gets no context and stores 77; it
    then gets no base program and stores 88; a second device object for
    (1, 2) looks both up, and one for (1, 3) gives up creating a context. *)
Definition cache_after_lookup : Cache.OpenCLCache :=
  match Cache.get_context false 1 2 (Cache.make_OpenCLCache ∅ ∅) with
  | Some (_, self) => self
  | None => Cache.make_OpenCLCache ∅ ∅
  end.

Definition cache_ops : list Cache.Operation :=
  [Cache.op_get_program 1 2 Cache.OCL_DEV_BASE_PROGRAM;
   Cache.op_store_program 1 2 88 Cache.OCL_DEV_BASE_PROGRAM;
   Cache.op_get_context 1 2;
   Cache.op_get_program 1 2 Cache.OCL_DEV_BASE_PROGRAM;
   Cache.op_get_context 1 3;
   Cache.op_abandon 1 3].

Definition cache_after_store : Cache.OpenCLCache :=
  match Cache.store_context false 1 2 77 cache_after_lookup with
  | Some self => self
  | None => Cache.make_OpenCLCache ∅ ∅
  end.

Definition cache_after_ops : Cache.OpenCLCache :=
  match Cache.run_all false cache_ops cache_after_store with
  | Some self => self
  | None => Cache.make_OpenCLCache ∅ ∅
  end.

(** A run of [load_kernels]: the binary file is there but cannot be read;
    the kernel compiles from source and its binary is saved. *)
Module UnreadableBinary.

Import Builder.

Definition world : World :=
  {| version_check := true;
     version_message := EmptyString;
     clbin := "cycles_kernel.clbin";
     clbin_exists := true;
     read_binary_ok := false;
     binary_program := 0; binary_status := 0; binary_ciErr := 0;
     binary_build_err := 0; binary_build_log := EmptyString;
     source_program := 4096; source_ciErr := 0;
     source_build_err := 0; source_build_log := EmptyString;
     binary_size := 1024;
     write_binary_ok := true;
     kernel_ciErr := fun _ => 0 |}.

Definition device : Device :=
  {| device_initialized := true;
     cpPlatform := 1; cdDevice := 2; cpProgram := 0; ciErr := 0;
     error_msg := None; stderr := []; log := [];
     opencl_cache := Cache.make_OpenCLCache ∅ ∅ |}.

Definition cache_after_lookup : Cache.OpenCLCache :=
  match Cache.get_program false 1 2 Cache.OCL_DEV_BASE_PROGRAM (Cache.make_OpenCLCache ∅ ∅) with
  | Some (_, c) => c
  | None => Cache.make_OpenCLCache ∅ ∅
  end.

Definition device_after : Device :=
  match load_kernels false world device with
  | Some (_, dev') => dev'
  | None => device
  end.

Definition message : Message :=
  text_message "OpenCL failed to read cached binary cycles_kernel.clbin.".

End UnreadableBinary.

(** The cache once the second device object for (1, 2) has looked the
    context up. *)
Definition cache_after_hit : Cache.OpenCLCache :=
  match Cache.get_context false 1 2 cache_after_store with
  | Some (_, self) => self
  | None => Cache.make_OpenCLCache ∅ ∅
  end.

(** A second device object for (1, 2) that shares the cache the first one
    leaves, and the first one once it has loaded its kernels again. *)
Module Reload.

Import Builder.

Definition second_device : Device :=
  {| device_initialized := true;
     cpPlatform := 1; cdDevice := 2; cpProgram := 0; ciErr := 0;
     error_msg := None; stderr := []; log := [];
     opencl_cache := opencl_cache UnreadableBinary.device_after |}.

Definition device_reloaded : Device :=
  match load_kernels false UnreadableBinary.world UnreadableBinary.device_after with
  | Some (_, dev') => dev'
  | None => UnreadableBinary.device_after
  end.

End Reload.

(** A run of [load_kernels]: there is no binary file, the kernel compiles
    from source and the program has no binary to save. *)
Module EmptyBinary.

Import Builder.

Definition world : World :=
  {| version_check := true;
     version_message := EmptyString;
     clbin := "cycles_kernel.clbin";
     clbin_exists := false;
     read_binary_ok := false;
     binary_program := 0; binary_status := 0; binary_ciErr := 0;
     binary_build_err := 0; binary_build_log := EmptyString;
     source_program := 4096; source_ciErr := 0;
     source_build_err := 0; source_build_log := EmptyString;
     binary_size := 0;
     write_binary_ok := true;
     kernel_ciErr := fun _ => 0 |}.

End EmptyBinary.

(** The run state of the roomy device once the first tile is checked. *)
Definition roomy_checked : Scheduler.RunState :=
  match Scheduler.check_render_feasibility true 10000
          (Scheduler.initial_RunState Roomy.dev)
          (Scheduler.make_AcquiredTile
             (Scheduler.clear_offsets (Scheduler.tile Exhausted.acquired))
             (Scheduler.output_buffer_size Exhausted.acquired)
             (Scheduler.params_width Exhausted.acquired)
             (Scheduler.params_height Exhausted.acquired)) with
  | Some st => st
  | None => Scheduler.initial_RunState Roomy.dev
  end.

(** A device with a work-group size of 256 whose calls succeed and whose
    task is not cancelled; two textures, of which one is bound. *)
Module Mega.

Import Launch.

Local Open Scope string_scope.

Definition rt : Runtime :=
  {| status := fun _ _ => 0;
     created_buffer := fun cs _ _ => 1000 + Z.of_nat (length cs);
     kernel_work_group_size := fun _ => 256;
     max_work_item_size_1 := 256;
     get_cancel := fun _ => false |}.

(** The same runtime when no buffer can be created. *)
Definition rt_out_of_memory : Runtime :=
  {| status := fun _ call => match call with clCreateBuffer _ _ => -4 | _ => 0 end;
     created_buffer := fun _ _ _ => 0;
     kernel_work_group_size := fun _ => 256;
     max_work_item_size_1 := 256;
     get_cancel := fun _ => false |}.

Definition dev : Device :=
  {| ckFilmConvertByteKernel := 1; ckFilmConvertHalfFloatKernel := 2;
     ckShaderKernel := 3; ckBakeKernel := 4; ckPathTraceKernel := 5;
     null_mem := 9;
     mem_map := [("__bvh_nodes", 11)];
     const_mem_map := [("__data", make_device_memory 64 10 64)];
     kernel_textures := ["__bvh_nodes"; "__tri_woop"];
     SHADER_EVAL_BAKE := 2 |}.

Definition host : Host := make_Host 0 None [] [].

Definition tile (num_samples : Z) : RenderTile :=
  make_RenderTile 0 0 130 130 0 num_samples 0 1 0 130 (make_int2 130 130) 0 0 0 0 0 0 0 0.

Definition task (type : TaskType) : Task.DeviceTask :=
  {| Task.type := type;
     Task.x := 0; Task.y := 0; Task.w := 130; Task.h := 130;
     Task.sample := 0; Task.offset := 0; Task.stride := 130;
     Task.buffer := 20; Task.rgba_byte := 21; Task.rgba_half := 0;
     Task.shader_input := 22; Task.shader_output := 23;
     Task.shader_eval_type := 0; Task.shader_x := 0; Task.shader_w := 100;
     Task.num_samples := 3;
     Task.need_finish_queue := false;
     Task.tiles := [tile 2; tile 3] |}.

Definition texture : device_memory := make_device_memory 4096 0 0.

End Mega.

(** A runtime with two platforms, of one and of two devices; every call
    succeeds and the environment sets neither variable. *)
Module TwoPlatforms.

Import Enumerate.

Local Open Scope string_scope.

Definition geforce : ClDevice := make_ClDevice "GeForce GTX 980" 0 CL_DEVICE_TYPE_GPU 0.
Definition hawaii : ClDevice := make_ClDevice "Hawaii" 0 CL_DEVICE_TYPE_GPU 0.
Definition opteron : ClDevice := make_ClDevice "AMD Opteron" 0 CL_DEVICE_TYPE_CPU 0.

Definition nvidia : ClPlatform :=
  make_ClPlatform "NVIDIA CUDA" 0 (fun _ => 0) (fun _ => 0) (fun _ => [geforce]).

Definition amd : ClPlatform :=
  make_ClPlatform "AMD Accelerated Parallel Processing" 0 (fun _ => 0) (fun _ => 0)
                  (fun _ => [hawaii; opteron]).

Definition rt : Runtime := make_Runtime None None 0 0 [nvidia; amd].

End TwoPlatforms.

(** * Theorems *)

(** ** Machine integers *)

Section MachineIntegers.

Lemma to_int_id z : is_int z -> to_int z = z.
Proof.
  unfold is_int, to_int. intros H.
  rewrite Z.mod_small by lia. lia.
Qed.

Lemma to_int_range z : is_int (to_int z).
Proof.
  unfold is_int, to_int.
  pose proof (Z.mod_pos_bound (z + 2 ^ 31) (2 ^ 32) ltac:(lia)). lia.
Qed.

Lemma to_int_high z : 2 ^ 31 <= z < 2 ^ 32 -> to_int z = z - 2 ^ 32.
Proof.
  unfold to_int. intros H.
  replace (z + 2 ^ 31) with ((z - 2 ^ 31) + 1 * 2 ^ 32) by lia.
  rewrite Z.mod_add by lia. rewrite Z.mod_small by lia. lia.
Qed.

Lemma to_uint_id z : is_uint z -> to_uint z = z.
Proof. unfold is_uint, to_uint. intros H. apply Z.mod_small. lia. Qed.

Lemma to_uint_range z : is_uint (to_uint z).
Proof. unfold is_uint, to_uint. apply Z.mod_pos_bound. lia. Qed.

Lemma to_size_id z : is_size z -> to_size z = z.
Proof. unfold is_size, to_size. intros H. apply Z.mod_small. lia. Qed.

Lemma to_size_range z : is_size (to_size z).
Proof. unfold is_size, to_size. apply Z.mod_pos_bound. lia. Qed.

Lemma to_size_neg z : - 2 ^ 64 <= z < 0 -> to_size z = z + 2 ^ 64.
Proof.
  unfold to_size. intros H.
  replace z with ((z + 2 ^ 64) + (-1) * 2 ^ 64) at 1 by lia.
  rewrite Z.mod_add by lia. apply Z.mod_small. lia.
Qed.

End MachineIntegers.


(** ** Rounding to the dispatch granularity *)

Section Rounding.

Lemma quot_div_pos a b : 0 <= a -> 0 < b -> Z.quot a b = a / b.
Proof. intros. apply Z.quot_div_nonneg; lia. Qed.

Lemma div_bounds a b : 0 <= a -> 0 < b -> b * (a / b) <= a < b * (a / b) + b.
Proof.
  intros Ha Hb.
  pose proof (Z.div_mod a b ltac:(lia)).
  pose proof (Z.mod_pos_bound a b Hb). lia.
Qed.

Lemma div_le_self a b : 0 <= a -> 0 < b -> 0 <= a / b <= a.
Proof.
  intros Ha Hb. split; [apply Z.div_pos; lia|].
  apply Z.div_le_upper_bound; [lia|].
  replace a with (1 * a) at 1 by lia.
  apply Z.mul_le_mono_nonneg_r; lia.
Qed.

Lemma mul_bounds a b A B : 0 <= a <= A -> 0 <= b <= B -> 0 <= a * b <= A * B.
Proof.
  intros Ha Hb. split; [apply Z.mul_nonneg_nonneg; lia|].
  apply Z.mul_le_mono_nonneg; lia.
Qed.

(** Offsets of grid cells stay below the extent they divide. *)
Lemma grid_offset_bound n s d i :
  0 < s -> (n - 1) * s <= d - 1 -> 0 <= i < n -> 0 <= i * s <= d - 1.
Proof.
  intros Hs Hn Hi.
  pose proof (mul_bounds i s (n - 1) s ltac:(lia) ltac:(lia)). lia.
Qed.

(** Without overflow the [int] expression is the usual round-up. *)
Lemma ceil_round_int_pos d L :
  1 <= d -> 1 <= L -> d + L <= 2 ^ 31 ->
  ceil_round_int d L = ((d - 1) / L + 1) * L.
Proof.
  intros Hd HL Hov. unfold ceil_round_int, int_mul, int_add, int_div, int_sub.
  pose proof (div_bounds (d - 1) L ltac:(lia) ltac:(lia)) as Hq.
  pose proof (div_le_self (d - 1) L ltac:(lia) ltac:(lia)) as Hs.
  rewrite (to_int_id (d - 1)) by (unfold is_int; lia).
  rewrite quot_div_pos by lia.
  rewrite (to_int_id ((d - 1) / L)) by (unfold is_int; lia).
  rewrite (to_int_id ((d - 1) / L + 1)) by (unfold is_int; lia).
  apply to_int_id. unfold is_int. lia.
Qed.

Lemma ceil_round_int_bounds d L :
  1 <= d -> 1 <= L -> d + L <= 2 ^ 31 ->
  d <= ceil_round_int d L < d + L /\ (L | ceil_round_int d L).
Proof.
  intros Hd HL Hov. rewrite ceil_round_int_pos by lia.
  pose proof (div_bounds (d - 1) L ltac:(lia) ltac:(lia)) as Hq.
  split; [lia | apply Z.divide_factor_r].
Qed.

Lemma floor_round_int_nonneg d L :
  0 <= d < 2 ^ 31 -> 1 <= L ->
  floor_round_int d L = (d / L) * L.
Proof.
  intros Hd HL. unfold floor_round_int, int_mul, int_div.
  pose proof (div_bounds d L ltac:(lia) ltac:(lia)) as Hq.
  pose proof (div_le_self d L ltac:(lia) ltac:(lia)) as Hs.
  rewrite quot_div_pos by lia.
  rewrite (to_int_id (d / L)) by (unfold is_int; lia).
  apply to_int_id. unfold is_int. lia.
Qed.

Lemma floor_round_int_bounds d L :
  0 <= d < 2 ^ 31 -> 1 <= L ->
  0 <= floor_round_int d L <= d /\ (L | floor_round_int d L).
Proof.
  intros Hd HL. rewrite floor_round_int_nonneg by lia.
  pose proof (div_bounds d L ltac:(lia) ltac:(lia)) as Hq.
  pose proof (div_le_self d L ltac:(lia) ltac:(lia)) as Hs.
  split; [lia | apply Z.divide_factor_r].
Qed.

End Rounding.

(** ** The cache keeps what it holds *)

Section CacheFacts.

Import Cache.

Lemma slot_member_set_locked member b slot :
  slot_member member (set_locked b slot) = slot_member member slot.
Proof. destruct member; reflexivity. Qed.

Lemma slot_member_set_slot_member member member' thing slot :
  slot_member member (set_slot_member member' thing slot)
  = if decide (member = member') then thing else slot_member member slot.
Proof. destruct member, member'; reflexivity. Qed.

Lemma cached_clRetain handle self p d member :
  cached (clRetain handle self) p d member = cached self p d member.
Proof. reflexivity. Qed.

Lemma ref_count_clRetain handle self handle' :
  ref_count self handle' <= ref_count (clRetain handle self) handle'.
Proof.
  unfold ref_count, clRetain. cbn [refs].
  destruct (decide (handle = handle')) as [->|Hne].
  - rewrite lookup_insert_eq. cbn. unfold ref_count. lia.
  - rewrite lookup_insert_ne by exact Hne. lia.
Qed.

(** A lookup returns the content of the member and changes no member and
    no reference count. *)
Lemma get_something_spec NDEBUG p' d' member' self r self' :
  get_something NDEBUG p' d' member' self = Some (r, self') ->
  r = cached self p' d' member'
  /\ refs self' = refs self
  /\ forall p d member, cached self' p d member = cached self p d member.
Proof.
  unfold get_something. intros Hget.
  destruct (negb NDEBUG && (p' =? NULL)); [discriminate|].
  destruct (mutex_created _ && locked _); [discriminate|].
  assert (slot_member member' (default empty_Slot (cache self !! (p', d')))
          = cached self p' d' member') as Hslot.
  { unfold cached. destruct (cache self !! (p', d')); [reflexivity|].
    destruct member'; reflexivity. }
  assert (forall b p d member,
            cached (make_OpenCLCache
                      (<[(p', d') := set_locked b (default empty_Slot (cache self !! (p', d')))]>
                         (cache self)) (refs self)) p d member
            = cached self p d member) as Hkeep.
  { intros b p d member. unfold cached. cbn [cache].
    destruct (decide ((p', d') = (p, d))) as [Heq|Hne].
    - rewrite Heq, lookup_insert_eq, slot_member_set_locked.
      destruct (cache self !! (p, d)); [reflexivity|]. destruct member; reflexivity.
    - rewrite lookup_insert_ne by exact Hne. reflexivity. }
  destruct (Z.eqb_spec (slot_member member' (default empty_Slot (cache self !! (p', d')))) NULL)
    as [Hnull|Hset]; injection Hget as <- <-.
  - split; [rewrite <- Hslot; symmetry; exact Hnull|]. split; [reflexivity|]. apply Hkeep.
  - split; [exact Hslot|]. split; [reflexivity|]. apply Hkeep.
Qed.

(** A store sets its member and changes no other member; where the
    assertions are compiled in, the handle is not [NULL] and the member
    was [NULL]. *)
Lemma store_something_spec NDEBUG p' d' thing member' self self' :
  store_something NDEBUG p' d' thing member' self = Some self' ->
  (NDEBUG = false -> thing <> NULL /\ cached self p' d' member' = NULL)
  /\ cached self' p' d' member' = thing
  /\ refs self' = refs self
  /\ forall p d member,
       (p, d, member) <> (p', d', member') ->
       cached self' p d member = cached self p d member.
Proof.
  unfold store_something. intros Hstore.
  destruct (negb NDEBUG && ((p' =? NULL) || (d' =? NULL) || (thing =? NULL))) eqn:Hargs;
    [discriminate|].
  destruct (cache self !! (p', d')) as [slot|] eqn:Hslot; [|discriminate].
  destruct (negb NDEBUG && negb (slot_member member' slot =? NULL)) eqn:Hmember;
    [discriminate|].
  destruct (locked slot); [|discriminate]. cbn [negb] in Hstore.
  injection Hstore as <-.
  split; [|split; [|split; [reflexivity|]]].
  - intros ->. cbn [negb andb] in Hargs, Hmember.
    apply orb_false_elim in Hargs. destruct Hargs as [_ Hthing].
    apply negb_false_iff in Hmember.
    split; [apply Z.eqb_neq; exact Hthing|].
    unfold cached. rewrite Hslot. apply Z.eqb_eq. exact Hmember.
  - unfold cached. cbn [cache]. rewrite lookup_insert_eq, slot_member_set_locked,
      slot_member_set_slot_member. destruct (decide (member' = member')); congruence.
  - intros p d member Hne. unfold cached. cbn [cache].
    destruct (decide ((p', d') = (p, d))) as [Heq|Hkey].
    + injection Heq as <- <-. rewrite lookup_insert_eq, Hslot, slot_member_set_locked,
        slot_member_set_slot_member.
      destruct (decide (member = member')) as [->|]; [congruence|reflexivity].
    + rewrite lookup_insert_ne by exact Hkey. reflexivity.
Qed.

Lemma abandon_spec p' d' self self' :
  abandon p' d' self = Some self' ->
  refs self' = refs self
  /\ forall p d member, cached self' p d member = cached self p d member.
Proof.
  unfold abandon. intros Hab.
  destruct (cache self !! (p', d')) as [slot|] eqn:Hslot; [|discriminate].
  destruct (locked slot); [|discriminate]. injection Hab as <-.
  split; [reflexivity|]. intros p d member. unfold cached. cbn [cache].
  destruct (decide ((p', d') = (p, d))) as [Heq|Hkey].
  - injection Heq as <- <-. rewrite lookup_insert_eq, Hslot, slot_member_set_locked.
    reflexivity.
  - rewrite lookup_insert_ne by exact Hkey. reflexivity.
Qed.

(** A store that returns keeps the members that are set, when the
    assertions are compiled in or the store is made as they require. *)
Lemma store_something_keeps NDEBUG p' d' thing member' self self' :
  NDEBUG = false \/ cached self p' d' member' = NULL ->
  store_something NDEBUG p' d' thing member' self = Some self' ->
  refs self' = refs self
  /\ forall p d member, cached self p d member <> NULL ->
                        cached self' p d member = cached self p d member.
Proof.
  intros Hasserted Hst.
  destruct (store_something_spec _ _ _ _ _ _ _ Hst) as (Hdebug & _ & Hrefs & Hkeep).
  assert (cached self p' d' member' = NULL) as Hnull.
  { destruct Hasserted as [Hbuild|Hnull]; [apply Hdebug; exact Hbuild | exact Hnull]. }
  split; [exact Hrefs|]. intros p d member Hset. apply Hkeep. congruence.
Qed.

(** No operation but [flush] changes a member that is set or lowers a
    reference count, when the assertions are compiled in or the operation
    is made as they require. *)
Lemma run_keeps NDEBUG op self self' :
  is_flush op = false ->
  NDEBUG = false \/ store_asserts op self = true ->
  run NDEBUG op self = Some self' ->
  (forall p d member, cached self p d member <> NULL ->
                      cached self' p d member = cached self p d member)
  /\ (forall handle, ref_count self handle <= ref_count self' handle).
Proof.
  intros Hop Hasserted Hrun. destruct op as [p' d'|p' d' n|p' d' c|p' d' c n|p' d'|];
    cbn [run is_flush] in *; [| | | | |discriminate].
  - unfold get_context in Hrun.
    destruct (get_something NDEBUG p' d' member_context self) as [[r s1]|] eqn:Hget;
      [|discriminate].
    destruct (get_something_spec _ _ _ _ _ _ _ Hget) as (_ & Hrefs & Hkeep).
    destruct (r =? NULL); cbn in Hrun; injection Hrun as <-.
    + split; [intros; apply Hkeep|]. intros handle. unfold ref_count. rewrite Hrefs. lia.
    + split; [intros; rewrite cached_clRetain; apply Hkeep|].
      intros handle. etransitivity; [|apply ref_count_clRetain].
      unfold ref_count. rewrite Hrefs. lia.
  - unfold get_program in Hrun.
    destruct (get_something NDEBUG p' d' (program_member n) self) as [[r s1]|] eqn:Hget;
      [|discriminate].
    destruct (get_something_spec _ _ _ _ _ _ _ Hget) as (_ & Hrefs & Hkeep).
    destruct (r =? NULL); cbn in Hrun; injection Hrun as <-.
    + split; [intros; apply Hkeep|]. intros handle. unfold ref_count. rewrite Hrefs. lia.
    + split; [intros; rewrite cached_clRetain; apply Hkeep|].
      intros handle. etransitivity; [|apply ref_count_clRetain].
      unfold ref_count. rewrite Hrefs. lia.
  - unfold store_context in Hrun.
    destruct (store_something NDEBUG p' d' c member_context self) as [s1|] eqn:Hst;
      [|discriminate].
    injection Hrun as <-.
    assert (NDEBUG = false \/ cached self p' d' member_context = NULL) as Hnull.
    { destruct Hasserted as [Hbuild|Hop']; [left; exact Hbuild | right].
      unfold store_asserts in Hop'. apply andb_prop in Hop'. destruct Hop' as [_ Hop'].
      apply Z.eqb_eq. exact Hop'. }
    destruct (store_something_keeps _ _ _ _ _ _ _ Hnull Hst) as (Hrefs & Hkeep).
    split.
    + intros p d member Hset. rewrite cached_clRetain. apply Hkeep. exact Hset.
    + intros handle. etransitivity; [|apply ref_count_clRetain].
      unfold ref_count. rewrite Hrefs. lia.
  - unfold store_program in Hrun.
    destruct (store_something NDEBUG p' d' c (program_member n) self) as [s1|] eqn:Hst;
      [|discriminate].
    injection Hrun as <-.
    assert (NDEBUG = false \/ cached self p' d' (program_member n) = NULL) as Hnull.
    { destruct Hasserted as [Hbuild|Hop']; [left; exact Hbuild | right].
      unfold store_asserts in Hop'. apply andb_prop in Hop'. destruct Hop' as [_ Hop'].
      apply Z.eqb_eq. exact Hop'. }
    destruct (store_something_keeps _ _ _ _ _ _ _ Hnull Hst) as (Hrefs & Hkeep).
    split.
    + intros p d member Hset. rewrite cached_clRetain. apply Hkeep. exact Hset.
    + intros handle. etransitivity; [|apply ref_count_clRetain].
      unfold ref_count. rewrite Hrefs. lia.
  - destruct (abandon_spec _ _ _ _ Hrun) as (Hrefs & Hkeep).
    split; [intros; apply Hkeep|]. intros handle. unfold ref_count. rewrite Hrefs. lia.
Qed.

Lemma run_all_keeps NDEBUG ops :
  forall self self',
    forallb (fun op => negb (is_flush op)) ops = true ->
    NDEBUG = false \/ stores_as_asserted NDEBUG ops self = true ->
    run_all NDEBUG ops self = Some self' ->
    (forall p d member, cached self p d member <> NULL ->
                        cached self' p d member = cached self p d member)
    /\ (forall handle, ref_count self handle <= ref_count self' handle).
Proof.
  induction ops as [|op ops IH]; intros self self' Hops Hasserted Hrun; cbn in Hrun.
  - injection Hrun as <-. split; [reflexivity|]. intros; lia.
  - cbn [forallb] in Hops. apply andb_prop in Hops. destruct Hops as [Hop Hops].
    apply negb_true_iff in Hop.
    destruct (run NDEBUG op self) as [s1|] eqn:Hrun1; [|discriminate].
    assert ((NDEBUG = false \/ store_asserts op self = true)
            /\ (NDEBUG = false \/ stores_as_asserted NDEBUG ops s1 = true))
      as (Hasserted1 & Hasserted').
    { destruct Hasserted as [Hbuild|Hall]; [split; left; exact Hbuild|].
      cbn [stores_as_asserted] in Hall. rewrite Hrun1 in Hall.
      apply andb_prop in Hall. destruct Hall as [H1 H2]. split; right; assumption. }
    destruct (run_keeps NDEBUG op self s1 Hop Hasserted1 Hrun1) as (Hk1 & Hr1).
    destruct (IH s1 self' Hops Hasserted' Hrun) as (Hk & Hr).
    split.
    + intros p d member Hset. rewrite <- (Hk1 p d member Hset).
      apply Hk. rewrite (Hk1 p d member Hset). exact Hset.
    + intros handle. etransitivity; [apply Hr1 | apply Hr].
Qed.

(** Where the assertions are compiled in, every store of a run that
    returns is made as they require. *)
Lemma run_all_asserted ops :
  forall self self', run_all false ops self = Some self' ->
                     stores_as_asserted false ops self = true.
Proof.
  induction ops as [|op ops IH]; intros self self' Hrun; [reflexivity|].
  cbn [run_all stores_as_asserted] in *.
  destruct (run false op self) as [s1|] eqn:Hrun1; [|discriminate].
  rewrite (IH _ _ Hrun), andb_true_r.
  destruct op as [p' d'|p' d' n|p' d' c|p' d' c n|p' d'|]; try reflexivity;
    cbn [run store_asserts] in *; unfold store_context, store_program in Hrun1.
  - destruct (store_something false p' d' c member_context self) as [s2|] eqn:Hst;
      [|discriminate].
    destruct (store_something_spec _ _ _ _ _ _ _ Hst) as (Hdebug & _).
    destruct (Hdebug eq_refl) as (Hthing & Hnull).
    unfold store_something in Hst. cbn [negb andb] in Hst.
    destruct ((p' =? NULL) || (d' =? NULL) || (c =? NULL)) eqn:Hargs; [discriminate|].
    apply orb_false_elim in Hargs. destruct Hargs as [Hargs Hc].
    apply orb_false_elim in Hargs. destruct Hargs as [Hp Hd].
    rewrite Hp, Hd, Hc, Hnull. reflexivity.
  - destruct (store_something false p' d' c (program_member n) self) as [s2|] eqn:Hst;
      [|discriminate].
    destruct (store_something_spec _ _ _ _ _ _ _ Hst) as (Hdebug & _).
    destruct (Hdebug eq_refl) as (Hthing & Hnull).
    unfold store_something in Hst. cbn [negb andb] in Hst.
    destruct ((p' =? NULL) || (d' =? NULL) || (c =? NULL)) eqn:Hargs; [discriminate|].
    apply orb_false_elim in Hargs. destruct Hargs as [Hargs Hc].
    apply orb_false_elim in Hargs. destruct Hargs as [Hp Hd].
    rewrite Hp, Hd, Hc, Hnull. reflexivity.
Qed.

Lemma store_member_spec NDEBUG member p d thing self self' :
  store_member NDEBUG member p d thing self = Some self' ->
  (NDEBUG = false -> thing <> NULL) /\ cached self' p d member = thing.
Proof.
  intros Hstore.
  assert (exists s1, store_something NDEBUG p d thing member self = Some s1
                     /\ self' = clRetain thing s1) as (s1 & Hst & ->).
  { destruct member; cbn [store_member] in Hstore;
      unfold store_context, store_program in Hstore; cbn [program_member] in Hstore;
      match type of Hstore with
      | match ?e with _ => _ end = _ => destruct e as [s1|] eqn:Hst; [|discriminate]
      end; injection Hstore as <-; exists s1; split; reflexivity. }
  destruct (store_something_spec _ _ _ _ _ _ _ Hst) as (Hdebug & Hset & _).
  split; [intros Hbuild; apply Hdebug; exact Hbuild|]. rewrite cached_clRetain. exact Hset.
Qed.

Lemma get_member_spec NDEBUG member p d self r self' :
  get_member NDEBUG member p d self = Some (r, self') -> r = cached self p d member.
Proof.
  intros Hget.
  assert (exists r1 s1, get_something NDEBUG p d member self = Some (r1, s1)
                        /\ (r = NULL /\ r1 = NULL \/ r = r1)) as (r1 & s1 & Hg & Hr).
  { destruct member; cbn [get_member] in Hget;
      unfold get_context, get_program in Hget; cbn [program_member] in Hget;
      match type of Hget with
      | match ?e with _ => _ end = _ => destruct e as [[r1 s1]|] eqn:Hg; [|discriminate]
      end; exists r1, s1; (split; [reflexivity|]);
      destruct (Z.eqb_spec r1 NULL); injection Hget as <- _; auto. }
  destruct (get_something_spec _ _ _ _ _ _ _ Hg) as (Hr1 & _).
  destruct Hr as [[-> Hn]| ->]; congruence.
Qed.

Lemma flush_clears self p d member : cached (flush self) p d member = NULL.
Proof. unfold cached, flush. cbn [cache]. rewrite lookup_empty. reflexivity. Qed.

(** C9 (as the code has it).  Once a store has put a handle that is not
    [NULL] in a slot member, after any further lookups, stores and
    abandoned creations that run to completion, with no flush among them
    and every store made as [store_something] asserts (the platform, the
    device and the handle are not [NULL], the member is [NULL]), the
    member still holds the handle, a lookup of it that returns gives the
    handle, and no reference count is lower than it was.  In a build
    without [NDEBUG] a run that returns has made its stores so; with
    [NDEBUG] it is the callers that have to. *)
Theorem cached_handle_persists NDEBUG member p d thing self self1 ops self2 :
  store_member NDEBUG member p d thing self = Some self1 ->
  thing <> NULL ->
  forallb (fun op => negb (is_flush op)) ops = true ->
  NDEBUG = false \/ stores_as_asserted NDEBUG ops self1 = true ->
  run_all NDEBUG ops self1 = Some self2 ->
  cached self2 p d member = thing
  /\ (forall r self3, get_member NDEBUG member p d self2 = Some (r, self3) -> r = thing)
  /\ (forall handle, ref_count self1 handle <= ref_count self2 handle).
Proof.
  intros Hstore Hthing Hops Hasserted Hrun.
  destruct (store_member_spec _ _ _ _ _ _ _ Hstore) as (_ & Hset).
  destruct (run_all_keeps NDEBUG ops self1 self2 Hops Hasserted Hrun) as (Hkeep & Hrefs).
  assert (cached self2 p d member = thing) as Hheld.
  { rewrite (Hkeep p d member); [exact Hset|]. rewrite Hset. exact Hthing. }
  split; [exact Hheld|]. split; [|exact Hrefs].
  intros r self3 Hget. rewrite (get_member_spec _ _ _ _ _ _ _ Hget). exact Hheld.
Qed.

(** With [NDEBUG] a store to a member that is set returns and replaces the
    handle: a caller that missed on the base program of a device whose
    context is cached holds the lock of the slot, and its store of a
    second context overwrites the first, which the next lookup no longer
    returns.  Without [NDEBUG] the assertion of the store fails. *)
Lemma release_build_store_overwrites :
  store_member true member_context 1 2 77 cache_after_lookup = Some cache_after_store
  /\ exists self2,
       run_all true [op_get_program 1 2 OCL_DEV_BASE_PROGRAM; op_store_context 1 2 78]
         cache_after_store = Some self2
       /\ cached self2 1 2 member_context = 78
       /\ fst <$> get_member true member_context 1 2 self2 = Some 78
       /\ run_all false [op_get_program 1 2 OCL_DEV_BASE_PROGRAM; op_store_context 1 2 78]
            cache_after_store = None.
Proof.
  split; [vm_compute; reflexivity|].
  eexists. split; [vm_compute; reflexivity|].
  split; [vm_compute; reflexivity|]. split; vm_compute; reflexivity.
Qed.

End CacheFacts.

Lemma cached_handle_persists_witness :
  Cache.cached cache_after_ops 1 2 Cache.member_context = 77
  /\ fst <$> Cache.get_context true 1 2 cache_after_ops = Some 77
  /\ Cache.ref_count cache_after_ops 77 = 2.
Proof.
  assert (Cache.store_member true Cache.member_context 1 2 77 cache_after_lookup
          = Some cache_after_store) as Hstore by (vm_compute; reflexivity).
  assert (Cache.run_all true cache_ops cache_after_store = Some cache_after_ops)
    as Hrun by (vm_compute; reflexivity).
  assert (stores_as_asserted true cache_ops cache_after_store = true)
    as Hasserted by (vm_compute; reflexivity).
  destruct (cached_handle_persists true Cache.member_context 1 2 77 _ _ cache_ops _
              Hstore ltac:(unfold Cache.NULL; lia) ltac:(reflexivity)
              (or_intror Hasserted) Hrun) as (Hheld & _).
  split; [exact Hheld|]. split; vm_compute; reflexivity.
Defined.

(** ** Loading a cached binary or compiling *)

Section BuilderFacts.

Import Builder.

Lemma extends_trans e1 e2 dev1 dev2 dev3 :
  extends e1 dev1 dev2 -> extends e2 dev2 dev3 -> extends (e1 ++ e2) dev1 dev3.
Proof.
  intros (Hl1 & He1) (Hl2 & He2). split.
  - rewrite Hl2, Hl1, app_assoc. reflexivity.
  - intros H. apply He2, He1, H.
Qed.

Lemma extends_refl dev : extends [] dev dev.
Proof. split; [rewrite app_nil_r; reflexivity | auto]. Qed.

Lemma extends_with_stderr message dev : extends [] dev (with_stderr message dev).
Proof. split; [cbn; rewrite app_nil_r; reflexivity | auto]. Qed.

Lemma extends_with_event e dev : extends [e] dev (with_event e dev).
Proof. split; [reflexivity | auto]. Qed.

Lemma extends_with_ciErr err dev : extends [] dev (with_ciErr err dev).
Proof. split; [cbn; rewrite app_nil_r; reflexivity | auto]. Qed.

Lemma extends_with_cpProgram program dev : extends [] dev (with_cpProgram program dev).
Proof. split; [cbn; rewrite app_nil_r; reflexivity | auto]. Qed.

Lemma extends_with_opencl_cache c dev : extends [] dev (with_opencl_cache c dev).
Proof. split; [cbn; rewrite app_nil_r; reflexivity | auto]. Qed.

Lemma error_msg_with_error_msg_if_empty message dev :
  error_msg (with_error_msg_if_empty message dev) <> None.
Proof. cbn. destruct (error_msg dev); discriminate. Qed.

Lemma extends_with_error_msg_if_empty message dev :
  extends [] dev (with_error_msg_if_empty message dev).
Proof.
  split; [cbn; rewrite app_nil_r; reflexivity|].
  intros _. apply error_msg_with_error_msg_if_empty.
Qed.

Create HintDb builder.

#[local] Hint Resolve extends_refl extends_with_stderr extends_with_event
  extends_with_ciErr extends_with_cpProgram extends_with_opencl_cache
  extends_with_error_msg_if_empty : builder.

(** Evaluate the binds of a computation, leaving the assignments folded. *)
Ltac run_builder :=
  cbv beta iota delta [bind ret record set_ciErr set_cpProgram set_opencl_cache
                       set_error_msg_if_empty fprintf_stderr update].

Lemma extends_eq events events' dev dev' :
  extends events dev dev' -> events = events' -> extends events' dev dev'.
Proof. intros H <-. exact H. Qed.

(** Chain the single steps of a composed state, collecting the events. *)
Ltac chain_extends :=
  lazymatch goal with
  | |- extends _ ?dev ?dev => apply extends_refl
  | |- extends _ ?dev (with_event ?e ?d) =>
      eapply extends_trans; [|apply extends_with_event]; chain_extends
  | |- extends _ ?dev (with_stderr ?m ?d) =>
      eapply extends_trans; [|apply extends_with_stderr]; chain_extends
  | |- extends _ ?dev (with_ciErr ?m ?d) =>
      eapply extends_trans; [|apply extends_with_ciErr]; chain_extends
  | |- extends _ ?dev (with_cpProgram ?m ?d) =>
      eapply extends_trans; [|apply extends_with_cpProgram]; chain_extends
  | |- extends _ ?dev (with_opencl_cache ?m ?d) =>
      eapply extends_trans; [|apply extends_with_opencl_cache]; chain_extends
  | |- extends _ ?dev (with_error_msg_if_empty ?m ?d) =>
      eapply extends_trans; [|apply extends_with_error_msg_if_empty]; chain_extends
  end.

Ltac solve_extends :=
  eapply extends_eq; [chain_extends | cbn; reflexivity].

(** The error message of a state built by single assignments is set when
    one of them is a conditional assignment of the message. *)
Ltac solve_error_set :=
  intros; cbn [error_msg with_event with_stderr with_ciErr with_cpProgram with_opencl_cache];
  repeat first
    [ apply error_msg_with_error_msg_if_empty
    | progress cbn [error_msg with_event with_stderr with_ciErr with_cpProgram
                    with_opencl_cache] ];
  try (cbn; match goal with |- match ?m with _ => _ end <> None => destruct m; discriminate end).

Ltac finish_spec :=
  run_builder; eexists; split; [reflexivity|].

Lemma opencl_error_code_spec err dev :
  exists dev', opencl_error_code err dev = Some (negb (err =? CL_SUCCESS), dev')
               /\ extends [] dev dev'
               /\ (err <> CL_SUCCESS -> error_msg dev' <> None).
Proof.
  unfold opencl_error_code. destruct (Z.eqb_spec err CL_SUCCESS) as [Heq|Hne]; finish_spec.
  - split; [solve_extends | contradiction].
  - split; [solve_extends | solve_error_set].
Qed.

Lemma opencl_error_spec message dev :
  exists dev', opencl_error message dev = Some (tt, dev')
               /\ extends [] dev dev' /\ error_msg dev' <> None.
Proof.
  unfold opencl_error. finish_spec. split; [solve_extends | solve_error_set].
Qed.

Lemma build_kernel_spec err build_log dev :
  exists dev', build_kernel err build_log dev = Some (err =? CL_SUCCESS, dev')
               /\ extends (build_kernel_events err) dev dev'
               /\ (err <> CL_SUCCESS -> error_msg dev' <> None).
Proof.
  unfold build_kernel, build_kernel_events, opencl_error.
  destruct (String.eqb build_log EmptyString); destruct (Z.eqb_spec err CL_SUCCESS) as [Heq|Hne];
    cbn [negb]; finish_spec; (split; [solve_extends|]);
    try contradiction; solve_error_set.
Qed.

Lemma load_binary_spec world dev :
  exists dev', load_binary world dev = Some (binary_loads world, dev')
               /\ extends (load_binary_events world) dev dev'
               /\ (binary_loads world = false -> error_msg dev' <> None).
Proof.
  unfold load_binary, load_binary_events, binary_loads, build_kernel_events,
    build_kernel, opencl_error_code, opencl_error.
  destruct (read_binary_ok world); cbn [negb andb];
    [|finish_spec; (split; [solve_extends | solve_error_set])].
  destruct (Z.eqb_spec (binary_status world) CL_SUCCESS) as [Hs|Hs]; cbn [negb andb];
    [|finish_spec; (split; [solve_extends | solve_error_set])].
  destruct (Z.eqb_spec (binary_ciErr world) CL_SUCCESS) as [Hc|Hc]; cbn [negb andb];
    [|finish_spec; (split; [solve_extends | solve_error_set])].
  destruct (String.eqb (binary_build_log world) EmptyString);
    destruct (Z.eqb_spec (binary_build_err world) CL_SUCCESS) as [Hb|Hb];
    cbn [negb andb]; finish_spec; (split; [solve_extends|]);
    try discriminate; solve_error_set.
Qed.

Lemma compile_kernel_spec world dev :
  exists dev', compile_kernel world dev = Some (source_compiles world, dev')
               /\ extends (compile_kernel_events world) dev dev'.
Proof.
  unfold compile_kernel, compile_kernel_events, source_compiles, build_kernel_events,
    build_kernel, opencl_error_code, opencl_error.
  destruct (Z.eqb_spec (source_ciErr world) CL_SUCCESS) as [Hc|Hc]; cbn [negb andb];
    [|finish_spec; solve_extends].
  destruct (String.eqb (source_build_log world) EmptyString);
    destruct (Z.eqb_spec (source_build_err world) CL_SUCCESS) as [Hb|Hb];
    cbn [negb andb]; finish_spec; solve_extends.
Qed.

Lemma save_binary_spec world dev :
  exists dev', save_binary world dev
               = Some (negb (binary_size world =? 0) && write_binary_ok world, dev')
               /\ extends (save_binary_events world) dev dev'.
Proof.
  unfold save_binary, save_binary_events, opencl_error.
  destruct (Z.eqb_spec (binary_size world) 0) as [Hz|Hz]; cbn [negb andb];
    [finish_spec; solve_extends|].
  destruct (write_binary_ok world); cbn [negb andb]; finish_spec; solve_extends.
Qed.

Lemma create_kernel_spec world name dev r dev' :
  create_kernel world name dev = Some (r, dev') -> extends [] dev dev'.
Proof.
  unfold create_kernel, opencl_error_code.
  destruct (kernel_ciErr world name =? CL_SUCCESS); run_builder;
    intros H; injection H as <- <-; solve_extends.
Qed.

Lemma extends_nil_trans dev1 dev2 dev3 :
  extends [] dev1 dev2 -> extends [] dev2 dev3 -> extends [] dev1 dev3.
Proof. intros H1 H2. exact (extends_trans [] [] _ _ _ H1 H2). Qed.

Lemma create_kernel_bind {A : Type} world name (k : bool -> M A) dev r dev' :
  bind (create_kernel world name) k dev = Some (r, dev') ->
  exists failed dev1, extends [] dev dev1 /\ k failed dev1 = Some (r, dev').
Proof.
  unfold bind. destruct (create_kernel world name dev) as [[failed dev1]|] eqn:Hk;
    [|discriminate].
  intros H. exists failed, dev1. split; [|exact H].
  exact (create_kernel_spec _ _ _ _ _ Hk).
Qed.

Lemma find_kernels_spec world dev r dev' :
  find_kernels world dev = Some (r, dev') -> extends [] dev dev'.
Proof.
  unfold find_kernels. intros H.
  apply create_kernel_bind in H. destruct H as ([] & d1 & E1 & H);
    [injection H as <- <-; exact E1|].
  apply create_kernel_bind in H. destruct H as ([] & d2 & E2 & H);
    [injection H as <- <-; exact (extends_nil_trans _ _ _ E1 E2)|].
  apply create_kernel_bind in H. destruct H as ([] & d3 & E3 & H);
    [injection H as <- <-;
     exact (extends_nil_trans _ _ _ (extends_nil_trans _ _ _ E1 E2) E3)|].
  apply create_kernel_bind in H. destruct H as ([] & d4 & E4 & H);
    injection H as <- <-;
    exact (extends_nil_trans _ _ _
             (extends_nil_trans _ _ _ (extends_nil_trans _ _ _ E1 E2) E3) E4).
Qed.

Lemma cache_store_program_spec NDEBUG dev r dev' :
  cache_store_program NDEBUG dev = Some (r, dev') -> extends [] dev dev'.
Proof.
  unfold cache_store_program. destruct (Cache.store_program _ _ _ _ _ _); [|discriminate].
  run_builder. intros H. injection H as <- <-. solve_extends.
Qed.

Lemma cache_locker_released_spec dev r dev' :
  cache_locker_released dev = Some (r, dev') -> extends [] dev dev'.
Proof.
  unfold cache_locker_released. destruct (Cache.abandon _ _ _); [|discriminate].
  run_builder. intros H. injection H as <- <-. solve_extends.
Qed.

Lemma store_and_find_spec NDEBUG world dev r dev' :
  (cache_store_program NDEBUG ;;; find_kernels world) dev = Some (r, dev') -> extends [] dev dev'.
Proof.
  unfold bind. destruct (cache_store_program NDEBUG dev) as [[u d1]|] eqn:Hs; [|discriminate].
  intros Hf. apply cache_store_program_spec in Hs. apply find_kernels_spec in Hf.
  exact (extends_nil_trans _ _ _ Hs Hf).
Qed.

Lemma release_and_fail_spec dev r dev' :
  (cache_locker_released ;;; ret false) dev = Some (r, dev') -> extends [] dev dev'.
Proof.
  unfold bind. destruct (cache_locker_released dev) as [[u d1]|] eqn:Hs; [|discriminate].
  unfold ret. intros H. injection H as <- <-. exact (cache_locker_released_spec _ _ _ Hs).
Qed.

(** The branch taken when no binary was loaded. *)
Lemma compile_and_save_spec NDEBUG world dev r dev' :
  (compiled <- compile_kernel world ;;
   if negb compiled then cache_locker_released ;;; ret false
   else
     saved <- save_binary world ;;
     if negb saved then cache_locker_released ;;; ret false
     else cache_store_program NDEBUG ;;; find_kernels world) dev = Some (r, dev') ->
  extends (compile_kernel_events world
           ++ (if source_compiles world then save_binary_events world else []))
          dev dev'.
Proof.
  unfold bind at 1.
  destruct (compile_kernel_spec world dev) as (d1 & -> & E1).
  destruct (source_compiles world); cbn [negb].
  - unfold bind at 1. destruct (save_binary_spec world d1) as (d2 & -> & E2).
    intros H.
    assert (extends [] d2 dev') as E3.
    { destruct (negb (binary_size world =? 0) && write_binary_ok world); cbn [negb] in H;
        [exact (store_and_find_spec _ _ _ _ _ H) | exact (release_and_fail_spec _ _ _ H)]. }
    eapply extends_eq; [exact (extends_trans _ _ _ _ _ (extends_trans _ _ _ _ _ E1 E2) E3)|].
    rewrite app_nil_r. reflexivity.
  - intros H. apply release_and_fail_spec in H.
    eapply extends_eq; [exact (extends_trans _ _ _ _ _ E1 H)|]. reflexivity.
Qed.

(** The events [load_kernels] adds when the program is not in the cache
    and the OpenCL version is accepted. *)
Lemma load_kernels_events NDEBUG world dev c result dev' :
  device_initialized dev = true ->
  Cache.get_program NDEBUG (cpPlatform dev) (cdDevice dev) Cache.OCL_DEV_BASE_PROGRAM
                    (opencl_cache dev) = Some (Cache.NULL, c) ->
  version_check world = true ->
  load_kernels NDEBUG world dev = Some (result, dev') ->
  extends (artifact_events world) dev dev'
  /\ (clbin_exists world = true -> binary_loads world = false -> error_msg dev' <> None).
Proof.
  intros Hinit Hget Hver. unfold load_kernels. rewrite Hinit. cbn [negb].
  assert (cache_get_program NDEBUG dev
          = Some (Cache.NULL, with_cpProgram Cache.NULL (with_opencl_cache c dev))) as Hc.
  { unfold cache_get_program. rewrite Hget. reflexivity. }
  assert (extends [] dev (with_cpProgram Cache.NULL (with_opencl_cache c dev))) as E0
    by solve_extends.
  revert Hc E0. generalize (with_cpProgram Cache.NULL (with_opencl_cache c dev)).
  intros d0 Hc E0.
  unfold bind at 1. rewrite Hc. change (Cache.NULL =? Cache.NULL) with true. cbv beta iota.
  rewrite Hver. cbn [negb].
  unfold artifact_events. unfold bind at 1.
  destruct (clbin_exists world).
  - destruct (load_binary_spec world d0) as (d1 & Hl & E1 & Herr). rewrite Hl.
    destruct (binary_loads world); cbn [andb].
    + intros H. apply store_and_find_spec in H. split; [|discriminate].
      eapply extends_eq;
        [exact (extends_trans _ _ _ _ _ (extends_trans _ _ _ _ _ E0 E1) H)|].
      cbn [app]. rewrite !app_nil_r. reflexivity.
    + intros H. apply compile_and_save_spec in H. split.
      * eapply extends_eq;
          [exact (extends_trans _ _ _ _ _ (extends_trans _ _ _ _ _ E0 E1) H)|].
        cbn [app]. reflexivity.
      * intros _ _. destruct H as (_ & Hkeep). apply Hkeep, Herr. reflexivity.
  - cbn [andb]. unfold ret at 1. intros H.
    split; [|discriminate].
    apply compile_and_save_spec in H.
    eapply extends_eq; [exact (extends_trans _ _ _ _ _ E0 H)|]. reflexivity.
Qed.

(** *** Which calls the events contain *)

Lemma build_kernel_events_calls f err :
  In (ev_call f) (build_kernel_events err) -> f = fn_build_kernel.
Proof. cbn. intros [H|[H|[]]]; congruence. Qed.

Lemma load_binary_events_calls world f :
  In (ev_call f) (load_binary_events world) -> f = fn_load_binary \/ f = fn_build_kernel.
Proof.
  unfold load_binary_events. rewrite !in_app_iff. intros [H|[H|H]].
  - left. destruct H as [H|[]]. congruence.
  - right. destruct (_ && _); [exact (build_kernel_events_calls f _ H) | destruct H].
  - destruct H as [H|[]]. discriminate.
Qed.

Lemma load_binary_events_call world : In (ev_call fn_load_binary) (load_binary_events world).
Proof. left. reflexivity. Qed.

Lemma compile_kernel_events_calls world f :
  In (ev_call f) (compile_kernel_events world) ->
  f = fn_compile_kernel \/ f = fn_build_kernel.
Proof.
  unfold compile_kernel_events. rewrite !in_app_iff. intros [H|[H|H]].
  - left. destruct H as [H|[]]. congruence.
  - right. destruct (_ =? _); [exact (build_kernel_events_calls f _ H) | destruct H].
  - destruct H as [H|[]]. discriminate.
Qed.

Lemma compile_kernel_events_call world :
  In (ev_call fn_compile_kernel) (compile_kernel_events world).
Proof. left. reflexivity. Qed.

Lemma save_binary_events_calls world f :
  In (ev_call f) (save_binary_events world) -> f = fn_save_binary.
Proof.
  unfold save_binary_events. rewrite !in_app_iff. intros [H|[H|H]].
  - destruct H as [H|[]]. congruence.
  - destruct (_ =? _); [destruct H | destruct H as [H|[]]; discriminate].
  - destruct H as [H|[]]. discriminate.
Qed.

Lemma save_binary_events_call world : In (ev_call fn_save_binary) (save_binary_events world).
Proof. left. reflexivity. Qed.

Lemma load_binary_events_no_write world path :
  ~ In (ev_path_write_binary path) (load_binary_events world).
Proof.
  unfold load_binary_events, build_kernel_events. rewrite !in_app_iff.
  destruct (_ && _); cbn; intuition discriminate.
Qed.

Lemma compile_kernel_events_no_write world path :
  ~ In (ev_path_write_binary path) (compile_kernel_events world).
Proof.
  unfold compile_kernel_events, build_kernel_events. rewrite !in_app_iff.
  destruct (_ =? _); cbn; intuition discriminate.
Qed.

Lemma artifact_events_calls world :
  (In (ev_call fn_load_binary) (artifact_events world) <-> clbin_exists world = true)
  /\ (In (ev_call fn_compile_kernel) (artifact_events world)
      <-> clbin_exists world && binary_loads world = false)
  /\ (In (ev_call fn_save_binary) (artifact_events world)
      <-> (clbin_exists world && binary_loads world = false
           /\ source_compiles world = true))
  /\ (forall path, In (ev_path_write_binary path) (artifact_events world) ->
                   source_compiles world = true).
Proof.
  unfold artifact_events.
  assert (forall f, f <> fn_load_binary -> f <> fn_build_kernel ->
                    ~ In (ev_call f) (load_binary_events world)) as Hl.
  { intros f H1 H2 H. destruct (load_binary_events_calls world f H); contradiction. }
  assert (forall f, f <> fn_compile_kernel -> f <> fn_build_kernel ->
                    ~ In (ev_call f) (compile_kernel_events world)) as Hc.
  { intros f H1 H2 H. destruct (compile_kernel_events_calls world f H); contradiction. }
  assert (forall f, f <> fn_save_binary -> ~ In (ev_call f) (save_binary_events world)) as Hs.
  { intros f H1 H. apply H1. exact (save_binary_events_calls world f H). }
  pose proof (Hl fn_compile_kernel ltac:(discriminate) ltac:(discriminate)) as Hl_c.
  pose proof (Hl fn_save_binary ltac:(discriminate) ltac:(discriminate)) as Hl_s.
  pose proof (Hc fn_load_binary ltac:(discriminate) ltac:(discriminate)) as Hc_l.
  pose proof (Hc fn_save_binary ltac:(discriminate) ltac:(discriminate)) as Hc_s.
  pose proof (Hs fn_load_binary ltac:(discriminate)) as Hs_l.
  pose proof (Hs fn_compile_kernel ltac:(discriminate)) as Hs_c.
  pose proof (load_binary_events_call world) as Hl_l.
  pose proof (compile_kernel_events_call world) as Hc_c.
  pose proof (save_binary_events_call world) as Hs_s.
  pose proof (load_binary_events_no_write world) as Hlw.
  pose proof (compile_kernel_events_no_write world) as Hcw.
  clear Hl Hc Hs.
  destruct (clbin_exists world), (binary_loads world), (source_compiles world);
    cbn [andb]; cbv beta iota; rewrite ?app_nil_r, ?in_app_iff; cbn [In app];
    refine (conj _ (conj _ (conj _ _)));
    lazymatch goal with
    | |- forall path, _ =>
        intros path Hw; try reflexivity; exfalso;
        specialize (Hlw path); specialize (Hcw path);
        rewrite ?in_app_iff in Hw; cbn [In] in Hw; tauto
    | |- _ <-> _ =>
        split; intros H; try reflexivity; try discriminate; try tauto;
        try (destruct H; discriminate)
    end.
Qed.

(** C8 (as the code has it).  When [load_kernels] gets past the cache
    lookup with no cached program and an accepted OpenCL version:
    [load_binary] is called if and only if the binary file exists;
    [compile_kernel] is called if and only if no binary was loaded, the
    file being absent or its loading having failed; [save_binary] is
    called, and a binary written, only when [compile_kernel] has
    succeeded.  A failed [load_binary] is not silent: it leaves an error
    message in [error_msg]. *)
Theorem load_kernels_artifact NDEBUG world dev c result dev' :
  device_initialized dev = true ->
  log dev = [] ->
  Cache.get_program NDEBUG (cpPlatform dev) (cdDevice dev) Cache.OCL_DEV_BASE_PROGRAM
                    (opencl_cache dev) = Some (Cache.NULL, c) ->
  version_check world = true ->
  load_kernels NDEBUG world dev = Some (result, dev') ->
  (In (ev_call fn_load_binary) (log dev') <-> clbin_exists world = true)
  /\ (In (ev_call fn_compile_kernel) (log dev')
      <-> clbin_exists world && binary_loads world = false)
  /\ (In (ev_call fn_save_binary) (log dev')
      <-> (clbin_exists world && binary_loads world = false
           /\ source_compiles world = true))
  /\ (forall path, In (ev_path_write_binary path) (log dev') ->
                   source_compiles world = true)
  /\ (clbin_exists world = true -> binary_loads world = false -> error_msg dev' <> None).
Proof.
  intros Hinit Hlog Hget Hver Hrun.
  destruct (load_kernels_events NDEBUG world dev c result dev' Hinit Hget Hver Hrun)
    as ((Hevents & _) & Herr).
  rewrite Hlog in Hevents. cbn [app] in Hevents. rewrite Hevents.
  destruct (artifact_events_calls world) as (H1 & H2 & H3 & H4).
  exact (conj H1 (conj H2 (conj H3 (conj H4 Herr)))).
Qed.

End BuilderFacts.

Lemma load_kernels_artifact_witness :
  In (Builder.ev_call Builder.fn_load_binary) (Builder.log UnreadableBinary.device_after)
  /\ In (Builder.ev_call Builder.fn_compile_kernel) (Builder.log UnreadableBinary.device_after)
  /\ In (Builder.ev_call Builder.fn_save_binary) (Builder.log UnreadableBinary.device_after).
Proof.
  assert (Builder.load_kernels false UnreadableBinary.world UnreadableBinary.device
          = Some (true, UnreadableBinary.device_after)) as Hrun
    by (vm_compute; reflexivity).
  assert (Cache.get_program false (Builder.cpPlatform UnreadableBinary.device)
            (Builder.cdDevice UnreadableBinary.device) Cache.OCL_DEV_BASE_PROGRAM
            (Builder.opencl_cache UnreadableBinary.device)
          = Some (Cache.NULL, UnreadableBinary.cache_after_lookup)) as Hget
    by (vm_compute; reflexivity).
  destruct (load_kernels_artifact false UnreadableBinary.world UnreadableBinary.device
              UnreadableBinary.cache_after_lookup true UnreadableBinary.device_after
              ltac:(reflexivity) ltac:(reflexivity) Hget ltac:(reflexivity) Hrun)
    as (Hload & Hcompile & Hsave & _).
  split; [apply Hload; reflexivity|].
  split; [apply Hcompile; reflexivity|].
  apply Hsave. split; reflexivity.
Defined.

(** The fall back to compilation is not silent.  [load_kernels] returns
    true, and the failure of [load_binary] has been written to stderr and
    is the error message of the device. *)
Lemma load_binary_failure_is_reported :
  Builder.load_kernels false UnreadableBinary.world UnreadableBinary.device
  = Some (true, UnreadableBinary.device_after)
  /\ Builder.error_msg UnreadableBinary.device = None
  /\ Builder.error_msg UnreadableBinary.device_after = Some UnreadableBinary.message
  /\ Builder.stderr UnreadableBinary.device_after = [UnreadableBinary.message].
Proof. vm_compute. repeat split; reflexivity. Qed.

(** ** The feasible work size *)

Section FeasibleWorkSize.

Import Budget.

Lemma size_sub_exact a b : 0 <= b <= a -> a < 2 ^ 64 -> size_sub a b = a - b.
Proof. intros Hb Ha. unfold size_sub. apply to_size_id. unfold is_size. lia. Qed.

Lemma size_add_range a b : is_size (size_add a b).
Proof. apply to_size_range. Qed.

Lemma get_invariable_mem_allocated_range dev : is_size (get_invariable_mem_allocated dev).
Proof. apply size_add_range. Qed.

Lemma get_tile_specific_mem_allocated_range dev rtile :
  is_size (get_tile_specific_mem_allocated dev rtile).
Proof. apply size_add_range. Qed.

Lemma get_scene_specific_mem_allocated_range dev d_data_size :
  is_size (get_scene_specific_mem_allocated dev d_data_size).
Proof. apply size_add_range. Qed.

(** Without wrap-around the work size is the quotient of what is left of
    the memory by the footprint of a work-item. *)
Lemma available_work_size_exact total inv tile scene per :
  0 <= inv -> 0 <= tile -> 0 <= scene -> 0 < per -> total < 2 ^ 64 ->
  inv + tile + scene + DATA_ALLOCATION_MEM_FACTOR <= total ->
  available_work_size total inv tile scene per
  = (total - inv - tile - scene - DATA_ALLOCATION_MEM_FACTOR) / per.
Proof.
  unfold DATA_ALLOCATION_MEM_FACTOR. intros Hi Ht Hs Hp Htot Hsum.
  unfold available_work_size, DATA_ALLOCATION_MEM_FACTOR, size_div.
  rewrite (size_sub_exact total inv) by lia.
  rewrite (size_sub_exact (total - inv) tile) by lia.
  rewrite (size_sub_exact (total - inv - tile) scene) by lia.
  rewrite (size_sub_exact (total - inv - tile - scene) 5000000) by lia.
  apply quot_div_pos; lia.
Qed.

(** C2 (as the code has it).  When the invariable, tile-specific and
    scene-specific allocations and the safety margin, which is the constant
    [DATA_ALLOCATION_MEM_FACTOR] = 5,000,000, together do not exceed the
    allocatable memory, [get_feasible_global_work_size] is what is left of
    that memory divided by the footprint of a work-item.  With components
    100,000, 50,000 and 200,000, a footprint of 100 and 5,950,000 bytes
    allocatable, the arithmetic gives 6,000. *)
Theorem get_feasible_global_work_size_value dev rtile d_data_size :
  0 < get_per_thread_memory dev ->
  total_allocatable_memory dev < 2 ^ 64 ->
  get_invariable_mem_allocated dev
  + get_tile_specific_mem_allocated dev rtile
  + get_scene_specific_mem_allocated dev d_data_size
  + DATA_ALLOCATION_MEM_FACTOR <= total_allocatable_memory dev ->
  get_feasible_global_work_size dev rtile d_data_size
  = (total_allocatable_memory dev
     - get_invariable_mem_allocated dev
     - get_tile_specific_mem_allocated dev rtile
     - get_scene_specific_mem_allocated dev d_data_size
     - DATA_ALLOCATION_MEM_FACTOR) / get_per_thread_memory dev
  /\ available_work_size 5950000 100000 50000 200000 100 = 6000.
Proof.
  intros Hper Htot Hsum. split; [|reflexivity].
  unfold get_feasible_global_work_size.
  pose proof (get_invariable_mem_allocated_range dev) as Hi.
  pose proof (get_tile_specific_mem_allocated_range dev rtile) as Ht.
  pose proof (get_scene_specific_mem_allocated_range dev d_data_size) as Hs.
  unfold is_size in *.
  apply available_work_size_exact; lia.
Qed.

(** With the components of the spec's example the margin of 5,000,000
    exceeds what is left of 1,000,000 bytes: the subtraction wraps around
    in [size_t] and the quotient is not 6,000. *)
Lemma spec_example_work_size :
  available_work_size 1000000 100000 50000 200000 100 = 184467440737052016.
Proof. reflexivity. Qed.

End FeasibleWorkSize.


Section MaxFeasibleTile.

Import Splitter.

Lemma sqrt_small f : 0 <= f < 2 ^ 32 -> 0 <= Z.sqrt f < 2 ^ 16 /\ Z.sqrt f * Z.sqrt f <= f.
Proof.
  intros Hf. pose proof (Z.sqrt_spec f ltac:(lia)) as Hs. cbv zeta in Hs.
  pose proof (Z.sqrt_nonneg f).
  split; [split; [lia|] | lia].
  destruct (Z_lt_le_dec (Z.sqrt f) (2 ^ 16)) as [|Hge]; [assumption|].
  pose proof (mul_bounds (2 ^ 16) (2 ^ 16) (Z.sqrt f) (Z.sqrt f) ltac:(lia) ltac:(lia)).
  lia.
Qed.

Lemma get_max_zero : get_max_render_feasible_tile_size 0 = make_int2 64 0.
Proof. reflexivity. Qed.

Lemma ceil_test_sound cx cy f :
  0 <= cx * cy < 2 ^ 32 -> 0 <= f < 2 ^ 32 ->
  to_size (int_mul cx cy) <= f -> cx * cy <= f.
Proof.
  intros Hp Hf Hle. unfold int_mul in Hle.
  destruct (Z_lt_le_dec (cx * cy) (2 ^ 31)) as [Hlo|Hhi].
  - rewrite to_int_id in Hle by (unfold is_int; lia).
    rewrite to_size_id in Hle by (unfold is_size; lia). exact Hle.
  - rewrite to_int_high in Hle by lia.
    rewrite to_size_neg in Hle by lia. lia.
Qed.

Lemma get_max_unfold f :
  get_max_render_feasible_tile_size f =
  if to_size (int_mul (ceil_round_int (int_sqrt f) 64) (ceil_round_int (int_sqrt f) 1)) <=? f
  then make_int2 (ceil_round_int (int_sqrt f) 64) (ceil_round_int (int_sqrt f) 1)
  else make_int2 (floor_round_int (int_sqrt f) 64) (floor_round_int (int_sqrt f) 1).
Proof. reflexivity. Qed.

Lemma get_max_shape_pos f :
  0 <= f < 2 ^ 32 -> Z.sqrt f <> 0 ->
  let r := get_max_render_feasible_tile_size f in
  (SPLIT_KERNEL_LOCAL_SIZE_X | i2x r) /\ (SPLIT_KERNEL_LOCAL_SIZE_Y | i2y r) /\
  0 <= i2x r /\ 0 <= i2y r /\ i2x r * i2y r <= f /\
  (1 <= f < 64 -> i2x r = 0).
Proof.
  intros Hf Hnz.
  destruct (sqrt_small f Hf) as [Hs Hsq].
  intros r. subst r. rewrite get_max_unfold. unfold int_sqrt.
  rewrite (to_int_id (Z.sqrt f)) by (unfold is_int; lia).
  unfold SPLIT_KERNEL_LOCAL_SIZE_X, SPLIT_KERNEL_LOCAL_SIZE_Y.
  generalize dependent (Z.sqrt f). intros s Hnz Hs Hsq.
  destruct (ceil_round_int_bounds s 64 ltac:(lia) ltac:(lia) ltac:(lia)) as [Hcx Hdx].
  destruct (ceil_round_int_bounds s 1 ltac:(lia) ltac:(lia) ltac:(lia)) as [Hcy Hdy].
  destruct (floor_round_int_bounds s 64 ltac:(lia) ltac:(lia)) as [Hfx Hfdx].
  destruct (floor_round_int_bounds s 1 ltac:(lia) ltac:(lia)) as [Hfy Hfdy].
  revert Hcx Hdx Hcy Hdy Hfx Hfdx Hfy Hfdy.
  generalize (ceil_round_int s 64) (ceil_round_int s 1)
             (floor_round_int s 64) (floor_round_int s 1).
  intros cx cy fx fy Hcx Hdx Hcy Hdy Hfx Hfdx Hfy Hfdy.
  assert (cy = s) as Hcys by lia.
  assert (cx <= 2 ^ 16) as Hcxle.
  { destruct Hdx as [k Hk]. lia. }
  pose proof (mul_bounds cx cy (2 ^ 16) (2 ^ 16 - 1) ltac:(lia) ltac:(lia)) as Hprod.
  pose proof (mul_bounds fx fy s s ltac:(lia) ltac:(lia)) as Hfprod.
  destruct (Z.leb_spec (to_size (int_mul cx cy)) f) as [Hle|Hgt]; cbn [i2x i2y].
  - pose proof (ceil_test_sound cx cy f ltac:(lia) Hf Hle) as Hfit.
    repeat split; try lia; try assumption.
    intros Hsmall. exfalso.
    destruct Hdx as [k Hk]. assert (64 <= cx) by lia.
    pose proof (mul_bounds 64 1 cx cy ltac:(lia) ltac:(lia)). lia.
  - repeat split; try lia; try assumption.
    intros Hsmall.
    assert (s < 8).
    { destruct (Z_lt_le_dec s 8) as [|Hge]; [assumption|].
      pose proof (mul_bounds 8 8 s s ltac:(lia) ltac:(lia)). lia. }
    destruct Hfdx as [k Hk]. lia.
Qed.

Lemma sqrt_zero f : 0 <= f -> Z.sqrt f = 0 -> f = 0.
Proof.
  intros Hf Hz. pose proof (Z.sqrt_spec f Hf) as Hp. cbv zeta in Hp.
  rewrite Hz in Hp. lia.
Qed.

(** C10 (as the code has it).  For a feasible work size below [2^32] the
    tile size returned is a multiple of the 64x1 granularity in each
    dimension and its area does not exceed the work size, in the round-up
    branch as in the round-down branch; for a work size from 1 to 63 the
    width returned is 0. *)
Theorem get_max_render_feasible_tile_size_fits f :
  0 <= f < 2 ^ 32 ->
  let r := get_max_render_feasible_tile_size f in
  (SPLIT_KERNEL_LOCAL_SIZE_X | i2x r) /\ (SPLIT_KERNEL_LOCAL_SIZE_Y | i2y r) /\
  0 <= i2x r /\ 0 <= i2y r /\ i2x r * i2y r <= f /\
  (1 <= f < 64 -> i2x r = 0).
Proof.
  intros Hf. destruct (Z.eq_dec (Z.sqrt f) 0) as [Hz|Hnz].
  - assert (f = 0) as -> by (apply sqrt_zero; [lia | exact Hz]).
    rewrite get_max_zero. cbn [i2x i2y].
    split; [exists 1; reflexivity|]. split; [exists 0; reflexivity|]. lia.
  - apply get_max_shape_pos; assumption.
Qed.

Lemma get_max_render_feasible_tile_size_fits_witness :
  i2x (get_max_render_feasible_tile_size 8192) * i2y (get_max_render_feasible_tile_size 8192)
  <= 8192.
Proof.
  exact (proj1 (proj2 (proj2 (proj2 (proj2
           (get_max_render_feasible_tile_size_fits 8192
              ltac:(split; [discriminate | reflexivity]))))))).
Defined.

(** A work size of 0 is smaller than one 64x1 cell, and the width returned
    for it is 64: the round-up of 0 in truncating [int] arithmetic. *)
Lemma get_max_render_feasible_tile_size_zero :
  0 < SPLIT_KERNEL_LOCAL_SIZE_X * SPLIT_KERNEL_LOCAL_SIZE_Y
  /\ get_max_render_feasible_tile_size 0 = make_int2 64 0.
Proof. split; reflexivity. Qed.

(** Beyond [2^32] the [int] product of the round-up branch wraps around
    and the test against the work size lets a larger area through. *)
Lemma get_max_render_feasible_tile_size_wraps :
  get_max_render_feasible_tile_size 4295098369 = make_int2 65600 65537
  /\ 4295098369 < 65600 * 65537.
Proof. split; reflexivity. Qed.

End MaxFeasibleTile.

(** ** Splitting a tile into a grid of sub-tiles *)

Lemma for_loop_invariant {S : Type} (P : Z -> S -> Prop) (body : Z -> S -> option S) :
  forall (count : nat) (i : Z) (s : S),
    P i s ->
    (forall k s0, i <= k < i + Z.of_nat count -> P k s0 ->
                  exists s1, body k s0 = Some s1 /\ P (k + 1) s1) ->
    exists s', Splitter.for_loop count i body s = Some s' /\ P (i + Z.of_nat count) s'.
Proof.
  induction count as [|n IH]; intros i s HP Hstep.
  - exists s. split; [reflexivity|]. replace (i + Z.of_nat 0) with i by lia. exact HP.
  - destruct (Hstep i s ltac:(lia) HP) as (s1 & Hb & HP1).
    destruct (IH (i + 1) s1 HP1) as (s' & Hl & HP').
    { intros k s0 Hk. apply Hstep. lia. }
    exists s'. split.
    + cbn [Splitter.for_loop]. rewrite Hb. exact Hl.
    + replace (i + Z.of_nat (Datatypes.S n)) with (i + 1 + Z.of_nat n) by lia. exact HP'.
Qed.

Lemma ceil_div_eq a b : 0 < a -> 0 < b -> ceil_div a b = (a - 1) / b + 1.
Proof.
  intros Ha Hb. unfold ceil_div.
  replace (a + b - 1) with ((a - 1) + 1 * b) by lia.
  rewrite Z.div_add by lia. reflexivity.
Qed.

Lemma grid_index_bound n m j i :
  0 <= i < n -> 0 <= j < m -> 0 <= j * n /\ j * n + i < n * m.
Proof.
  intros Hi Hj.
  pose proof (mul_bounds j n (m - 1) n ltac:(lia) ltac:(lia)). lia.
Qed.

Lemma grid_index_lt n j j' i :
  0 <= i < n -> 0 <= j < j' -> j * n + i < j' * n.
Proof.
  intros Hi Hj.
  pose proof (mul_bounds (j + 1) n j' n ltac:(lia) ltac:(lia)). lia.
Qed.

Lemma grid_index_inj n j i j' i' :
  0 <= i < n -> 0 <= i' < n -> 0 <= j -> 0 <= j' ->
  j * n + i = j' * n + i' -> j = j' /\ i = i'.
Proof.
  intros Hi Hi' Hj Hj' Heq.
  destruct (Z.lt_trichotomy j j') as [Hlt|[Heqj|Hgt]].
  - pose proof (grid_index_lt n j j' i Hi ltac:(lia)). lia.
  - subst j'. lia.
  - pose proof (grid_index_lt n j' j i' Hi' ltac:(lia)). lia.
Qed.

Lemma ceil_div_bounds d s :
  0 < d -> 0 < s ->
  1 <= ceil_div d s /\ (ceil_div d s - 1) * s <= d - 1 /\ d <= ceil_div d s * s.
Proof.
  intros Hd Hs. rewrite ceil_div_eq by lia.
  pose proof (div_bounds (d - 1) s ltac:(lia) Hs).
  pose proof (div_le_self (d - 1) s ltac:(lia) Hs).
  lia.
Qed.

Lemma cell_len_bounds d s i :
  0 < d -> 0 < s -> 0 <= i < ceil_div d s ->
  0 < cell_len d s (ceil_div d s) i <= s /\
  i * s + cell_len d s (ceil_div d s) i <= d /\
  (i = ceil_div d s - 1 -> i * s + cell_len d s (ceil_div d s) i = d).
Proof.
  intros Hd Hs Hi. destruct (ceil_div_bounds d s Hd Hs) as (Hn1 & Hlo & Hhi).
  unfold cell_len. destruct (Z.eqb_spec i (ceil_div d s - 1)) as [->|Hne].
  - lia.
  - pose proof (mul_bounds (i + 1) s (ceil_div d s - 1) s ltac:(lia) ltac:(lia)). lia.
Qed.

Lemma cell_cover d s p :
  0 < d -> 0 < s -> 0 <= p < d ->
  0 <= p / s < ceil_div d s /\
  (p / s) * s <= p < (p / s) * s + cell_len d s (ceil_div d s) (p / s).
Proof.
  intros Hd Hs Hp.
  pose proof (div_bounds p s ltac:(lia) Hs) as Hq.
  pose proof (div_le_self p s ltac:(lia) Hs) as Hq0.
  assert (p / s <= (d - 1) / s) as Hmono by (apply Z.div_le_mono; lia).
  rewrite ceil_div_eq by lia.
  split; [lia|]. unfold cell_len.
  destruct (Z.eqb_spec (p / s) ((d - 1) / s + 1 - 1)); lia.
Qed.

Lemma cell_unique s i i' p len len' :
  0 < s -> len <= s -> len' <= s ->
  i * s <= p < i * s + len -> i' * s <= p < i' * s + len' -> i = i'.
Proof.
  intros Hs Hl Hl' Hi Hi'.
  destruct (Z.lt_trichotomy i i') as [Hlt|[Heq|Hgt]]; [|exact Heq|].
  - pose proof (Z.mul_le_mono_nonneg_r (i + 1) i' s ltac:(lia) ltac:(lia)). lia.
  - pose proof (Z.mul_le_mono_nonneg_r (i' + 1) i s ltac:(lia) ltac:(lia)). lia.
Qed.

Section SplitTiles.

Import Splitter.

Variable rtile : RenderTile.
Variable sts : int2.

Hypothesis Hw : 0 < w rtile.
Hypothesis Hh : 0 < h rtile.
Hypothesis Hsx : 0 < i2x sts.
Hypothesis Hsy : 0 < i2y sts.
Hypothesis Hrange : split_in_range rtile sts.

Let ntx : Z := ceil_div (w rtile) (i2x sts).
Let nty : Z := ceil_div (h rtile) (i2y sts).
Let offset_index : Z :=
  to_size (int_add (offset rtile) (int_add (x rtile) (int_mul (y rtile) (stride rtile)))).
Let offset_x : Z := size_mod offset_index (to_size (stride rtile)).
Let offset_y : Z := size_div offset_index (to_size (stride rtile)).

Let sub (j i : Z) : RenderTile :=
  sub_tile rtile sts (w rtile) (h rtile) ntx nty offset_x offset_y j i.

Lemma ntx_bounds : 1 <= ntx /\ (ntx - 1) * i2x sts <= w rtile - 1 /\ w rtile <= ntx * i2x sts.
Proof.
  subst ntx. rewrite ceil_div_eq by lia.
  pose proof (div_bounds (w rtile - 1) (i2x sts) ltac:(lia) Hsx).
  pose proof (div_le_self (w rtile - 1) (i2x sts) ltac:(lia) Hsx).
  lia.
Qed.

Lemma nty_bounds : 1 <= nty /\ (nty - 1) * i2y sts <= h rtile - 1 /\ h rtile <= nty * i2y sts.
Proof.
  subst nty. rewrite ceil_div_eq by lia.
  pose proof (div_bounds (h rtile - 1) (i2y sts) ltac:(lia) Hsy).
  pose proof (div_le_self (h rtile - 1) (i2y sts) ltac:(lia) Hsy).
  lia.
Qed.

Lemma num_tiles_x_eq : int_add (int_div (int_sub (w rtile) 1) (i2x sts)) 1 = ntx.
Proof.
  destruct Hrange as (Hx & Hy & Hwi & Hhi & Hsxi & Hsyi & Hxw & Hyh & Hst & Hn).
  unfold is_int in *. pose proof ntx_bounds as Hb. subst ntx.
  rewrite ceil_div_eq in * by lia.
  unfold int_add, int_div, int_sub.
  rewrite (to_int_id (w rtile - 1)) by (unfold is_int; lia).
  rewrite quot_div_pos by lia.
  pose proof (div_le_self (w rtile - 1) (i2x sts) ltac:(lia) Hsx).
  rewrite (to_int_id ((w rtile - 1) / i2x sts)) by (unfold is_int; lia).
  apply to_int_id. unfold is_int; lia.
Qed.

Lemma num_tiles_y_eq : int_add (int_div (int_sub (h rtile) 1) (i2y sts)) 1 = nty.
Proof.
  destruct Hrange as (Hx & Hy & Hwi & Hhi & Hsxi & Hsyi & Hxw & Hyh & Hst & Hn).
  unfold is_int in *. pose proof nty_bounds as Hb. subst nty.
  rewrite ceil_div_eq in * by lia.
  unfold int_add, int_div, int_sub.
  rewrite (to_int_id (h rtile - 1)) by (unfold is_int; lia).
  rewrite quot_div_pos by lia.
  pose proof (div_le_self (h rtile - 1) (i2y sts) ltac:(lia) Hsy).
  rewrite (to_int_id ((h rtile - 1) / i2y sts)) by (unfold is_int; lia).
  apply to_int_id. unfold is_int; lia.
Qed.

Lemma count_in_range : 1 <= ntx * nty < 2 ^ 31.
Proof.
  destruct Hrange as (_ & _ & _ & _ & _ & _ & _ & _ & _ & Hn).
  pose proof ntx_bounds. pose proof nty_bounds.
  pose proof (mul_bounds 1 1 ntx nty ltac:(lia) ltac:(lia)).
  subst ntx nty. split; [lia | exact Hn].
Qed.

(** The rectangle of the sub-tile in column [i] of row [j]. *)
Lemma sub_rect j i :
  0 <= i < ntx -> 0 <= j < nty ->
  x (sub j i) = x rtile + i * i2x sts /\
  y (sub j i) = y rtile + j * i2y sts /\
  w (sub j i) = cell_len (w rtile) (i2x sts) ntx i /\
  h (sub j i) = cell_len (h rtile) (i2y sts) nty j.
Proof.
  intros Hi Hj.
  destruct Hrange as (Hx & Hy & Hwi & Hhi & Hsxi & Hsyi & Hxw & Hyh & Hst & Hn).
  unfold is_int in *.
  pose proof ntx_bounds as Hbx. pose proof nty_bounds as Hby.
  pose proof count_in_range as Hc.
  pose proof (grid_offset_bound ntx (i2x sts) (w rtile) i Hsx ltac:(lia) Hi).
  pose proof (grid_offset_bound nty (i2y sts) (h rtile) j Hsy ltac:(lia) Hj).
  pose proof (mul_bounds 1 1 ntx nty ltac:(lia) ltac:(lia)).
  assert (ntx <= ntx * nty /\ nty <= ntx * nty) as [Hnx Hny].
  { pose proof (mul_bounds ntx 1 ntx nty ltac:(lia) ltac:(lia)).
    pose proof (mul_bounds 1 nty ntx nty ltac:(lia) ltac:(lia)). lia. }
  subst sub. cbn [sub_tile x y w h]. unfold int_add, int_sub, int_mul.
  rewrite (to_int_id (i * i2x sts)) by (unfold is_int; lia).
  rewrite (to_int_id (j * i2y sts)) by (unfold is_int; lia).
  rewrite (to_int_id (ntx - 1)) by (unfold is_int; lia).
  rewrite (to_int_id (nty - 1)) by (unfold is_int; lia).
  rewrite (to_int_id (x rtile + i * i2x sts)) by (unfold is_int; lia).
  rewrite (to_int_id (y rtile + j * i2y sts)) by (unfold is_int; lia).
  rewrite (to_int_id (w rtile - i * i2x sts)) by (unfold is_int; lia).
  rewrite (to_int_id (h rtile - j * i2y sts)) by (unfold is_int; lia).
  repeat split; reflexivity.
Qed.

Lemma vec_store_in_range (v : list RenderTile) index t :
  0 <= index < Z.of_nat (length v) ->
  vec_store v index t = Some (<[Z.to_nat index := t]> v).
Proof.
  intros Hi. unfold vec_store.
  destruct (Z.leb_spec 0 index); [|lia].
  destruct (Z.ltb_spec index (Z.of_nat (length v))); [reflexivity|lia].
Qed.

(** One row of the grid: the inner loop writes the cells of row [j] and
    leaves the rows before it as they were. *)
Lemma split_row j (v0 : list RenderTile) :
  0 <= j < nty -> Z.of_nat (length v0) = ntx * nty ->
  exists v1,
    for_upto ntx (fun tile_iter_x v =>
      vec_store v (int_add (int_mul j ntx) tile_iter_x) (sub j tile_iter_x)) v0 = Some v1
    /\ length v1 = length v0
    /\ (forall i, 0 <= i < ntx -> v1 !! Z.to_nat (j * ntx + i) = Some (sub j i))
    /\ (forall k, (k < Z.to_nat (j * ntx))%nat -> v1 !! k = v0 !! k).
Proof.
  intros Hj Hlen.
  pose proof ntx_bounds as Hbx. pose proof count_in_range as Hc.
  set (P := fun (i : Z) (v : list RenderTile) =>
    length v = length v0
    /\ (forall i', 0 <= i' < i -> v !! Z.to_nat (j * ntx + i') = Some (sub j i'))
    /\ (forall k, (k < Z.to_nat (j * ntx))%nat -> v !! k = v0 !! k)).
  destruct (for_loop_invariant P
              (fun tile_iter_x v =>
                 vec_store v (int_add (int_mul j ntx) tile_iter_x) (sub j tile_iter_x))
              (Z.to_nat ntx) 0 v0) as (v1 & Hrun & HP).
  - unfold P. split; [reflexivity|]. split; [intros i' Hi'; lia | reflexivity].
  - intros k v Hk (Hl & Hdone & Hbefore).
    assert (0 <= k < ntx) as Hk' by lia.
    destruct (grid_index_bound ntx nty j k Hk' Hj) as [Hjn Hidx].
    assert (int_add (int_mul j ntx) k = j * ntx + k) as Hix.
    { unfold int_add, int_mul.
      rewrite (to_int_id (j * ntx)) by (unfold is_int; lia).
      apply to_int_id. unfold is_int; lia. }
    rewrite Hix.
    rewrite vec_store_in_range by (rewrite Hl; lia).
    eexists. split; [reflexivity|]. unfold P.
    split; [rewrite length_insert; exact Hl|]. split.
    + intros i' Hi'. destruct (Z.eq_dec i' k) as [->|Hne].
      * apply list_lookup_insert_eq. rewrite Hl. lia.
      * rewrite list_lookup_insert_ne by lia. apply Hdone. lia.
    + intros k' Hk'lt. rewrite list_lookup_insert_ne by lia. apply Hbefore. exact Hk'lt.
  - exists v1. unfold for_upto. split; [exact Hrun|].
    destruct HP as (Hl & Hdone & Hbefore).
    split; [exact Hl|]. split; [|exact Hbefore].
    intros i Hi. apply Hdone. lia.
Qed.

(** The vector [split_tiles] returns, cell by cell. *)
Lemma split_tiles_grid :
  exists l,
    split_tiles rtile sts = Some l
    /\ Z.of_nat (length l) = ntx * nty
    /\ (forall j i, 0 <= j < nty -> 0 <= i < ntx ->
                    l !! Z.to_nat (j * ntx + i) = Some (sub j i)).
Proof.
  pose proof ntx_bounds as Hbx. pose proof nty_bounds as Hby.
  pose proof count_in_range as Hc.
  assert (Hr := Hrange).
  destruct Hr as (Hx & Hy & Hwi & Hhi & Hsxi & Hsyi & Hxw & Hyh & Hst & Hn).
  unfold split_tiles.
  destruct (Z.eqb_spec (i2x sts) 0) as [|_]; [lia|].
  destruct (Z.eqb_spec (i2y sts) 0) as [|_]; [lia|].
  destruct (Z.eqb_spec (to_size (stride rtile)) 0) as [|_]; [contradiction|].
  cbn [orb]. rewrite num_tiles_x_eq, num_tiles_y_eq.
  fold offset_index. fold offset_x. fold offset_y.
  assert (to_size (int_mul ntx nty) = ntx * nty) as ->.
  { unfold int_mul. rewrite to_int_id by (unfold is_int; lia).
    apply to_size_id. unfold is_size; lia. }
  set (v0 := replicate (Z.to_nat (ntx * nty)) default_RenderTile).
  set (R := fun (j : Z) (v : list RenderTile) =>
    Z.of_nat (length v) = ntx * nty
    /\ (forall j' i, 0 <= j' < j -> 0 <= i < ntx ->
                     v !! Z.to_nat (j' * ntx + i) = Some (sub j' i))).
  destruct (for_loop_invariant R
              (fun tile_iter_y v =>
                 for_upto ntx (fun tile_iter_x v =>
                   vec_store v (int_add (int_mul tile_iter_y ntx) tile_iter_x)
                             (sub tile_iter_y tile_iter_x)) v)
              (Z.to_nat nty) 0 v0) as (l & Hrun & HR).
  - unfold R. split; [|intros; lia].
    subst v0. rewrite length_replicate. lia.
  - intros j v Hj (Hl & Hrows).
    assert (0 <= j < nty) as Hj' by lia.
    destruct (split_row j v Hj' Hl) as (v1 & Hrow & Hl1 & Hnew & Hold).
    exists v1. split; [exact Hrow|]. unfold R. split; [rewrite Hl1; exact Hl|].
    intros j' i Hj'' Hi.
    destruct (Z.eq_dec j' j) as [->|Hne].
    + apply Hnew. exact Hi.
    + rewrite Hold.
      * apply Hrows; lia.
      * pose proof (grid_index_lt ntx j' j i Hi ltac:(lia)).
        destruct (grid_index_bound ntx nty j' i Hi ltac:(lia)). lia.
  - exists l. split; [exact Hrun|]. destruct HR as (Hl & Hrows).
    split; [exact Hl|]. intros j i Hj Hi. apply Hrows; lia.
Qed.

(** Every element of the returned vector is a cell of the grid. *)
Lemma split_tiles_cell (l : list RenderTile) (k : nat) t :
  Z.of_nat (length l) = ntx * nty ->
  (forall j i, 0 <= j < nty -> 0 <= i < ntx ->
               l !! Z.to_nat (j * ntx + i) = Some (sub j i)) ->
  l !! k = Some t ->
  exists j i, 0 <= j < nty /\ 0 <= i < ntx /\ k = Z.to_nat (j * ntx + i) /\ t = sub j i.
Proof.
  intros Hl Hcells Hk.
  pose proof ntx_bounds as Hbx.
  apply lookup_lt_Some in Hk as Hlt.
  set (kz := Z.of_nat k).
  assert (0 <= kz < ntx * nty) as Hkz by (subst kz; lia).
  pose proof (div_bounds kz ntx ltac:(lia) ltac:(lia)) as Hq.
  pose proof (div_le_self kz ntx ltac:(lia) ltac:(lia)) as Hq0.
  assert (kz / ntx < nty) as Hjlt by (apply Z.div_lt_upper_bound; lia).
  exists (kz / ntx), (kz - ntx * (kz / ntx)).
  assert (kz / ntx * ntx + (kz - ntx * (kz / ntx)) = kz) as Hsum by lia.
  split; [lia|]. split; [lia|]. split.
  - rewrite Hsum. subst kz. lia.
  - specialize (Hcells (kz / ntx) (kz - ntx * (kz / ntx)) ltac:(lia) ltac:(lia)).
    rewrite Hsum in Hcells. subst kz. rewrite Nat2Z.id in Hcells. congruence.
Qed.

Lemma sub_in_tile j i px py :
  0 <= j < nty -> 0 <= i < ntx ->
  in_tile (sub j i) px py <->
  (i * i2x sts <= px - x rtile < i * i2x sts + cell_len (w rtile) (i2x sts) ntx i /\
   j * i2y sts <= py - y rtile < j * i2y sts + cell_len (h rtile) (i2y sts) nty j).
Proof.
  intros Hj Hi. destruct (sub_rect j i Hi Hj) as (Ex & Ey & Ew & Eh).
  unfold in_tile. rewrite Ex, Ey, Ew, Eh. lia.
Qed.

(** C1. [split_tiles] returns the [ceil(w/split_x) * ceil(h/split_y)] cells
    of a grid in row-major order; a cell has extent [(split_x, split_y)]
    unless it is in the last column or row, where it ends with the tile;
    the cells' rectangles lie inside the tile, cover it and are pairwise
    disjoint.  The side conditions of [split_in_range] say that the
    quantities involved are machine integers. *)
Theorem split_tiles_partition :
  exists l,
    split_tiles rtile sts = Some l
    /\ Z.of_nat (length l) = ntx * nty
    /\ (forall j i, 0 <= j < nty -> 0 <= i < ntx ->
          exists t, l !! Z.to_nat (j * ntx + i) = Some t
                    /\ x t = x rtile + i * i2x sts
                    /\ y t = y rtile + j * i2y sts
                    /\ w t = cell_len (w rtile) (i2x sts) ntx i
                    /\ h t = cell_len (h rtile) (i2y sts) nty j)
    /\ (forall (k : nat) t, l !! k = Some t ->
          0 < w t <= i2x sts /\ 0 < h t <= i2y sts
          /\ forall px py, in_tile t px py -> in_tile rtile px py)
    /\ (forall px py, in_tile rtile px py ->
          exists (k : nat) t, l !! k = Some t /\ in_tile t px py)
    /\ (forall (k1 k2 : nat) t1 t2 px py,
          l !! k1 = Some t1 -> l !! k2 = Some t2 ->
          in_tile t1 px py -> in_tile t2 px py -> k1 = k2).
Proof.
  destruct split_tiles_grid as (l & Hrun & Hlen & Hcells).
  exists l. split; [exact Hrun|]. split; [exact Hlen|].
  split; [|split; [|split]].
  - intros j i Hj Hi. exists (sub j i). split; [apply Hcells; assumption|].
    apply sub_rect; assumption.
  - intros k t Hk.
    destruct (split_tiles_cell l k t Hlen Hcells Hk) as (j & i & Hj & Hi & _ & ->).
    destruct (sub_rect j i Hi Hj) as (Ex & Ey & Ew & Eh).
    destruct (cell_len_bounds (w rtile) (i2x sts) i Hw Hsx Hi) as (Hcw & Hcx & _).
    destruct (cell_len_bounds (h rtile) (i2y sts) j Hh Hsy Hj) as (Hch & Hcy & _).
    fold ntx in Hcw, Hcx. fold nty in Hch, Hcy.
    rewrite Ew, Eh. split; [exact Hcw|]. split; [exact Hch|].
    intros px py Hin. apply (sub_in_tile j i px py Hj Hi) in Hin.
    pose proof (Z.mul_nonneg_nonneg i (i2x sts) ltac:(lia) ltac:(lia)).
    pose proof (Z.mul_nonneg_nonneg j (i2y sts) ltac:(lia) ltac:(lia)).
    unfold in_tile. lia.
  - intros px py (Hpx & Hpy).
    destruct (cell_cover (w rtile) (i2x sts) (px - x rtile) Hw Hsx ltac:(lia)) as (Hi & Hix).
    destruct (cell_cover (h rtile) (i2y sts) (py - y rtile) Hh Hsy ltac:(lia)) as (Hj & Hjy).
    fold ntx in Hi, Hix. fold nty in Hj, Hjy.
    exists (Z.to_nat ((py - y rtile) / i2y sts * ntx + (px - x rtile) / i2x sts)).
    exists (sub ((py - y rtile) / i2y sts) ((px - x rtile) / i2x sts)).
    split; [apply Hcells; assumption|].
    apply sub_in_tile; [assumption|assumption|]. split; assumption.
  - intros k1 k2 t1 t2 px py Hk1 Hk2 Hin1 Hin2.
    destruct (split_tiles_cell l k1 t1 Hlen Hcells Hk1) as (j1 & i1 & Hj1 & Hi1 & -> & ->).
    destruct (split_tiles_cell l k2 t2 Hlen Hcells Hk2) as (j2 & i2 & Hj2 & Hi2 & -> & ->).
    apply (sub_in_tile j1 i1 px py Hj1 Hi1) in Hin1. destruct Hin1 as (Hx1 & Hy1).
    apply (sub_in_tile j2 i2 px py Hj2 Hi2) in Hin2. destruct Hin2 as (Hx2 & Hy2).
    destruct (cell_len_bounds (w rtile) (i2x sts) i1 Hw Hsx Hi1) as (Hcw1 & _).
    destruct (cell_len_bounds (w rtile) (i2x sts) i2 Hw Hsx Hi2) as (Hcw2 & _).
    destruct (cell_len_bounds (h rtile) (i2y sts) j1 Hh Hsy Hj1) as (Hch1 & _).
    destruct (cell_len_bounds (h rtile) (i2y sts) j2 Hh Hsy Hj2) as (Hch2 & _).
    fold ntx in Hcw1, Hcw2. fold nty in Hch1, Hch2.
    assert (i1 = i2) as ->.
    { eapply (cell_unique (i2x sts) i1 i2 (px - x rtile)); [exact Hsx| | |exact Hx1|exact Hx2]; lia. }
    assert (j1 = j2) as ->.
    { eapply (cell_unique (i2y sts) j1 j2 (py - y rtile)); [exact Hsy| | |exact Hy1|exact Hy2]; lia. }
    reflexivity.
Qed.

End SplitTiles.

Lemma tile_130_in_range : split_in_range tile_130 (make_int2 64 65).
Proof.
  unfold split_in_range, is_int. cbn.
  repeat split; try lia; try discriminate.
Qed.

Lemma split_tiles_partition_witness :
  exists l, Splitter.split_tiles tile_130 (make_int2 64 65) = Some l
            /\ Z.of_nat (length l) = 6.
Proof.
  destruct (split_tiles_partition tile_130 (make_int2 64 65)
              ltac:(cbn; lia) ltac:(cbn; lia) ltac:(cbn; lia) ltac:(cbn; lia)
              tile_130_in_range) as (l & Hrun & Hlen & _).
  exists l. split; [exact Hrun | exact Hlen].
Defined.

(** ** The dispatch loop: polling and the iteration budget *)

Section PipelineFacts.

Import Pipeline.

Variable Mem : Type.
Variable run_kernel : SplitKernel -> Z * Z -> Mem -> Mem.
Variable ray_state : Mem -> Z -> Z.
Variable RAY_INACTIVE : Z.

Local Abbreviation loop_body := (loop_body Mem run_kernel ray_state RAY_INACTIVE).
Local Abbreviation dispatch_loop := (dispatch_loop Mem run_kernel ray_state RAY_INACTIVE).
Local Abbreviation loop_entry := (loop_entry Mem run_kernel).
Local Abbreviation loop_exit := (loop_exit Mem run_kernel).
Local Abbreviation path_trace := (path_trace Mem run_kernel ray_state RAY_INACTIVE).
Local Abbreviation scan_ray_state := (scan_ray_state RAY_INACTIVE).
Local Abbreviation all_inactive := (all_inactive Mem RAY_INACTIVE).

Lemma scan_ray_state_false host count :
  forall i, scan_ray_state host i count = false ->
            forall k, i <= k < i + Z.of_nat count -> host k = RAY_INACTIVE.
Proof.
  induction count as [|n IH]; intros i Hscan k Hk; [lia|].
  cbn [Pipeline.scan_ray_state] in Hscan.
  destruct (Z.eqb_spec (host i) RAY_INACTIVE) as [Heq|Hne]; [|discriminate].
  destruct (Z.eq_dec k i) as [->|Hki]; [exact Heq|].
  apply (IH (i + 1) Hscan). lia.
Qed.

Lemma scan_ray_state_true host count :
  forall i, scan_ray_state host i count = true ->
            exists k, i <= k < i + Z.of_nat count /\ host k <> RAY_INACTIVE.
Proof.
  induction count as [|n IH]; intros i Hscan; [discriminate|].
  cbn [Pipeline.scan_ray_state] in Hscan.
  destruct (Z.eqb_spec (host i) RAY_INACTIVE) as [Heq|Hne].
  - destruct (IH (i + 1) Hscan) as (k & Hk & Hact). exists k. split; [lia|exact Hact].
  - exists i. split; [lia|exact Hne].
Qed.

(** A pass of the loop that clears the flag has polled only inactive rays;
    a pass that keeps it has polled a ray that is not inactive. *)
Lemma loop_body_poll global_size st :
  if activeRaysAvailable (loop_body global_size st)
  then exists i, polled global_size i
                 /\ hostRayStateArray (dev (loop_body global_size st)) i <> RAY_INACTIVE
  else all_inactive global_size (dev (loop_body global_size st)).
Proof.
  unfold Pipeline.loop_body.
  pose proof (to_size_range (fst global_size * snd global_size)) as Hcount.
  fold (size_mul (fst global_size) (snd global_size)) in Hcount. unfold is_size in Hcount.
  destruct (Pipeline.scan_ray_state _ _ _ _) eqn:Hscan; cbn [activeRaysAvailable dev].
  - apply scan_ray_state_true in Hscan. destruct Hscan as (k & Hk & Hact).
    exists k. split; [unfold polled; lia|exact Hact].
  - intros i Hi. unfold polled in Hi.
    apply (scan_ray_state_false _ _ _ Hscan). lia.
Qed.

Lemma dispatch_loop_inactive global_size fuel :
  forall st st',
    (activeRaysAvailable st = false -> all_inactive global_size (dev st)) ->
    dispatch_loop fuel global_size st = Some st' ->
    activeRaysAvailable st' = false /\ all_inactive global_size (dev st').
Proof.
  induction fuel as [|n IH]; intros st st' Hinv Hrun; cbn [Pipeline.dispatch_loop] in Hrun.
  - destruct (activeRaysAvailable st) eqn:Hact; [discriminate|].
    injection Hrun as <-. split; [exact Hact | apply Hinv; reflexivity].
  - destruct (activeRaysAvailable st) eqn:Hact.
    + apply (IH (loop_body global_size st) st'); [|exact Hrun].
      intros Hoff. pose proof (loop_body_poll global_size st) as Hpoll.
      rewrite Hoff in Hpoll. exact Hpoll.
    + injection Hrun as <-. split; [exact Hact | apply Hinv; reflexivity].
Qed.

(** C5. When [path_trace] gets past the dispatch loop to the reduction
    kernel, every polled entry of the host copy of the ray state is
    [RAY_INACTIVE]: the loop was left with the flag cleared, by a poll that
    found no other value, and the reduction kernel is the last thing
    enqueued. *)
Theorem path_trace_finalizes_when_all_inactive fuel rtile d d' :
  path_trace fuel rtile d = Some d' ->
  all_inactive (stage_global_size rtile) d'
  /\ exists st,
       dispatch_loop fuel (stage_global_size rtile)
                     (loop_entry (stage_global_size rtile) d) = Some st
       /\ activeRaysAvailable st = false
       /\ all_inactive (stage_global_size rtile) (dev st)
       /\ enqueued d' =
          enqueued (dev st) ++
          [(SumAllRadiance, (ceil_round_size (w rtile) 16, ceil_round_size (h rtile) 16))].
Proof.
  unfold Pipeline.path_trace. intros Hrun.
  destruct (Pipeline.dispatch_loop _ _ _ _ _ _ _) as [st|] eqn:Hloop; [|discriminate].
  injection Hrun as <-.
  destruct (dispatch_loop_inactive (stage_global_size rtile) fuel
              (loop_entry (stage_global_size rtile) d) st) as (Hoff & Hall);
    [intros Hoff; discriminate Hoff | exact Hloop |].
  split; [exact Hall|].
  exists st. repeat split; try assumption.
Qed.

(** *** The iteration counts *)

Lemma rounds_app l1 l2 : rounds (l1 ++ l2) = rounds l1 + rounds l2.
Proof. unfold rounds. rewrite List.filter_app, length_app. lia. Qed.

Lemma enqueue_PathIteration_times kernelName globalSize d :
  PathIteration_times (Pipeline.ENQUEUE_SPLIT_KERNEL Mem run_kernel kernelName globalSize d)
  = PathIteration_times d.
Proof. reflexivity. Qed.

Lemma enqueue_hostRayStateArray kernelName globalSize d :
  hostRayStateArray (Pipeline.ENQUEUE_SPLIT_KERNEL Mem run_kernel kernelName globalSize d)
  = hostRayStateArray d.
Proof. reflexivity. Qed.

Lemma enqueue_rounds kernelName globalSize d :
  rounds (enqueued (Pipeline.ENQUEUE_SPLIT_KERNEL Mem run_kernel kernelName globalSize d))
  = rounds (enqueued d) + rounds [(kernelName, globalSize)].
Proof. cbn [Pipeline.ENQUEUE_SPLIT_KERNEL enqueued]. apply rounds_app. Qed.

Lemma path_iteration_fields global_size d :
  PathIteration_times (Pipeline.path_iteration Mem run_kernel global_size d)
    = PathIteration_times d
  /\ hostRayStateArray (Pipeline.path_iteration Mem run_kernel global_size d)
    = hostRayStateArray d
  /\ rounds (enqueued (Pipeline.path_iteration Mem run_kernel global_size d))
    = rounds (enqueued d) + 1.
Proof.
  unfold Pipeline.path_iteration. cbv zeta.
  rewrite !enqueue_PathIteration_times, !enqueue_hostRayStateArray, !enqueue_rounds.
  repeat split. unfold rounds, is_round_end. cbn. lia.
Qed.

Lemma iter_path_iteration_fields global_size d (n : nat) :
  PathIteration_times (Nat.iter n (Pipeline.path_iteration Mem run_kernel global_size) d)
    = PathIteration_times d
  /\ rounds (enqueued (Nat.iter n (Pipeline.path_iteration Mem run_kernel global_size) d))
    = rounds (enqueued d) + Z.of_nat n.
Proof.
  induction n as [|n [IHp IHr]]; [cbn; split; [reflexivity|lia]|].
  rewrite Nat.iter_succ.
  destruct (path_iteration_fields global_size
              (Nat.iter n (Pipeline.path_iteration Mem run_kernel global_size) d))
    as (Hp & _ & Hr).
  rewrite Hp, Hr, IHp, IHr. split; [reflexivity|lia].
Qed.

(** What one pass of the loop does to the counters, by the outcome of its
    poll. *)
Lemma loop_body_counters global_size st :
  0 <= PathIteration_times (dev st) ->
  rounds (enqueued (dev (loop_body global_size st)))
    = rounds (enqueued (dev st)) + PathIteration_times (dev st)
  /\ if activeRaysAvailable (loop_body global_size st)
     then PathIteration_times (dev (loop_body global_size st)) = PATH_ITER_INC_FACTOR
          /\ numHostIntervention (loop_body global_size st)
             = uint_add (numHostIntervention st) 1
          /\ numNextPathIterTimes (loop_body global_size st)
             = uint_add (numNextPathIterTimes st) PATH_ITER_INC_FACTOR
     else PathIteration_times (dev (loop_body global_size st)) = PathIteration_times (dev st)
          /\ numHostIntervention (loop_body global_size st) = numHostIntervention st
          /\ numNextPathIterTimes (loop_body global_size st) = numNextPathIterTimes st.
Proof.
  intros Hp. unfold Pipeline.loop_body, Pipeline.path_iterations.
  destruct (iter_path_iteration_fields global_size (dev st)
              (Z.to_nat (PathIteration_times (dev st)))) as (Hpt & Hr).
  destruct (Pipeline.scan_ray_state _ _ _ _);
    cbn [activeRaysAvailable dev numHostIntervention numNextPathIterTimes
         Pipeline.set_PathIteration_times Pipeline.read_ray_state
         PathIteration_times enqueued];
    rewrite Hr; (split; [lia|]); repeat split; try reflexivity; exact Hpt.
Qed.

(** The counters at the exit of the loop, entered with rays active. *)
Lemma dispatch_loop_counters global_size fuel :
  forall st st',
    activeRaysAvailable st = true ->
    0 <= PathIteration_times (dev st) ->
    0 <= numHostIntervention st ->
    0 <= numNextPathIterTimes st ->
    numHostIntervention st + Z.of_nat fuel < 2 ^ 32 ->
    numNextPathIterTimes st + PATH_ITER_INC_FACTOR * Z.of_nat fuel < 2 ^ 32 ->
    dispatch_loop fuel global_size st = Some st' ->
    exists k,
      0 <= k < Z.of_nat fuel
      /\ numHostIntervention st' = numHostIntervention st + k
      /\ numNextPathIterTimes st' = numNextPathIterTimes st + PATH_ITER_INC_FACTOR * k
      /\ rounds (enqueued (dev st'))
         = rounds (enqueued (dev st)) + PathIteration_times (dev st)
           + PATH_ITER_INC_FACTOR * k.
Proof.
  unfold PATH_ITER_INC_FACTOR.
  induction fuel as [|n IH]; intros st st' Hact Hp Hh Hn Hbh Hbn Hrun;
    cbn [Pipeline.dispatch_loop] in Hrun; rewrite Hact in Hrun; [discriminate|].
  destruct (loop_body_counters global_size st Hp) as (Hr & Hc).
  unfold PATH_ITER_INC_FACTOR in Hc.
  destruct (activeRaysAvailable (loop_body global_size st)) eqn:Hact1.
  - destruct Hc as (Hp1 & Hh1 & Hn1).
    unfold uint_add in Hh1, Hn1.
    rewrite to_uint_id in Hh1 by (unfold is_uint; lia).
    rewrite to_uint_id in Hn1 by (unfold is_uint; lia).
    destruct (IH (loop_body global_size st) st' Hact1 ltac:(lia) ltac:(lia) ltac:(lia)
                 ltac:(lia) ltac:(lia) Hrun) as (k & Hk & Hhk & Hnk & Hrk).
    exists (k + 1). split; [lia|]. split; [lia|]. split; [lia|].
    rewrite Hrk, Hr, Hp1. lia.
  - destruct n as [|n']; cbn [Pipeline.dispatch_loop] in Hrun; rewrite Hact1 in Hrun;
      injection Hrun as <-; destruct Hc as (Hp1 & Hh1 & Hn1);
      (exists 0; split; [lia|]; split; [lia|]; split; [lia|]; rewrite Hr; lia).
Qed.

(** C6. The iteration count [path_trace] leaves for the next tile.  The
    count at the start of the tile is a positive multiple of the increment
    (the constructor sets it to the increment and [path_trace] keeps it
    so), and the tile is polled fewer than [fuel] times.  Without an
    intervention the count is the starting count less one increment, and
    not less than the increment; otherwise it is the starting count plus
    one increment per intervention, which is the number of rounds run for
    this tile. *)
Theorem path_trace_next_iteration_count fuel rtile d st :
  (PATH_ITER_INC_FACTOR | PathIteration_times d) ->
  0 < PathIteration_times d ->
  PathIteration_times d + PATH_ITER_INC_FACTOR * Z.of_nat fuel < 2 ^ 32 ->
  dispatch_loop fuel (stage_global_size rtile)
                (loop_entry (stage_global_size rtile) d) = Some st ->
  path_trace fuel rtile d = Some (loop_exit rtile st)
  /\ 0 <= numHostIntervention st < Z.of_nat fuel
  /\ PathIteration_times (loop_exit rtile st)
     = (if numHostIntervention st =? 0
        then Z.max (PathIteration_times d - PATH_ITER_INC_FACTOR) PATH_ITER_INC_FACTOR
        else PathIteration_times d + PATH_ITER_INC_FACTOR * numHostIntervention st)
  /\ rounds (enqueued (dev st)) - rounds (enqueued d)
     = PathIteration_times d + PATH_ITER_INC_FACTOR * numHostIntervention st
  /\ (PATH_ITER_INC_FACTOR | PathIteration_times (loop_exit rtile st))
  /\ 0 < PathIteration_times (loop_exit rtile st).
Proof.
  intros Hdiv Hpos Hbound Hloop.
  destruct (dispatch_loop_counters (stage_global_size rtile) fuel
              (loop_entry (stage_global_size rtile) d) st)
    as (k & Hk & Hhk & Hnk & Hrk); try exact Hloop; try reflexivity;
    cbn [Pipeline.loop_entry dev numHostIntervention numNextPathIterTimes
         Pipeline.ENQUEUE_SPLIT_KERNEL PathIteration_times]; try lia.
  { unfold PATH_ITER_INC_FACTOR in *. lia. }
  cbn [Pipeline.loop_entry dev numHostIntervention numNextPathIterTimes
       Pipeline.ENQUEUE_SPLIT_KERNEL PathIteration_times enqueued] in Hhk, Hnk, Hrk.
  rewrite rounds_app in Hrk.
  replace (rounds [(DataInit, stage_global_size rtile)]) with 0 in Hrk by reflexivity.
  assert (PathIteration_times (loop_exit rtile st)
          = (if numHostIntervention st =? 0
             then Z.max (PathIteration_times d - PATH_ITER_INC_FACTOR) PATH_ITER_INC_FACTOR
             else PathIteration_times d + PATH_ITER_INC_FACTOR * numHostIntervention st))
    as Hnext.
  { unfold Pipeline.loop_exit. cbn [PathIteration_times]. rewrite Hhk, Hnk.
    destruct Hdiv as [q Hq]. unfold PATH_ITER_INC_FACTOR in *.
    destruct (Z.eqb_spec (0 + k) 0) as [Hk0|Hk0].
    - assert (k = 0) as -> by lia.
      unfold uint_sub. rewrite to_uint_id by (unfold is_uint; lia).
      destruct (Z.leb_spec (PathIteration_times d + 8 * 0 - 8) 0); lia.
    - lia. }
  split; [unfold Pipeline.path_trace; rewrite Hloop; reflexivity|].
  split; [lia|]. split; [exact Hnext|]. split; [rewrite Hhk; lia|].
  rewrite Hnext. destruct Hdiv as [q Hq]. unfold PATH_ITER_INC_FACTOR in *.
  destruct (Z.eqb_spec (numHostIntervention st) 0).
  - split; [|lia].
    destruct (Z.max_spec (PathIteration_times d - 8) 8) as [[_ ->]|[_ ->]].
    + exists 1; lia.
    + exists (q - 1); lia.
  - split; [|lia]. exists (q + numHostIntervention st). lia.
Qed.

(** C7 (as the code has it).  A poll that finds a ray that is not inactive
    keeps the loop going, adds one to the intervention counter, sets the
    number of rounds of every later block of this tile to the increment,
    and adds one increment to the count kept for the next tile. *)
Theorem poll_finding_active_ray global_size st :
  (exists i, polled global_size i
             /\ ray_state (device_mem (Pipeline.path_iterations Mem run_kernel
                                         global_size (dev st))) i <> RAY_INACTIVE) ->
  activeRaysAvailable (loop_body global_size st) = true
  /\ numHostIntervention (loop_body global_size st) = uint_add (numHostIntervention st) 1
  /\ PathIteration_times (dev (loop_body global_size st)) = PATH_ITER_INC_FACTOR
  /\ numNextPathIterTimes (loop_body global_size st)
     = uint_add (numNextPathIterTimes st) PATH_ITER_INC_FACTOR.
Proof.
  intros (i & Hi & Hray). unfold Pipeline.loop_body.
  destruct (Pipeline.scan_ray_state _ _ _ _) eqn:Hscan;
    cbn [activeRaysAvailable dev numHostIntervention numNextPathIterTimes
         Pipeline.set_PathIteration_times PathIteration_times].
  - repeat split; reflexivity.
  - exfalso. apply Hray. unfold polled in Hi.
    pose proof (scan_ray_state_false _ _ _ Hscan i ltac:(lia)) as Hin.
    cbn [Pipeline.read_ray_state hostRayStateArray device_mem] in Hin.
    destruct (Z.leb_spec 0 i); [|lia].
    destruct (Z.ltb_spec i (size_mul (fst global_size) (snd global_size))); [|lia].
    exact Hin.
Qed.

End PipelineFacts.

Lemma path_trace_finalizes_when_all_inactive_witness :
  exists d', Toy.path_trace 20 10 Toy.tile_1 (Toy.device 8) = Some d'
             /\ all_inactive Z Toy.RAY_INACTIVE (Pipeline.stage_global_size Toy.tile_1) d'.
Proof.
  eexists.
  assert (Toy.path_trace 20 10 Toy.tile_1 (Toy.device 8) = Some _) as Hrun
    by (vm_compute; reflexivity).
  split; [exact Hrun|].
  exact (proj1 (path_trace_finalizes_when_all_inactive Z Toy.run_kernel (Toy.ray_state 20)
                  Toy.RAY_INACTIVE 10 Toy.tile_1 (Toy.device 8) _ Hrun)).
Defined.

Lemma path_trace_next_iteration_count_witness :
  exists st,
    Toy.dispatch_loop 20 10 (Pipeline.stage_global_size Toy.tile_1)
      (Toy.loop_entry (Pipeline.stage_global_size Toy.tile_1) (Toy.device 8)) = Some st
    /\ Pipeline.numHostIntervention st = 2
    /\ Pipeline.PathIteration_times (Toy.loop_exit Toy.tile_1 st) = 24.
Proof.
  eexists.
  assert (Toy.dispatch_loop 20 10 (Pipeline.stage_global_size Toy.tile_1)
            (Toy.loop_entry (Pipeline.stage_global_size Toy.tile_1) (Toy.device 8)) = Some _)
    as Hloop by (vm_compute; reflexivity).
  split; [exact Hloop|]. split; [reflexivity|].
  destruct (path_trace_next_iteration_count Z Toy.run_kernel (Toy.ray_state 20)
              Toy.RAY_INACTIVE 10 Toy.tile_1 (Toy.device 8) _
              ltac:(exists 1; reflexivity) ltac:(reflexivity) ltac:(reflexivity) Hloop)
    as (_ & _ & Hnext & _).
  rewrite Hnext. reflexivity.
Defined.

Lemma poll_finding_active_ray_witness :
  Pipeline.PathIteration_times
    (Pipeline.dev (Toy.loop_body 20 (64, 1) (Toy.loop_entry (64, 1) (Toy.device 16))))
  = PATH_ITER_INC_FACTOR.
Proof.
  refine (proj1 (proj2 (proj2 (poll_finding_active_ray Z Toy.run_kernel (Toy.ray_state 20)
            Toy.RAY_INACTIVE (64, 1) (Toy.loop_entry (64, 1) (Toy.device 16)) _)))).
  exists 0. split; [vm_compute; split; [discriminate | reflexivity] | vm_compute; discriminate].
Defined.

(** The number of rounds of a block does not grow with the interventions:
    started with a count of 8, the blocks after the first and after the
    second intervention run 8 rounds each; started with a count of 16, the
    block after the first intervention runs 8 rounds. *)
Lemma block_length_does_not_grow :
  let gs := (64, 1) in
  let st0 := Toy.loop_entry gs (Toy.device 8) in
  let st1 := Toy.loop_body 20 gs st0 in
  let st2 := Toy.loop_body 20 gs st1 in
  let st1' := Toy.loop_body 20 gs (Toy.loop_entry gs (Toy.device 16)) in
  Pipeline.activeRaysAvailable st1 = true
  /\ Pipeline.activeRaysAvailable st2 = true
  /\ Pipeline.numHostIntervention st2 = 2
  /\ Pipeline.PathIteration_times (Pipeline.dev st0) = 8
  /\ Pipeline.PathIteration_times (Pipeline.dev st1) = 8
  /\ Pipeline.PathIteration_times (Pipeline.dev st2) = 8
  /\ Pipeline.activeRaysAvailable st1' = true
  /\ Pipeline.PathIteration_times (Pipeline.dev st1') = 8.
Proof. vm_compute. repeat split; reflexivity. Qed.

Lemma get_feasible_global_work_size_value_witness :
  Budget.get_feasible_global_work_size Roomy.dev Exhausted.tile_64 10000 = 229079.
Proof.
  destruct (get_feasible_global_work_size_value Roomy.dev Exhausted.tile_64 10000
              ltac:(vm_compute; reflexivity) ltac:(vm_compute; reflexivity)
              ltac:(vm_compute; discriminate)) as (Hvalue & _).
  rewrite Hvalue. vm_compute. reflexivity.
Defined.

(** ** The halving loop *)

Section HalvingLoop.

Import Splitter.

Lemma halving_state_area d :
  halving_state d -> int_mul (i2x d) (i2y d) = i2x d * i2y d.
Proof.
  intros (_ & Hx & Hy). unfold int_mul. apply to_int_id. unfold is_int.
  pose proof (mul_bounds (i2x d) (i2y d) (2 ^ 15) (2 ^ 15) ltac:(lia) ltac:(lia)). lia.
Qed.

(** With a budget of at least one 64x64 block, a pass of the loop keeps
    the invariant and shrinks one of the extents. *)
Lemma halve_longer_decreases n d :
  4096 <= n -> halving_state d -> n < i2x d * i2y d ->
  halving_state (halve_longer d)
  /\ i2x (halve_longer d) + i2y (halve_longer d) < i2x d + i2y d.
Proof.
  intros Hn (Hdiv & Hx & Hy) Harea. unfold halving_state, halve_longer,
    SPLIT_KERNEL_LOCAL_SIZE_X, SPLIT_KERNEL_LOCAL_SIZE_Y.
  destruct (Z.leb_spec (i2y d) (i2x d)) as [Hle|Hgt]; cbn [i2x i2y].
  - destruct Hdiv as [k Hk].
    assert (2 <= k) as Hk2.
    { destruct (Z_lt_le_dec k 2) as [Hlt|]; [|assumption]. exfalso.
      assert (i2x d = 64) as Hx64 by lia.
      pose proof (mul_bounds (i2x d) (i2y d) 64 64 ltac:(lia) ltac:(lia)). lia. }
    assert (int_div (i2x d) 2 = 32 * k) as Hhalf.
    { unfold int_div. rewrite quot_div_pos by lia.
      replace (i2x d) with (32 * k * 2) by lia. rewrite Z.div_mul by lia.
      apply to_int_id. unfold is_int. lia. }
    rewrite Hhalf.
    destruct (ceil_round_int_bounds (32 * k) 64 ltac:(lia) ltac:(lia) ltac:(lia))
      as (Hb & Hd).
    rewrite (ceil_round_int_pos (32 * k) 64) in * by lia.
    pose proof (div_bounds (32 * k - 1) 64 ltac:(lia) ltac:(lia)) as Hq.
    split; [split; [exact Hd|]; lia | lia].
  - assert (int_div (i2y d) 2 = i2y d / 2) as Hhalf.
    { unfold int_div. rewrite quot_div_pos by lia.
      pose proof (div_le_self (i2y d) 2 ltac:(lia) ltac:(lia)).
      apply to_int_id. unfold is_int. lia. }
    rewrite Hhalf.
    pose proof (div_bounds (i2y d) 2 ltac:(lia) ltac:(lia)) as Hq.
    assert (32 <= i2y d / 2) by lia.
    rewrite (ceil_round_int_pos (i2y d / 2) 1) by lia.
    replace ((i2y d / 2 - 1) / 1 + 1) with (i2y d / 2)
      by (rewrite Z.div_1_r; lia).
    split; [split; [exact Hdiv|]; lia | lia].
Qed.

(** With a budget of at least one 64x64 block the loop stops, after no
    more passes than the sum of the extents, at an area within the
    budget. *)
Lemma split_loop_terminates n :
  4096 <= n ->
  forall (fuel : nat) (d : int2),
    halving_state d -> i2x d + i2y d <= Z.of_nat fuel ->
    exists r, split_loop fuel n d = Some r /\ halving_state r /\ i2x r * i2y r <= n.
Proof.
  intros Hn. induction fuel as [|fuel IH]; intros d Hd Hfuel.
  - destruct Hd as (_ & Hx & Hy). lia.
  - cbn [split_loop]. rewrite (halving_state_area d Hd).
    destruct (Z.ltb_spec n (i2x d * i2y d)) as [Hgt|Hle].
    + destruct (halve_longer_decreases n d Hn Hd Hgt) as (Hd' & Hless).
      apply IH; [exact Hd' | lia].
    + exists d. split; [reflexivity|]. split; [exact Hd | exact Hle].
Qed.

Lemma get_split_tile_size_terminates rtile max_tile :
  1 <= w rtile <= 2 ^ 15 - 64 -> 1 <= h rtile <= 2 ^ 15 ->
  4096 <= int_mul (i2x max_tile) (i2y max_tile) ->
  exists fuel r,
    get_split_tile_size fuel rtile max_tile = Some r
    /\ i2x r * i2y r <= int_mul (i2x max_tile) (i2y max_tile).
Proof.
  intros Hw Hh Hn. unfold get_split_tile_size, SPLIT_KERNEL_LOCAL_SIZE_X,
    SPLIT_KERNEL_LOCAL_SIZE_Y.
  destruct (ceil_round_int_bounds (w rtile) 64 ltac:(lia) ltac:(lia) ltac:(lia))
    as (Hbw & Hdw).
  destruct (ceil_round_int_bounds (h rtile) 1 ltac:(lia) ltac:(lia) ltac:(lia))
    as (Hbh & _).
  assert (halving_state (make_int2 (ceil_round_int (w rtile) 64)
                                   (ceil_round_int (h rtile) 1))) as Hstate.
  { unfold halving_state. cbn [i2x i2y]. split; [exact Hdw|].
    destruct Hdw as [k Hk]. lia. }
  destruct (split_loop_terminates _ Hn
              (Z.to_nat (ceil_round_int (w rtile) 64 + ceil_round_int (h rtile) 1))
              _ Hstate ltac:(cbn [i2x i2y]; lia)) as (r & Hrun & _ & Hfit).
  eexists. exists r. split; [exact Hrun | exact Hfit].
Qed.

End HalvingLoop.

(** ** Defects of the splitting path *)

Section SplittingDefects.

Import Budget Splitter Scheduler.

Lemma halve_longer_stuck : halve_longer (make_int2 64 64) = make_int2 64 64.
Proof. reflexivity. Qed.

Lemma split_loop_stuck fuel : split_loop fuel 3968 (make_int2 64 64) = None.
Proof.
  induction fuel as [|n IH]; [reflexivity|].
  change (split_loop (S n) 3968 (make_int2 64 64))
    with (split_loop n 3968 (halve_longer (make_int2 64 64))).
  rewrite halve_longer_stuck. exact IH.
Qed.

(** C4.  A feasible work size of 3968 gives a feasible tile of 64x62; a
    tile of 64x64 then needs splitting, and the halving loop never leaves
    64x64: halving the width to 32 and rounding it up to the granularity
    gives 64 again.  No bound on the iterations is enough. *)
Theorem get_split_tile_size_does_not_terminate (fuel : nat) :
  get_max_render_feasible_tile_size 3968 = make_int2 64 62
  /\ need_to_split_tile 64 64 (make_int2 64 62) = true
  /\ get_split_tile_size fuel Exhausted.tile_64 (make_int2 64 62) = None.
Proof.
  split; [reflexivity|]. split; [reflexivity|].
  unfold get_split_tile_size.
  change (int_mul (i2x (make_int2 64 62)) (i2y (make_int2 64 62))) with 3968.
  change (ceil_round_int (w Exhausted.tile_64) SPLIT_KERNEL_LOCAL_SIZE_X) with 64.
  change (ceil_round_int (h Exhausted.tile_64) SPLIT_KERNEL_LOCAL_SIZE_Y) with 64.
  apply split_loop_stuck.
Qed.

(** C3.  On a device whose allocations exceed the allocatable memory the
    remainder is negative; computed in [size_t] it wraps around to a huge
    work size, no split is asked for, and the whole 64x64 tile, 4096
    work-items, is handed to [path_trace]. *)
Theorem exhausted_device_dispatches_whole_tile (fuel : nat) :
  total_allocatable_memory Exhausted.dev
  < get_invariable_mem_allocated Exhausted.dev
    + get_tile_specific_mem_allocated Exhausted.dev Exhausted.tile_64
    + get_scene_specific_mem_allocated Exhausted.dev 10000
    + DATA_ALLOCATION_MEM_FACTOR
  /\ get_feasible_global_work_size Exhausted.dev Exhausted.tile_64 10000
     = 1059122930106958
  /\ thread_run fuel true 10000 (initial_RunState Exhausted.dev) [Exhausted.acquired]
     = Some [make_Dispatch (set_buffer_rng_state_stride Exhausted.tile_64)
                           (make_int2 64 64)]
  /\ work_items Exhausted.tile_64 = 4096.
Proof.
  split; [reflexivity|]. split; [vm_compute; reflexivity|].
  split; [vm_compute; reflexivity | reflexivity].
Qed.

End SplittingDefects.

(** ** The protocol of the cache *)

Section CacheProtocol.

Import Cache.

Lemma get_member_unfold NDEBUG member p d self :
  get_member NDEBUG member p d self
  = match get_something NDEBUG p d member self with
    | None => None
    | Some (r, self') =>
        if r =? NULL then Some (NULL, self') else Some (r, clRetain r self')
    end.
Proof. destruct member; reflexivity. Qed.

Lemma store_member_unfold NDEBUG member p d thing self :
  store_member NDEBUG member p d thing self
  = match store_something NDEBUG p d thing member self with
    | None => None
    | Some self' => Some (clRetain thing self')
    end.
Proof. destruct member; reflexivity. Qed.

Lemma ref_count_clRetain_eq handle self :
  ref_count (clRetain handle self) handle = ref_count self handle + 1.
Proof. unfold ref_count at 1, clRetain. cbn [refs]. rewrite lookup_insert_eq. reflexivity. Qed.

Lemma ref_count_clRetain_ne handle handle' self :
  handle <> handle' -> ref_count (clRetain handle self) handle' = ref_count self handle'.
Proof.
  intros Hne. unfold ref_count, clRetain. cbn [refs].
  rewrite lookup_insert_ne by exact Hne. reflexivity.
Qed.

(** The assertion on the platform holds when it is compiled in. *)
Lemma platform_asserted NDEBUG p :
  negb NDEBUG && (p =? NULL) = false <-> NDEBUG = true \/ p <> NULL.
Proof.
  destruct NDEBUG; cbn [negb andb].
  - split; [left; reflexivity | reflexivity].
  - rewrite Z.eqb_neq. split; [right; assumption | intros [|]; [discriminate | assumption]].
Qed.

(** What a lookup that misses does to the cache. *)
Lemma get_member_miss NDEBUG member p d self self1 :
  get_member NDEBUG member p d self = Some (NULL, self1) ->
  (NDEBUG = true \/ p <> NULL)
  /\ slot_locked self p d = false
  /\ slot_member member (default empty_Slot (cache self !! (p, d))) = NULL
  /\ self1 = make_OpenCLCache
               (<[(p, d) := set_locked true (default empty_Slot (cache self !! (p, d)))]>
                  (cache self))
               (refs self).
Proof.
  rewrite get_member_unfold. unfold get_something, slot_locked.
  destruct (negb NDEBUG && (p =? NULL)) eqn:Hp; [discriminate|].
  apply platform_asserted in Hp.
  destruct (cache self !! (p, d)) as [slot|] eqn:Hslot; cbn [default from_option id].
  - destruct (mutex_created slot && locked slot) eqn:Hl; [discriminate|].
    destruct (Z.eqb_spec (slot_member member slot) NULL) as [Hm|Hm].
    + cbn. intros [= <-]. auto.
    + destruct (Z.eqb_spec (slot_member member slot) NULL); [contradiction|].
      intros [= Hr _]. contradiction.
  - cbn [mutex_created empty_Slot andb].
    assert (slot_member member empty_Slot = NULL) as Hm by (destruct member; reflexivity).
    rewrite Hm. cbn. intros [= <-]. auto.
Qed.

Lemma cached_default self p d member :
  cached self p d member = slot_member member (default empty_Slot (cache self !! (p, d))).
Proof.
  unfold cached. destruct (cache self !! (p, d)); cbn [default from_option id];
    [reflexivity | destruct member; reflexivity].
Qed.

Lemma slot_locked_default self p d :
  slot_locked self p d
  = mutex_created (default empty_Slot (cache self !! (p, d)))
    && locked (default empty_Slot (cache self !! (p, d))).
Proof. unfold slot_locked. destruct (cache self !! (p, d)); reflexivity. Qed.

(** A lookup on a slot that is not locked returns: it misses when the
    member is [NULL] and hits otherwise. *)
Lemma get_member_run NDEBUG member p d self :
  NDEBUG = true \/ p <> NULL -> slot_locked self p d = false ->
  get_member NDEBUG member p d self
  = if cached self p d member =? NULL
    then Some (NULL,
               make_OpenCLCache
                 (<[(p, d) := set_locked true (default empty_Slot (cache self !! (p, d)))]>
                    (cache self))
                 (refs self))
    else Some (cached self p d member,
               clRetain (cached self p d member)
                 (make_OpenCLCache
                    (<[(p, d) := set_locked false (default empty_Slot (cache self !! (p, d)))]>
                       (cache self))
                    (refs self))).
Proof.
  intros Hp Hl. rewrite get_member_unfold. unfold get_something.
  apply platform_asserted in Hp. rewrite Hp.
  rewrite slot_locked_default in Hl. rewrite cached_default.
  cbv zeta. rewrite Hl.
  destruct (slot_member member _ =? NULL) eqn:Hm; [reflexivity|].
  cbv beta iota. rewrite Hm. reflexivity.
Qed.

(** A store by the holder of the slot lock, the member being [NULL]. *)
Lemma store_member_locked (NDEBUG : bool) (member : SlotMember) (p d thing : Z)
    (slots : gmap (Z * Z) Slot) (counts : gmap Z Z) (slot : Slot) :
  NDEBUG = true \/ p <> NULL -> slot_member member slot = NULL ->
  store_member NDEBUG member p d thing
    (make_OpenCLCache (<[(p, d) := set_locked true slot]> slots) counts)
  = if negb NDEBUG && ((d =? NULL) || (thing =? NULL)) then None
    else Some (clRetain thing
                 (make_OpenCLCache
                    (<[(p, d) := set_locked false (set_slot_member member thing slot)]> slots)
                    counts)).
Proof.
  intros Hp Hnull. rewrite store_member_unfold. unfold store_something.
  assert (negb NDEBUG && ((p =? NULL) || (d =? NULL) || (thing =? NULL))
          = negb NDEBUG && ((d =? NULL) || (thing =? NULL))) as ->.
  { destruct Hp as [->|Hp]; [reflexivity|]. apply Z.eqb_neq in Hp. rewrite Hp. reflexivity. }
  destruct (negb NDEBUG && ((d =? NULL) || (thing =? NULL))); [reflexivity|].
  cbn [cache refs]. rewrite lookup_insert_eq.
  rewrite slot_member_set_locked, Hnull. cbn [Z.eqb negb locked set_locked NULL].
  rewrite andb_false_r.
  rewrite insert_insert_eq.
  destruct slot; destruct member; reflexivity.
Qed.

Lemma abandon_locked (p d : Z) (slots : gmap (Z * Z) Slot) (counts : gmap Z Z) (slot : Slot) :
  abandon p d (make_OpenCLCache (<[(p, d) := set_locked true slot]> slots) counts)
  = Some (make_OpenCLCache (<[(p, d) := set_locked false slot]> slots) counts).
Proof.
  unfold abandon. cbn [cache refs]. rewrite lookup_insert_eq. cbn [locked set_locked].
  rewrite insert_insert_eq. destruct slot; reflexivity.
Qed.

Lemma slot_locked_unlocked (slots : gmap (Z * Z) Slot) (counts : gmap Z Z) (p d : Z)
    (slot : Slot) :
  slot_locked (make_OpenCLCache (<[(p, d) := set_locked false slot]> slots) counts) p d = false.
Proof. unfold slot_locked. cbn [cache]. rewrite lookup_insert_eq. reflexivity. Qed.

Lemma cached_insert (slots : gmap (Z * Z) Slot) (counts : gmap Z Z) (p d : Z) (slot : Slot)
    (member : SlotMember) :
  cached (make_OpenCLCache (<[(p, d) := slot]> slots) counts) p d member
  = slot_member member slot.
Proof. unfold cached. cbn [cache]. rewrite lookup_insert_eq. reflexivity. Qed.

Lemma slot_locked_clRetain handle self p d :
  slot_locked (clRetain handle self) p d = slot_locked self p d.
Proof. reflexivity. Qed.

(** X1.  A lookup that misses, then the store of a handle that is not [NULL] for
    a device that is not [NULL], then a second lookup: the store returns,
    the second lookup returns the stored handle and leaves the slot
    unlocked, and the handle has two references more than before the first
    lookup, one of the store and one of the second lookup. *)
Theorem cache_miss_store_hit NDEBUG member p d thing self self1 :
  get_member NDEBUG member p d self = Some (NULL, self1) ->
  d <> NULL -> thing <> NULL ->
  exists self2 self3,
    store_member NDEBUG member p d thing self1 = Some self2
    /\ get_member NDEBUG member p d self2 = Some (thing, self3)
    /\ slot_locked self3 p d = false
    /\ ref_count self3 thing = ref_count self thing + 2.
Proof.
  intros Hmiss Hd Hthing.
  destruct (get_member_miss _ _ _ _ _ _ Hmiss) as (Hp & _ & Hnull & ->).
  set (slot := default empty_Slot (cache self !! (p, d))) in *.
  rewrite store_member_locked by assumption.
  assert ((d =? NULL) = false) as -> by (apply Z.eqb_neq; exact Hd).
  assert ((thing =? NULL) = false) as Hne by (apply Z.eqb_neq; exact Hthing).
  rewrite Hne. cbn [orb]. rewrite andb_false_r.
  eexists _, _. split; [reflexivity|].
  rewrite get_member_run;
    [|exact Hp | rewrite slot_locked_clRetain; apply slot_locked_unlocked].
  rewrite cached_clRetain, cached_insert, slot_member_set_locked,
    slot_member_set_slot_member.
  destruct (decide (member = member)) as [_|]; [|contradiction].
  rewrite Hne. split; [reflexivity|]. split.
  - rewrite slot_locked_clRetain. apply slot_locked_unlocked.
  - rewrite ref_count_clRetain_eq. cbn [clRetain cache refs].
    unfold ref_count at 1. cbn [refs]. rewrite lookup_insert_eq. unfold ref_count. cbn. lia.
Qed.

Lemma cache_miss_store_hit_witness :
  exists self2 self3,
    store_member false member_context 1 2 77 cache_after_lookup = Some self2
    /\ get_member false member_context 1 2 self2 = Some (77, self3)
    /\ slot_locked self3 1 2 = false
    /\ ref_count self3 77 = ref_count (make_OpenCLCache ∅ ∅) 77 + 2.
Proof.
  apply (cache_miss_store_hit false member_context 1 2 77 (make_OpenCLCache ∅ ∅)
           cache_after_lookup).
  - vm_compute. reflexivity.
  - unfold NULL. lia.
  - unfold NULL. lia.
Defined.

(** A lookup that passes the assertion on the platform does not return
    exactly when the lock of the slot is held. *)
Lemma get_member_blocks NDEBUG member p d self :
  NDEBUG = true \/ p <> NULL ->
  (get_member NDEBUG member p d self = None <-> slot_locked self p d = true).
Proof.
  intros Hp. rewrite get_member_unfold. unfold get_something, slot_locked.
  apply platform_asserted in Hp. rewrite Hp.
  destruct (cache self !! (p, d)) as [slot|]; cbn [default from_option id].
  - destruct (mutex_created slot && locked slot).
    + split; reflexivity.
    + destruct (slot_member member slot =? NULL) eqn:Hm.
      * cbn. split; discriminate.
      * cbv beta iota. rewrite Hm. split; discriminate.
  - cbn [mutex_created empty_Slot andb].
    assert (slot_member member empty_Slot = NULL) as -> by (destruct member; reflexivity).
    cbn. split; discriminate.
Qed.

Lemma slot_locked_insert_ne self p d p' d' slot r :
  (p', d') <> (p, d) ->
  slot_locked (make_OpenCLCache (<[(p, d) := slot]> (cache self)) r) p' d'
  = slot_locked self p' d'.
Proof.
  intros Hne. unfold slot_locked. cbn [cache].
  rewrite lookup_insert_ne by congruence. reflexivity.
Qed.

(** X2.  A lookup that misses leaves the lock of its slot held: until the slot is
    released, a lookup for the same device does not return, whatever the
    member; the locks of the other slots are as before; releasing the slot
    without a store lets the lookups return again. *)
Theorem cache_miss_holds_slot_lock NDEBUG member p d self self1 :
  get_member NDEBUG member p d self = Some (NULL, self1) ->
  slot_locked self1 p d = true
  /\ (forall member', get_member NDEBUG member' p d self1 = None)
  /\ (forall p' d', (p', d') <> (p, d) -> slot_locked self1 p' d' = slot_locked self p' d')
  /\ exists self2,
       abandon p d self1 = Some self2
       /\ forall member', get_member NDEBUG member' p d self2 <> None.
Proof.
  intros Hmiss.
  destruct (get_member_miss _ _ _ _ _ _ Hmiss) as (Hp & _ & Hnull & ->).
  set (slot := default empty_Slot (cache self !! (p, d))) in *.
  assert (slot_locked (make_OpenCLCache (<[(p, d) := set_locked true slot]> (cache self))
                                        (refs self)) p d = true) as Hlocked.
  { unfold slot_locked. cbn [cache]. rewrite lookup_insert_eq. reflexivity. }
  split; [exact Hlocked|]. split.
  { intros member'. apply get_member_blocks; [exact Hp | exact Hlocked]. }
  split.
  { intros p' d' Hne. apply slot_locked_insert_ne. exact Hne. }
  unfold abandon. cbn [cache refs]. rewrite lookup_insert_eq.
  cbn [locked set_locked]. eexists. split; [reflexivity|].
  intros member' Hnone. apply get_member_blocks in Hnone; [|exact Hp].
  unfold slot_locked in Hnone. cbn [cache] in Hnone.
  rewrite lookup_insert_eq in Hnone. discriminate Hnone.
Qed.

Lemma cache_miss_holds_slot_lock_witness :
  slot_locked cache_after_lookup 1 2 = true
  /\ (forall member', get_member false member' 1 2 cache_after_lookup = None).
Proof.
  assert (get_member false member_context 1 2 (make_OpenCLCache ∅ ∅)
          = Some (NULL, cache_after_lookup)) as Hmiss by (vm_compute; reflexivity).
  destruct (cache_miss_holds_slot_lock false member_context 1 2 _ _ Hmiss)
    as (Hlocked & Hblocks & _).
  split; [exact Hlocked | exact Hblocks].
Defined.

(** X3.  A lookup that hits returns the handle the cache holds for the member,
    leaves the slot unlocked and every member of every slot as it was,
    and adds one reference to the handle and none to any other. *)
Theorem cache_hit_retains_handle NDEBUG member p d self r self1 :
  get_member NDEBUG member p d self = Some (r, self1) ->
  r <> NULL ->
  r = cached self p d member
  /\ slot_locked self1 p d = false
  /\ (forall p' d' member', cached self1 p' d' member' = cached self p' d' member')
  /\ ref_count self1 r = ref_count self r + 1
  /\ (forall handle, handle <> r -> ref_count self1 handle = ref_count self handle).
Proof.
  intros Hget Hr.
  pose proof (get_member_spec _ _ _ _ _ _ _ Hget) as Hcached.
  rewrite get_member_unfold in Hget.
  destruct (get_something NDEBUG p d member self) as [[r1 s1]|] eqn:Hg; [|discriminate].
  destruct (get_something_spec _ _ _ _ _ _ _ Hg) as (_ & Hrefs & Hkeep).
  destruct (Z.eqb_spec r1 NULL) as [|Hr1]; [injection Hget as <- _; contradiction|].
  injection Hget as <- <-.
  split; [exact Hcached|]. split.
  { unfold get_something in Hg.
    destruct (negb NDEBUG && (p =? NULL)); [discriminate|].
    destruct (mutex_created _ && locked _); [discriminate|].
    destruct (slot_member member _ =? NULL) eqn:Hm.
    - injection Hg as <- _. contradiction.
    - injection Hg as _ <-. unfold slot_locked, clRetain. cbn [cache].
      rewrite lookup_insert_eq. reflexivity. }
  split.
  { intros p' d' member'. rewrite cached_clRetain. apply Hkeep. }
  split.
  { rewrite ref_count_clRetain_eq. unfold ref_count. rewrite Hrefs. reflexivity. }
  intros handle Hne. rewrite ref_count_clRetain_ne by congruence.
  unfold ref_count. rewrite Hrefs. reflexivity.
Qed.

Lemma cache_hit_retains_handle_witness :
  77 = cached cache_after_store 1 2 member_context
  /\ slot_locked cache_after_hit 1 2 = false
  /\ ref_count cache_after_hit 77 = ref_count cache_after_store 77 + 1.
Proof.
  assert (get_member false member_context 1 2 cache_after_store = Some (77, cache_after_hit))
    as Hhit by (vm_compute; reflexivity).
  assert (77 <> NULL) as Hr by (unfold NULL; lia).
  destruct (cache_hit_retains_handle false member_context 1 2 _ _ _ Hhit Hr)
    as (Hc & Hl & _ & Hcount & _).
  split; [exact Hc|]. split; [exact Hl | exact Hcount].
Defined.

Lemma ref_count_clRelease handle self handle' :
  ref_count (clRelease handle self) handle'
  = ref_count self handle' - (if handle =? handle' then 1 else 0).
Proof.
  unfold ref_count at 1, clRelease. cbn [refs].
  destruct (Z.eqb_spec handle handle') as [->|Hne].
  - rewrite lookup_insert_eq. reflexivity.
  - rewrite lookup_insert_ne by exact Hne. unfold ref_count. lia.
Qed.

Lemma release_slot_count slot self handle :
  handle <> NULL ->
  ref_count (release_slot slot self) handle = ref_count self handle - slot_holds handle slot.
Proof.
  intros Hh. unfold release_slot, slot_holds.
  assert (forall v s, ref_count (if v =? NULL then s else clRelease v s) handle
                      = ref_count s handle - (if v =? handle then 1 else 0)) as Hstep.
  { intros v s. destruct (Z.eqb_spec v NULL) as [->|Hv].
    - destruct (Z.eqb_spec NULL handle); [congruence|lia].
    - apply ref_count_clRelease. }
  rewrite !Hstep. lia.
Qed.

Lemma release_slots_count (l : list (Z * Z * Slot)) handle :
  handle <> NULL ->
  forall self,
    ref_count (fold_left (fun acc item => release_slot (snd item) acc) l self) handle
    = ref_count self handle
      - fold_right Z.add 0 (map (fun item => slot_holds handle (snd item)) l).
Proof.
  intros Hh. induction l as [|item l IH]; intros self; cbn [fold_left map fold_right].
  - lia.
  - rewrite IH, release_slot_count by exact Hh. lia.
Qed.

Lemma slot_holds_nonneg handle slot : 0 <= slot_holds handle slot.
Proof.
  unfold slot_holds.
  destruct (_ =? handle), (_ =? handle), (_ =? handle); lia.
Qed.

Lemma slot_holds_zero handle slot :
  slot_holds handle slot = 0 <-> forall member, slot_member member slot <> handle.
Proof.
  unfold slot_holds. split.
  - intros H member.
    destruct (Z.eqb_spec (ocl_dev_base_program slot) handle),
             (Z.eqb_spec (ocl_dev_megakernel_program slot) handle),
             (Z.eqb_spec (context slot) handle); try lia.
    destruct member; assumption.
  - intros H.
    pose proof (H member_context) as Hc.
    pose proof (H member_ocl_dev_base_program) as Hb.
    pose proof (H member_ocl_dev_megakernel_program) as Hm.
    cbn [slot_member] in Hc, Hb, Hm.
    destruct (Z.eqb_spec (ocl_dev_base_program slot) handle),
             (Z.eqb_spec (ocl_dev_megakernel_program slot) handle),
             (Z.eqb_spec (context slot) handle); try contradiction. lia.
Qed.

Lemma sum_zero {A : Type} (f : A -> Z) (l : list A) :
  (forall a, 0 <= f a) ->
  (fold_right Z.add 0 (map f l) = 0 <-> forall a, In a l -> f a = 0).
Proof.
  intros Hf. induction l as [|a l IH]; cbn [map fold_right].
  - split; [intros _ a []|reflexivity].
  - assert (0 <= fold_right Z.add 0 (map f l)) as Hs.
    { clear IH. induction l as [|b l IHl]; cbn [map fold_right]; [lia|].
      pose proof (Hf b). lia. }
    pose proof (Hf a) as Ha. split.
    + intros H b [<-|Hb]; [lia|]. apply IH; [lia|exact Hb].
    + intros H. rewrite (H a (or_introl eq_refl)).
      rewrite (proj2 IH); [reflexivity|]. intros b Hb. apply H. right. exact Hb.
Qed.

Lemma holders_zero self handle :
  handle <> NULL ->
  (holders self handle = 0 <-> forall p d member, cached self p d member <> handle).
Proof.
  intros Hh. unfold holders.
  rewrite sum_zero by (intros item; apply slot_holds_nonneg). split.
  - intros H p d member. unfold cached.
    destruct (cache self !! (p, d)) as [slot|] eqn:Hslot; [|congruence].
    apply slot_holds_zero. apply (H (p, d, slot)).
    apply list_elem_of_In. apply elem_of_map_to_list. exact Hslot.
  - intros H [[p d] slot] Hin. cbn [snd].
    apply list_elem_of_In in Hin. apply elem_of_map_to_list in Hin.
    apply slot_holds_zero. intros member.
    specialize (H p d member). unfold cached in H. rewrite Hin in H. exact H.
Qed.

(** X4.  [flush] releases a handle that is not [NULL] once for every slot
    member that holds it: the reference count drops by that number, which is
    zero exactly when no member holds the handle; afterwards the cache holds
    nothing and no slot is locked. *)
Theorem flush_releases_every_holder self handle :
  handle <> NULL ->
  ref_count (flush self) handle = ref_count self handle - holders self handle
  /\ (holders self handle = 0 <-> forall p d member, cached self p d member <> handle)
  /\ (forall p d member, cached (flush self) p d member = NULL)
  /\ (forall p d, slot_locked (flush self) p d = false).
Proof.
  intros Hh. split.
  { unfold flush, holders. unfold ref_count at 1. cbn [refs].
    apply (release_slots_count (map_to_list (cache self)) handle Hh self). }
  split; [apply holders_zero; exact Hh|]. split.
  - intros p d member. apply flush_clears.
  - intros p d. unfold slot_locked, flush. cbn [cache]. rewrite lookup_empty. reflexivity.
Qed.

Lemma flush_releases_every_holder_witness :
  ref_count (flush cache_after_ops) 77
  = ref_count cache_after_ops 77 - holders cache_after_ops 77
  /\ holders cache_after_ops 77 = 1.
Proof.
  split.
  - apply (flush_releases_every_holder cache_after_ops 77). unfold NULL. lia.
  - vm_compute. reflexivity.
Defined.

End CacheProtocol.

(** ** Runs of [load_kernels] *)

Section BuilderFrames.

Import Builder.

(** A relation between the device before and after that every assignment
    of the loader keeps is kept by the loader. *)
Variable R : Device -> Device -> Prop.
Hypothesis R_refl : forall dev, R dev dev.
Hypothesis R_trans : forall dev1 dev2 dev3, R dev1 dev2 -> R dev2 dev3 -> R dev1 dev3.
Hypothesis R_stderr : forall m dev, R dev (with_stderr m dev).
Hypothesis R_event : forall e dev, R dev (with_event e dev).
Hypothesis R_ciErr : forall err dev, R dev (with_ciErr err dev).
Hypothesis R_error_msg : forall m dev, R dev (with_error_msg_if_empty m dev).
Hypothesis R_cpProgram : forall program dev, R dev (with_cpProgram program dev).
Hypothesis R_opencl_cache : forall c dev, R dev (with_opencl_cache c dev).

Local Abbreviation keeps := (keeps R).

Lemma keeps_ret {A : Type} (a : A) : keeps (ret a).
Proof. intros dev r dev' [= <- <-]. apply R_refl. Qed.

Lemma keeps_bind {A B : Type} (c : M A) (k : A -> M B) :
  keeps c -> (forall a, keeps (k a)) -> keeps (bind c k).
Proof.
  intros Hc Hk dev r dev'. unfold bind.
  destruct (c dev) as [[a dev1]|] eqn:Hrun; [|discriminate].
  intros Hrun2. exact (R_trans _ _ _ (Hc _ _ _ Hrun) (Hk _ _ _ _ Hrun2)).
Qed.

Lemma keeps_fprintf_stderr m : keeps (fprintf_stderr m).
Proof. intros dev r dev' [= <- <-]. apply R_stderr. Qed.

Lemma keeps_record e : keeps (record e).
Proof. intros dev r dev' [= <- <-]. apply R_event. Qed.

Lemma keeps_set_ciErr err : keeps (set_ciErr err).
Proof. intros dev r dev' [= <- <-]. apply R_ciErr. Qed.

Lemma keeps_set_error_msg_if_empty m : keeps (set_error_msg_if_empty m).
Proof. intros dev r dev' [= <- <-]. apply R_error_msg. Qed.

Lemma keeps_set_cpProgram program : keeps (set_cpProgram program).
Proof. intros dev r dev' [= <- <-]. apply R_cpProgram. Qed.

Lemma keeps_set_opencl_cache c : keeps (set_opencl_cache c).
Proof. intros dev r dev' [= <- <-]. apply R_opencl_cache. Qed.

Lemma keeps_if {A : Type} (b : bool) (c1 c2 : M A) :
  keeps c1 -> keeps c2 -> keeps (if b then c1 else c2).
Proof. destruct b; auto. Qed.

Lemma keeps_opencl_error_code err : keeps (opencl_error_code err).
Proof.
  unfold opencl_error_code. apply keeps_if; [apply keeps_ret|].
  apply keeps_bind; [apply keeps_set_error_msg_if_empty|intros _].
  apply keeps_bind; [apply keeps_fprintf_stderr|intros _]. apply keeps_ret.
Qed.

Lemma keeps_opencl_error message : keeps (opencl_error message).
Proof.
  unfold opencl_error.
  apply keeps_bind; [apply keeps_set_error_msg_if_empty|intros _].
  apply keeps_fprintf_stderr.
Qed.

Lemma keeps_cache_get_program NDEBUG : keeps (cache_get_program NDEBUG).
Proof.
  intros dev r dev'. unfold cache_get_program.
  destruct (Cache.get_program _ _ _ _ _) as [[program c]|]; [|discriminate].
  revert dev r dev'.
  apply keeps_bind; [apply keeps_set_opencl_cache|intros _].
  apply keeps_bind; [apply keeps_set_cpProgram|intros _]. apply keeps_ret.
Qed.

Lemma keeps_cache_store_program NDEBUG : keeps (cache_store_program NDEBUG).
Proof.
  intros dev r dev'. unfold cache_store_program.
  destruct (Cache.store_program _ _ _ _ _ _) as [c|]; [|discriminate].
  apply keeps_set_opencl_cache.
Qed.

Lemma keeps_cache_locker_released : keeps cache_locker_released.
Proof.
  intros dev r dev'. unfold cache_locker_released.
  destruct (Cache.abandon _ _ _) as [c|]; [|discriminate].
  apply keeps_set_opencl_cache.
Qed.

Ltac keeps_step :=
  lazymatch goal with
  | |- keeps (ret _) => apply keeps_ret
  | |- keeps (fprintf_stderr _) => apply keeps_fprintf_stderr
  | |- keeps (record _) => apply keeps_record
  | |- keeps (set_ciErr _) => apply keeps_set_ciErr
  | |- keeps (set_cpProgram _) => apply keeps_set_cpProgram
  | |- keeps (opencl_error_code _) => apply keeps_opencl_error_code
  | |- keeps (opencl_error _) => apply keeps_opencl_error
  | |- keeps (cache_get_program _) => apply keeps_cache_get_program
  | |- keeps (cache_store_program _) => apply keeps_cache_store_program
  | |- keeps cache_locker_released => apply keeps_cache_locker_released
  | |- keeps (bind _ _) => apply keeps_bind; [|intros ?]
  | |- keeps (if _ then _ else _) => apply keeps_if
  end.

Ltac keeps_tac := repeat keeps_step.

Lemma keeps_build_kernel err build_log : keeps (build_kernel err build_log).
Proof. unfold build_kernel. keeps_tac. Qed.

Lemma keeps_save_binary world : keeps (save_binary world).
Proof. unfold save_binary. keeps_tac. Qed.

Lemma keeps_create_kernel world name : keeps (create_kernel world name).
Proof. unfold create_kernel. keeps_tac. Qed.

Lemma keeps_find_kernels world : keeps (find_kernels world).
Proof. unfold find_kernels, create_kernel. keeps_tac. Qed.

Lemma keeps_load_binary world : keeps (load_binary world).
Proof. unfold load_binary, build_kernel. keeps_tac. Qed.

Lemma keeps_compile_kernel world : keeps (compile_kernel world).
Proof. unfold compile_kernel, build_kernel. keeps_tac. Qed.

Lemma keeps_load_kernels NDEBUG world : keeps (load_kernels NDEBUG world).
Proof.
  intros dev. unfold load_kernels.
  destruct (negb (device_initialized dev)); revert dev;
    match goal with |- forall dev r dev', ?c dev = _ -> _ => change (keeps c) end.
  - keeps_tac.
  - keeps_tac.
    all: first [ apply keeps_find_kernels | apply keeps_load_binary
               | apply keeps_compile_kernel | apply keeps_save_binary ].
Qed.

End BuilderFrames.

Ltac run_loader :=
  cbv beta iota delta [Builder.bind Builder.ret Builder.record Builder.set_ciErr
                       Builder.set_cpProgram Builder.set_opencl_cache
                       Builder.set_error_msg_if_empty Builder.fprintf_stderr
                       Builder.update].

Section LoadKernelsRuns.

Import Cache Builder.

Ltac solve_frame :=
  first
    [ solve [unfold same_program, same_cache, same_device; intros;
             repeat split; reflexivity]
    | solve [unfold same_program, same_cache, same_device; intros;
             repeat match goal with H : _ /\ _ |- _ => destruct H end;
             repeat split; congruence]
    | solve [unfold keeps_error_msg; intros; auto]
    | solve [unfold keeps_error_msg; intros ? ? ? H; cbn; rewrite H; reflexivity] ].

Lemma load_kernels_same_device NDEBUG world : keeps same_device (load_kernels NDEBUG world).
Proof. apply keeps_load_kernels; solve_frame. Qed.

Lemma load_binary_same_cache world : keeps same_cache (load_binary world).
Proof. apply keeps_load_binary; solve_frame. Qed.

Lemma compile_kernel_same_cache world : keeps same_cache (compile_kernel world).
Proof. apply keeps_compile_kernel; solve_frame. Qed.

Lemma save_binary_same_program world : keeps same_program (save_binary world).
Proof. apply keeps_save_binary; solve_frame. Qed.

Lemma find_kernels_same_program world : keeps same_program (find_kernels world).
Proof. apply keeps_find_kernels; solve_frame. Qed.

Lemma load_kernels_keeps_error_msg NDEBUG world : keeps keeps_error_msg (load_kernels NDEBUG world).
Proof. apply keeps_load_kernels; solve_frame. Qed.

Lemma find_kernels_result world dev :
  exists dev', find_kernels world dev = Some (kernels_found world, dev').
Proof.
  unfold find_kernels, create_kernel, opencl_error_code, kernels_found.
  destruct (kernel_ciErr world "kernel_ocl_shader" =? CL_SUCCESS);
    [|run_loader; eexists; reflexivity].
  destruct (kernel_ciErr world "kernel_ocl_bake" =? CL_SUCCESS);
    [|run_loader; eexists; reflexivity].
  destruct (kernel_ciErr world "kernel_ocl_convert_to_byte" =? CL_SUCCESS);
    [|run_loader; eexists; reflexivity].
  destruct (kernel_ciErr world "kernel_ocl_convert_to_half_float" =? CL_SUCCESS);
    run_loader; eexists; reflexivity.
Qed.

(** [load_binary] and [compile_kernel] leave the program they created in
    [cpProgram] when they succeed. *)
Lemma load_binary_program world dev dev' :
  load_binary world dev = Some (true, dev') -> cpProgram dev' = binary_program world.
Proof.
  unfold load_binary, build_kernel, opencl_error_code, opencl_error.
  destruct (read_binary_ok world); cbn [negb]; [|run_loader; discriminate].
  destruct (binary_status world =? CL_SUCCESS); [|run_loader; discriminate].
  destruct (binary_ciErr world =? CL_SUCCESS); [|run_loader; discriminate].
  destruct (String.eqb (binary_build_log world) EmptyString);
    destruct (binary_build_err world =? CL_SUCCESS); cbn [negb]; run_loader;
    intros [= <-]; reflexivity.
Qed.

Lemma compile_kernel_program world dev dev' :
  compile_kernel world dev = Some (true, dev') -> cpProgram dev' = source_program world.
Proof.
  unfold compile_kernel, build_kernel, opencl_error_code, opencl_error.
  destruct (source_ciErr world =? CL_SUCCESS); [|run_loader; discriminate].
  destruct (String.eqb (source_build_log world) EmptyString);
    destruct (source_build_err world =? CL_SUCCESS); cbn [negb]; run_loader;
    intros [= <-]; reflexivity.
Qed.

Lemma same_device_trans dev1 dev2 dev3 :
  same_device dev1 dev2 -> same_device dev2 dev3 -> same_device dev1 dev3.
Proof. unfold same_device. intros (? & ? & ?) (? & ? & ?). repeat split; congruence. Qed.

End LoadKernelsRuns.

(** A run of [load_kernels] whose lookup in the cache misses: the slot of
    the device is [slot], its base program is [NULL], and the lookup has
    locked it. *)
Section LoadKernelsMiss.

Import Cache Builder.

Variable NDEBUG : bool.
Variable world : World.
Variables p d : Z.
Variable slots : gmap (Z * Z) Slot.
Variable counts : gmap Z Z.
Variable slot : Slot.

Hypothesis Hp : NDEBUG = true \/ p <> NULL.
Hypothesis Hnull : slot_member member_ocl_dev_base_program slot = NULL.

Local Abbreviation cache_locked := (cache_locked p d slots counts slot).
Local Abbreviation cache_unlocked := (cache_unlocked p d slots counts slot).
Local Abbreviation cache_stored := (cache_stored p d slots counts slot).
Local Abbreviation in_miss := (in_miss p d slots counts slot).
Local Abbreviation run_outcome := (run_outcome NDEBUG world p d slots counts slot).

Lemma store_and_find_run dev :
  in_miss dev ->
  run_outcome (cache_store_program NDEBUG ;;; find_kernels world) dev true (cpProgram dev).
Proof.
  intros (Hpd & Hdd & Hc). unfold run_outcome, bind, cache_store_program.
  change (store_program NDEBUG (cpPlatform dev) (cdDevice dev) (cpProgram dev)
                        OCL_DEV_BASE_PROGRAM (opencl_cache dev))
    with (store_member NDEBUG member_ocl_dev_base_program (cpPlatform dev)
                       (cdDevice dev) (cpProgram dev) (opencl_cache dev)).
  rewrite Hpd, Hdd, Hc. unfold cache_locked.
  rewrite store_member_locked by (assumption || (right; assumption)).
  destruct (negb NDEBUG && ((d =? NULL) || (cpProgram dev =? NULL)));
    [reflexivity|].
  unfold set_opencl_cache, update.
  destruct (find_kernels_result world
              (with_opencl_cache (cache_stored (cpProgram dev)) dev)) as (dev' & Hf).
  exists dev'. unfold cache_stored in *. rewrite Hf. split; [reflexivity|].
  destruct (find_kernels_same_program _ _ _ _ Hf) as (((H1 & H2 & H3) & H4) & H5).
  cbn in H1, H2, H3, H4, H5.
  repeat split; assumption.
Qed.

Lemma release_and_fail_run dev :
  in_miss dev ->
  run_outcome (cache_locker_released ;;; ret false) dev false 0.
Proof.
  intros (Hpd & Hdd & Hc). unfold run_outcome, bind, cache_locker_released.
  rewrite Hpd, Hdd, Hc. unfold cache_locked. rewrite abandon_locked.
  unfold set_opencl_cache, update, ret. eexists. split; [reflexivity|].
  repeat split.
Qed.

Lemma run_outcome_false c dev program program' :
  run_outcome c dev false program -> run_outcome c dev false program'.
Proof. exact id. Qed.

Lemma in_miss_same_cache dev dev' : in_miss dev -> same_cache dev dev' -> in_miss dev'.
Proof.
  unfold in_miss, same_cache, same_device.
  intros (? & ? & ?) ((? & ? & ?) & ?). repeat split; congruence.
Qed.

(** A continuation [k] that ends the run, after a step that leaves the
    device and the cache as they are. *)
Lemma run_outcome_bind {A : Type} (c : M A) (k : A -> M bool) dev a dev1 obtained program :
  c dev = Some (a, dev1) -> same_device dev dev1 ->
  run_outcome (k a) dev1 obtained program ->
  run_outcome (bind c k) dev obtained program.
Proof.
  intros Hc Hsame. unfold run_outcome, bind. rewrite Hc.
  destruct obtained.
  - destruct (negb NDEBUG && ((d =? NULL) || (program =? NULL))); [exact id|].
    intros (dev' & Hk & H1 & H2 & H3). exists dev'.
    exact (conj Hk (conj H1 (conj H2 (same_device_trans _ _ _ Hsame H3)))).
  - intros (dev' & Hk & H1 & H3). exists dev'.
    exact (conj Hk (conj H1 (same_device_trans _ _ _ Hsame H3))).
Qed.

Lemma compile_and_save_run dev :
  in_miss dev ->
  run_outcome
    (compiled <- compile_kernel world ;;
     if negb compiled then cache_locker_released ;;; ret false
     else
       saved <- save_binary world ;;
       if negb saved then cache_locker_released ;;; ret false
       else cache_store_program NDEBUG ;;; find_kernels world)
    dev (source_compiles world && binary_saves world) (source_program world).
Proof.
  intros Hin.
  destruct (compile_kernel_spec world dev) as (dev1 & Hc & _).
  pose proof (compile_kernel_same_cache _ _ _ _ Hc) as Hsame1.
  pose proof (in_miss_same_cache _ _ Hin Hsame1) as Hin1.
  eapply run_outcome_bind; [exact Hc | exact (proj1 Hsame1) |].
  destruct (source_compiles world) eqn:Hcompiles; cbn [negb andb].
  - pose proof (compile_kernel_program _ _ _ Hc) as Hprog1.
    destruct (save_binary_spec world dev1) as (dev2 & Hs & _).
    fold (binary_saves world) in Hs.
    destruct (save_binary_same_program _ _ _ _ Hs) as (Hsame2 & Hprog2).
    pose proof (in_miss_same_cache _ _ Hin1 Hsame2) as Hin2.
    eapply run_outcome_bind; [exact Hs | exact (proj1 Hsame2) |].
    destruct (binary_saves world); cbn [negb].
    + rewrite <- Hprog1, <- Hprog2. apply store_and_find_run. exact Hin2.
    + apply (run_outcome_false _ _ 0). apply release_and_fail_run. exact Hin2.
  - apply (run_outcome_false _ _ 0). apply release_and_fail_run. exact Hin1.
Qed.

(** The run from the lookup on. *)
Lemma load_kernels_miss_run dev :
  device_initialized dev = true ->
  cpPlatform dev = p -> cdDevice dev = d ->
  get_program NDEBUG p d OCL_DEV_BASE_PROGRAM (opencl_cache dev)
  = Some (NULL, cache_locked) ->
  run_outcome (load_kernels NDEBUG world) dev (program_obtained world) (obtained_program world).
Proof.
  intros Hinit Hpd Hdd Hget.
  set (dev0 := with_cpProgram NULL (with_opencl_cache cache_locked dev)).
  assert (in_miss dev0) as Hin0 by (repeat split; assumption).
  assert (same_device dev dev0) as Hsame0 by (repeat split).
  assert (forall k : Z -> M bool,
             run_outcome (k NULL) dev0 (program_obtained world) (obtained_program world) ->
             run_outcome (fun dev => (program <- cache_get_program NDEBUG ;; k program) dev) dev
                         (program_obtained world) (obtained_program world)) as Hstart.
  { intros k. apply run_outcome_bind; [|exact Hsame0].
    unfold cache_get_program. rewrite Hpd, Hdd, Hget. reflexivity. }
  unfold load_kernels.
  assert (forall c : M bool,
             run_outcome c dev (program_obtained world) (obtained_program world) ->
             run_outcome (fun dev => if negb (device_initialized dev)
                                     then (fprintf_stderr
                                             (text_message "OpenCL: failed to initialize device.")
                                           ;;; ret false) dev
                                     else c dev)
                         dev (program_obtained world) (obtained_program world)) as Hguard.
  { intros c. unfold run_outcome. rewrite Hinit. exact id. }
  apply Hguard. apply Hstart.
  change (NULL =? NULL) with true. cbv beta iota.
  unfold program_obtained, obtained_program.
  destruct (version_check world); cbn [negb andb].
  2:{ eapply run_outcome_bind; [reflexivity | repeat split |].
      apply (run_outcome_false _ _ 0). apply release_and_fail_run.
      repeat split; assumption. }
  destruct (clbin_exists world); cbn [andb orb].
  - destruct (load_binary_spec world dev0) as (dev1 & Hl & _).
    pose proof (load_binary_same_cache _ _ _ _ Hl) as Hsame1.
    pose proof (in_miss_same_cache _ _ Hin0 Hsame1) as Hin1.
    eapply run_outcome_bind; [exact Hl | exact (proj1 Hsame1) |].
    destruct (binary_loads world) eqn:Hloads; cbn [orb].
    + rewrite <- (load_binary_program _ _ _ Hl). apply store_and_find_run. exact Hin1.
    + apply compile_and_save_run. exact Hin1.
  - eapply run_outcome_bind; [reflexivity | repeat split |].
    apply compile_and_save_run. exact Hin0.
Qed.

End LoadKernelsMiss.

Section LoadKernelsTheorems.

Import Cache Builder.

Lemma get_program_is_get_member NDEBUG p d self :
  get_program NDEBUG p d OCL_DEV_BASE_PROGRAM self
  = get_member NDEBUG member_ocl_dev_base_program p d self.
Proof. reflexivity. Qed.

(** A run of [load_kernels] whose lookup in the cache hits. *)
Lemma load_kernels_hit_run NDEBUG world dev :
  device_initialized dev = true ->
  NDEBUG = true \/ cpPlatform dev <> NULL ->
  slot_locked (opencl_cache dev) (cpPlatform dev) (cdDevice dev) = false ->
  cached (opencl_cache dev) (cpPlatform dev) (cdDevice dev) member_ocl_dev_base_program
    <> NULL ->
  exists dev',
    load_kernels NDEBUG world dev = Some (kernels_found world, dev')
    /\ log dev' = log dev
    /\ cpProgram dev'
       = cached (opencl_cache dev) (cpPlatform dev) (cdDevice dev) member_ocl_dev_base_program
    /\ opencl_cache dev'
       = clRetain (cached (opencl_cache dev) (cpPlatform dev) (cdDevice dev)
                          member_ocl_dev_base_program)
           (make_OpenCLCache
              (<[(cpPlatform dev, cdDevice dev) :=
                   set_locked false
                     (default empty_Slot
                        (cache (opencl_cache dev) !! (cpPlatform dev, cdDevice dev)))]>
                 (cache (opencl_cache dev)))
              (refs (opencl_cache dev)))
    /\ same_device dev dev'.
Proof.
  intros Hinit Hp Hl Hhit.
  set (program := cached (opencl_cache dev) (cpPlatform dev) (cdDevice dev)
                         member_ocl_dev_base_program) in *.
  unfold load_kernels. rewrite Hinit. cbn [negb].
  unfold bind at 1. unfold cache_get_program.
  rewrite get_program_is_get_member, get_member_run by (assumption || (right; assumption)).
  fold program.
  assert ((program =? NULL) = false) as Hne by (apply Z.eqb_neq; exact Hhit).
  rewrite Hne. unfold set_opencl_cache, set_cpProgram, update, bind, ret.
  rewrite Hne.
  match goal with
  | |- exists dev', find_kernels world ?d0 = _ /\ _ =>
      destruct (find_kernels_result world d0) as (dev' & Hf)
  end.
  exists dev'. split; [exact Hf|].
  destruct (find_kernels_same_program _ _ _ _ Hf) as ((Hsame & Hcache) & Hprog).
  pose proof (find_kernels_spec _ _ _ _ Hf) as (Hlog & _).
  rewrite app_nil_r in Hlog.
  split; [exact Hlog|]. split; [exact Hprog|]. split; [exact Hcache|]. exact Hsame.
Qed.

Lemma load_kernels_miss_outcome NDEBUG world dev :
  device_initialized dev = true ->
  NDEBUG = true \/ cpPlatform dev <> NULL ->
  slot_locked (opencl_cache dev) (cpPlatform dev) (cdDevice dev) = false ->
  cached (opencl_cache dev) (cpPlatform dev) (cdDevice dev) member_ocl_dev_base_program
    = NULL ->
  run_outcome NDEBUG world (cpPlatform dev) (cdDevice dev) (cache (opencl_cache dev))
              (refs (opencl_cache dev))
              (default empty_Slot (cache (opencl_cache dev) !! (cpPlatform dev, cdDevice dev)))
              (load_kernels NDEBUG world) dev (program_obtained world) (obtained_program world).
Proof.
  intros Hinit Hp Hl Hmiss.
  apply load_kernels_miss_run; try assumption; try reflexivity.
  - rewrite <- cached_default. exact Hmiss.
  - rewrite get_program_is_get_member, get_member_run by (assumption || (right; assumption)).
    rewrite Hmiss. reflexivity.
Qed.

(** X5.  [load_kernels] on an initialised device whose platform is not [NULL],
    whose slot is not locked and whose base program is in the cache takes it
    from there: the log gets no entry (no binary is read, nothing is compiled
    or saved), [cpProgram] is the cached program, which gets one reference
    more, the slot is unlocked again, and the result tells whether the four
    kernels were created. *)
Theorem load_kernels_uses_cached_program NDEBUG world dev program :
  device_initialized dev = true ->
  cpPlatform dev <> NULL ->
  slot_locked (opencl_cache dev) (cpPlatform dev) (cdDevice dev) = false ->
  cached (opencl_cache dev) (cpPlatform dev) (cdDevice dev) member_ocl_dev_base_program
    = program ->
  program <> NULL ->
  exists dev',
    load_kernels NDEBUG world dev = Some (kernels_found world, dev')
    /\ log dev' = log dev
    /\ cpProgram dev' = program
    /\ ref_count (opencl_cache dev') program = ref_count (opencl_cache dev) program + 1
    /\ cached (opencl_cache dev') (cpPlatform dev) (cdDevice dev)
              member_ocl_dev_base_program = program
    /\ slot_locked (opencl_cache dev') (cpPlatform dev) (cdDevice dev) = false.
Proof.
  intros Hinit Hp Hl Hcached Hprogram. subst program.
  destruct (load_kernels_hit_run NDEBUG world dev Hinit (or_intror Hp) Hl Hprogram)
    as (dev' & Hrun & Hlog & Hprog & Hcache & _).
  exists dev'. split; [exact Hrun|]. split; [exact Hlog|]. split; [exact Hprog|].
  rewrite Hcache. split; [|split].
  - rewrite ref_count_clRetain_eq. reflexivity.
  - rewrite cached_clRetain, cached_insert, slot_member_set_locked.
    symmetry. apply cached_default.
  - rewrite slot_locked_clRetain. apply slot_locked_unlocked.
Qed.

Lemma load_kernels_uses_cached_program_witness :
  exists dev',
    load_kernels false UnreadableBinary.world Reload.second_device = Some (true, dev')
    /\ log dev' = []
    /\ cpProgram dev' = 4096.
Proof.
  assert (cached (opencl_cache Reload.second_device) 1 2 member_ocl_dev_base_program = 4096)
    as Hcached by (vm_compute; reflexivity).
  assert (slot_locked (opencl_cache Reload.second_device) 1 2 = false)
    as Hl by (vm_compute; reflexivity).
  destruct (load_kernels_uses_cached_program false UnreadableBinary.world
              Reload.second_device 4096
              eq_refl ltac:(unfold NULL; cbn; lia) Hl Hcached ltac:(unfold NULL; lia))
    as (dev' & Hrun & Hlog & Hprog & _).
  exists dev'. split; [exact Hrun|]. split; [exact Hlog | exact Hprog].
Defined.

(** X6.  [load_kernels] on an initialised device whose platform and device are
    not [NULL], whose slot is not locked and whose base program is not in the
    cache returns true exactly when a program is obtained (the version is
    accepted, and the binary is loaded or the source compiles and its binary
    is saved) and the four kernels are created, a program that is obtained not
    being [NULL].  The slot is unlocked in either case; a program that is
    obtained is [cpProgram] and is stored in the cache with one reference
    more; otherwise the cache still holds [NULL]. *)
Theorem load_kernels_obtains_and_caches NDEBUG world dev :
  device_initialized dev = true ->
  cpPlatform dev <> NULL ->
  cdDevice dev <> NULL ->
  slot_locked (opencl_cache dev) (cpPlatform dev) (cdDevice dev) = false ->
  cached (opencl_cache dev) (cpPlatform dev) (cdDevice dev) member_ocl_dev_base_program
    = NULL ->
  (program_obtained world = true -> obtained_program world <> NULL) ->
  exists dev',
    load_kernels NDEBUG world dev = Some (program_obtained world && kernels_found world, dev')
    /\ slot_locked (opencl_cache dev') (cpPlatform dev) (cdDevice dev) = false
    /\ cached (opencl_cache dev') (cpPlatform dev) (cdDevice dev)
              member_ocl_dev_base_program
       = (if program_obtained world then obtained_program world else NULL)
    /\ (program_obtained world = true -> cpProgram dev' = obtained_program world)
    /\ ref_count (opencl_cache dev') (obtained_program world)
       = ref_count (opencl_cache dev) (obtained_program world)
         + (if program_obtained world then 1 else 0).
Proof.
  intros Hinit Hp Hd Hl Hmiss Hprogram.
  pose proof (load_kernels_miss_outcome NDEBUG world dev Hinit (or_intror Hp) Hl Hmiss)
    as Hrun.
  unfold run_outcome in Hrun.
  destruct (program_obtained world); cbn [andb].
  - specialize (Hprogram eq_refl).
    assert ((cdDevice dev =? NULL) = false) as Hd' by (apply Z.eqb_neq; exact Hd).
    assert ((obtained_program world =? NULL) = false) as Hp'
      by (apply Z.eqb_neq; exact Hprogram).
    rewrite Hd', Hp' in Hrun. cbn [orb] in Hrun. rewrite andb_false_r in Hrun.
    destruct Hrun as (dev' & Hrun & Hcache & Hprog & _).
    exists dev'. split; [exact Hrun|]. rewrite Hcache. unfold cache_stored.
    split; [rewrite slot_locked_clRetain; apply slot_locked_unlocked|].
    split.
    { rewrite cached_clRetain, cached_insert, slot_member_set_locked,
        slot_member_set_slot_member.
      destruct (decide (member_ocl_dev_base_program = member_ocl_dev_base_program));
        [reflexivity|contradiction]. }
    split; [intros _; exact Hprog|].
    rewrite ref_count_clRetain_eq. reflexivity.
  - destruct Hrun as (dev' & Hrun & Hcache & _).
    exists dev'. split; [exact Hrun|]. rewrite Hcache. unfold cache_unlocked.
    split; [apply slot_locked_unlocked|].
    split.
    { rewrite cached_insert, slot_member_set_locked, <- cached_default. exact Hmiss. }
    split; [discriminate|].
    unfold ref_count. cbn [refs]. lia.
Qed.

Lemma load_kernels_obtains_and_caches_witness :
  exists dev',
    load_kernels false UnreadableBinary.world UnreadableBinary.device = Some (true, dev')
    /\ slot_locked (opencl_cache dev') 1 2 = false
    /\ cached (opencl_cache dev') 1 2 member_ocl_dev_base_program = 4096.
Proof.
  assert (slot_locked (opencl_cache UnreadableBinary.device) 1 2 = false)
    as Hl by (vm_compute; reflexivity).
  assert (cached (opencl_cache UnreadableBinary.device) 1 2 member_ocl_dev_base_program
          = NULL) as Hmiss by (vm_compute; reflexivity).
  assert (program_obtained UnreadableBinary.world = true ->
          obtained_program UnreadableBinary.world <> NULL) as Hprogram.
  { intros _. vm_compute. discriminate. }
  destruct (load_kernels_obtains_and_caches false UnreadableBinary.world
              UnreadableBinary.device
              eq_refl ltac:(unfold NULL; cbn; lia) ltac:(unfold NULL; cbn; lia)
              Hl Hmiss Hprogram)
    as (dev' & Hrun & Hunlocked & Hcached & _).
  exists dev'. split; [exact Hrun|]. split; [exact Hunlocked | exact Hcached].
Defined.

(** What a run of [load_kernels] that returns true leaves in the cache. *)
Lemma load_kernels_true_cached NDEBUG world dev dev' :
  device_initialized dev = true ->
  load_kernels NDEBUG world dev = Some (true, dev') ->
  (NDEBUG = true \/ cpPlatform dev <> NULL)
  /\ (NDEBUG = false -> cpProgram dev' <> NULL)
  /\ cached (opencl_cache dev') (cpPlatform dev) (cdDevice dev)
            member_ocl_dev_base_program = cpProgram dev'
  /\ slot_locked (opencl_cache dev') (cpPlatform dev) (cdDevice dev) = false.
Proof.
  intros Hinit Hrun.
  assert ((NDEBUG = true \/ cpPlatform dev <> NULL)
          /\ slot_locked (opencl_cache dev) (cpPlatform dev) (cdDevice dev) = false)
    as (Hp & Hl).
  { unfold load_kernels in Hrun. rewrite Hinit in Hrun. cbn [negb] in Hrun.
    unfold bind at 1 in Hrun. unfold cache_get_program in Hrun.
    rewrite get_program_is_get_member in Hrun.
    destruct (get_member NDEBUG member_ocl_dev_base_program (cpPlatform dev) (cdDevice dev)
                         (opencl_cache dev)) as [[r c]|] eqn:Hget; [|discriminate].
    assert (NDEBUG = true \/ cpPlatform dev <> NULL) as Hp.
    { apply platform_asserted. rewrite get_member_unfold in Hget.
      unfold get_something in Hget.
      destruct (negb NDEBUG && (cpPlatform dev =? NULL)); [discriminate Hget | reflexivity]. }
    split; [exact Hp|].
    destruct (slot_locked (opencl_cache dev) (cpPlatform dev) (cdDevice dev)) eqn:Hl;
      [|reflexivity].
    apply (get_member_blocks NDEBUG member_ocl_dev_base_program) in Hl; [|exact Hp].
    congruence. }
  split; [exact Hp|].
  destruct (Z.eqb_spec (cached (opencl_cache dev) (cpPlatform dev) (cdDevice dev)
                               member_ocl_dev_base_program) NULL) as [Hmiss|Hhit].
  - pose proof (load_kernels_miss_outcome NDEBUG world dev Hinit Hp Hl Hmiss) as Hout.
    unfold run_outcome in Hout.
    destruct (program_obtained world).
    + destruct (negb NDEBUG && ((cdDevice dev =? NULL) || (obtained_program world =? NULL)))
        eqn:Hnull; [congruence|].
      destruct Hout as (dev'' & Hrun' & Hcache & Hprog & _).
      rewrite Hrun in Hrun'. injection Hrun' as _ <-.
      rewrite Hprog, Hcache. unfold cache_stored.
      split.
      { intros ->. cbn [negb andb] in Hnull.
        apply orb_false_elim in Hnull. destruct Hnull as (_ & Hnull).
        apply Z.eqb_neq in Hnull. exact Hnull. }
      split.
      * rewrite cached_clRetain, cached_insert, slot_member_set_locked,
          slot_member_set_slot_member.
        destruct (decide (member_ocl_dev_base_program = member_ocl_dev_base_program));
          [reflexivity|contradiction].
      * rewrite slot_locked_clRetain. apply slot_locked_unlocked.
    + destruct Hout as (dev'' & Hrun' & _). congruence.
  - destruct (load_kernels_hit_run NDEBUG world dev Hinit Hp Hl Hhit)
      as (dev'' & Hrun' & _ & Hprog & Hcache & _).
    rewrite Hrun in Hrun'. injection Hrun' as _ <-.
    rewrite Hprog, Hcache. split; [intros _; exact Hhit|]. split.
    + rewrite cached_clRetain, cached_insert, slot_member_set_locked.
      symmetry. apply cached_default.
    + rewrite slot_locked_clRetain. apply slot_locked_unlocked.
Qed.

(** X7.  Once [load_kernels] has returned true for an initialised device,
    [load_kernels] of a second initialised device object for the same platform
    and device that shares the cache takes the program from the cache,
    whatever the files and the compiler would answer: its log gets no entry
    and its program is the one of the first.  In a build with [NDEBUG] the
    program of the first is taken not to be [NULL]; in a build without it the
    store asserts that. *)
Theorem load_kernels_second_device_hits_cache NDEBUG world dev dev' world2 dev2 :
  device_initialized dev = true ->
  load_kernels NDEBUG world dev = Some (true, dev') ->
  NDEBUG = false \/ cpProgram dev' <> NULL ->
  device_initialized dev2 = true ->
  cpPlatform dev2 = cpPlatform dev ->
  cdDevice dev2 = cdDevice dev ->
  opencl_cache dev2 = opencl_cache dev' ->
  exists dev2',
    load_kernels NDEBUG world2 dev2 = Some (kernels_found world2, dev2')
    /\ log dev2' = log dev2
    /\ cpProgram dev2' = cpProgram dev'.
Proof.
  intros Hinit Hrun Hprogram Hinit2 Hp2 Hd2 Hc2.
  destruct (load_kernels_true_cached NDEBUG world dev dev' Hinit Hrun)
    as (Hp & Hprog & Hcached & Hl).
  assert (cpProgram dev' <> NULL) as Hprog'.
  { destruct Hprogram as [Hbuild|Hprogram]; [apply Hprog; exact Hbuild | exact Hprogram]. }
  rewrite <- Hp2, <- Hd2, <- Hc2 in Hcached, Hl. rewrite <- Hp2 in Hp.
  assert (cached (opencl_cache dev2) (cpPlatform dev2) (cdDevice dev2)
                 member_ocl_dev_base_program <> NULL) as Hhit by congruence.
  destruct (load_kernels_hit_run NDEBUG world2 dev2 Hinit2 Hp Hl Hhit)
    as (dev2' & Hrun2 & Hlog & Hprog2 & _).
  exists dev2'. split; [exact Hrun2|]. split; [exact Hlog|]. congruence.
Qed.

Lemma load_kernels_second_device_hits_cache_witness :
  exists dev2',
    load_kernels false UnreadableBinary.world Reload.second_device = Some (true, dev2')
    /\ log dev2' = []
    /\ cpProgram dev2' = cpProgram UnreadableBinary.device_after.
Proof.
  assert (load_kernels false UnreadableBinary.world UnreadableBinary.device
          = Some (true, UnreadableBinary.device_after)) as Hrun by (vm_compute; reflexivity).
  exact (load_kernels_second_device_hits_cache false UnreadableBinary.world
           UnreadableBinary.device UnreadableBinary.device_after UnreadableBinary.world
           Reload.second_device eq_refl Hrun (or_introl eq_refl) eq_refl eq_refl eq_refl
           eq_refl).
Defined.

(** X8.  [load_kernels] never replaces an error message: an [error_msg] that is
    set before the call is the same after it. *)
Theorem load_kernels_keeps_first_error NDEBUG world dev result dev' m :
  error_msg dev = Some m ->
  load_kernels NDEBUG world dev = Some (result, dev') ->
  error_msg dev' = Some m.
Proof.
  intros Hm Hrun.
  exact (load_kernels_keeps_error_msg NDEBUG world dev result dev' Hrun m Hm).
Qed.

Lemma load_kernels_keeps_first_error_witness :
  error_msg Reload.device_reloaded = Some UnreadableBinary.message.
Proof.
  assert (error_msg UnreadableBinary.device_after = Some UnreadableBinary.message)
    as Hm by (vm_compute; reflexivity).
  assert (load_kernels false UnreadableBinary.world UnreadableBinary.device_after
          = Some (true, Reload.device_reloaded)) as Hrun by (vm_compute; reflexivity).
  exact (load_kernels_keeps_first_error _ _ _ _ _ _ Hm Hrun).
Defined.

(** X9.  On an initialised device whose platform is not [NULL], whose slot is
    not locked and whose base program is not in the cache, with the version
    accepted, no binary file, a source that compiles and a program whose
    binary has size 0, [load_kernels] returns false without a message:
    [error_msg] is as before, no binary is written and the cache still has no
    program for the device. *)
Theorem load_kernels_fails_without_message NDEBUG world dev :
  device_initialized dev = true ->
  cpPlatform dev <> NULL ->
  slot_locked (opencl_cache dev) (cpPlatform dev) (cdDevice dev) = false ->
  cached (opencl_cache dev) (cpPlatform dev) (cdDevice dev) member_ocl_dev_base_program
    = NULL ->
  version_check world = true ->
  clbin_exists world = false ->
  source_compiles world = true ->
  binary_size world = 0 ->
  exists dev',
    load_kernels NDEBUG world dev = Some (false, dev')
    /\ error_msg dev' = error_msg dev
    /\ (forall path, In (ev_path_write_binary path) (log dev') ->
                     In (ev_path_write_binary path) (log dev))
    /\ cached (opencl_cache dev') (cpPlatform dev) (cdDevice dev)
              member_ocl_dev_base_program = NULL.
Proof.
  intros Hinit Hp Hl Hmiss Hver Hbin Hcompiles Hsize.
  unfold source_compiles in Hcompiles. apply andb_prop in Hcompiles.
  destruct Hcompiles as (Hc1 & Hc2).
  unfold load_kernels. rewrite Hinit. cbn [negb].
  unfold bind at 1. unfold cache_get_program.
  rewrite get_program_is_get_member, get_member_run by (assumption || (right; assumption)).
  rewrite Hmiss. change (NULL =? NULL) with true. cbv beta iota.
  unfold set_opencl_cache at 1. unfold bind at 1. unfold update at 1.
  unfold bind at 1. unfold set_cpProgram at 1. unfold update at 1.
  unfold ret at 1. change (NULL =? NULL) with true. cbv beta iota.
  rewrite Hver, Hbin. cbn [negb].
  unfold compile_kernel, save_binary, build_kernel, opencl_error_code,
    cache_locker_released.
  rewrite Hc1, Hc2, Hsize. change (0 =? 0) with true. cbn [negb].
  destruct (String.eqb (source_build_log world) EmptyString); run_loader; cbn [negb];
    run_loader;
    cbn [cpPlatform cdDevice opencl_cache with_event with_ciErr with_cpProgram
         with_opencl_cache with_stderr];
    rewrite abandon_locked;
    (eexists; split; [reflexivity|]);
    (split; [reflexivity|]);
    (split;
     [ intros path;
       cbn [log with_event with_ciErr with_cpProgram with_opencl_cache with_stderr];
       rewrite !in_app_iff; cbn [In];
       intros H;
       repeat match goal with
              | H : _ \/ _ |- _ => destruct H as [H|H]
              | H : False |- _ => destruct H
              | H : ev_call _ = ev_path_write_binary _ |- _ => discriminate H
              | H : ev_return _ _ = ev_path_write_binary _ |- _ => discriminate H
              end; assumption
     | cbn [opencl_cache with_opencl_cache with_event with_ciErr with_cpProgram with_stderr];
       rewrite cached_insert, slot_member_set_locked, <- cached_default; exact Hmiss ]).
Qed.

Lemma load_kernels_fails_without_message_witness :
  exists dev',
    load_kernels false EmptyBinary.world UnreadableBinary.device = Some (false, dev')
    /\ error_msg dev' = None.
Proof.
  assert (slot_locked (opencl_cache UnreadableBinary.device) 1 2 = false)
    as Hl by (vm_compute; reflexivity).
  assert (cached (opencl_cache UnreadableBinary.device) 1 2 member_ocl_dev_base_program
          = NULL) as Hmiss by (vm_compute; reflexivity).
  destruct (load_kernels_fails_without_message false EmptyBinary.world
              UnreadableBinary.device
              eq_refl ltac:(unfold NULL; cbn; lia) Hl Hmiss eq_refl eq_refl eq_refl eq_refl)
    as (dev' & Hrun & Hmsg & _).
  exists dev'. split; [exact Hrun | exact Hmsg].
Defined.

End LoadKernelsTheorems.

(** ** Dispatching tiles within the budget *)

Section RoundingSizes.

Lemma ceil_round_size_pos d L :
  1 <= d < 2 ^ 31 -> 1 <= L < 2 ^ 31 ->
  ceil_round_size d L = ((d - 1) / L + 1) * L.
Proof.
  intros Hd HL. unfold ceil_round_size, size_mul, size_add, size_div, int_sub.
  pose proof (div_bounds (d - 1) L ltac:(lia) ltac:(lia)) as Hq.
  pose proof (div_le_self (d - 1) L ltac:(lia) ltac:(lia)) as Hs.
  rewrite (to_int_id (d - 1)) by (unfold is_int; lia).
  rewrite (to_size_id (d - 1)) by (unfold is_size; lia).
  rewrite quot_div_pos by lia.
  rewrite (to_size_id ((d - 1) / L + 1)) by (unfold is_size; lia).
  apply to_size_id. unfold is_size. lia.
Qed.

Lemma ceil_round_size_bounds d L :
  1 <= d < 2 ^ 31 -> 1 <= L < 2 ^ 31 ->
  d <= ceil_round_size d L < d + L /\ (L | ceil_round_size d L).
Proof.
  intros Hd HL. rewrite ceil_round_size_pos by lia.
  pose proof (div_bounds (d - 1) L ltac:(lia) ltac:(lia)) as Hq.
  split; [lia | apply Z.divide_factor_r].
Qed.

Lemma ceil_round_size_one d : 1 <= d < 2 ^ 31 -> ceil_round_size d 1 = d.
Proof.
  intros Hd. rewrite ceil_round_size_pos by lia. rewrite Z.div_1_r. lia.
Qed.

Lemma ceil_round_uint_pos d L :
  1 <= d -> 1 <= L -> d + L <= 2 ^ 32 ->
  ceil_round_uint d L = ((d - 1) / L + 1) * L.
Proof.
  intros Hd HL Hov. unfold ceil_round_uint, uint_mul, uint_add, uint_div, uint_sub.
  pose proof (div_bounds (d - 1) L ltac:(lia) ltac:(lia)) as Hq.
  pose proof (div_le_self (d - 1) L ltac:(lia) ltac:(lia)) as Hs.
  rewrite (to_uint_id (d - 1)) by (unfold is_uint; lia).
  rewrite quot_div_pos by lia.
  rewrite (to_uint_id ((d - 1) / L + 1)) by (unfold is_uint; lia).
  apply to_uint_id. unfold is_uint. lia.
Qed.

Lemma mul_ge_self a b : 0 <= a -> 1 <= b -> 0 <= a <= a * b.
Proof.
  intros Ha Hb. split; [exact Ha|].
  rewrite <- (Z.mul_1_r a) at 1. apply Z.mul_le_mono_nonneg_l; assumption.
Qed.

(** Rounding up to a multiple of [L] is monotone. *)

(** X10.  For a tile of at least 1x1 pixels, with extents below 2^31, the
    global work size of the stages is the width rounded up to a multiple of
    64, by less than 64, and the height itself; the number of work items is at
    least the number of pixels. *)
Theorem stage_global_size_rounds_up rtile :
  1 <= w rtile < 2 ^ 31 -> 1 <= h rtile < 2 ^ 31 ->
  w rtile <= fst (Pipeline.stage_global_size rtile) < w rtile + SPLIT_KERNEL_LOCAL_SIZE_X
  /\ (SPLIT_KERNEL_LOCAL_SIZE_X | fst (Pipeline.stage_global_size rtile))
  /\ snd (Pipeline.stage_global_size rtile) = h rtile
  /\ w rtile * h rtile <= Scheduler.work_items rtile.
Proof.
  intros Hw Hh. unfold Scheduler.work_items, Pipeline.stage_global_size.
  cbn [fst snd]. unfold SPLIT_KERNEL_LOCAL_SIZE_X, SPLIT_KERNEL_LOCAL_SIZE_Y.
  destruct (ceil_round_size_bounds (w rtile) 64 Hw ltac:(lia)) as (Hb & Hdiv).
  rewrite (ceil_round_size_one (h rtile) Hh).
  split; [exact Hb|]. split; [exact Hdiv|]. split; [reflexivity|].
  unfold size_mul. rewrite to_size_id; [nia|].
  unfold is_size. split; [nia|].
  pose proof (mul_bounds (ceil_round_size (w rtile) 64) (h rtile) (2 ^ 32) (2 ^ 31)
                ltac:(lia) ltac:(lia)). lia.
Qed.

Lemma stage_global_size_rounds_up_witness :
  130 <= fst (Pipeline.stage_global_size tile_130) < 130 + 64
  /\ (64 | fst (Pipeline.stage_global_size tile_130))
  /\ snd (Pipeline.stage_global_size tile_130) = 130
  /\ 130 * 130 <= Scheduler.work_items tile_130.
Proof.
  apply (stage_global_size_rounds_up tile_130); cbn; lia.
Defined.

End RoundingSizes.

Section SplitDispatch.

Import Splitter.

(** The elements of the vector [split_tiles] returns. *)
Lemma split_tiles_elements rtile sts :
  0 < w rtile -> 0 < h rtile -> 0 < i2x sts -> 0 < i2y sts ->
  split_in_range rtile sts ->
  exists l,
    split_tiles rtile sts = Some l
    /\ l <> []
    /\ forall t, In t l ->
         exists j i,
           0 <= j < ceil_div (h rtile) (i2y sts)
           /\ 0 <= i < ceil_div (w rtile) (i2x sts)
           /\ t = sub_tile rtile sts (w rtile) (h rtile)
                    (ceil_div (w rtile) (i2x sts)) (ceil_div (h rtile) (i2y sts))
                    (size_mod
                       (to_size (int_add (offset rtile)
                                   (int_add (x rtile) (int_mul (y rtile) (stride rtile)))))
                       (to_size (stride rtile)))
                    (size_div
                       (to_size (int_add (offset rtile)
                                   (int_add (x rtile) (int_mul (y rtile) (stride rtile)))))
                       (to_size (stride rtile)))
                    j i.
Proof.
  intros Hw Hh Hsx Hsy Hrange.
  destruct (split_tiles_grid rtile sts Hw Hh Hsx Hsy Hrange) as (l & Hrun & Hlen & Hgrid).
  exists l. split; [exact Hrun|]. split.
  { intros ->. cbn in Hlen.
    pose proof (ceil_div_bounds (w rtile) (i2x sts) Hw Hsx).
    pose proof (ceil_div_bounds (h rtile) (i2y sts) Hh Hsy). nia. }
  intros t Hin. apply list_elem_of_In in Hin. apply list_elem_of_lookup in Hin.
  destruct Hin as (k & Hk).
  destruct (split_tiles_cell rtile sts Hw Hsx l k t Hlen Hgrid Hk)
    as (j & i & Hj & Hi & _ & Ht).
  exists j, i. split; [exact Hj|]. split; [exact Hi|]. exact Ht.
Qed.

(** X11.  For a tile and a split size with positive extents, where the
    coordinates, the extents and the number of sub-tiles are within [int], the
    stride is positive and the indices [offset + x + y * stride] of the pixels
    of the tile are computed within [int] and are not negative: every sub-tile
    [split_tiles] makes addresses the buffer of the tile it comes from: its
    buffer offsets, taken with the stride of the tile, give the index of its
    first pixel; the offsets are not negative, those of the random-number
    state are the same, and offset, buffer and state are the ones of the tile. *)
Theorem split_tiles_buffer_offsets rtile sts :
  0 < w rtile -> 0 < h rtile -> 0 < i2x sts -> 0 < i2y sts ->
  split_in_range rtile sts ->
  buffer_in_range rtile ->
  exists l,
    split_tiles rtile sts = Some l
    /\ forall t, In t l ->
         buffer_offset_x t + buffer_offset_y t * stride rtile
         = offset rtile + x t + y t * stride rtile
         /\ 0 <= buffer_offset_x t /\ 0 <= buffer_offset_y t
         /\ rng_state_offset_x t = buffer_offset_x t
         /\ rng_state_offset_y t = buffer_offset_y t
         /\ buffer_rng_state_stride t = stride rtile
         /\ offset t = offset rtile
         /\ buffer t = buffer rtile /\ rng_state t = rng_state rtile.
Proof.
  intros Hw Hh Hsx Hsy Hrange (Hoff & Hstride & Hys & Hxys & Hidx & Hlast).
  destruct (split_tiles_elements rtile sts Hw Hh Hsx Hsy Hrange) as (l & Hrun & _ & Hel).
  exists l. split; [exact Hrun|]. intros t Hin.
  destruct (Hel t Hin) as (j & i & Hj & Hi & Ht).
  destruct (sub_rect rtile sts Hw Hh Hsx Hsy Hrange j i Hi Hj) as (Hx & Hy & _ & _).
  rewrite <- Ht in Hx, Hy. rewrite Hx, Hy.
  pose proof (ceil_div_bounds (w rtile) (i2x sts) Hw Hsx) as (_ & Hbx & _).
  pose proof (ceil_div_bounds (h rtile) (i2y sts) Hh Hsy) as (_ & Hby & _).
  pose proof (grid_offset_bound _ (i2x sts) (w rtile) i Hsx Hbx Hi) as Hix.
  pose proof (grid_offset_bound _ (i2y sts) (h rtile) j Hsy Hby Hj) as Hjy.
  unfold is_int in *.
  pose proof (mul_ge_self (h rtile - 1) (stride rtile) ltac:(lia) ltac:(lia)) as Hrows.
  set (idx := offset rtile + x rtile + y rtile * stride rtile) in *.
  assert (to_size (int_add (offset rtile)
                     (int_add (x rtile) (int_mul (y rtile) (stride rtile)))) = idx) as Hindex.
  { unfold int_add, int_mul.
    rewrite (to_int_id (y rtile * stride rtile)) by exact Hys.
    rewrite (to_int_id (x rtile + y rtile * stride rtile)) by exact Hxys.
    rewrite to_int_id by (unfold is_int; subst idx; lia).
    rewrite to_size_id by (unfold is_size; subst idx; lia).
    subst idx. lia. }
  assert (to_size (stride rtile) = stride rtile) as Hst.
  { apply to_size_id. unfold is_size. lia. }
  rewrite Hindex, Hst in Ht.
  pose proof (div_bounds idx (stride rtile) Hidx ltac:(lia)) as Hq.
  pose proof (div_le_self idx (stride rtile) Hidx ltac:(lia)) as Hqs.
  assert (size_mod idx (stride rtile) = idx - stride rtile * (idx / stride rtile)) as Hmod.
  { unfold size_mod. rewrite Z.rem_mod_nonneg by lia. rewrite Z.mod_eq by lia. reflexivity. }
  assert (size_div idx (stride rtile) = idx / stride rtile) as Hdiv.
  { unfold size_div. apply quot_div_pos; lia. }
  rewrite Hmod, Hdiv in Ht.
  assert (buffer_offset_x t = idx - stride rtile * (idx / stride rtile) + i * i2x sts
          /\ buffer_offset_y t = idx / stride rtile + j * i2y sts
          /\ rng_state_offset_x t = buffer_offset_x t
          /\ rng_state_offset_y t = buffer_offset_y t
          /\ buffer_rng_state_stride t = stride rtile
          /\ offset t = offset rtile
          /\ buffer t = buffer rtile /\ rng_state t = rng_state rtile)
    as (Hbx' & Hby' & H3 & H4 & H5 & H6 & H7 & H8).
  { rewrite Ht. unfold sub_tile.
    cbn [buffer_offset_x buffer_offset_y rng_state_offset_x rng_state_offset_y
         buffer_rng_state_stride offset buffer rng_state].
    unfold size_add, int_mul.
    rewrite (to_int_id (i * i2x sts)) by (unfold is_int; lia).
    rewrite (to_int_id (j * i2y sts)) by (unfold is_int; lia).
    rewrite (to_size_id (i * i2x sts)) by (unfold is_size; lia).
    rewrite (to_size_id (j * i2y sts)) by (unfold is_size; lia).
    rewrite (to_size_id (idx - stride rtile * (idx / stride rtile) + i * i2x sts))
      by (unfold is_size; lia).
    rewrite (to_size_id (idx / stride rtile + j * i2y sts)) by (unfold is_size; lia).
    rewrite (to_int_id (idx - stride rtile * (idx / stride rtile) + i * i2x sts))
      by (unfold is_int; subst idx; lia).
    rewrite (to_int_id (idx / stride rtile + j * i2y sts))
      by (unfold is_int; subst idx; lia).
    repeat split; reflexivity. }
  rewrite Hbx', Hby'. split; [subst idx; nia|].
  split; [lia|]. split; [lia|].
  rewrite <- Hbx', <- Hby'.
  repeat split; assumption.
Qed.

Lemma split_tiles_buffer_offsets_witness :
  exists l,
    split_tiles tile_130 (make_int2 64 65) = Some l
    /\ forall t, In t l ->
         buffer_offset_x t + buffer_offset_y t * 130 = 0 + x t + y t * 130.
Proof.
  assert (buffer_in_range tile_130) as Hbuffer.
  { unfold buffer_in_range, is_int. cbn. lia. }
  destruct (split_tiles_buffer_offsets tile_130 (make_int2 64 65)
              ltac:(cbn; lia) ltac:(cbn; lia) ltac:(cbn; lia) ltac:(cbn; lia)
              tile_130_in_range Hbuffer) as (l & Hrun & Hall).
  exists l. split; [exact Hrun|]. intros t Hin. exact (proj1 (Hall t Hin)).
Defined.

(** The product of the extents of the render feasible tile size, as the
    code computes it in [int], for a feasible work size below [2^31]. *)
Lemma max_tile_area f :
  0 <= f < 2 ^ 31 ->
  let r := get_max_render_feasible_tile_size f in
  0 <= i2x r * i2y r <= f /\ int_mul (i2x r) (i2y r) = i2x r * i2y r /\
  (i2x r * i2y r <> 0 -> (64 | i2x r) /\ 0 <= i2x r /\ 0 <= i2y r).
Proof.
  intros Hf r.
  destruct (Z.eq_dec (Z.sqrt f) 0) as [Hz|Hnz].
  - assert (f = 0) as -> by (apply sqrt_zero; lia).
    subst r. rewrite get_max_zero. cbn. repeat split; lia.
  - destruct (get_max_shape_pos f ltac:(lia) Hnz) as (Hdx & _ & Hx & Hy & Harea & _).
    fold r in Hdx, Hx, Hy, Harea.
    assert (0 <= i2x r * i2y r) by nia.
    split; [lia|]. split; [apply to_int_id; unfold is_int; lia|].
    intros _. repeat split; assumption.
Qed.

Lemma round_up_multiple a s :
  1 <= a <= s -> (64 | s) -> ((a - 1) / 64 + 1) * 64 <= s.
Proof.
  intros Ha [k Hk]. subst s.
  assert ((a - 1) / 64 < k) by (apply Z.div_lt_upper_bound; lia). lia.
Qed.

(** The work items of a tile whose extents are within [sx] by [sy], [sx]
    being a multiple of 64. *)
Lemma work_items_le rtile sx sy :
  1 <= w rtile <= sx -> 1 <= h rtile <= sy -> (64 | sx) -> sx < 2 ^ 31 -> sy < 2 ^ 31 ->
  Scheduler.work_items rtile
  = ((w rtile - 1) / 64 + 1) * 64 * h rtile
  /\ Scheduler.work_items rtile <= sx * sy.
Proof.
  intros Hw Hh Hdiv Hsx Hsy.
  unfold Scheduler.work_items, Pipeline.stage_global_size. cbn [fst snd].
  unfold SPLIT_KERNEL_LOCAL_SIZE_X, SPLIT_KERNEL_LOCAL_SIZE_Y.
  rewrite (ceil_round_size_pos (w rtile) 64) by lia.
  rewrite (ceil_round_size_one (h rtile)) by lia.
  pose proof (round_up_multiple (w rtile) sx Hw Hdiv) as Hup.
  pose proof (div_le_self (w rtile - 1) 64 ltac:(lia) ltac:(lia)) as Hq.
  pose proof (mul_bounds (((w rtile - 1) / 64 + 1) * 64) (h rtile) sx sy
                ltac:(lia) ltac:(lia)) as Hm.
  pose proof (mul_bounds sx sy (2 ^ 31) (2 ^ 31) ltac:(lia) ltac:(lia)) as Hm'.
  unfold size_mul. rewrite to_size_id by (unfold is_size; lia).
  split; [reflexivity | lia].
Qed.

Lemma path_trace_asserts_intro rtile max_tile :
  (64 | i2x max_tile) -> 0 <= i2x max_tile -> 0 <= i2y max_tile ->
  i2x max_tile * i2y max_tile < 2 ^ 31 ->
  Scheduler.work_items rtile <= i2x max_tile * i2y max_tile ->
  Guards.path_trace_asserts 1 1 rtile max_tile = true.
Proof.
  intros Hdiv Hx Hy Harea Hfit. unfold Guards.path_trace_asserts.
  unfold SPLIT_KERNEL_LOCAL_SIZE_X, SPLIT_KERNEL_LOCAL_SIZE_Y.
  assert (Z.rem (i2x max_tile) 64 = 0) as ->.
  { rewrite Z.rem_mod_nonneg by lia. apply Z.mod_divide; [lia | exact Hdiv]. }
  rewrite Z.rem_1_r. cbn [Z.eqb andb].
  apply Z.leb_le. fold (Scheduler.work_items rtile).
  unfold int_mul. assert (0 <= i2x max_tile * i2y max_tile) by nia.
  rewrite to_int_id by (unfold is_int; lia).
  rewrite to_size_id by (unfold is_size; lia). exact Hfit.
Qed.

(** X12.  Splitting for a budget of [f] work items, [0 <= f < 2^31], whose
    feasible tile has an area of at least 4096, a tile with [1 <= w <= 2^15 -
    64] and [1 <= h <= 2^15], with coordinates within [int], [x + w] and [y +
    h] within [2^31] and a stride that is not zero: [get_split_tile_size]
    terminates, [split_tiles] returns at least one sub-tile, and every
    sub-tile passes the assertions at the head of [path_trace] and needs at
    most [f] work items. *)
Theorem split_dispatch_within_budget f rtile :
  0 <= f < 2 ^ 31 ->
  4096 <= i2x (get_max_render_feasible_tile_size f)
          * i2y (get_max_render_feasible_tile_size f) ->
  1 <= w rtile <= 2 ^ 15 - 64 -> 1 <= h rtile <= 2 ^ 15 ->
  is_int (x rtile) -> is_int (y rtile) ->
  x rtile + w rtile <= 2 ^ 31 -> y rtile + h rtile <= 2 ^ 31 ->
  to_size (stride rtile) <> 0 ->
  exists fuel sts l,
    get_split_tile_size fuel rtile (get_max_render_feasible_tile_size f) = Some sts
    /\ split_tiles rtile sts = Some l
    /\ l <> []
    /\ forall t, In t l ->
         Guards.path_trace_asserts 1 1 t (get_max_render_feasible_tile_size f) = true
         /\ Scheduler.work_items t <= f.
Proof.
  intros Hf Harea Hw Hh Hx Hy Hxw Hyh Hstride.
  destruct (max_tile_area f Hf) as (Hfit & Hmul & Hshape).
  destruct (Hshape ltac:(lia)) as (Hdiv & Hmx & Hmy).
  set (max_tile := get_max_render_feasible_tile_size f) in *.
  unfold get_split_tile_size. rewrite Hmul.
  unfold SPLIT_KERNEL_LOCAL_SIZE_X, SPLIT_KERNEL_LOCAL_SIZE_Y.
  destruct (ceil_round_int_bounds (w rtile) 64 ltac:(lia) ltac:(lia) ltac:(lia))
    as (Hbw & Hdw).
  destruct (ceil_round_int_bounds (h rtile) 1 ltac:(lia) ltac:(lia) ltac:(lia))
    as (Hbh & _).
  assert (halving_state (make_int2 (ceil_round_int (w rtile) 64)
                                   (ceil_round_int (h rtile) 1))) as Hstate.
  { unfold halving_state. cbn [i2x i2y]. split; [exact Hdw|].
    destruct Hdw as [k Hk]. lia. }
  destruct (split_loop_terminates _ Harea
              (Z.to_nat (ceil_round_int (w rtile) 64 + ceil_round_int (h rtile) 1))
              _ Hstate ltac:(cbn [i2x i2y]; lia))
    as (sts & Hrun & (Hsdiv & Hsx & Hsy) & Hsfit).
  assert (split_in_range rtile sts) as Hrange.
  { unfold split_in_range, is_int in *.
    pose proof (ceil_div_bounds (w rtile) (i2x sts) ltac:(lia) ltac:(lia)) as (? & ? & ?).
    pose proof (ceil_div_bounds (h rtile) (i2y sts) ltac:(lia) ltac:(lia)) as (? & ? & ?).
    assert (ceil_div (w rtile) (i2x sts) <= w rtile).
    { rewrite ceil_div_eq by lia.
      pose proof (div_le_self (w rtile - 1) (i2x sts) ltac:(lia) ltac:(lia)). lia. }
    assert (ceil_div (h rtile) (i2y sts) <= h rtile).
    { rewrite ceil_div_eq by lia.
      pose proof (div_le_self (h rtile - 1) (i2y sts) ltac:(lia) ltac:(lia)). lia. }
    pose proof (mul_bounds (ceil_div (w rtile) (i2x sts)) (ceil_div (h rtile) (i2y sts))
                  (2 ^ 15) (2 ^ 15) ltac:(lia) ltac:(lia)).
    repeat split; try lia; assumption. }
  destruct (split_tiles_elements rtile sts ltac:(lia) ltac:(lia) ltac:(lia) ltac:(lia)
              Hrange) as (l & Hsplit & Hne & Hel).
  eexists _, sts, l. split; [exact Hrun|]. split; [exact Hsplit|]. split; [exact Hne|].
  intros t Hin. destruct (Hel t Hin) as (j & i & Hj & Hi & Ht).
  destruct (sub_rect rtile sts ltac:(lia) ltac:(lia) ltac:(lia) ltac:(lia) Hrange j i Hi Hj)
    as (_ & _ & Hwt & Hht).
  rewrite <- Ht in Hwt, Hht.
  pose proof (cell_len_bounds (w rtile) (i2x sts) i ltac:(lia) ltac:(lia) Hi) as (Hcw & _).
  pose proof (cell_len_bounds (h rtile) (i2y sts) j ltac:(lia) ltac:(lia) Hj) as (Hch & _).
  rewrite <- Hwt in Hcw. rewrite <- Hht in Hch.
  destruct (work_items_le t (i2x sts) (i2y sts) ltac:(lia) ltac:(lia) Hsdiv
              ltac:(lia) ltac:(lia)) as (_ & Hitems).
  split; [|lia].
  apply path_trace_asserts_intro; try assumption; lia.
Qed.

Lemma split_dispatch_within_budget_witness :
  exists fuel sts l,
    get_split_tile_size fuel tile_130 (get_max_render_feasible_tile_size 8192) = Some sts
    /\ split_tiles tile_130 sts = Some l
    /\ l <> []
    /\ forall t, In t l -> Scheduler.work_items t <= 8192.
Proof.
  assert (4096 <= i2x (get_max_render_feasible_tile_size 8192)
                  * i2y (get_max_render_feasible_tile_size 8192)) as Harea
    by (vm_compute; discriminate).
  assert (to_size (stride tile_130) <> 0) as Hstride by (vm_compute; discriminate).
  destruct (split_dispatch_within_budget 8192 tile_130 ltac:(lia) Harea
              ltac:(cbn; lia) ltac:(cbn; lia)
              ltac:(unfold is_int; cbn; lia) ltac:(unfold is_int; cbn; lia)
              ltac:(cbn; lia) ltac:(cbn; lia) Hstride)
    as (fuel & sts & l & Hsize & Hrun & Hne & Hall).
  exists fuel, sts, l. split; [exact Hsize|]. split; [exact Hrun|]. split; [exact Hne|].
  intros t Hin. exact (proj2 (Hall t Hin)).
Defined.

(** When no split is needed the whole tile fits the render feasible tile
    size computed from the feasible work size. *)
Lemma need_to_split_false_fits f d_w d_h :
  0 <= f < 2 ^ 31 ->
  1 <= d_w -> d_w + 64 <= 2 ^ 31 -> 1 <= d_h < 2 ^ 31 ->
  need_to_split_tile d_w d_h (get_max_render_feasible_tile_size f) = false ->
  ((d_w - 1) / 64 + 1) * 64 * d_h <= f.
Proof.
  intros Hf Hw Hw' Hh. unfold need_to_split_tile.
  destruct (max_tile_area f Hf) as (Hfit & -> & _).
  unfold SPLIT_KERNEL_LOCAL_SIZE_X, SPLIT_KERNEL_LOCAL_SIZE_Y.
  rewrite (ceil_round_uint_pos d_w 64) by lia.
  rewrite (ceil_round_uint_pos d_h 1) by lia.
  rewrite Z.div_1_r. replace ((d_h - 1 + 1) * 1) with d_h by lia.
  pose proof (div_bounds (d_w - 1) 64 ltac:(lia) ltac:(lia)) as Hq.
  pose proof (mul_bounds (((d_w - 1) / 64 + 1) * 64) d_h (2 ^ 31) (2 ^ 31)
                ltac:(lia) ltac:(lia)) as Hm.
  unfold size_mul.
  rewrite (to_size_id (((d_w - 1) / 64 + 1) * 64 * d_h)) by (unfold is_size; lia).
  rewrite to_size_id by (unfold is_size; lia).
  destruct (Z.ltb_spec (i2x (get_max_render_feasible_tile_size f)
                        * i2y (get_max_render_feasible_tile_size f))
                       (((d_w - 1) / 64 + 1) * 64 * d_h)); [discriminate|].
  intros _. lia.
Qed.

Lemma check_render_feasibility_verdict background d_data_size st a st1 :
  Scheduler.check_render_feasibility background d_data_size st a = Some st1 ->
  Scheduler.need_to_split_tiles_further st1
  = need_to_split_tile (to_uint (i2x (tile_size (Scheduler.tile a))))
                       (to_uint (i2y (tile_size (Scheduler.tile a))))
                       (get_max_render_feasible_tile_size
                          (Scheduler.feasible_global_work_size st1)).
Proof.
  unfold Scheduler.check_render_feasibility.
  destruct (_ =? 0); [discriminate|]. intros [= <-]. reflexivity.
Qed.

Lemma render_tile_unsplit fuel background d_data_size st a st1 :
  Scheduler.initialize_data_and_check_render_feasibility st = false ->
  Scheduler.check_render_feasibility background d_data_size st
    (Scheduler.make_AcquiredTile (Scheduler.clear_offsets (Scheduler.tile a))
       (Scheduler.output_buffer_size a) (Scheduler.params_width a)
       (Scheduler.params_height a)) = Some st1 ->
  Scheduler.need_to_split_tiles_further st1 = false ->
  exists st',
    Scheduler.render_tile fuel background d_data_size st a
    = Some (st', [Scheduler.make_Dispatch
                    (Scheduler.set_buffer_rng_state_stride
                       (Scheduler.clear_offsets (Scheduler.tile a)))
                    (Scheduler.max_render_feasible_tile_size st')])
    /\ Scheduler.max_render_feasible_tile_size st'
       = make_int2 (ceil_round_int (i2x (tile_size (Scheduler.tile a)))
                                   SPLIT_KERNEL_LOCAL_SIZE_X)
                   (ceil_round_int (i2y (tile_size (Scheduler.tile a)))
                                   SPLIT_KERNEL_LOCAL_SIZE_Y).
Proof.
  intros Hinit Hcheck Hneed.
  unfold Scheduler.render_tile. rewrite Hinit, Hcheck, Hneed.
  match goal with |- exists st', Some (?s, _) = _ /\ _ => exists s end.
  split; reflexivity.
Qed.

(** X13.  When the budget is not yet checked and the check of the first tile
    finds no need to split, with a feasible work size from 0 to [2^31 - 1],
    and the tile has extents of at least 1 within its tile size, the tile size
    being at least 1x1 with [tile_size.x + 64 <= 2^31] and [tile_size.y <
    2^31]: [render_tile] dispatches the tile once, with its offsets cleared,
    and the dispatch passes the assertions at the head of [path_trace] and
    needs no more work items than are feasible. *)
Theorem unsplit_tile_within_budget fuel background d_data_size st a st1 :
  Scheduler.initialize_data_and_check_render_feasibility st = false ->
  Scheduler.check_render_feasibility background d_data_size st
    (Scheduler.make_AcquiredTile (Scheduler.clear_offsets (Scheduler.tile a))
       (Scheduler.output_buffer_size a) (Scheduler.params_width a)
       (Scheduler.params_height a)) = Some st1 ->
  Scheduler.need_to_split_tiles_further st1 = false ->
  0 <= Scheduler.feasible_global_work_size st1 < 2 ^ 31 ->
  1 <= i2x (tile_size (Scheduler.tile a)) ->
  i2x (tile_size (Scheduler.tile a)) + 64 <= 2 ^ 31 ->
  1 <= i2y (tile_size (Scheduler.tile a)) < 2 ^ 31 ->
  1 <= w (Scheduler.tile a) <= i2x (tile_size (Scheduler.tile a)) ->
  1 <= h (Scheduler.tile a) <= i2y (tile_size (Scheduler.tile a)) ->
  exists st' t,
    Scheduler.render_tile fuel background d_data_size st a
    = Some (st', [Scheduler.make_Dispatch t (Scheduler.max_render_feasible_tile_size st')])
    /\ t = Scheduler.set_buffer_rng_state_stride (Scheduler.clear_offsets (Scheduler.tile a))
    /\ Guards.path_trace_asserts 1 1 t (Scheduler.max_render_feasible_tile_size st') = true
    /\ Scheduler.work_items t <= Scheduler.feasible_global_work_size st1.
Proof.
  intros Hinit Hcheck Hneed Hf Htx Htx' Hty Hw Hh.
  destruct (render_tile_unsplit fuel background d_data_size st a st1 Hinit Hcheck Hneed)
    as (st' & Hrun & Hmax).
  exists st', (Scheduler.set_buffer_rng_state_stride
                 (Scheduler.clear_offsets (Scheduler.tile a))).
  split; [exact Hrun|]. split; [reflexivity|]. rewrite Hmax. clear Hrun Hmax st'.
  rewrite (check_render_feasibility_verdict _ _ _ _ _ Hcheck) in Hneed.
  clear Hcheck Hinit.
  generalize dependent (Scheduler.feasible_global_work_size st1). intros f Hneed Hf.
  assert (tile_size (Scheduler.tile
                       (Scheduler.make_AcquiredTile
                          (Scheduler.clear_offsets (Scheduler.tile a))
                          (Scheduler.output_buffer_size a) (Scheduler.params_width a)
                          (Scheduler.params_height a)))
          = tile_size (Scheduler.tile a)) as Hts by reflexivity.
  rewrite Hts in Hneed. clear Hts.
  assert (w (Scheduler.set_buffer_rng_state_stride
               (Scheduler.clear_offsets (Scheduler.tile a))) = w (Scheduler.tile a)
          /\ h (Scheduler.set_buffer_rng_state_stride
                  (Scheduler.clear_offsets (Scheduler.tile a))) = h (Scheduler.tile a))
    as (Hwt & Hht) by (split; reflexivity).
  revert Hwt Hht.
  generalize (Scheduler.set_buffer_rng_state_stride
                (Scheduler.clear_offsets (Scheduler.tile a))).
  intros t Hwt Hht.
  revert Htx Htx' Hty Hw Hh Hneed. rewrite <- Hwt, <- Hht.
  generalize (tile_size (Scheduler.tile a)). intros ts Htx Htx' Hty Hw Hh Hneed.
  rewrite (to_uint_id (i2x ts)) in Hneed by (unfold is_uint; lia).
  rewrite (to_uint_id (i2y ts)) in Hneed by (unfold is_uint; lia).
  apply need_to_split_false_fits in Hneed; [|lia..].
  unfold SPLIT_KERNEL_LOCAL_SIZE_X, SPLIT_KERNEL_LOCAL_SIZE_Y.
  destruct (ceil_round_int_bounds (i2x ts) 64 ltac:(lia) ltac:(lia) ltac:(lia))
    as (Hbx & Hdx).
  rewrite (ceil_round_int_pos (i2y ts) 1) by lia.
  rewrite Z.div_1_r. replace ((i2y ts - 1 + 1) * 1) with (i2y ts) by lia.
  rewrite (ceil_round_int_pos (i2x ts) 64) in * by lia.
  revert Hneed Hbx Hdx. generalize (((i2x ts - 1) / 64 + 1) * 64). intros cx Hneed Hbx Hdx.
  assert (0 <= cx * i2y ts) by (apply Z.mul_nonneg_nonneg; lia).
  destruct (work_items_le t cx (i2y ts) ltac:(lia) ltac:(lia) Hdx ltac:(lia) ltac:(lia))
    as (_ & Hitems).
  split; [|lia].
  apply path_trace_asserts_intro; cbn [i2x i2y].
  - exact Hdx.
  - lia.
  - lia.
  - lia.
  - exact Hitems.
Qed.

Lemma unsplit_tile_within_budget_witness :
  exists st' t,
    Scheduler.render_tile 10 true 10000 (Scheduler.initial_RunState Roomy.dev)
                          Exhausted.acquired
    = Some (st', [Scheduler.make_Dispatch t (Scheduler.max_render_feasible_tile_size st')])
    /\ Scheduler.work_items t <= 229079.
Proof.
  assert (Scheduler.check_render_feasibility true 10000
            (Scheduler.initial_RunState Roomy.dev)
            (Scheduler.make_AcquiredTile
               (Scheduler.clear_offsets (Scheduler.tile Exhausted.acquired))
               (Scheduler.output_buffer_size Exhausted.acquired)
               (Scheduler.params_width Exhausted.acquired)
               (Scheduler.params_height Exhausted.acquired)) = Some roomy_checked)
    as Hcheck by (vm_compute; reflexivity).
  assert (Scheduler.need_to_split_tiles_further roomy_checked = false)
    as Hneed by (vm_compute; reflexivity).
  assert (Scheduler.feasible_global_work_size roomy_checked = 229079)
    as Hf by (vm_compute; reflexivity).
  destruct (unsplit_tile_within_budget 10 true 10000
              (Scheduler.initial_RunState Roomy.dev) Exhausted.acquired roomy_checked
              eq_refl Hcheck Hneed ltac:(rewrite Hf; lia)
              ltac:(cbn; lia) ltac:(cbn; lia) ltac:(cbn; lia) ltac:(cbn; lia)
              ltac:(cbn; lia))
    as (st' & t & Hrun & _ & _ & Hfit).
  exists st', t. split; [exact Hrun|]. rewrite <- Hf. exact Hfit.
Defined.

End SplitDispatch.

Section EnqueueOrder.

Import Pipeline.

Variable Mem : Type.
Variable run_kernel : SplitKernel -> Z * Z -> Mem -> Mem.
Variable ray_state : Mem -> Z -> Z.
Variable RAY_INACTIVE : Z.

Lemma enqueue_enqueued kernelName globalSize d :
  enqueued (ENQUEUE_SPLIT_KERNEL Mem run_kernel kernelName globalSize d)
  = enqueued d ++ [(kernelName, globalSize)].
Proof. reflexivity. Qed.

Lemma path_iteration_enqueued global_size d :
  enqueued (path_iteration Mem run_kernel global_size d)
  = enqueued d ++ round_of_kernels global_size.
Proof.
  unfold path_iteration, round_of_kernels. cbv zeta.
  rewrite !enqueue_enqueued, <- !app_assoc. reflexivity.
Qed.

Lemma path_iterations_enqueued global_size (n : nat) d :
  enqueued (Nat.iter n (path_iteration Mem run_kernel global_size) d)
  = enqueued d ++ concat (replicate n (round_of_kernels global_size)).
Proof.
  induction n as [|n IH].
  - cbn. rewrite app_nil_r. reflexivity.
  - rewrite Nat.iter_succ, path_iteration_enqueued, IH.
    rewrite <- app_assoc. f_equal.
    change (S n) with (1 + n)%nat.
    replace (1 + n)%nat with (n + 1)%nat by lia.
    rewrite replicate_add, concat_app. cbn [replicate concat]. rewrite app_nil_r.
    reflexivity.
Qed.

Lemma loop_body_enqueued global_size st :
  enqueued (dev (loop_body Mem run_kernel ray_state RAY_INACTIVE global_size st))
  = enqueued (dev st)
    ++ concat (replicate (Z.to_nat (PathIteration_times (dev st)))
                         (round_of_kernels global_size)).
Proof.
  unfold loop_body, path_iterations.
  destruct (scan_ray_state _ _ _ _); cbn [dev enqueued set_PathIteration_times read_ray_state];
    apply path_iterations_enqueued.
Qed.

Lemma dispatch_loop_enqueued global_size (fuel : nat) :
  forall st st',
    dispatch_loop Mem run_kernel ray_state RAY_INACTIVE fuel global_size st = Some st' ->
    exists n : nat,
      enqueued (dev st')
      = enqueued (dev st) ++ concat (replicate n (round_of_kernels global_size))
      /\ (activeRaysAvailable st = true ->
          (Z.to_nat (PathIteration_times (dev st)) <= n)%nat).
Proof.
  induction fuel as [|fuel IH]; intros st st'; cbn [dispatch_loop];
    destruct (activeRaysAvailable st) eqn:Hactive; try discriminate.
  - intros [= <-]. exists 0%nat. cbn. rewrite app_nil_r. split; [reflexivity|discriminate].
  - intros Hrun. destruct (IH _ _ Hrun) as (n & Hn & _).
    exists (Z.to_nat (PathIteration_times (dev st)) + n)%nat.
    rewrite Hn, loop_body_enqueued, <- app_assoc, replicate_add, concat_app.
    split; [reflexivity | lia].
  - intros [= <-]. exists 0%nat. cbn. rewrite app_nil_r. split; [reflexivity|discriminate].
Qed.

(** X14.  If [path_trace] returns, the kernels it enqueued are [DataInit], then
    whole rounds of the nine kernels of a path iteration in their order,
    at least [PathIteration_times] rounds, then [SumAllRadiance]; the
    first-tile flag is cleared. *)
Theorem path_trace_enqueues_whole_rounds fuel rtile d d' :
  path_trace Mem run_kernel ray_state RAY_INACTIVE fuel rtile d = Some d' ->
  exists n : nat,
    enqueued d'
    = enqueued d
      ++ [(DataInit, stage_global_size rtile)]
      ++ concat (replicate n (round_of_kernels (stage_global_size rtile)))
      ++ [(SumAllRadiance, (ceil_round_size (w rtile) 16, ceil_round_size (h rtile) 16))]
    /\ (Z.to_nat (PathIteration_times d) <= n)%nat
    /\ first_tile d' = false.
Proof.
  unfold path_trace.
  destruct (dispatch_loop _ _ _ _ _ _ _) as [st|] eqn:Hloop; [|discriminate].
  intros [= <-].
  destruct (dispatch_loop_enqueued _ _ _ _ Hloop) as (n & Hn & Hmin).
  exists n. split; [|split].
  - unfold loop_exit, ENQUEUE_SPLIT_KERNEL. cbn [enqueued]. rewrite Hn.
    unfold loop_entry, ENQUEUE_SPLIT_KERNEL. cbn [dev enqueued].
    rewrite <- !app_assoc. reflexivity.
  - apply Hmin. reflexivity.
  - reflexivity.
Qed.

End EnqueueOrder.

Lemma path_trace_enqueues_whole_rounds_witness :
  exists d' (n : nat),
    Toy.path_trace 20 10 Toy.tile_1 (Toy.device 8) = Some d'
    /\ Pipeline.enqueued d'
       = [(Pipeline.DataInit, Pipeline.stage_global_size Toy.tile_1)]
         ++ concat (replicate n (round_of_kernels (Pipeline.stage_global_size Toy.tile_1)))
         ++ [(Pipeline.SumAllRadiance, (16, 16))]
    /\ (8 <= n)%nat.
Proof.
  eexists.
  assert (Toy.path_trace 20 10 Toy.tile_1 (Toy.device 8) = Some _) as Hrun
    by (vm_compute; reflexivity).
  destruct (path_trace_enqueues_whole_rounds Z Toy.run_kernel (Toy.ray_state 20)
              Toy.RAY_INACTIVE 10 Toy.tile_1 (Toy.device 8) _ Hrun) as (n & Hlog & Hmin & _).
  exists n. split; [exact Hrun|]. split; [exact Hlog | exact Hmin].
Defined.

Section CheckOnce.

Import Scheduler.

Lemma render_tile_checked_unsplit fuel background d_data_size st a :
  initialize_data_and_check_render_feasibility st = true ->
  need_to_split_tiles_further st = false ->
  exists st',
    render_tile fuel background d_data_size st a = Some (st', [whole_tile_dispatch a])
    /\ initialize_data_and_check_render_feasibility st' = true
    /\ need_to_split_tiles_further st' = false.
Proof.
  intros Hinit Hneed. unfold render_tile. rewrite Hinit, Hneed.
  match goal with |- exists st', Some (?s, _) = _ /\ _ => exists s end.
  split; [reflexivity|].
  split; cbn [initialize_data_and_check_render_feasibility need_to_split_tiles_further];
    first [reflexivity | assumption].
Qed.

Lemma thread_run_checked_unsplit fuel background d_data_size tiles :
  forall st,
    initialize_data_and_check_render_feasibility st = true ->
    need_to_split_tiles_further st = false ->
    thread_run fuel background d_data_size st tiles = Some (map whole_tile_dispatch tiles).
Proof.
  induction tiles as [|a tiles IH]; intros st Hinit Hneed; cbn [thread_run map].
  - reflexivity.
  - destruct (render_tile_checked_unsplit fuel background d_data_size st a Hinit Hneed)
      as (st' & -> & Hinit' & Hneed').
    rewrite (IH st' Hinit' Hneed'). reflexivity.
Qed.

(** X15.  [thread_run] checks the budget for the first tile only: when that check
    finds no need to split, every tile of the task is dispatched whole,
    with its rounded tile size as the feasible size, whatever its
    extents. *)
Theorem thread_run_checks_first_tile_only fuel background d_data_size dev a tiles st1 :
  check_render_feasibility background d_data_size (initial_RunState dev)
    (make_AcquiredTile (clear_offsets (tile a)) (output_buffer_size a) (params_width a)
                       (params_height a)) = Some st1 ->
  need_to_split_tiles_further st1 = false ->
  thread_run fuel background d_data_size (initial_RunState dev) (a :: tiles)
  = Some (map whole_tile_dispatch (a :: tiles)).
Proof.
  intros Hcheck Hneed. cbn [thread_run map].
  assert (initialize_data_and_check_render_feasibility st1 = true) as Hinit1.
  { unfold check_render_feasibility in Hcheck. destruct (_ =? 0); [discriminate|].
    injection Hcheck as <-. reflexivity. }
  assert (exists st',
             render_tile fuel background d_data_size (initial_RunState dev) a
             = Some (st', [whole_tile_dispatch a])
             /\ initialize_data_and_check_render_feasibility st' = true
             /\ need_to_split_tiles_further st' = false) as (st' & -> & Hinit' & Hneed').
  { unfold render_tile. cbn [initial_RunState initialize_data_and_check_render_feasibility].
    rewrite Hcheck, Hneed.
    match goal with |- exists st', Some (?s, _) = _ /\ _ => exists s end.
    split; [reflexivity|].
    split; cbn [initialize_data_and_check_render_feasibility need_to_split_tiles_further];
      first [reflexivity | assumption]. }
  rewrite (thread_run_checked_unsplit fuel background d_data_size tiles st' Hinit' Hneed').
  reflexivity.
Qed.

Lemma thread_run_checks_first_tile_only_witness :
  Scheduler.thread_run 10 true 10000 (Scheduler.initial_RunState Roomy.dev)
                       [Exhausted.acquired; Exhausted.acquired]
  = Some [whole_tile_dispatch Exhausted.acquired; whole_tile_dispatch Exhausted.acquired].
Proof.
  assert (Scheduler.check_render_feasibility true 10000
            (Scheduler.initial_RunState Roomy.dev)
            (Scheduler.make_AcquiredTile
               (Scheduler.clear_offsets (Scheduler.tile Exhausted.acquired))
               (Scheduler.output_buffer_size Exhausted.acquired)
               (Scheduler.params_width Exhausted.acquired)
               (Scheduler.params_height Exhausted.acquired)) = Some roomy_checked)
    as Hcheck by (vm_compute; reflexivity).
  assert (Scheduler.need_to_split_tiles_further roomy_checked = false)
    as Hneed by (vm_compute; reflexivity).
  exact (thread_run_checks_first_tile_only 10 true 10000 Roomy.dev Exhausted.acquired
           [Exhausted.acquired] roomy_checked Hcheck Hneed).
Defined.

End CheckOnce.

Section ShaderDataSize.

Import Budget.

(** X16.  For [0 <= max_closure <= MAX_CLOSURE], a [ShaderClosure] of at least
    one byte and [sizeof(ShaderClosure) * MAX_CLOSURE <= sizeof(ShaderData) <
    2^64]: the size of [ShaderData] for [max_closure] closures is the full
    size less the closures left out, [sizeof(ShaderData) -
    sizeof(ShaderClosure) * (MAX_CLOSURE - max_closure)]; for [MAX_CLOSURE]
    closures it is [sizeof(ShaderData)]. *)
Theorem shader_data_size_of_closures dev max_closure :
  0 <= max_closure <= MAX_CLOSURE (ks dev) ->
  1 <= sizeof_ShaderClosure (ks dev) ->
  sizeof_ShaderClosure (ks dev) * MAX_CLOSURE (ks dev) <= sizeof_ShaderData (ks dev) ->
  sizeof_ShaderData (ks dev) < 2 ^ 64 ->
  get_shader_data_size dev (get_shader_closure_size dev max_closure)
  = sizeof_ShaderData (ks dev)
    - sizeof_ShaderClosure (ks dev) * (MAX_CLOSURE (ks dev) - max_closure)
  /\ get_shader_data_size dev (get_shader_closure_size dev (MAX_CLOSURE (ks dev)))
     = sizeof_ShaderData (ks dev).
Proof.
  intros Hn Hc Hfit Hsize.
  assert (forall n, 0 <= n <= MAX_CLOSURE (ks dev) ->
            get_shader_data_size dev (get_shader_closure_size dev n)
            = sizeof_ShaderData (ks dev)
              - sizeof_ShaderClosure (ks dev) * (MAX_CLOSURE (ks dev) - n)) as Hgen.
  { intros n Hn'.
    pose proof (mul_ge_self (MAX_CLOSURE (ks dev)) (sizeof_ShaderClosure (ks dev))
                  ltac:(lia) ltac:(lia)) as Hm.
    rewrite (Z.mul_comm (MAX_CLOSURE (ks dev))) in Hm.
    pose proof (mul_bounds (sizeof_ShaderClosure (ks dev)) n
                  (sizeof_ShaderClosure (ks dev)) (MAX_CLOSURE (ks dev))
                  ltac:(lia) ltac:(lia)) as Hb.
    pose proof (mul_bounds (sizeof_ShaderClosure (ks dev)) (MAX_CLOSURE (ks dev))
                  (sizeof_ShaderClosure (ks dev)) (MAX_CLOSURE (ks dev))
                  ltac:(lia) ltac:(lia)) as Hb'.
    unfold get_shader_data_size, get_shader_closure_size, size_add, size_sub, size_mul.
    rewrite (to_size_id n) by (unfold is_size; lia).
    rewrite (to_size_id (MAX_CLOSURE (ks dev))) by (unfold is_size; lia).
    rewrite (to_size_id (sizeof_ShaderClosure (ks dev) * n)) by (unfold is_size; lia).
    rewrite (to_size_id (sizeof_ShaderClosure (ks dev) * MAX_CLOSURE (ks dev)))
      by (unfold is_size; lia).
    rewrite (to_size_id (sizeof_ShaderData (ks dev)
                         - sizeof_ShaderClosure (ks dev) * MAX_CLOSURE (ks dev)))
      by (unfold is_size; lia).
    rewrite to_size_id by (unfold is_size; lia). lia. }
  split; [apply Hgen; exact Hn|].
  rewrite Hgen by lia. lia.
Qed.

Lemma shader_data_size_of_closures_witness :
  get_shader_data_size Exhausted.dev (get_shader_closure_size Exhausted.dev 10)
  = 5504 - 80 * (64 - 10).
Proof.
  exact (proj1 (shader_data_size_of_closures Exhausted.dev 10
                  ltac:(cbn; lia) ltac:(cbn; lia) ltac:(cbn; lia) ltac:(cbn; lia))).
Defined.

End ShaderDataSize.

(** ** Launching kernels *)

Section LaunchFacts.

Import Launch.

Lemma global_size_round_up_value group_size global_size :
  0 < group_size -> 0 <= global_size -> global_size + group_size <= 2 ^ 31 ->
  global_size_round_up group_size global_size
  = Some (((global_size + group_size - 1) / group_size) * group_size).
Proof.
  intros Hg Hs Hov. unfold global_size_round_up.
  destruct (Z.eqb_spec group_size 0) as [|_]; [lia|].
  destruct (Z.eqb_spec group_size (-1)) as [|_]; [lia|].
  rewrite andb_false_r. cbn [orb]. cbv zeta.
  rewrite Z.rem_mod_nonneg by lia.
  pose proof (Z.mod_pos_bound global_size group_size Hg) as Hr.
  pose proof (Z.div_mod global_size group_size ltac:(lia)) as Hdm.
  f_equal.
  destruct (Z.eqb_spec (global_size mod group_size) 0) as [Hz|Hnz].
  - unfold int_add. rewrite Z.add_0_r.
    rewrite to_int_id by (unfold is_int; lia).
    rewrite to_size_id by (unfold is_size; lia).
    replace (global_size + group_size - 1)
      with (group_size - 1 + (global_size / group_size) * group_size) by lia.
    rewrite Z.div_add by lia. rewrite (Z.div_small (group_size - 1)) by lia. lia.
  - unfold int_add, int_sub.
    rewrite (to_int_id (group_size - _)) by (unfold is_int; lia).
    rewrite to_int_id by (unfold is_int; lia).
    rewrite to_size_id by (unfold is_size; lia).
    replace (global_size + group_size - 1)
      with (global_size mod group_size - 1 + (global_size / group_size + 1) * group_size)
      by lia.
    rewrite Z.div_add by lia.
    rewrite (Z.div_small (global_size mod group_size - 1)) by lia. lia.
Qed.

(** X17.  For a positive group size and a global size that is not negative,
    [global_size_round_up] returns the least multiple of the group size
    that is not below the global size; a group size of zero is a division
    by zero. *)
Theorem global_size_round_up_least_multiple group_size global_size :
  0 < group_size -> 0 <= global_size -> global_size + group_size <= 2 ^ 31 ->
  exists g,
    global_size_round_up group_size global_size = Some g
    /\ global_size <= g < global_size + group_size
    /\ (group_size | g)
    /\ (forall m, (group_size | m) -> global_size <= m -> g <= m)
    /\ global_size_round_up 0 global_size = None.
Proof.
  intros Hg Hs Hov. eexists. split; [apply global_size_round_up_value; assumption|].
  pose proof (div_bounds (global_size + group_size - 1) group_size ltac:(lia) Hg) as Hq.
  split; [lia|]. split; [apply Z.divide_factor_r|]. split; [|reflexivity].
  intros m [k ->] Hm.
  assert ((global_size + group_size - 1) / group_size < k + 1) as Hlt.
  { apply Z.div_lt_upper_bound; [lia|].
    rewrite Z.mul_add_distr_l, (Z.mul_comm group_size k). lia. }
  apply Z.mul_le_mono_nonneg_r; lia.
Qed.

Lemma global_size_round_up_least_multiple_witness :
  exists g, global_size_round_up 16 130 = Some g /\ 130 <= g < 130 + 16 /\ (16 | g).
Proof.
  destruct (global_size_round_up_least_multiple 16 130 ltac:(lia) ltac:(lia) ltac:(lia))
    as (g & Hg & Hb & Hdiv & _).
  exists g. split; [exact Hg|]. split; [exact Hb | exact Hdiv].
Defined.

Lemma local_size_value workgroup_size max_work_items_1 :
  1 <= workgroup_size < 2 ^ 31 -> 1 <= max_work_items_1 ->
  exists l0 l1,
    local_size workgroup_size max_work_items_1 = Some (l0, l1)
    /\ 1 <= l0 <= workgroup_size /\ 1 <= l1 <= workgroup_size
    /\ l1 <= max_work_items_1
    /\ l0 * l1 <= workgroup_size.
Proof.
  intros Hwg Hm. unfold local_size.
  pose proof (Z.sqrt_spec workgroup_size ltac:(lia)) as Hs. cbv zeta in Hs.
  pose proof (Z.sqrt_nonneg workgroup_size) as Hs0.
  assert (1 <= Z.sqrt workgroup_size) as Hs1.
  { destruct (Z_lt_le_dec (Z.sqrt workgroup_size) 1); [|assumption].
    assert (Z.sqrt workgroup_size = 0) as Hz by lia. rewrite Hz in Hs. lia. }
  assert (Z.sqrt workgroup_size <= workgroup_size) as Hsw.
  { pose proof (mul_ge_self (Z.sqrt workgroup_size) (Z.sqrt workgroup_size)
                  ltac:(lia) ltac:(lia)). lia. }
  rewrite (to_size_id (Z.sqrt workgroup_size)) by (unfold is_size; lia).
  rewrite to_int_id by (unfold is_int; lia).
  rewrite Z.max_l by lia.
  rewrite to_size_id by (unfold is_size; lia).
  destruct (Z.ltb_spec max_work_items_1 (Z.sqrt workgroup_size)) as [Hlt|Hge].
  - destruct (Z.eqb_spec max_work_items_1 0) as [|_]; [lia|].
    unfold size_div. rewrite quot_div_pos by lia.
    pose proof (div_bounds workgroup_size max_work_items_1 ltac:(lia) ltac:(lia)) as Hq.
    pose proof (div_le_self workgroup_size max_work_items_1 ltac:(lia) ltac:(lia)) as Hq'.
    assert (1 <= workgroup_size / max_work_items_1).
    { apply Z.div_le_lower_bound; lia. }
    eexists _, _. split; [reflexivity|]. repeat split; lia.
  - eexists _, _. split; [reflexivity|]. repeat split; lia.
Qed.

Lemma global_size_value workgroup_size max_work_items_1 w h :
  1 <= workgroup_size < 2 ^ 31 -> 1 <= max_work_items_1 ->
  0 <= w -> 0 <= h -> w + workgroup_size <= 2 ^ 31 -> h + workgroup_size <= 2 ^ 31 ->
  exists l0 l1 g0 g1,
    local_size workgroup_size max_work_items_1 = Some (l0, l1)
    /\ global_size workgroup_size max_work_items_1 w h = Some (g0, g1)
    /\ 1 <= l0 /\ 1 <= l1 <= max_work_items_1 /\ l0 * l1 <= workgroup_size
    /\ w <= g0 < w + l0 /\ h <= g1 < h + l1
    /\ (l0 | g0) /\ (l1 | g1)
    /\ local_size workgroup_size 0 = None.
Proof.
  intros Hwg Hm Hw Hh Hwo Hho.
  destruct (local_size_value workgroup_size max_work_items_1 Hwg Hm)
    as (l0 & l1 & Hl & Hl0 & Hl1 & Hl1m & Hprod).
  exists l0, l1. unfold global_size. rewrite Hl.
  rewrite (to_int_id l0), (to_int_id l1), (to_int_id w), (to_int_id h)
    by (unfold is_int; lia).
  rewrite !global_size_round_up_value by lia.
  eexists _, _. split; [reflexivity|]. split; [reflexivity|].
  pose proof (div_bounds (w + l0 - 1) l0 ltac:(lia) ltac:(lia)) as Hq0.
  pose proof (div_bounds (h + l1 - 1) l1 ltac:(lia) ltac:(lia)) as Hq1.
  split; [lia|]. split; [lia|]. split; [exact Hprod|].
  split; [lia|]. split; [lia|].
  split; [apply Z.divide_factor_r|]. split; [apply Z.divide_factor_r|].
  unfold local_size.
  pose proof (Z.sqrt_nonneg workgroup_size) as Hs0.
  assert ((0 <? to_size (Z.max (to_int (to_size (Z.sqrt workgroup_size))) 1)) = true) as ->.
  { apply Z.ltb_lt.
    pose proof (Z.le_max_r (to_int (to_size (Z.sqrt workgroup_size))) 1) as Hmax.
    pose proof (Z.sqrt_spec workgroup_size ltac:(lia)) as Hs. cbv zeta in Hs.
    assert (Z.sqrt workgroup_size <= workgroup_size) as Hsw.
    { destruct (Z.eq_dec (Z.sqrt workgroup_size) 0) as [->|]; [lia|].
      pose proof (mul_ge_self (Z.sqrt workgroup_size) (Z.sqrt workgroup_size)
                    ltac:(lia) ltac:(lia)). lia. }
    rewrite (to_size_id (Z.sqrt workgroup_size)) by (unfold is_size; lia).
    rewrite to_int_id by (unfold is_int; lia).
    rewrite to_size_id; [lia|]. unfold is_size. lia. }
  reflexivity.
Qed.

End LaunchFacts.

Section KernelArguments.

Import Launch.

Lemma handle_args_set rt kernel start (args : list ArgumentWrapper) :
  forall current rest host,
    Forall (fun a => pointer a <> NULL) args ->
    0 <= start -> 0 <= current ->
    start + current + Z.of_nat (length args) < 2 ^ 31 ->
    handle_args rt kernel start current (args ++ rest) host
    = handle_args rt kernel start (current + Z.of_nat (length args)) rest
        (set_args rt kernel (start + current) args host).
Proof.
  induction args as [|a args IH]; intros current rest host Hnn Hs Hc Hov.
  - cbn. rewrite Z.add_0_r. reflexivity.
  - inversion Hnn as [|? ? Ha Hargs]; subst.
    cbn [length] in Hov. rewrite Nat2Z.inj_succ in Hov.
    cbn [app handle_args set_args length]. rewrite Nat2Z.inj_succ.
    destruct (Z.eqb_spec (pointer a) NULL) as [|_]; [contradiction|].
    unfold int_add. rewrite (to_int_id (current + 1)) by (unfold is_int; lia).
    rewrite (to_int_id (start + current)) by (unfold is_int; lia).
    rewrite to_uint_id by (unfold is_uint; lia).
    rewrite IH by (try assumption; lia).
    f_equal; [lia|]. f_equal. lia.
Qed.

Lemma handle_args_defaults rt kernel start current (n : nat) host :
  handle_args rt kernel start current (replicate n no_argument) host = (current, host).
Proof. destruct n; reflexivity. Qed.

Lemma kernel_set_args_value rt kernel start (args : list ArgumentWrapper) host :
  Forall (fun a => pointer a <> NULL) args ->
  0 <= start -> start + Z.of_nat (length args) < 2 ^ 31 ->
  kernel_set_args rt kernel start args host
  = (Z.of_nat (length args), set_args rt kernel start args host).
Proof.
  intros Hnn Hs Hov. unfold kernel_set_args.
  rewrite handle_args_set by (try assumption; lia).
  rewrite handle_args_defaults. rewrite Z.add_0_r. reflexivity.
Qed.

Lemma set_args_app rt kernel (A B : list ArgumentWrapper) :
  forall index host,
    set_args rt kernel index (A ++ B) host
    = set_args rt kernel (index + Z.of_nat (length A)) B (set_args rt kernel index A host).
Proof.
  induction A as [|a A IH]; intros index host.
  - cbn. rewrite Z.add_0_r. reflexivity.
  - cbn [app set_args length]. rewrite IH. rewrite Nat2Z.inj_succ. f_equal. lia.
Qed.

(** X18.  For lists [A] and [B] of arguments that are not null, of at most 33
    arguments together, and a start index that is not negative with [start +
    33 < 2^31]: [kernel_set_args] sets its arguments at consecutive indices
    from the start index and returns their number, so that a call for [A ++ B]
    is the call for [A] followed by the call for [B] at the start index plus
    the number returned; a default-constructed argument ends the list, the
    arguments after it are not set. *)
Theorem kernel_set_args_chains rt kernel start (A B : list ArgumentWrapper) host :
  Forall (fun a => pointer a <> NULL) A ->
  Forall (fun a => pointer a <> NULL) B ->
  (length A + length B <= 33)%nat ->
  0 <= start -> start + 33 < 2 ^ 31 ->
  fst (kernel_set_args rt kernel start A host) = Z.of_nat (length A)
  /\ kernel_set_args rt kernel start (A ++ B) host
     = (Z.of_nat (length A) + Z.of_nat (length B),
        snd (kernel_set_args rt kernel (start + Z.of_nat (length A)) B
               (snd (kernel_set_args rt kernel start A host))))
  /\ (forall rest,
        kernel_set_args rt kernel start (A ++ no_argument :: rest) host
        = kernel_set_args rt kernel start A host).
Proof.
  intros HA HB Hlen Hs Hov.
  rewrite (kernel_set_args_value rt kernel start A host) by (try assumption; lia).
  rewrite (kernel_set_args_value rt kernel start (A ++ B) host);
    [|apply Forall_app; split; assumption | assumption | rewrite length_app; lia].
  cbn [fst snd].
  rewrite (kernel_set_args_value rt kernel (start + Z.of_nat (length A)) B)
    by (try assumption; lia).
  cbn [snd]. split; [reflexivity|]. split.
  - rewrite length_app, Nat2Z.inj_add, set_args_app. reflexivity.
  - intros rest. unfold kernel_set_args.
    rewrite <- !app_assoc.
    rewrite (handle_args_set rt kernel start A 0 ((no_argument :: rest) ++ _))
      by (try assumption; lia).
    cbn [app handle_args pointer no_argument].
    change (NULL =? NULL) with true. cbv iota.
    rewrite Z.add_0_r, Z.add_0_l. reflexivity.
Qed.

Lemma kernel_set_args_chains_witness :
  kernel_set_args Mega.rt 5 3
    [make_ArgumentWrapper 4 100; make_ArgumentWrapper 8 104; make_ArgumentWrapper 4 112]
    Mega.host
  = (1 + 2,
     snd (kernel_set_args Mega.rt 5 (3 + 1)
            [make_ArgumentWrapper 8 104; make_ArgumentWrapper 4 112]
            (snd (kernel_set_args Mega.rt 5 3 [make_ArgumentWrapper 4 100] Mega.host)))).
Proof.
  assert (forall size pointer, pointer <> 0 -> Launch.pointer (make_ArgumentWrapper size pointer) <> NULL)
    as Hptr by (intros size pointer H; exact H).
  exact (proj1 (proj2 (kernel_set_args_chains Mega.rt 5 3
                         [make_ArgumentWrapper 4 100]
                         [make_ArgumentWrapper 8 104; make_ArgumentWrapper 4 112] Mega.host
                         ltac:(repeat constructor; apply Hptr; lia)
                         ltac:(repeat constructor; apply Hptr; lia)
                         ltac:(cbn; lia) ltac:(lia) ltac:(lia)))).
Defined.

End KernelArguments.

Section LaunchLogs.

Import Launch.

Lemma set_texture_args_append dev rt kernel st :
  set_texture_args dev rt kernel st = append_args rt kernel (texture_args dev) st.
Proof.
  unfold set_texture_args, append_args, texture_args.
  generalize (kernel_textures dev). intros names. revert st.
  induction names as [|name names IH]; intros st; [reflexivity|].
  cbn [fold_left map]. rewrite <- IH. f_equal.
Qed.

Lemma calls_opencl_assert rt call host :
  calls (opencl_assert rt call host) = calls host ++ [call].
Proof. unfold opencl_assert. destruct (_ =? _); reflexivity. Qed.

Lemma append_args_calls rt kernel (args : list Arg) :
  forall narg host,
    0 <= narg -> narg + Z.of_nat (length args) < 2 ^ 32 ->
    fst (append_args rt kernel args (narg, host)) = narg + Z.of_nat (length args)
    /\ calls (snd (append_args rt kernel args (narg, host)))
       = calls host ++ arg_calls kernel narg args.
Proof.
  unfold append_args.
  induction args as [|arg args IH]; intros narg host Hn Hov.
  - cbn. rewrite Z.add_0_r, app_nil_r. split; reflexivity.
  - cbn [length] in Hov. rewrite Nat2Z.inj_succ in Hov.
    cbn [fold_left arg_calls length]. rewrite Nat2Z.inj_succ.
    assert (KERNEL_APPEND_ARG rt kernel arg (narg, host)
            = (narg + 1, opencl_assert rt (clSetKernelArg kernel narg arg) host)) as ->.
    { unfold KERNEL_APPEND_ARG. cbn [fst snd]. unfold uint_add.
      rewrite to_uint_id by (unfold is_uint; lia). reflexivity. }
    destruct (IH (narg + 1) (opencl_assert rt (clSetKernelArg kernel narg arg) host)
                ltac:(lia) ltac:(lia)) as (Hfst & Hcalls).
    rewrite Hfst, Hcalls, calls_opencl_assert.
    rewrite <- app_assoc. split; [lia | reflexivity].
Qed.

Lemma append_args_app rt kernel (A B : list Arg) st :
  append_args rt kernel (A ++ B) st = append_args rt kernel B (append_args rt kernel A st).
Proof. unfold append_args. apply fold_left_app. Qed.

(** [path_trace] as one list of arguments and a launch. *)
Lemma path_trace_unfold dev rt rtile sample host :
  path_trace dev rt rtile sample host
  = match d_data dev with
    | None => None
    | Some data =>
        enqueue_kernel rt (ckPathTraceKernel dev) (to_size (w rtile)) (to_size (h rtile))
          (snd (append_args rt (ckPathTraceKernel dev)
                  (path_trace_args dev data rtile sample) (0, host)))
    end.
Proof.
  unfold path_trace. destruct (d_data dev) as [data|]; [|reflexivity].
  cbv zeta. unfold path_trace_args.
  rewrite !append_args_app, set_texture_args_append. reflexivity.
Qed.

Lemma shader_sample_unfold dev rt task data kernel sample st :
  shader_sample dev rt task data kernel sample st
  = match enqueue_kernel rt kernel (to_size (Task.shader_w task)) 1
            (snd (append_args rt kernel (shader_args dev data task sample) st)) with
    | None => None
    | Some host =>
        Some (fst (append_args rt kernel (shader_args dev data task sample) st),
              call_unchecked (update_progress None) host)
    end.
Proof.
  unfold shader_sample. cbv zeta. unfold shader_args.
  rewrite !append_args_app, set_texture_args_append. reflexivity.
Qed.

End LaunchLogs.

Section MegaKernelRun.

Import Launch.

Lemma released_app l1 l2 : released (l1 ++ l2) = released l1 ++ released l2.
Proof. unfold released. apply omap_app. Qed.

Lemma launches_app l1 l2 : launches (l1 ++ l2) = launches l1 + launches l2.
Proof. unfold launches. rewrite List.filter_app, length_app. lia. Qed.

Lemma arg_indices_app l1 l2 : arg_indices (l1 ++ l2) = arg_indices l1 ++ arg_indices l2.
Proof. unfold arg_indices. apply omap_app. Qed.

Lemma released_arg_calls kernel (args : list Arg) :
  forall index, released (arg_calls kernel index args) = [].
Proof. induction args as [|a args IH]; intros index; [reflexivity|]. cbn. apply IH. Qed.

Lemma launches_arg_calls kernel (args : list Arg) :
  forall index, launches (arg_calls kernel index args) = 0.
Proof.
  induction args as [|a args IH]; intros index; [reflexivity|].
  unfold launches in *. cbn. apply IH.
Qed.

Lemma arg_indices_arg_calls kernel (args : list Arg) :
  forall index, arg_indices (arg_calls kernel index args) = seqZ index (Z.of_nat (length args)).
Proof.
  induction args as [|a args IH]; intros index; [reflexivity|].
  cbn [arg_calls length]. rewrite Nat2Z.inj_succ, seqZ_cons by lia.
  unfold arg_indices in *. cbn [omap list_omap]. rewrite IH.
  replace (Z.succ index) with (index + 1) by lia.
  replace (Z.pred (Z.succ (Z.of_nat (length args)))) with (Z.of_nat (length args)) by lia.
  reflexivity.
Qed.

(** The calls [enqueue_kernel] adds for extents within [int]. *)
Lemma enqueue_kernel_calls rt kernel w h host :
  1 <= kernel_work_group_size rt kernel < 2 ^ 31 -> 1 <= max_work_item_size_1 rt ->
  0 <= w -> 0 <= h ->
  w + kernel_work_group_size rt kernel <= 2 ^ 31 ->
  h + kernel_work_group_size rt kernel <= 2 ^ 31 ->
  exists host' gs,
    enqueue_kernel rt kernel (to_size w) (to_size h) host = Some host'
    /\ calls host' = calls host ++ [clEnqueueNDRangeKernel kernel gs None; clFlush].
Proof.
  intros Hwg Hm Hw Hh Hwo Hho. unfold enqueue_kernel.
  rewrite (to_size_id w), (to_size_id h) by (unfold is_size; lia).
  destruct (global_size_value _ _ w h Hwg Hm Hw Hh Hwo Hho)
    as (l0 & l1 & g0 & g1 & _ & -> & _).
  eexists _, _. split; [reflexivity|].
  rewrite !calls_opencl_assert, <- app_assoc. reflexivity.
Qed.

(** X19.  [enqueue_kernel] launches the kernel once, with a global work
    size and with [NULL] as the local work size, and flushes the queue.
    The global size covers [w] x [h]: in each dimension it is a multiple
    of the unit the function computes in its array [local_size] and
    exceeds [w] and [h] by less than that unit.  The units are at least
    1, the second is within the maximum of the device in that dimension
    and their product is within the work-group size of the kernel.  A
    maximum of zero in the second dimension is a division by zero.  The
    work-group size is from 1 to [2^31 - 1], and [w] and [h] are not
    negative and, with the work-group size added, within [2^31]. *)
Theorem enqueue_kernel_global_size_covers rt kernel w h host :
  1 <= kernel_work_group_size rt kernel < 2 ^ 31 -> 1 <= max_work_item_size_1 rt ->
  0 <= w -> 0 <= h ->
  w + kernel_work_group_size rt kernel <= 2 ^ 31 ->
  h + kernel_work_group_size rt kernel <= 2 ^ 31 ->
  exists host' l0 l1 g0 g1,
    enqueue_kernel rt kernel (to_size w) (to_size h) host = Some host'
    /\ calls host' = calls host ++ [clEnqueueNDRangeKernel kernel (g0, g1) None; clFlush]
    /\ local_size (kernel_work_group_size rt kernel) (max_work_item_size_1 rt) = Some (l0, l1)
    /\ 1 <= l0 /\ 1 <= l1 <= max_work_item_size_1 rt
    /\ l0 * l1 <= kernel_work_group_size rt kernel
    /\ w <= g0 < w + l0 /\ h <= g1 < h + l1
    /\ (l0 | g0) /\ (l1 | g1)
    /\ local_size (kernel_work_group_size rt kernel) 0 = None.
Proof.
  intros Hwg Hm Hw Hh Hwo Hho. unfold enqueue_kernel.
  rewrite (to_size_id w), (to_size_id h) by (unfold is_size; lia).
  destruct (global_size_value _ _ w h Hwg Hm Hw Hh Hwo Hho)
    as (l0 & l1 & g0 & g1 & Hl & -> & Hrest).
  eexists _, l0, l1, g0, g1. split; [reflexivity|].
  split; [rewrite !calls_opencl_assert, <- app_assoc; reflexivity|].
  split; [exact Hl | exact Hrest].
Qed.

Lemma enqueue_kernel_global_size_covers_witness :
  exists host' g0 g1,
    enqueue_kernel Mega.rt 5 (to_size 130) (to_size 130) Mega.host = Some host'
    /\ calls host' = [clEnqueueNDRangeKernel 5 (g0, g1) None; clFlush]
    /\ 130 <= g0 < 130 + 256 /\ 130 <= g1 < 130 + 256.
Proof.
  destruct (enqueue_kernel_global_size_covers Mega.rt 5 130 130 Mega.host
              ltac:(cbn; lia) ltac:(cbn; lia) ltac:(lia) ltac:(lia)
              ltac:(cbn; lia) ltac:(cbn; lia))
    as (host' & l0 & l1 & g0 & g1 & Hrun & Hcalls & _ & Hl0 & Hl1 & Hprod & Hg0 & Hg1 & _).
  change (kernel_work_group_size Mega.rt 5) with 256 in Hprod.
  exists host', g0, g1. split; [exact Hrun|]. split; [exact Hcalls|]. nia.
Defined.

Lemma path_trace_calls dev rt rtile sample host data :
  d_data dev = Some data ->
  1 <= kernel_work_group_size rt (ckPathTraceKernel dev) < 2 ^ 31 ->
  1 <= max_work_item_size_1 rt ->
  Z.of_nat (length (kernel_textures dev)) + 10 < 2 ^ 32 ->
  launchable dev rt rtile ->
  exists host' gs,
    path_trace dev rt rtile sample host = Some host'
    /\ calls host'
       = calls host
         ++ arg_calls (ckPathTraceKernel dev) 0 (path_trace_args dev data rtile sample)
         ++ [clEnqueueNDRangeKernel (ckPathTraceKernel dev) gs None; clFlush].
Proof.
  intros Hdata Hwg Hm Htex (Hw & Hh & Hwo & Hho).
  rewrite path_trace_unfold, Hdata.
  destruct (enqueue_kernel_calls rt (ckPathTraceKernel dev) (w rtile) (h rtile)
              (snd (append_args rt (ckPathTraceKernel dev)
                      (path_trace_args dev data rtile sample) (0, host)))
              Hwg Hm Hw Hh Hwo Hho) as (host' & gs & Hrun & Hcalls).
  exists host', gs. split; [exact Hrun|]. rewrite Hcalls.
  destruct (append_args_calls rt (ckPathTraceKernel dev)
              (path_trace_args dev data rtile sample) 0 host ltac:(lia)) as (_ & ->).
  - unfold path_trace_args, texture_args.
    rewrite !length_app, length_map. cbn [length]. lia.
  - rewrite <- app_assoc. reflexivity.
Qed.

Lemma path_trace_effect dev rt rtile sample host data :
  d_data dev = Some data ->
  1 <= kernel_work_group_size rt (ckPathTraceKernel dev) < 2 ^ 31 ->
  1 <= max_work_item_size_1 rt ->
  Z.of_nat (length (kernel_textures dev)) + 10 < 2 ^ 32 ->
  launchable dev rt rtile ->
  exists host',
    path_trace dev rt rtile sample host = Some host'
    /\ released (calls host') = released (calls host)
    /\ launches (calls host') = launches (calls host) + 1.
Proof.
  intros Hdata Hwg Hm Htex Hl.
  destruct (path_trace_calls dev rt rtile sample host data Hdata Hwg Hm Htex Hl)
    as (host' & gs & Hrun & Hcalls).
  exists host'. split; [exact Hrun|]. rewrite Hcalls.
  rewrite !released_app, !launches_app, released_arg_calls, launches_arg_calls.
  change (released [clEnqueueNDRangeKernel (ckPathTraceKernel dev) gs None; clFlush]) with
    (@nil RenderTile).
  change (launches [clEnqueueNDRangeKernel (ckPathTraceKernel dev) gs None; clFlush]) with 1.
  rewrite !app_nil_r. split; [reflexivity | lia].
Qed.

Lemma launchable_set_sample dev rt v t : launchable dev rt t -> launchable dev rt (set_sample v t).
Proof. exact id. Qed.

Lemma set_sample_set_sample v v' t : set_sample v (set_sample v' t) = set_sample v t.
Proof. reflexivity. Qed.

(** The loop over the samples of a tile: the tile it leaves differs from
    [tile] in the sample only; without a cancellation that breaks the
    loop, every sample is traced. *)
Lemma trace_samples_run dev rt need_finish_queue data (count : nat) :
  d_data dev = Some data ->
  1 <= kernel_work_group_size rt (ckPathTraceKernel dev) < 2 ^ 31 ->
  1 <= max_work_item_size_1 rt ->
  Z.of_nat (length (kernel_textures dev)) + 10 < 2 ^ 32 ->
  forall sample tile host,
    launchable dev rt tile ->
    is_int sample -> is_int (sample + Z.of_nat count) ->
    exists tile' host' (traced : nat),
      trace_samples dev rt need_finish_queue count sample tile host = Some (tile', host')
      /\ released (calls host') = released (calls host)
      /\ launches (calls host') = launches (calls host) + Z.of_nat traced
      /\ (traced <= count)%nat
      /\ tile' = (if (0 <? Z.of_nat traced) then set_sample (sample + Z.of_nat traced) tile
                  else tile)
      /\ ((forall cs, get_cancel rt cs = false) \/ need_finish_queue = true ->
          traced = count).
Proof.
  intros Hdata Hwg Hm Htex.
  induction count as [|count IH]; intros sample tile host Hl Hs He.
  - exists tile, host, 0%nat. cbn. repeat split; try reflexivity; lia.
  - cbn [trace_samples].
    destruct (get_cancel rt (calls host) && negb need_finish_queue) eqn:Hcancel.
    + exists tile, host, 0%nat. cbn. split; [reflexivity|]. split; [reflexivity|].
      split; [lia|]. split; [lia|]. split; [reflexivity|].
      intros [Hnever| ->].
      * rewrite Hnever in Hcancel. discriminate Hcancel.
      * rewrite andb_false_r in Hcancel. discriminate Hcancel.
    + destruct (path_trace_effect dev rt tile sample host data Hdata Hwg Hm Htex Hl)
        as (host1 & -> & Hrel1 & Hlaunch1).
      rewrite Nat2Z.inj_succ in He. unfold is_int in *.
      unfold int_add. rewrite (to_int_id (sample + 1)) by (unfold is_int; lia).
      destruct (IH (sample + 1) (set_sample (sample + 1) tile)
                  (call_unchecked (update_progress (Some (set_sample (sample + 1) tile)))
                                  host1)
                  (launchable_set_sample _ _ _ _ Hl) ltac:(lia) ltac:(lia))
        as (tile' & host' & traced & Hrun & Hrel & Hlaunch & Hle & Htile & Hall).
      exists tile', host', (S traced). split; [exact Hrun|].
      cbn [call_unchecked calls] in Hrel, Hlaunch.
      rewrite released_app in Hrel. rewrite launches_app in Hlaunch.
      change (released [update_progress (Some (set_sample (sample + 1) tile))])
        with (@nil RenderTile) in Hrel.
      change (launches [update_progress (Some (set_sample (sample + 1) tile))])
        with 0 in Hlaunch.
      rewrite app_nil_r in Hrel.
      split; [congruence|]. split; [lia|]. split; [lia|]. split.
      * rewrite Htile. rewrite Nat2Z.inj_succ.
        destruct (Z.ltb_spec 0 (Z.of_nat traced)) as [Hpos|Hzero];
          destruct (Z.ltb_spec 0 (Z.succ (Z.of_nat traced))); try lia.
        -- rewrite set_sample_set_sample. f_equal. lia.
        -- f_equal. lia.
      * intros Hnc. rewrite (Hall Hnc). reflexivity.
Qed.

Lemma trace_tile_run dev rt need_finish_queue data tile host :
  d_data dev = Some data ->
  1 <= kernel_work_group_size rt (ckPathTraceKernel dev) < 2 ^ 31 ->
  1 <= max_work_item_size_1 rt ->
  Z.of_nat (length (kernel_textures dev)) + 10 < 2 ^ 32 ->
  launchable dev rt tile -> samples_in_range tile ->
  exists host' (traced : nat),
    trace_tile dev rt need_finish_queue tile host = Some host'
    /\ released (calls host') = released (calls host) ++ [traced_tile traced tile]
    /\ launches (calls host') = launches (calls host) + Z.of_nat traced
    /\ Z.of_nat traced <= Z.max 0 (num_samples tile)
    /\ ((forall cs, get_cancel rt cs = false) \/ need_finish_queue = true ->
        traced = Z.to_nat (num_samples tile)).
Proof.
  intros Hdata Hwg Hm Htex Hl (Hs & He). unfold trace_tile. cbv zeta.
  unfold int_add. rewrite to_int_id by exact He.
  replace (start_sample tile + num_samples tile - start_sample tile)
    with (num_samples tile) by lia.
  destruct (trace_samples_run dev rt need_finish_queue data (Z.to_nat (num_samples tile))
              Hdata Hwg Hm Htex (start_sample tile) tile host Hl Hs)
    as (tile' & host' & traced & -> & Hrel & Hlaunch & Hle & Htile & Hall).
  { unfold is_int in *. lia. }
  exists (call_unchecked (release_tile tile') (call_unchecked clFinish host')), traced.
  split; [reflexivity|]. cbn [call_unchecked calls].
  rewrite !released_app, !launches_app, Hrel, Hlaunch.
  change (released [clFinish]) with (@nil RenderTile).
  change (released [release_tile tile']) with [tile'].
  change (launches [clFinish]) with 0.
  change (launches [release_tile tile']) with 0.
  rewrite app_nil_r. rewrite Htile.
  split; [reflexivity|]. split; [lia|]. split; [lia|]. exact Hall.
Qed.

Lemma trace_tiles_run dev rt need_finish_queue data :
  d_data dev = Some data ->
  1 <= kernel_work_group_size rt (ckPathTraceKernel dev) < 2 ^ 31 ->
  1 <= max_work_item_size_1 rt ->
  Z.of_nat (length (kernel_textures dev)) + 10 < 2 ^ 32 ->
  forall tiles host,
    Forall (launchable dev rt) tiles -> Forall samples_in_range tiles ->
    exists host' (traced : list nat),
      trace_tiles dev rt need_finish_queue tiles host = Some host'
      /\ released (calls host') = released (calls host) ++ zip_with traced_tile traced tiles
      /\ length traced = length tiles
      /\ Forall2 (fun n t => Z.of_nat n <= Z.max 0 (num_samples t)) traced tiles
      /\ launches (calls host') = launches (calls host) + sum_nat traced
      /\ ((forall cs, get_cancel rt cs = false) \/ need_finish_queue = true ->
          traced = map (fun t => Z.to_nat (num_samples t)) tiles).
Proof.
  intros Hdata Hwg Hm Htex.
  induction tiles as [|tile tiles IH]; intros host Hl Hs.
  - exists host, []. cbn. rewrite app_nil_r.
    repeat split; try reflexivity; [constructor | unfold sum_nat; cbn; lia].
  - inversion Hl as [|? ? Hl1 Hl2]; inversion Hs as [|? ? Hs1 Hs2]; subst.
    cbn [trace_tiles].
    destruct (trace_tile_run dev rt need_finish_queue data tile host Hdata Hwg Hm Htex
                Hl1 Hs1) as (host1 & n & -> & Hrel1 & Hlaunch1 & Hle1 & Hall1).
    destruct (IH host1 Hl2 Hs2) as (host' & traced & Hrun & Hrel & Hlen & Hle & Hlaunch & Hall).
    exists host', (n :: traced). split; [exact Hrun|].
    split; [rewrite Hrel, Hrel1, <- app_assoc; reflexivity|].
    split; [cbn; lia|]. split; [constructor; assumption|].
    split; [unfold sum_nat in *; cbn [map fold_right]; lia|].
    intros Hnc. cbn [map]. rewrite (Hall1 Hnc), (Hall Hnc). reflexivity.
Qed.

(** X20.  For a [PATH_TRACE] task on a device whose [d_data] is bound, with a
    work-group size of the path-trace kernel from 1 to [2^31 - 1], a maximum
    of the device of at least 1 in the second dimension, fewer than [2^32 -
    10] textures, tiles whose extents are not negative and within [2^31] with
    the work-group size added, and sample ranges within [int]: the megakernel
    [thread_run] releases every tile it acquires, once and in the order
    acquired, also when the task is cancelled: the tile released has as
    [sample] the end of the part of its samples that was traced, which is
    within its sample range, and one kernel is launched for every sample
    traced. *)
Theorem megakernel_releases_every_tile dev rt task host data :
  Task.type task = PATH_TRACE ->
  d_data dev = Some data ->
  1 <= kernel_work_group_size rt (ckPathTraceKernel dev) < 2 ^ 31 ->
  1 <= max_work_item_size_1 rt ->
  Z.of_nat (length (kernel_textures dev)) + 10 < 2 ^ 32 ->
  Forall (launchable dev rt) (Task.tiles task) ->
  Forall samples_in_range (Task.tiles task) ->
  exists host' (traced : list nat),
    thread_run dev rt task host = Some host'
    /\ released (calls host')
       = released (calls host) ++ zip_with traced_tile traced (Task.tiles task)
    /\ length traced = length (Task.tiles task)
    /\ Forall2 (fun n t => Z.of_nat n <= Z.max 0 (num_samples t)) traced (Task.tiles task)
    /\ launches (calls host') = launches (calls host) + sum_nat traced.
Proof.
  intros Htype Hdata Hwg Hm Htex Hl Hs. unfold thread_run. rewrite Htype.
  destruct (trace_tiles_run dev rt (Task.need_finish_queue task) data Hdata Hwg Hm Htex
              (Task.tiles task) host Hl Hs)
    as (host' & traced & Hrun & Hrel & Hlen & Hle & Hlaunch & _).
  exists host', traced. repeat split; assumption.
Qed.

Lemma megakernel_hypotheses :
  d_data Mega.dev = Some 10
  /\ 1 <= kernel_work_group_size Mega.rt (ckPathTraceKernel Mega.dev) < 2 ^ 31
  /\ 1 <= max_work_item_size_1 Mega.rt
  /\ Z.of_nat (length (kernel_textures Mega.dev)) + 10 < 2 ^ 32
  /\ Forall (launchable Mega.dev Mega.rt) (Task.tiles (Mega.task PATH_TRACE))
  /\ Forall samples_in_range (Task.tiles (Mega.task PATH_TRACE)).
Proof.
  split; [reflexivity|]. split; [cbn; lia|]. split; [cbn; lia|]. split; [cbn; lia|].
  split; repeat constructor; unfold is_int; cbn; lia.
Qed.

Lemma megakernel_releases_every_tile_witness :
  exists host' (traced : list nat),
    thread_run Mega.dev Mega.rt (Mega.task PATH_TRACE) Mega.host = Some host'
    /\ released (calls host') = zip_with traced_tile traced [Mega.tile 2; Mega.tile 3]
    /\ length traced = 2%nat.
Proof.
  destruct megakernel_hypotheses as (Hdata & Hwg & Hm & Htex & Hl & Hs).
  destruct (megakernel_releases_every_tile Mega.dev Mega.rt (Mega.task PATH_TRACE) Mega.host
              10 eq_refl Hdata Hwg Hm Htex Hl Hs)
    as (host' & traced & Hrun & Hrel & Hlen & _).
  exists host', traced. split; [exact Hrun|]. split; [exact Hrel | exact Hlen].
Defined.

(** X21.  For a [PATH_TRACE] task on a device whose [d_data] is bound, with a
    work-group size of the path-trace kernel from 1 to [2^31 - 1], a maximum
    of the device of at least 1 in the second dimension, fewer than [2^32 -
    10] textures, tiles whose extents are not negative and within [2^31] with
    the work-group size added, and sample ranges within [int]: unless a
    cancellation breaks the loop (the task is never cancelled, or
    [need_finish_queue] is set), the megakernel [thread_run] traces every
    sample of every tile: the tiles are released with [sample = start_sample +
    num_samples] and the number of launches is the sum of the sample counts. *)
Theorem megakernel_traces_every_sample dev rt task host data :
  Task.type task = PATH_TRACE ->
  d_data dev = Some data ->
  1 <= kernel_work_group_size rt (ckPathTraceKernel dev) < 2 ^ 31 ->
  1 <= max_work_item_size_1 rt ->
  Z.of_nat (length (kernel_textures dev)) + 10 < 2 ^ 32 ->
  Forall (launchable dev rt) (Task.tiles task) ->
  Forall samples_in_range (Task.tiles task) ->
  (forall cs, get_cancel rt cs = false) \/ Task.need_finish_queue task = true ->
  exists host',
    thread_run dev rt task host = Some host'
    /\ released (calls host')
       = released (calls host) ++ map finished_tile (Task.tiles task)
    /\ launches (calls host')
       = launches (calls host)
         + fold_right Z.add 0 (map (fun t => Z.max 0 (num_samples t)) (Task.tiles task)).
Proof.
  intros Htype Hdata Hwg Hm Htex Hl Hs Hnc. unfold thread_run. rewrite Htype.
  destruct (trace_tiles_run dev rt (Task.need_finish_queue task) data Hdata Hwg Hm Htex
              (Task.tiles task) host Hl Hs)
    as (host' & traced & Hrun & Hrel & _ & _ & Hlaunch & Hall).
  exists host'. split; [exact Hrun|]. rewrite Hrel, Hlaunch, (Hall Hnc). clear.
  assert (zip_with traced_tile (map (fun t => Z.to_nat (num_samples t)) (Task.tiles task))
            (Task.tiles task) = map finished_tile (Task.tiles task)
          /\ sum_nat (map (fun t => Z.to_nat (num_samples t)) (Task.tiles task))
             = fold_right Z.add 0 (map (fun t => Z.max 0 (num_samples t)) (Task.tiles task)))
    as [-> ->]; [|split; reflexivity].
  induction (Task.tiles task) as [|t tiles [IH1 IH2]]; [split; reflexivity|].
  cbn [map zip_with fold_right]. unfold sum_nat in *. cbn [map fold_right].
  rewrite IH1, IH2. split; [|lia]. f_equal.
  unfold traced_tile, finished_tile.
  destruct (Z.ltb_spec 0 (num_samples t)) as [Hpos|Hnpos].
  - destruct (Z.ltb_spec 0 (Z.of_nat (Z.to_nat (num_samples t)))); [|lia].
    rewrite Z2Nat.id by lia. reflexivity.
  - destruct (Z.ltb_spec 0 (Z.of_nat (Z.to_nat (num_samples t)))); [lia|reflexivity].
Qed.

Lemma megakernel_traces_every_sample_witness :
  exists host',
    thread_run Mega.dev Mega.rt (Mega.task PATH_TRACE) Mega.host = Some host'
    /\ released (calls host')
       = [set_sample 2 (Mega.tile 2); set_sample 3 (Mega.tile 3)]
    /\ launches (calls host') = 5.
Proof.
  destruct megakernel_hypotheses as (Hdata & Hwg & Hm & Htex & Hl & Hs).
  destruct (megakernel_traces_every_sample Mega.dev Mega.rt (Mega.task PATH_TRACE) Mega.host
              10 eq_refl Hdata Hwg Hm Htex Hl Hs (or_introl (fun _ => eq_refl)))
    as (host' & Hrun & Hrel & Hlaunch).
  exists host'. split; [exact Hrun|]. split; [exact Hrel | exact Hlaunch].
Defined.

End MegaKernelRun.

Section ShaderRun.

Import Launch.

Lemma shader_args_length dev data task sample :
  Z.of_nat (length (shader_args dev data task sample))
  = Z.of_nat (length (kernel_textures dev)) + 8.
Proof.
  unfold shader_args, texture_args. rewrite !length_app, length_map. cbn [length]. lia.
Qed.

Lemma shader_samples_run dev rt task data kernel (count : nat) :
  (forall cs, get_cancel rt cs = false) ->
  1 <= kernel_work_group_size rt kernel < 2 ^ 31 ->
  1 <= max_work_item_size_1 rt ->
  0 <= Task.shader_w task ->
  Task.shader_w task + kernel_work_group_size rt kernel <= 2 ^ 31 ->
  forall sample narg host,
    0 <= narg ->
    narg + Z.of_nat count * (Z.of_nat (length (kernel_textures dev)) + 8) < 2 ^ 32 ->
    exists host',
      shader_samples dev rt task data kernel count sample (narg, host)
      = Some (narg + Z.of_nat count * (Z.of_nat (length (kernel_textures dev)) + 8), host')
      /\ arg_indices (calls host')
         = arg_indices (calls host)
           ++ seqZ narg (Z.of_nat count * (Z.of_nat (length (kernel_textures dev)) + 8))
      /\ launches (calls host') = launches (calls host) + Z.of_nat count.
Proof.
  intros Hnc Hwg Hm Hw Hwo.
  set (A := Z.of_nat (length (kernel_textures dev)) + 8).
  assert (8 <= A) as HA by (subst A; lia).
  induction count as [|count IH]; intros sample narg host Hn Hov.
  - exists host. cbn [shader_samples]. rewrite Z.mul_0_l, Z.add_0_r.
    split; [reflexivity|]. cbn. rewrite app_nil_r. split; [reflexivity | lia].
  - rewrite Nat2Z.inj_succ in *. cbn [shader_samples snd]. rewrite Hnc.
    rewrite shader_sample_unfold.
    destruct (append_args_calls rt kernel (shader_args dev data task sample) narg host Hn)
      as (Hfst & Hcalls).
    { rewrite shader_args_length. fold A. nia. }
    rewrite shader_args_length in Hfst. fold A in Hfst.
    change 1 with (to_size 1) at 1.
    destruct (enqueue_kernel_calls rt kernel (Task.shader_w task) 1
                (snd (append_args rt kernel (shader_args dev data task sample) (narg, host)))
                Hwg Hm Hw ltac:(lia) Hwo ltac:(lia)) as (host1 & gs & -> & Hcalls1).
    rewrite Hfst.
    destruct (IH (sample + 1) (narg + A) (call_unchecked (update_progress None) host1)
                ltac:(lia) ltac:(nia)) as (host' & Hrun & Hidx & Hlaunch).
    exists host'. split; [rewrite Hrun; f_equal; f_equal; lia|].
    cbn [call_unchecked calls] in Hidx, Hlaunch.
    rewrite Hcalls1, Hcalls in Hidx, Hlaunch.
    rewrite !arg_indices_app, arg_indices_arg_calls, shader_args_length in Hidx.
    rewrite !launches_app, launches_arg_calls in Hlaunch.
    fold A in Hidx.
    change (arg_indices [clEnqueueNDRangeKernel kernel gs None; clFlush]) with (@nil Z) in Hidx.
    change (arg_indices [update_progress None]) with (@nil Z) in Hidx.
    change (launches [clEnqueueNDRangeKernel kernel gs None; clFlush]) with 1 in Hlaunch.
    change (launches [update_progress None]) with 0 in Hlaunch.
    rewrite !app_nil_r in Hidx. split; [|lia].
    rewrite Hidx, <- app_assoc. f_equal.
    replace (Z.succ (Z.of_nat count) * A) with (A + Z.of_nat count * A) by lia.
    rewrite seqZ_app by lia. reflexivity.
Qed.

(** X22.  [shader] does not reset the argument index between the samples: with
    [d_data] bound, work-group sizes from 1 to [2^31 - 1], a maximum of the
    device of at least 1 in the second dimension, [shader_w] not negative and
    within [2^31] with the work-group size added, [num_samples] not negative
    and [num_samples * (8 + textures) < 2^32], over the samples of a task that
    is not cancelled the arguments are set at the indices [0, 1, ...,
    num_samples * (8 + textures) - 1] in order, so only the first sample sets
    the arguments at the indices the first sample used; one kernel is launched
    for every sample. *)
Theorem shader_argument_indices_accumulate dev rt task host data :
  d_data dev = Some data ->
  (forall cs, get_cancel rt cs = false) ->
  (forall kernel, 1 <= kernel_work_group_size rt kernel < 2 ^ 31) ->
  1 <= max_work_item_size_1 rt ->
  0 <= Task.shader_w task ->
  (forall kernel, Task.shader_w task + kernel_work_group_size rt kernel <= 2 ^ 31) ->
  0 <= Task.num_samples task ->
  Task.num_samples task * (Z.of_nat (length (kernel_textures dev)) + 8) < 2 ^ 32 ->
  exists host',
    shader dev rt task host = Some host'
    /\ arg_indices (calls host')
       = arg_indices (calls host)
         ++ seqZ 0 (Task.num_samples task * (Z.of_nat (length (kernel_textures dev)) + 8))
    /\ launches (calls host') = launches (calls host) + Task.num_samples task.
Proof.
  intros Hdata Hnc Hwg Hm Hw Hwo Hn Hov. unfold shader. rewrite Hdata. cbv zeta.
  set (kernel := if SHADER_EVAL_BAKE dev <=? Task.shader_eval_type task
                 then ckBakeKernel dev else ckShaderKernel dev).
  destruct (shader_samples_run dev rt task data kernel (Z.to_nat (Task.num_samples task))
              Hnc (Hwg kernel) Hm Hw (Hwo kernel) 0 0 host ltac:(lia))
    as (host' & -> & Hidx & Hlaunch).
  { rewrite Z2Nat.id by lia. lia. }
  exists host'. cbn [snd]. rewrite Z2Nat.id in * by lia.
  split; [reflexivity|]. split; assumption.
Qed.

Lemma shader_argument_indices_accumulate_witness :
  exists host',
    shader Mega.dev Mega.rt (Mega.task SHADER) Mega.host = Some host'
    /\ arg_indices (calls host') = seqZ 0 30
    /\ launches (calls host') = 3.
Proof.
  destruct (shader_argument_indices_accumulate Mega.dev Mega.rt (Mega.task SHADER) Mega.host
              10 eq_refl (fun _ => eq_refl)
              ltac:(intros kernel; cbn; lia) ltac:(cbn; lia) ltac:(cbn; lia)
              ltac:(intros kernel; cbn; lia) ltac:(cbn; lia) ltac:(cbn; lia))
    as (host' & Hrun & Hidx & Hlaunch).
  exists host'. split; [exact Hrun|]. split; [exact Hidx | exact Hlaunch].
Defined.

End ShaderRun.

(** ** Device memory *)

Section DeviceMemory.

Import Launch.

Lemma find_place {V : Type} key (value : V) (m : StdMap.t V) :
  StdMap.find key m = None -> StdMap.find key (StdMap.place key value m) = Some value.
Proof.
  induction m as [|[key' value'] m IH]; cbn [StdMap.find StdMap.place].
  - intros _. rewrite String.eqb_refl. reflexivity.
  - destruct (String.eqb key key') eqn:He; [discriminate|]. intros Hm.
    destruct (String.ltb key key'); cbn [StdMap.find].
    + rewrite String.eqb_refl. reflexivity.
    + rewrite He. apply IH. exact Hm.
Qed.

Lemma find_place_ne {V : Type} key key' (value : V) (m : StdMap.t V) :
  key' <> key -> StdMap.find key' (StdMap.place key value m) = StdMap.find key' m.
Proof.
  intros Hne. induction m as [|[k v] m IH]; cbn [StdMap.find StdMap.place].
  - destruct (String.eqb_spec key' key); [contradiction | reflexivity].
  - destruct (String.ltb key k); cbn [StdMap.find].
    + destruct (String.eqb_spec key' key); [contradiction | reflexivity].
    + rewrite IH. reflexivity.
Qed.

Lemma erase_place {V : Type} key (value : V) (m : StdMap.t V) :
  StdMap.find key m = None -> StdMap.erase key (StdMap.place key value m) = m.
Proof.
  induction m as [|[key' value'] m IH]; cbn [StdMap.find StdMap.place StdMap.erase].
  - intros _. rewrite String.eqb_refl. reflexivity.
  - destruct (String.eqb key key') eqn:He; [discriminate|]. intros Hm.
    destruct (String.ltb key key'); cbn [StdMap.erase].
    + rewrite String.eqb_refl. reflexivity.
    + rewrite He, IH by exact Hm. reflexivity.
Qed.

Lemma first_with_value_place pointer key (m : StdMap.t Z) :
  first_with_value pointer m = None ->
  first_with_value pointer (StdMap.place key pointer m) = Some key.
Proof.
  induction m as [|[key' value'] m IH]; cbn [first_with_value StdMap.place].
  - intros _. rewrite Z.eqb_refl. reflexivity.
  - destruct (value' =? pointer) eqn:Hv; [discriminate|]. intros Hm.
    destruct (String.ltb key key'); cbn [first_with_value].
    + rewrite Z.eqb_refl. reflexivity.
    + rewrite Hv. apply IH. exact Hm.
Qed.

Lemma find_assign {V : Type} key (value old : V) (m : StdMap.t V) :
  StdMap.find key m = Some old -> StdMap.find key (StdMap.assign key value m) = Some value.
Proof.
  induction m as [|[key' value'] m IH]; cbn [StdMap.find StdMap.assign]; [discriminate|].
  destruct (String.eqb key key') eqn:He; cbn [StdMap.find]; rewrite He; [reflexivity|].
  exact IH.
Qed.

Lemma find_assign_ne {V : Type} key key' (value : V) (m : StdMap.t V) :
  key' <> key -> StdMap.find key' (StdMap.assign key value m) = StdMap.find key' m.
Proof.
  intros Hne. induction m as [|[k v] m IH]; cbn [StdMap.find StdMap.assign]; [reflexivity|].
  destruct (String.eqb_spec key k) as [->|Hk]; cbn [StdMap.find].
  - destruct (String.eqb_spec key' k); [contradiction | reflexivity].
  - rewrite IH. reflexivity.
Qed.

Lemma stats_mem_used_app l1 l2 :
  stats_mem_used (l1 ++ l2) = stats_mem_used l1 + stats_mem_used l2.
Proof.
  induction l1 as [|c l1 IH]; [reflexivity|].
  cbn [app]. unfold stats_mem_used in *. cbn [fold_right]. rewrite IH.
  destruct c; lia.
Qed.

Lemma buffers_created_app l1 l2 :
  buffers_created (l1 ++ l2) = buffers_created l1 + buffers_created l2.
Proof. unfold buffers_created. rewrite List.filter_app, length_app. lia. Qed.

Lemma buffers_released_app l1 l2 :
  buffers_released (l1 ++ l2) = buffers_released l1 ++ buffers_released l2.
Proof. unfold buffers_released. apply omap_app. Qed.

(** [mem_alloc] where the creation passes. *)
Lemma mem_alloc_run rt NDEBUG mem host :
  creation_passes rt NDEBUG (memory_size mem) host ->
  exists host',
    mem_alloc rt NDEBUG mem MEM_READ_ONLY host
    = Some (make_device_memory (memory_size mem)
              (created_buffer rt (calls host) CL_MEM_READ_ONLY (memory_size mem))
              (memory_size mem), host')
    /\ calls host'
       = calls host ++ [clCreateBuffer CL_MEM_READ_ONLY (memory_size mem);
                        stats_mem_alloc (memory_size mem)].
Proof.
  intros Hpass. unfold mem_alloc, opencl_assert_err. cbv zeta. cbn [ciErr calls].
  destruct (Z.eqb_spec (status rt (calls host)
                          (clCreateBuffer CL_MEM_READ_ONLY (memory_size mem))) CL_SUCCESS)
    as [Hok|Hfail].
  - eexists. split; [reflexivity|]. cbn [call_unchecked calls].
    rewrite <- app_assoc. reflexivity.
  - destruct Hpass as [->|Hok]; [|contradiction].
    eexists. split; [reflexivity|]. cbn [call_unchecked calls].
    rewrite <- app_assoc. reflexivity.
Qed.

(** [mem_free] of memory that has a buffer. *)
Lemma mem_free_run rt mem host :
  device_pointer mem <> 0 ->
  exists host',
    mem_free rt mem host = (make_device_memory (memory_size mem) 0 0, host')
    /\ calls host'
       = calls host ++ [clReleaseMemObject (device_pointer mem);
                        stats_mem_free (device_size mem)].
Proof.
  intros Hptr. unfold mem_free.
  destruct (Z.eqb_spec (device_pointer mem) 0) as [|_]; [contradiction|]. cbn [negb].
  eexists. split; [reflexivity|]. cbn [call_unchecked calls].
  rewrite calls_opencl_assert, <- app_assoc. reflexivity.
Qed.

(** X23.  [mem_alloc] followed by [mem_free], when the creation of the buffer
    passes (the build has [NDEBUG] or [clCreateBuffer] succeeds) and the
    buffer is not null: the bytes reported to [stats] as allocated are
    reported as freed, the buffer released is the one created,
    [device_pointer] and [device_size] are zero afterwards, and a second
    [mem_free] does nothing. *)
Theorem mem_alloc_mem_free_balance rt NDEBUG mem host :
  creation_passes rt NDEBUG (memory_size mem) host ->
  created_buffer rt (calls host) CL_MEM_READ_ONLY (memory_size mem) <> 0 ->
  exists mem1 host1 mem2 host2,
    mem_alloc rt NDEBUG mem MEM_READ_ONLY host = Some (mem1, host1)
    /\ mem_free rt mem1 host1 = (mem2, host2)
    /\ device_pointer mem2 = 0 /\ device_size mem2 = 0
    /\ stats_mem_used (calls host1) = stats_mem_used (calls host) + memory_size mem
    /\ stats_mem_used (calls host2) = stats_mem_used (calls host)
    /\ buffers_released (calls host2)
       = buffers_released (calls host)
         ++ [created_buffer rt (calls host) CL_MEM_READ_ONLY (memory_size mem)]
    /\ mem_free rt mem2 host2 = (mem2, host2).
Proof.
  intros Hpass Hptr.
  destruct (mem_alloc_run rt NDEBUG mem host Hpass) as (host1 & Halloc & Hcalls1).
  destruct (mem_free_run rt
              (make_device_memory (memory_size mem)
                 (created_buffer rt (calls host) CL_MEM_READ_ONLY (memory_size mem))
                 (memory_size mem)) host1 Hptr) as (host2 & Hfree & Hcalls2).
  cbn [device_pointer device_size memory_size] in Hfree, Hcalls2.
  eexists _, host1, _, host2. split; [exact Halloc|]. split; [exact Hfree|].
  split; [reflexivity|]. split; [reflexivity|].
  rewrite Hcalls2, Hcalls1.
  rewrite !stats_mem_used_app, !buffers_released_app.
  cbn [stats_mem_used buffers_released fold_right omap list_omap].
  rewrite app_nil_r.
  split; [lia|]. split; [lia|]. split; [reflexivity|]. reflexivity.
Qed.

Lemma mem_alloc_mem_free_balance_witness :
  exists mem1 host1 mem2 host2,
    mem_alloc Mega.rt false Mega.texture MEM_READ_ONLY Mega.host = Some (mem1, host1)
    /\ mem_free Mega.rt mem1 host1 = (mem2, host2)
    /\ stats_mem_used (calls host1) = 4096
    /\ stats_mem_used (calls host2) = 0
    /\ buffers_released (calls host2) = [1000].
Proof.
  destruct (mem_alloc_mem_free_balance Mega.rt false Mega.texture Mega.host
              (or_intror eq_refl) ltac:(cbn; lia))
    as (mem1 & host1 & mem2 & host2 & Halloc & Hfree & _ & _ & Hused & Hbalance & Hrel & _).
  exists mem1, host1, mem2, host2.
  split; [exact Halloc|]. split; [exact Hfree|]. split; [exact Hused|].
  split; [exact Hbalance | exact Hrel].
Defined.

(** X24.  In a build with [NDEBUG], a [mem_alloc] whose buffer is not created (a
    null pointer) still reports the size to [stats] and sets
    [device_size]; [mem_free] of that memory does nothing, so the bytes
    stay counted. *)
Theorem failed_allocation_stays_counted rt mem host :
  created_buffer rt (calls host) CL_MEM_READ_ONLY (memory_size mem) = 0 ->
  exists mem1 host1,
    mem_alloc rt true mem MEM_READ_ONLY host = Some (mem1, host1)
    /\ device_pointer mem1 = 0
    /\ device_size mem1 = memory_size mem
    /\ stats_mem_used (calls host1) = stats_mem_used (calls host) + memory_size mem
    /\ mem_free rt mem1 host1 = (mem1, host1).
Proof.
  intros Hptr.
  destruct (mem_alloc_run rt true mem host (or_introl eq_refl)) as (host1 & Halloc & Hcalls1).
  rewrite Hptr in Halloc.
  eexists _, host1. split; [exact Halloc|]. split; [reflexivity|]. split; [reflexivity|].
  rewrite Hcalls1, stats_mem_used_app. cbn [stats_mem_used fold_right].
  split; [lia | reflexivity].
Qed.

Lemma failed_allocation_stays_counted_witness :
  exists mem1 host1,
    mem_alloc Mega.rt_out_of_memory true Mega.texture MEM_READ_ONLY Mega.host
    = Some (mem1, host1)
    /\ stats_mem_used (calls host1) = 4096
    /\ mem_free Mega.rt_out_of_memory mem1 host1 = (mem1, host1).
Proof.
  destruct (failed_allocation_stays_counted Mega.rt_out_of_memory Mega.texture Mega.host
              eq_refl) as (mem1 & host1 & Halloc & _ & _ & Hused & Hfree).
  exists mem1, host1. split; [exact Halloc|]. split; [exact Hused | exact Hfree].
Defined.

(** X25.  [tex_alloc] under a name that is not bound, with a new buffer that
    is not null and whose creation passes (the build has [NDEBUG] or
    [clCreateBuffer] succeeds), binds the name to the buffer and leaves the
    other names as they are; [tex_free] of the same memory gives back the
    [mem_map] from before, releases the buffer and leaves the bytes counted by
    [stats] as before [tex_alloc]. *)
Theorem tex_alloc_tex_free_round_trip rt NDEBUG name mem (mem_map : StdMap.t Z) host :
  creation_passes rt NDEBUG (memory_size mem) host ->
  created_buffer rt (calls host) CL_MEM_READ_ONLY (memory_size mem) <> 0 ->
  StdMap.find name mem_map = None ->
  first_with_value (created_buffer rt (calls host) CL_MEM_READ_ONLY (memory_size mem))
                   mem_map = None ->
  exists mem1 mem_map1 host1 mem2 host2,
    tex_alloc rt NDEBUG name mem mem_map host = Some (mem1, mem_map1, host1)
    /\ StdMap.find name mem_map1
       = Some (created_buffer rt (calls host) CL_MEM_READ_ONLY (memory_size mem))
    /\ (forall name', name' <> name -> StdMap.find name' mem_map1 = StdMap.find name' mem_map)
    /\ tex_free rt mem1 mem_map1 host1 = (mem2, mem_map, host2)
    /\ device_pointer mem2 = 0
    /\ stats_mem_used (calls host2) = stats_mem_used (calls host)
    /\ buffers_released (calls host2)
       = buffers_released (calls host)
         ++ [created_buffer rt (calls host) CL_MEM_READ_ONLY (memory_size mem)].
Proof.
  intros Hpass Hptr Hname Hfresh.
  destruct (mem_alloc_run rt NDEBUG mem host Hpass) as (host0 & Halloc & Hcalls0).
  set (ptr := created_buffer rt (calls host) CL_MEM_READ_ONLY (memory_size mem)) in *.
  set (mem1 := make_device_memory (memory_size mem) ptr (memory_size mem)) in *.
  destruct (mem_free_run rt mem1 (mem_copy_to rt mem1 host0) Hptr) as (host2 & Hfree & Hcalls2).
  exists mem1, (StdMap.place name ptr mem_map), (mem_copy_to rt mem1 host0), 
    (make_device_memory (memory_size mem) 0 0), host2.
  split.
  { unfold tex_alloc. rewrite Halloc, Hname. rewrite andb_false_r.
    unfold StdMap.insert. rewrite Hname. reflexivity. }
  split; [apply find_place; exact Hname|].
  split; [intros name' Hne; apply find_place_ne; exact Hne|].
  split.
  { unfold tex_free. cbn [device_pointer mem1].
    destruct (Z.eqb_spec ptr 0) as [|_]; [contradiction|]. cbn [negb].
    rewrite first_with_value_place by exact Hfresh.
    rewrite erase_place by exact Hname.
    fold mem1. rewrite Hfree. reflexivity. }
  split; [reflexivity|].
  rewrite Hcalls2. unfold mem_copy_to. rewrite calls_opencl_assert, Hcalls0.
  rewrite !stats_mem_used_app, !buffers_released_app.
  cbn [stats_mem_used buffers_released fold_right omap list_omap device_pointer device_size
       memory_size mem1].
  rewrite !app_nil_r. split; [lia | reflexivity].
Qed.

Lemma tex_alloc_tex_free_round_trip_witness :
  exists mem1 mem_map1 host1 mem2 host2,
    tex_alloc Mega.rt false "__tri_woop" Mega.texture (mem_map Mega.dev) Mega.host
    = Some (mem1, mem_map1, host1)
    /\ StdMap.find "__tri_woop" mem_map1 = Some 1000
    /\ tex_free Mega.rt mem1 mem_map1 host1 = (mem2, mem_map Mega.dev, host2)
    /\ stats_mem_used (calls host2) = 0.
Proof.
  destruct (tex_alloc_tex_free_round_trip Mega.rt false "__tri_woop" Mega.texture
              (mem_map Mega.dev) Mega.host (or_intror eq_refl) ltac:(cbn; lia)
              eq_refl eq_refl)
    as (mem1 & mem_map1 & host1 & mem2 & host2 & Halloc & Hfind & _ & Hfree & _ & Hused & _).
  exists mem1, mem_map1, host1, mem2, host2.
  split; [exact Halloc|]. split; [exact Hfind|]. split; [exact Hfree | exact Hused].
Defined.

(** X26.  [tex_alloc] under a name that is bound already: without [NDEBUG] it
    does not return (the assertion fails, or the creation of the buffer
    does); with [NDEBUG] a buffer is created and [mem_map] is unchanged,
    the name keeps its old buffer. *)
Theorem tex_alloc_keeps_bound_name rt name mem (mem_map : StdMap.t Z) host old :
  StdMap.find name mem_map = Some old ->
  tex_alloc rt false name mem mem_map host = None
  /\ exists mem1 host1,
       tex_alloc rt true name mem mem_map host = Some (mem1, mem_map, host1)
       /\ device_pointer mem1
          = created_buffer rt (calls host) CL_MEM_READ_ONLY (memory_size mem)
       /\ buffers_created (calls host1) = buffers_created (calls host) + 1.
Proof.
  intros Hname. split.
  - unfold tex_alloc. destruct (mem_alloc rt false mem MEM_READ_ONLY host) as [[m h]|];
      [|reflexivity].
    rewrite Hname. reflexivity.
  - destruct (mem_alloc_run rt true mem host (or_introl eq_refl)) as (host0 & Halloc & Hcalls0).
    eexists _, _. split.
    { unfold tex_alloc. rewrite Halloc. cbn [negb andb]. unfold StdMap.insert.
      rewrite Hname. reflexivity. }
    split; [reflexivity|].
    unfold mem_copy_to. rewrite calls_opencl_assert, Hcalls0.
    rewrite !buffers_created_app. unfold buffers_created. cbn. lia.
Qed.

Lemma tex_alloc_keeps_bound_name_witness :
  tex_alloc Mega.rt false "__bvh_nodes" Mega.texture (mem_map Mega.dev) Mega.host = None
  /\ exists mem1 host1,
       tex_alloc Mega.rt true "__bvh_nodes" Mega.texture (mem_map Mega.dev) Mega.host
       = Some (mem1, mem_map Mega.dev, host1)
       /\ device_pointer mem1 = 1000.
Proof.
  destruct (tex_alloc_keeps_bound_name Mega.rt "__bvh_nodes" Mega.texture
              (mem_map Mega.dev) Mega.host 11 eq_refl)
    as (Hdebug & mem1 & host1 & Hrelease & Hptr & _).
  split; [exact Hdebug|]. exists mem1, host1. split; [exact Hrelease | exact Hptr].
Defined.

(** X27.  [const_copy_to] creates a buffer only the first time a name is used:
    when the creation of the first buffer passes (the build has [NDEBUG] or
    [clCreateBuffer] succeeds), a second copy under the same name, of whatever
    size, writes that many bytes to the buffer created for the first size, and
    [device_size] stays the first size. *)
Theorem const_copy_to_reuses_buffer rt NDEBUG name size1 size2
    (const_mem_map : StdMap.t device_memory) host :
  creation_passes rt NDEBUG size1 host ->
  StdMap.find name const_mem_map = None ->
  exists const_mem_map1 host1 const_mem_map2 host2,
    const_copy_to rt NDEBUG name size1 const_mem_map host = Some (const_mem_map1, host1)
    /\ StdMap.find name const_mem_map1
       = Some (make_device_memory size1
                 (created_buffer rt (calls host) CL_MEM_READ_ONLY size1) size1)
    /\ const_copy_to rt NDEBUG name size2 const_mem_map1 host1
       = Some (const_mem_map2, host2)
    /\ StdMap.find name const_mem_map2
       = Some (make_device_memory size2
                 (created_buffer rt (calls host) CL_MEM_READ_ONLY size1) size1)
    /\ calls host2
       = calls host1
         ++ [clEnqueueWriteBuffer (created_buffer rt (calls host) CL_MEM_READ_ONLY size1)
                                  size2]
    /\ buffers_created (calls host2) = buffers_created (calls host) + 1.
Proof.
  intros Hpass Hname.
  destruct (mem_alloc_run rt NDEBUG (make_device_memory size1 0 0) host Hpass)
    as (host0 & Halloc & Hcalls0).
  cbn [memory_size] in Halloc, Hcalls0.
  set (ptr := created_buffer rt (calls host) CL_MEM_READ_ONLY size1) in *.
  set (data := make_device_memory size1 ptr size1) in *.
  assert (const_copy_to rt NDEBUG name size1 const_mem_map host
          = Some (StdMap.place name data const_mem_map, mem_copy_to rt data host0)) as Hfirst.
  { unfold const_copy_to. rewrite Hname. cbv zeta. rewrite Halloc.
    unfold StdMap.insert. rewrite Hname. reflexivity. }
  pose proof (find_place name data const_mem_map Hname) as Hfound.
  eexists _, _, _, _. split; [exact Hfirst|]. split; [exact Hfound|].
  split.
  { unfold const_copy_to. rewrite Hfound. cbv zeta. reflexivity. }
  split; [eapply find_assign; exact Hfound|].
  cbn [device_pointer device_size data].
  unfold mem_copy_to. rewrite !calls_opencl_assert. cbn [memory_size device_pointer].
  split; [reflexivity|].
  rewrite Hcalls0, !buffers_created_app. unfold buffers_created. cbn. lia.
Qed.

Lemma const_copy_to_reuses_buffer_witness :
  exists const_mem_map1 host1 const_mem_map2 host2,
    const_copy_to Mega.rt false "__object_flag" 64 (const_mem_map Mega.dev) Mega.host
    = Some (const_mem_map1, host1)
    /\ const_copy_to Mega.rt false "__object_flag" 128 const_mem_map1 host1
       = Some (const_mem_map2, host2)
    /\ StdMap.find "__object_flag" const_mem_map2 = Some (make_device_memory 128 1000 64)
    /\ calls host2 = calls host1 ++ [clEnqueueWriteBuffer 1000 128].
Proof.
  destruct (const_copy_to_reuses_buffer Mega.rt false "__object_flag" 64 128
              (const_mem_map Mega.dev) Mega.host (or_intror eq_refl) eq_refl)
    as (m1 & host1 & m2 & host2 & Hfirst & _ & Hsecond & Hfind & Hcalls & _).
  exists m1, host1, m2, host2.
  split; [exact Hfirst|]. split; [exact Hsecond|]. split; [exact Hfind | exact Hcalls].
Defined.

End DeviceMemory.

(** ** The numbers of the devices *)

Section DeviceNumbers.

Import Enumerate.

Lemma count_value {A : Type} (l : list A) :
  Z.of_nat (length l) < 2 ^ 31 -> count l = Z.of_nat (length l).
Proof. intros H. unfold count. apply to_uint_id. unfold is_uint. lia. Qed.

Lemma add_count_value x c :
  0 <= x -> 0 <= c -> x + c < 2 ^ 31 -> add_count x c = x + c.
Proof.
  intros Hx Hc H. unfold add_count, uint_add.
  rewrite (to_uint_id x) by (unfold is_uint; lia).
  rewrite to_uint_id by (unfold is_uint; lia).
  apply to_int_id. unfold is_int. lia.
Qed.

Lemma platform_devices_cons ty p ps :
  platform_devices ty (p :: ps)
  = map (pair p) (device_ids p ty) ++ platform_devices ty ps.
Proof. reflexivity. Qed.

Lemma platform_devices_length ty p ps :
  Z.of_nat (length (platform_devices ty (p :: ps)))
  = Z.of_nat (length (device_ids p ty)) + Z.of_nat (length (platform_devices ty ps)).
Proof. rewrite platform_devices_cons, length_app, length_map. lia. Qed.

Lemma platform_devices_elem ty ps p d :
  (p, d) ∈ platform_devices ty ps -> p ∈ ps /\ d ∈ device_ids p ty.
Proof.
  induction ps as [|q ps IH]; [intros H; inversion H|].
  rewrite platform_devices_cons. intros [H|H]%elem_of_app.
  - apply list_elem_of_fmap in H as (d' & [= -> ->] & Hd).
    split; [left | exact Hd].
  - destruct (IH H) as [Hp Hd]. split; [right; exact Hp | exact Hd].
Qed.

(** The devices the inner loop adds. *)
Lemma add_devices_elem pname num_base (ids : list ClDevice) info :
  forall num devices,
    0 <= num_base -> 0 <= num ->
    num_base + num + Z.of_nat (length ids) < 2 ^ 31 ->
    info ∈ add_devices pname num_base ids num devices
    <-> info ∈ devices
        \/ exists (k : nat) d,
             ids !! k = Some d /\ device_name_status d = Builder.CL_SUCCESS
             /\ info = make_DeviceInfo DEVICE_OPENCL (device_name d) (num_base + num + Z.of_nat k)
                         (device_id_string (num_base + num + Z.of_nat k)) true
                         (opencl_kernel_use_advanced_shading pname) true.
Proof.
  induction ids as [|d ids IH]; intros num devices Hb Hn Hov.
  - cbn [add_devices]. split; [intros H; left; exact H|].
    intros [H|(k & d & Hk & _)]; [exact H | discriminate Hk].
  - cbn [length] in Hov. rewrite Nat2Z.inj_succ in Hov.
    cbn [add_devices]. unfold int_add.
    rewrite (to_int_id (num + 1)), (to_int_id (num_base + num)) by (unfold is_int; lia).
    destruct (Z.eqb_spec (device_name_status d) Builder.CL_SUCCESS) as [Hok|Hfail];
      cbn [negb]; rewrite IH by lia; clear IH.
    + rewrite elem_of_app, list_elem_of_singleton. split.
      * intros [[H|H]|(k & d' & Hk & Hs & Hi)].
        -- left; exact H.
        -- right. exists 0%nat, d. split; [reflexivity|]. split; [exact Hok|].
           rewrite Z.add_0_r. exact H.
        -- right. exists (S k), d'. split; [exact Hk|]. split; [exact Hs|].
           rewrite Nat2Z.inj_succ.
           replace (num_base + num + Z.succ (Z.of_nat k))
             with (num_base + (num + 1) + Z.of_nat k) by lia. exact Hi.
      * intros [H|(k & d' & Hk & Hs & Hi)]; [left; left; exact H|].
        destruct k as [|k].
        -- injection Hk as <-. left. right. rewrite Z.add_0_r in Hi. exact Hi.
        -- right. exists k, d'. split; [exact Hk|]. split; [exact Hs|].
           rewrite Nat2Z.inj_succ in Hi.
           replace (num_base + (num + 1) + Z.of_nat k)
             with (num_base + num + Z.succ (Z.of_nat k)) by lia. exact Hi.
    + split.
      * intros [H|(k & d' & Hk & Hs & Hi)]; [left; exact H|].
        right. exists (S k), d'. split; [exact Hk|]. split; [exact Hs|].
        rewrite Nat2Z.inj_succ.
        replace (num_base + num + Z.succ (Z.of_nat k))
          with (num_base + (num + 1) + Z.of_nat k) by lia. exact Hi.
      * intros [H|(k & d' & Hk & Hs & Hi)]; [left; exact H|].
        destruct k as [|k].
        -- injection Hk as <-. contradiction.
        -- right. exists k, d'. split; [exact Hk|]. split; [exact Hs|].
           rewrite Nat2Z.inj_succ in Hi.
           replace (num_base + (num + 1) + Z.of_nat k)
             with (num_base + num + Z.succ (Z.of_nat k)) by lia. exact Hi.
Qed.

(** The devices the loop over the platforms adds. *)
Lemma info_loop_elem ty (ps : list ClPlatform) :
  forall num_base devices,
    Forall (platform_answers ty) ps ->
    Forall (fun p => device_ids p ty <> [] -> platform_name_status p = Builder.CL_SUCCESS)
           ps ->
    0 <= num_base ->
    num_base + Z.of_nat (length (platform_devices ty ps)) < 2 ^ 31 ->
    exists listed,
      info_loop ty ps num_base devices = Some listed
      /\ forall info,
           info ∈ listed
           <-> info ∈ devices
               \/ exists (n : nat) p d,
                    platform_devices ty ps !! n = Some (p, d)
                    /\ device_name_status d = Builder.CL_SUCCESS
                    /\ info = device_info (num_base + Z.of_nat n) p d.
Proof.
  induction ps as [|p ps IH]; intros num_base devices Hans Hnames Hb Hov.
  - exists devices. split; [reflexivity|]. intros info. split; [intros H; left; exact H|].
    intros [H|(n & p & d & Hn & _)]; [exact H | discriminate Hn].
  - inversion Hans as [|? ? [Hc Hi] Hans']; subst.
    inversion Hnames as [|? ? Hname Hnames']; subst.
    rewrite platform_devices_length in Hov.
    cbn [info_loop]. rewrite Hc, Hi. rewrite Z.eqb_refl. cbn [negb orb]. cbv zeta.
    rewrite count_value by lia.
    rewrite add_count_value by lia.
    assert (exists devices',
              (if Z.of_nat (length (device_ids p ty)) =? 0 then Some devices
               else if negb (platform_name_status p =? Builder.CL_SUCCESS) then None
                    else Some (add_devices (platform_name p) num_base (device_ids p ty) 0
                                           devices))
              = Some devices'
              /\ forall info,
                   info ∈ devices'
                   <-> info ∈ devices
                       \/ exists (k : nat) d,
                            device_ids p ty !! k = Some d
                            /\ device_name_status d = Builder.CL_SUCCESS
                            /\ info = device_info (num_base + Z.of_nat k) p d)
      as (devices' & -> & Hdev).
    { destruct (Z.eqb_spec (Z.of_nat (length (device_ids p ty))) 0) as [Hz|Hnz].
      - exists devices. split; [reflexivity|]. intros info.
        split; [intros H; left; exact H|].
        intros [H|(k & d & Hk & _)]; [exact H|].
        apply lookup_lt_Some in Hk. lia.
      - rewrite Hname by (intros Hnil; rewrite Hnil in Hnz; apply Hnz; reflexivity).
        rewrite Z.eqb_refl. cbn [negb].
        eexists. split; [reflexivity|]. intros info.
        rewrite add_devices_elem by lia. rewrite Z.add_0_r. reflexivity. }
    destruct (IH (num_base + Z.of_nat (length (device_ids p ty))) devices' Hans' Hnames'
                ltac:(lia) ltac:(lia)) as (listed & Hrun & Hlisted).
    exists listed. split; [exact Hrun|]. intros info.
    rewrite Hlisted, Hdev. clear IH Hrun Hlisted Hdev.
    rewrite platform_devices_cons.
    split.
    + intros [[H|(k & d & Hk & Hs & Hinfo)]|(n & q & d & Hn & Hs & Hinfo)].
      * left; exact H.
      * right. exists k, p, d. split; [|split; assumption].
        rewrite lookup_app_l by (rewrite length_map; eapply lookup_lt_Some; exact Hk).
        rewrite list_lookup_fmap, Hk. reflexivity.
      * right. exists (length (device_ids p ty) + n)%nat, q, d.
        split; [|split; [exact Hs|]].
        -- rewrite lookup_app_r by (rewrite length_map; lia).
           rewrite length_map. replace (_ + n - _)%nat with n by lia. exact Hn.
        -- rewrite Nat2Z.inj_add, Z.add_assoc. exact Hinfo.
    + intros [H|(n & q & d & Hn & Hs & Hinfo)]; [left; left; exact H|].
      destruct (Nat.lt_ge_cases n (length (device_ids p ty))) as [Hlt|Hge].
      * rewrite lookup_app_l in Hn by (rewrite length_map; exact Hlt).
        rewrite list_lookup_fmap in Hn.
        destruct (device_ids p ty !! n) as [d'|] eqn:Hd; [|discriminate Hn].
        injection Hn as Hq Hd'. subst q d'. left. right. exists n, d. repeat split; assumption.
      * rewrite lookup_app_r in Hn by (rewrite length_map; exact Hge).
        rewrite length_map in Hn. right.
        exists (n - length (device_ids p ty))%nat, q, d.
        split; [exact Hn|]. split; [exact Hs|].
        rewrite Nat2Z.inj_sub by exact Hge.
        replace (num_base + Z.of_nat (length (device_ids p ty))
                 + (Z.of_nat n - Z.of_nat (length (device_ids p ty))))
          with (num_base + Z.of_nat n) by lia. exact Hinfo.
Qed.

Lemma index_value num_base (n : Z) :
  0 <= num_base -> 0 <= n -> num_base + n < 2 ^ 31 ->
  to_uint (int_sub (num_base + n) num_base) = n.
Proof.
  intros Hb Hn Hov. unfold int_sub.
  replace (num_base + n - num_base) with n by lia.
  rewrite to_int_id by (unfold is_int; lia).
  apply to_uint_id. unfold is_uint. lia.
Qed.

(** The loop of [get_platform_and_devicetype] at the number of a listed
    device. *)
Lemma detect_loop_found ty (ps : list ClPlatform) :
  forall num_base total_devices (n : nat) p d s t,
    Forall (platform_answers ty) ps ->
    0 <= num_base -> 0 <= total_devices ->
    num_base + Z.of_nat (length (platform_devices ty ps)) < 2 ^ 31 ->
    total_devices + Z.of_nat (length (platform_devices ty ps)) < 2 ^ 31 ->
    platform_devices ty ps !! n = Some (p, d) ->
    platform_name_status p = Builder.CL_SUCCESS ->
    device_type_status d = Builder.CL_SUCCESS ->
    exists total_devices',
      0 < total_devices'
      /\ detect_loop ty (num_base + Z.of_nat n) ps num_base total_devices s t
         = loop_left total_devices' (platform_name p) (Some (device_type d)).
Proof.
  induction ps as [|q ps IH]; intros num_base td n p d s t Hans Hb Ht Hov Hovt Hn Hname Htype.
  - discriminate Hn.
  - inversion Hans as [|? ? [Hc Hi] Hans']; subst.
    rewrite platform_devices_length in Hov, Hovt.
    rewrite platform_devices_cons in Hn.
    cbn [detect_loop]. rewrite Hc, Hi, Z.eqb_refl. cbn [negb]. cbv zeta.
    rewrite count_value by lia. rewrite !add_count_value by lia.
    pose proof (lookup_lt_Some _ _ _ Hn) as Hlen.
    rewrite length_app, length_map in Hlen.
    change (length (concat (map (fun p => map (pair p) (device_ids p ty)) ps)))
      with (length (platform_devices ty ps)) in Hlen.
    rewrite index_value by lia.
    destruct (Z.leb_spec (Z.of_nat (length (device_ids q ty))) (Z.of_nat n)) as [Hge|Hlt].
    + rewrite lookup_app_r in Hn by (rewrite length_map; lia).
      rewrite length_map in Hn.
      destruct (IH (num_base + Z.of_nat (length (device_ids q ty)))
                  (td + Z.of_nat (length (device_ids q ty)))
                  (n - length (device_ids q ty))%nat p d s t Hans'
                  ltac:(lia) ltac:(lia) ltac:(lia) ltac:(lia) Hn Hname Htype)
        as (td' & Hpos & Hrun).
      exists td'. split; [exact Hpos|]. rewrite <- Hrun. f_equal.
      rewrite Nat2Z.inj_sub by lia. lia.
    + rewrite lookup_app_l in Hn by (rewrite length_map; lia).
      rewrite list_lookup_fmap in Hn. rewrite Nat2Z.id.
      destruct (device_ids q ty !! n) as [d'|] eqn:Hd; [|discriminate Hn].
      injection Hn as Hq Hd'. subst q d'.
      rewrite Hname, Htype, Z.eqb_refl. cbn [negb].
      exists (td + Z.of_nat (length (device_ids p ty))). split; [lia | reflexivity].
Qed.

(** The loop at a number past the last device: it runs to its end and
    assigns neither [platform_name] nor [device_type]. *)
Lemma detect_loop_past_end ty (ps : list ClPlatform) :
  forall num_base total_devices (n : Z) s t,
    Forall (platform_answers ty) ps ->
    0 <= num_base -> 0 <= total_devices ->
    total_devices + Z.of_nat (length (platform_devices ty ps)) < 2 ^ 31 ->
    Z.of_nat (length (platform_devices ty ps)) <= n ->
    num_base + n < 2 ^ 31 ->
    detect_loop ty (num_base + n) ps num_base total_devices s t
    = loop_left (total_devices + Z.of_nat (length (platform_devices ty ps))) s t.
Proof.
  induction ps as [|q ps IH]; intros num_base td n s t Hans Hb Ht Hovt Hn Hov.
  - cbn. rewrite Z.add_0_r. reflexivity.
  - inversion Hans as [|? ? [Hc Hi] Hans']; subst.
    rewrite platform_devices_length in *.
    cbn [detect_loop]. rewrite Hc, Z.eqb_refl. cbn [negb]. cbv zeta.
    rewrite count_value by lia. rewrite !add_count_value by lia.
    rewrite index_value by lia.
    destruct (Z.leb_spec (Z.of_nat (length (device_ids q ty))) n) as [_|Hlt]; [|lia].
    replace (num_base + n)
      with (num_base + Z.of_nat (length (device_ids q ty))
            + (n - Z.of_nat (length (device_ids q ty)))) by lia.
    rewrite IH by (try assumption; lia). f_equal. lia.
Qed.

(** Whatever the runtime answers, the loop assigns [platform_name] and
    [device_type] together, from a device of one of the platforms, or
    not at all. *)
Lemma detect_loop_assigns ty info_num (ps : list ClPlatform) :
  forall num_base total_devices s t,
    match detect_loop ty info_num ps num_base total_devices s t with
    | loop_return _ _ => True
    | loop_left _ s' t' =>
        (s' = s /\ t' = t)
        \/ exists p d, p ∈ ps /\ d ∈ device_ids p ty
                       /\ s' = platform_name p /\ t' = Some (device_type d)
    end.
Proof.
  induction ps as [|q ps IH]; intros num_base td s t.
  - cbn. left. split; reflexivity.
  - cbn [detect_loop]. cbv zeta.
    destruct (negb (device_count_status q ty =? Builder.CL_SUCCESS)); [exact I|].
    destruct (count (device_ids q ty) <=? to_uint (int_sub info_num num_base)).
    + specialize (IH (add_count num_base (count (device_ids q ty)))
                     (add_count td (count (device_ids q ty))) s t).
      destruct (detect_loop _ _ _ _ _ _ _) as [m s0|td' s' t']; [exact I|].
      destruct IH as [H|(p & d & Hp & Hd & Hs & Ht)]; [left; exact H|].
      right. exists p, d. split; [right; exact Hp|]. repeat split; assumption.
    + destruct (negb (device_ids_status q ty =? Builder.CL_SUCCESS)); [exact I|].
      destruct (device_ids q ty !! Z.to_nat (to_uint (int_sub info_num num_base)))
        as [d|] eqn:Hd; [|left; split; reflexivity].
      destruct (negb (platform_name_status q =? Builder.CL_SUCCESS)); [exact I|].
      destruct (negb (device_type_status d =? Builder.CL_SUCCESS)); [exact I|].
      right. exists q, d. split; [left|].
      split; [eapply list_elem_of_lookup_2; exact Hd|]. split; reflexivity.
Qed.

Lemma count_platforms_nonzero (rt : Runtime) :
  Z.of_nat (length (platforms rt)) < 2 ^ 32 -> platforms rt <> [] ->
  (count (platforms rt) =? 0) = false.
Proof.
  intros Hlt Hne. unfold count. rewrite to_uint_id by (unfold is_uint; lia).
  destruct (platforms rt); [contradiction|]. cbn [length]. apply Z.eqb_neq. lia.
Qed.

Lemma listed_devices_platforms rt n pd :
  listed_devices rt !! n = Some pd -> platforms rt <> [].
Proof. unfold listed_devices. destruct (platforms rt); [discriminate | discriminate]. Qed.

(** X28.  When the calls of the runtime that count and list the platforms
    and their devices succeed and there are fewer than 2^31 devices:
    if the query for the name of every platform that has devices succeeds
    as well, [device_opencl_info] returns the entries of the devices whose
    name can be read, each numbered by its position in the list of the
    devices of all platforms, with [advanced_shading] decided by the name
    of its platform; and [get_platform_and_devicetype] maps the number of
    a device whose platform name and type can be read back to that name
    and type. *)
Theorem device_numbers_round_trip rt :
  runtime_answers rt ->
  Z.of_nat (length (listed_devices rt)) < 2 ^ 31 ->
  (platform_names_answer rt ->
   exists devices,
     device_opencl_info rt [] = Some devices
     /\ forall info,
          info ∈ devices
          <-> exists (n : nat) p d,
                listed_devices rt !! n = Some (p, d)
                /\ device_name_status d = Builder.CL_SUCCESS
                /\ info = device_info (Z.of_nat n) p d)
  /\ (forall (n : nat) p d platform_name device_type,
        listed_devices rt !! n = Some (p, d) ->
        platform_name_status p = Builder.CL_SUCCESS ->
        device_type_status d = Builder.CL_SUCCESS ->
        get_platform_and_devicetype rt (Z.of_nat n) platform_name device_type
        = make_Detection true (Enumerate.platform_name p) (Some (Enumerate.device_type d)) []).
Proof.
  intros (Hpc & Hpi & Hans & Hnp) Hov. split.
  - intros Hnames. unfold device_opencl_info. rewrite Hpc, Hpi, Z.eqb_refl. cbn [negb orb].
    destruct (decide (platforms rt = [])) as [Hps|Hps].
    + rewrite Hps. exists []. split; [reflexivity|]. intros info.
      split; [intros H; inversion H|].
      intros (n & p & d & Hn & _). unfold listed_devices in Hn. rewrite Hps in Hn.
      discriminate Hn.
    + rewrite count_platforms_nonzero by assumption.
      cbv zeta. unfold listed_devices in *.
      destruct (info_loop_elem _ (platforms rt) 0 [] Hans Hnames ltac:(lia) ltac:(lia))
        as (devices & Hrun & Hdevices).
      exists devices. split; [exact Hrun|]. intros info. rewrite Hdevices.
      split.
      * intros [H|H]; [inversion H | exact H].
      * intros H. right. exact H.
  - intros n p d s t Hn Hname Htype. unfold get_platform_and_devicetype.
    rewrite Hpc, Hpi, Z.eqb_refl. cbn [negb].
    rewrite count_platforms_nonzero
      by (try assumption; eapply listed_devices_platforms; exact Hn).
    cbv zeta.
    destruct (detect_loop_found _ (platforms rt) 0 0 n p d s t Hans
                ltac:(lia) ltac:(lia) ltac:(unfold listed_devices in Hov; lia)
                ltac:(unfold listed_devices in Hov; lia) Hn Hname Htype)
      as (td & Hpos & Hrun).
    rewrite Z.add_0_l in Hrun. rewrite Hrun.
    destruct (Z.eqb_spec td 0) as [|_]; [lia | reflexivity].
Qed.

Lemma two_platforms_answer : runtime_answers TwoPlatforms.rt.
Proof.
  split; [reflexivity|]. split; [reflexivity|].
  split; [repeat constructor | cbn; lia].
Qed.

Lemma device_numbers_round_trip_witness :
  (exists devices,
     device_opencl_info TwoPlatforms.rt [] = Some devices
     /\ device_info 2 TwoPlatforms.amd TwoPlatforms.opteron ∈ devices)
  /\ get_platform_and_devicetype TwoPlatforms.rt 2 EmptyString None
     = make_Detection true "AMD Accelerated Parallel Processing" (Some CL_DEVICE_TYPE_CPU) [].
Proof.
  destruct (device_numbers_round_trip TwoPlatforms.rt two_platforms_answer
              ltac:(cbn; lia)) as (Hinfo & Hdetect).
  split.
  - destruct (Hinfo ltac:(repeat constructor)) as (devices & Hrun & Hdevices).
    exists devices. split; [exact Hrun|].
    apply Hdevices. exists 2%nat, TwoPlatforms.amd, TwoPlatforms.opteron.
    repeat split; reflexivity.
  - exact (Hdetect 2%nat TwoPlatforms.amd TwoPlatforms.opteron EmptyString None
             eq_refl eq_refl eq_refl).
Defined.

(** X29.  [device_opencl_create] always decides, it does not read [device_type]
    before it is assigned; it constructs the split kernel device only if
    [CYCLES_OPENCL_SPLIT_KERNEL_TEST] is set or a platform named AMD
    Accelerated Parallel Processing has a GPU device. *)
Theorem device_opencl_create_choice rt info_num :
  exists class,
    device_opencl_create rt info_num = Some class
    /\ (class = OpenCLDeviceSplitKernel ->
        CYCLES_OPENCL_SPLIT_KERNEL_TEST rt <> None
        \/ exists p d,
             p ∈ platforms rt
             /\ d ∈ device_ids p (opencl_device_type (CYCLES_OPENCL_TEST rt))
             /\ platform_name p = "AMD Accelerated Parallel Processing"%string
             /\ device_type d = CL_DEVICE_TYPE_GPU).
Proof.
  unfold device_opencl_create, get_platform_and_devicetype.
  destruct (negb (platform_count_status rt =? Builder.CL_SUCCESS));
    [eexists; split; [reflexivity | discriminate]|].
  destruct (count (platforms rt) =? 0); [eexists; split; [reflexivity | discriminate]|].
  destruct (negb (platform_ids_status rt =? Builder.CL_SUCCESS));
    [eexists; split; [reflexivity | discriminate]|].
  cbv zeta.
  pose proof (detect_loop_assigns (opencl_device_type (CYCLES_OPENCL_TEST rt)) info_num
                (platforms rt) 0 0 EmptyString None) as Hinv.
  destruct (detect_loop _ _ _ _ _ _ _) as [m|td s' t'];
    [eexists; split; [reflexivity | discriminate]|].
  destruct (td =? 0); [eexists; split; [reflexivity | discriminate]|].
  cbn [detected detected_platform_name detected_device_type].
  destruct (CYCLES_OPENCL_SPLIT_KERNEL_TEST rt) as [v|];
    [eexists; split; [reflexivity | intros _; left; discriminate]|].
  destruct (String.eqb_spec s' "AMD Accelerated Parallel Processing") as [Hamd|Hother];
    [|eexists; split; [reflexivity | discriminate]].
  destruct Hinv as [[Hs _]|(p & d & Hp & Hd & Hs & Ht)].
  - rewrite Hamd in Hs. discriminate Hs.
  - rewrite Ht. destruct (Z.eqb_spec (device_type d) CL_DEVICE_TYPE_GPU) as [Hgpu|Hno];
      [|eexists; split; [reflexivity | discriminate]].
    eexists. split; [reflexivity|]. intros _. right. exists p, d.
    repeat split; try assumption. congruence.
Qed.

Lemma device_opencl_create_choice_witness :
  exists class, device_opencl_create TwoPlatforms.rt 1 = Some class.
Proof.
  destruct (device_opencl_create_choice TwoPlatforms.rt 1) as (class & Hrun & _).
  exists class. exact Hrun.
Defined.

(** X30.  When the calls of the runtime that count and list the platforms and
    their devices succeed and there are devices, fewer than 2^31: for a number
    past the last device and below 2^31, [get_platform_and_devicetype] returns
    true and leaves [platform_name] and [device_type] as they were;
    [device_opencl_create] then constructs the megakernel device unless the
    split kernel is forced. *)
Theorem device_number_past_end_is_detected rt info_num platform_name device_type :
  runtime_answers rt ->
  0 < Z.of_nat (length (listed_devices rt)) < 2 ^ 31 ->
  Z.of_nat (length (listed_devices rt)) <= info_num < 2 ^ 31 ->
  get_platform_and_devicetype rt info_num platform_name device_type
  = make_Detection true platform_name device_type []
  /\ device_opencl_create rt info_num
     = Some (match CYCLES_OPENCL_SPLIT_KERNEL_TEST rt with
             | Some _ => OpenCLDeviceSplitKernel
             | None => OpenCLDeviceMegaKernel
             end).
Proof.
  intros (Hpc & Hpi & Hans & Hnp) Hlen Hnum.
  assert (platforms rt <> []) as Hne.
  { unfold listed_devices in Hlen. destruct (platforms rt); [cbn in Hlen; lia | discriminate]. }
  assert (forall s t, get_platform_and_devicetype rt info_num s t = make_Detection true s t [])
    as Hdetect.
  { intros s t. unfold get_platform_and_devicetype.
    rewrite Hpc, Hpi, Z.eqb_refl. cbn [negb].
    rewrite count_platforms_nonzero by assumption. cbv zeta.
    pose proof (detect_loop_past_end _ (platforms rt) 0 0 info_num s t Hans
                  ltac:(lia) ltac:(lia) ltac:(unfold listed_devices in Hlen; lia)
                  ltac:(unfold listed_devices in Hnum; lia) ltac:(lia)) as Hrun.
    rewrite Z.add_0_l in Hrun. rewrite Hrun.
    unfold listed_devices in Hlen.
    destruct (Z.eqb_spec (0 + Z.of_nat (length (platform_devices
                (opencl_device_type (CYCLES_OPENCL_TEST rt)) (platforms rt)))) 0);
      [lia | reflexivity]. }
  split; [apply Hdetect|].
  unfold device_opencl_create. rewrite Hdetect.
  cbn [detected detected_platform_name detected_device_type].
  destruct (CYCLES_OPENCL_SPLIT_KERNEL_TEST rt); reflexivity.
Qed.

Lemma device_number_past_end_is_detected_witness :
  get_platform_and_devicetype TwoPlatforms.rt 7 EmptyString None
  = make_Detection true EmptyString None []
  /\ device_opencl_create TwoPlatforms.rt 7 = Some OpenCLDeviceMegaKernel.
Proof.
  exact (device_number_past_end_is_detected TwoPlatforms.rt 7 EmptyString None
           two_platforms_answer ltac:(cbn; lia) ltac:(cbn; lia)).
Defined.

End DeviceNumbers.
